(** * apt-cache-proxy: the fetch-and-cache engine of [services/cache_manager.py]

    A shallow embedding of the cache manager (blacklist matcher, path mapper,
    validity check, single-file deletion, mirror failover with the caching
    generator, index search) and of the part of [utils/config.py] it reads,
    followed by the properties of the specification stated on that embedding.

    Conventions.
    - A Python [str] is a [string]: the sequence of bytes of its UTF-8
      encoding.  [lower] and [strip] below are those of ASCII text: they
      agree with [str.lower] and [str.strip] on every text for which
      [isascii] holds, and a property that needs this agreement says so.
    - Timestamps and durations are integers (microseconds, the resolution of
      [datetime] and [timedelta]).
    - A Python exception is an explicit result: [option], or a dedicated
      result type where the class of the exception matters. *)

From Stdlib Require Import ZArith Ascii String List Lia Bool.
From stdpp Require Import gmap strings list pretty.

Open Scope string_scope.

(* ===================================================================== *)
(** ** Python string primitives *)
(* ===================================================================== *)

Module Py.

(** [s.isascii()]. *)
Fixpoint isascii (s : string) : bool :=
  match s with
  | EmptyString => true
  | String c s' => (nat_of_ascii c <? 128)%nat && isascii s'
  end.

(** [c.lower()] on one ASCII character. *)
Definition lower_ascii (c : ascii) : ascii :=
  let n := nat_of_ascii c in
  if (65 <=? n)%nat && (n <=? 90)%nat then ascii_of_nat (n + 32) else c.

(** [s.lower()] for an ASCII [s]: the letters A to Z are folded, every
    other byte is kept. *)
Fixpoint lower (s : string) : string :=
  match s with
  | EmptyString => EmptyString
  | String c s' => String (lower_ascii c) (lower s')
  end.

(** [s.startswith(p)]. *)
Fixpoint startswith (s p : string) : bool :=
  match p, s with
  | EmptyString, _ => true
  | String _ _, EmptyString => false
  | String a p', String b s' => Ascii.eqb a b && startswith s' p'
  end.

(** [needle in hay] on strings: substring containment. *)
Fixpoint contains (needle hay : string) : bool :=
  startswith hay needle ||
  match hay with
  | EmptyString => false
  | String _ hay' => contains needle hay'
  end.

(** [c in s] for a one-character string [c]. *)
Fixpoint has_char (c : ascii) (s : string) : bool :=
  match s with
  | EmptyString => false
  | String d s' => Ascii.eqb c d || has_char c s'
  end.

(** [s.replace(c, new)] for a one-character string [c]. *)
Fixpoint replace (c : ascii) (new : string) (s : string) : string :=
  match s with
  | EmptyString => EmptyString
  | String d s' =>
      if Ascii.eqb c d then new ++ replace c new s'
      else String d (replace c new s')
  end.

(** [x in l] on a list of strings. *)
Fixpoint list_in (x : string) (l : list string) : bool :=
  match l with
  | [] => false
  | y :: l' => String.eqb x y || list_in x l'
  end.

(** [l.remove(x)], called only when [x in l]: the first occurrence goes. *)
Fixpoint list_remove (x : string) (l : list string) : list string :=
  match l with
  | [] => []
  | y :: l' => if String.eqb x y then l' else y :: list_remove x l'
  end.

(** [s.split(sep)] for a one-character [sep]: the accumulator [cur] holds
    the field being read. *)
Fixpoint split_acc (sep : ascii) (cur : string) (s : string) : list string :=
  match s with
  | EmptyString => [cur]
  | String c s' =>
      if Ascii.eqb c sep then cur :: split_acc sep EmptyString s'
      else split_acc sep (cur ++ String c EmptyString) s'
  end.

Definition split (sep : ascii) (s : string) : list string :=
  split_acc sep EmptyString s.

(** [s.split(sep, 1)]: at most one cut, at the first [sep]. *)
Fixpoint split1_acc (sep : ascii) (cur : string) (s : string) : list string :=
  match s with
  | EmptyString => [cur]
  | String c s' =>
      if Ascii.eqb c sep then [cur; s']
      else split1_acc sep (cur ++ String c EmptyString) s'
  end.

Definition split1 (sep : ascii) (s : string) : list string :=
  split1_acc sep EmptyString s.

(** [sep.join(l)]. *)
Fixpoint join (sep : string) (l : list string) : string :=
  match l with
  | [] => EmptyString
  | [x] => x
  | x :: l' => x ++ sep ++ join sep l'
  end.

(** [s[:n]]. *)
Fixpoint take (n : nat) (s : string) : string :=
  match n, s with
  | S n', String c s' => String c (take n' s')
  | _, _ => EmptyString
  end.

(** [s.endswith(p)]. *)
Definition endswith (s p : string) : bool :=
  let ls := String.length s in
  let lp := String.length p in
  (lp <=? ls)%nat && String.eqb (substring (ls - lp) lp s) p.

End Py.

(* ===================================================================== *)
(** ** Blacklist matcher *)
(* ===================================================================== *)

(** *** The fragment of [re] reached by ordinary glob patterns

    [is_blacklisted] turns a pattern holding a star into a regular
    expression by two textual replacements and hands it to [re.search] with
    [re.IGNORECASE].  For a pattern free of other regex metacharacters the
    resulting expression is a sequence of literal characters, escaped dots
    and [.*]; that fragment is interpreted here.  Every other expression is
    delegated to [re_search_other], the rest of Python's [re] module, whose
    answer [None] stands for [re.error]. *)

Inductive re_item : Type :=
  | ReLit (c : ascii)   (* a literal character, or an escaped dot *)
  | ReAnyStar.          (* dot star: any run of characters other than newline *)

Definition re_special (c : ascii) : bool :=
  Py.has_char c "\^$.|?*+()[]{}".

Fixpoint re_parse (r : string) : option (list re_item) :=
  match r with
  | EmptyString => Some []
  | String "\"%char (String "."%char r') =>
      option_map (cons (ReLit "."%char)) (re_parse r')
  | String "."%char (String "*"%char r') =>
      option_map (cons ReAnyStar) (re_parse r')
  | String c r' =>
      if re_special c then None
      else option_map (cons (ReLit c)) (re_parse r')
  end.

Definition newline : ascii := ascii_of_nat 10.

(** The expression matches a prefix of the text. *)
Fixpoint re_match_here (re : list re_item) : string -> bool :=
  match re with
  | [] => fun _ => true
  | ReLit c :: re' => fun s =>
      match s with
      | EmptyString => false
      | String d s' =>
          Ascii.eqb (Py.lower_ascii c) (Py.lower_ascii d) && re_match_here re' s'
      end
  | ReAnyStar :: re' =>
      fix star (s : string) : bool :=
        re_match_here re' s ||
        match s with
        | EmptyString => false
        | String d s' => negb (Ascii.eqb d newline) && star s'
        end
  end.

(** [re.search]: the expression matches at some position of the text. *)
Fixpoint re_search_items (re : list re_item) (s : string) : bool :=
  re_match_here re s ||
  match s with
  | EmptyString => false
  | String _ s' => re_search_items re s'
  end.

Section Blacklist.

(** [re.search(regex, text, re.IGNORECASE)] outside the fragment above. *)
Variable re_search_other : string -> string -> option bool.

Definition re_search (regex text : string) : option bool :=
  match re_parse regex with
  | Some items => Some (re_search_items items text)
  | None => re_search_other regex text
  end.

(** [pattern.replace('.', '\.').replace('*', '.*')]. *)
Definition glob_to_regex (pattern : string) : string :=
  Py.replace "*"%char ".*" (Py.replace "."%char "\." pattern).

(** The body of the loop of [is_blacklisted] for one pattern: [true] is
    the early [return True]; an exception of [re.search] is swallowed. *)
Definition pattern_matches (pattern filename : string) : bool :=
  if Py.has_char "*"%char pattern then
    match re_search (glob_to_regex pattern) filename with
    | Some b => b
    | None => false
    end
  else Py.contains (Py.lower pattern) (Py.lower filename).

(** [is_blacklisted(filename)], with the global [BLACKLIST_PATTERNS] as an
    argument. *)
Fixpoint is_blacklisted (BLACKLIST_PATTERNS : list string) (filename : string) : bool :=
  match BLACKLIST_PATTERNS with
  | [] => false
  | pattern :: rest =>
      if pattern_matches pattern filename then true
      else is_blacklisted rest filename
  end.

End Blacklist.

(** Outcome of the database block of the two mutators ([services.database]
    is an external collaborator): it completes or raises. *)
Inductive db_outcome : Type := DbDone | DbRaises.

(** [add_blacklist_pattern(pattern)]: the new [BLACKLIST_PATTERNS] and the
    returned flag. *)
Definition add_blacklist_pattern (db : db_outcome) (pattern : string)
    (BLACKLIST_PATTERNS : list string) : list string * bool :=
  match db with
  | DbRaises => (BLACKLIST_PATTERNS, false)
  | DbDone =>
      (if negb (Py.list_in pattern BLACKLIST_PATTERNS)
       then (BLACKLIST_PATTERNS ++ [pattern])%list
       else BLACKLIST_PATTERNS, true)
  end.

(** [remove_blacklist_pattern(pattern)]. *)
Definition remove_blacklist_pattern (db : db_outcome) (pattern : string)
    (BLACKLIST_PATTERNS : list string) : list string * bool :=
  match db with
  | DbRaises => (BLACKLIST_PATTERNS, false)
  | DbDone =>
      (if Py.list_in pattern BLACKLIST_PATTERNS
       then Py.list_remove pattern BLACKLIST_PATTERNS
       else BLACKLIST_PATTERNS, true)
  end.

Definition get_blacklist_patterns (BLACKLIST_PATTERNS : list string) : list string :=
  BLACKLIST_PATTERNS.

(* ===================================================================== *)
(** ** [hashlib.md5]: the MD5 message digest (RFC 1321) *)
(* ===================================================================== *)

Module MD5.

Local Open Scope Z_scope.

(** 32-bit words are integers in [0, 2^32); every operation wraps. *)
Definition w32 (x : Z) : Z := x mod 2 ^ 32.
Definition add32 (x y : Z) : Z := w32 (x + y).
Definition not32 (x : Z) : Z := Z.lxor x 0xffffffff.
Definition rotl32 (x n : Z) : Z :=
  w32 (Z.lor (Z.shiftl x n) (Z.shiftr x (32 - n))).

Definition F (x y z : Z) : Z := Z.lor (Z.land x y) (Z.land (not32 x) z).
Definition G (x y z : Z) : Z := Z.lor (Z.land x z) (Z.land y (not32 z)).
Definition H (x y z : Z) : Z := Z.lxor (Z.lxor x y) z.
Definition I (x y z : Z) : Z := Z.lxor y (Z.lor x (not32 z)).

(** The sine table: [floor (2^32 * abs (sin (i + 1)))]. *)
Definition T : list Z :=
  [0xd76aa478; 0xe8c7b756; 0x242070db; 0xc1bdceee;
   0xf57c0faf; 0x4787c62a; 0xa8304613; 0xfd469501;
   0x698098d8; 0x8b44f7af; 0xffff5bb1; 0x895cd7be;
   0x6b901122; 0xfd987193; 0xa679438e; 0x49b40821;
   0xf61e2562; 0xc040b340; 0x265e5a51; 0xe9b6c7aa;
   0xd62f105d; 0x02441453; 0xd8a1e681; 0xe7d3fbc8;
   0x21e1cde6; 0xc33707d6; 0xf4d50d87; 0x455a14ed;
   0xa9e3e905; 0xfcefa3f8; 0x676f02d9; 0x8d2a4c8a;
   0xfffa3942; 0x8771f681; 0x6d9d6122; 0xfde5380c;
   0xa4beea44; 0x4bdecfa9; 0xf6bb4b60; 0xbebfbc70;
   0x289b7ec6; 0xeaa127fa; 0xd4ef3085; 0x04881d05;
   0xd9d4d039; 0xe6db99e5; 0x1fa27cf8; 0xc4ac5665;
   0xf4292244; 0x432aff97; 0xab9423a7; 0xfc93a039;
   0x655b59c3; 0x8f0ccc92; 0xffeff47d; 0x85845dd1;
   0x6fa87e4f; 0xfe2ce6e0; 0xa3014314; 0x4e0811a1;
   0xf7537e82; 0xbd3af235; 0x2ad7d2bb; 0xeb86d391].

(** Per-round rotation amounts. *)
Definition shifts : list Z :=
  [7; 12; 17; 22; 7; 12; 17; 22; 7; 12; 17; 22; 7; 12; 17; 22;
   5; 9; 14; 20; 5; 9; 14; 20; 5; 9; 14; 20; 5; 9; 14; 20;
   4; 11; 16; 23; 4; 11; 16; 23; 4; 11; 16; 23; 4; 11; 16; 23;
   6; 10; 15; 21; 6; 10; 15; 21; 6; 10; 15; 21; 6; 10; 15; 21].

Record state : Type := mkState { sa : Z; sb : Z; sc : Z; sd : Z }.

Definition init : state :=
  mkState 0x67452301 0xefcdab89 0x98badcfe 0x10325476.

(** One of the 64 operations on the block [M] of sixteen words. *)
Definition step (M : list Z) (st : state) (i : nat) : state :=
  let '(mkState a b c d) := st in
  let iz := Z.of_nat i in
  let '(f, g) :=
    if iz <? 16 then (F b c d, iz)
    else if iz <? 32 then (G b c d, (5 * iz + 1) mod 16)
    else if iz <? 48 then (H b c d, (3 * iz + 5) mod 16)
    else (I b c d, (7 * iz) mod 16) in
  let f' := add32 (add32 (add32 f a) (nth i T 0)) (nth (Z.to_nat g) M 0) in
  mkState d (add32 b (rotl32 f' (nth i shifts 0))) b c.

Definition process_block (st : state) (M : list Z) : state :=
  let st' := fold_left (step M) (seq 0 64) st in
  mkState (add32 (sa st) (sa st')) (add32 (sb st) (sb st'))
          (add32 (sc st) (sc st')) (add32 (sd st) (sd st')).

(** Little-endian packing of bytes into words and back. *)
Fixpoint words_of_bytes (n : nat) (bs : list Z) : list Z :=
  match n with
  | O => []
  | S n' =>
      let b i := nth i bs 0 in
      (b 0%nat + 256 * b 1%nat + 65536 * b 2%nat + 16777216 * b 3%nat)
        :: words_of_bytes n' (skipn 4 bs)
  end.

Definition bytes_of_word (nbytes : nat) (w : Z) : list Z :=
  map (fun i => (w / 256 ^ Z.of_nat i) mod 256) (seq 0 nbytes).

(** Padding: one [0x80], zeros up to 56 modulo 64, the bit length on
    eight bytes. *)
Definition pad (msg : list Z) : list Z :=
  let len := Z.of_nat (length msg) in
  let zeros := Z.to_nat ((55 - len) mod 64) in
  (msg ++ [0x80] ++ repeat 0 zeros ++ bytes_of_word 8 ((8 * len) mod 2 ^ 64))%list.

Fixpoint blocks (n : nat) (bs : list Z) : list (list Z) :=
  match n with
  | O => []
  | S n' => words_of_bytes 16 (firstn 64 bs) :: blocks n' (skipn 64 bs)
  end.

Definition digest_state (msg : list Z) : state :=
  let p := pad msg in
  fold_left process_block (blocks (length p / 64) p) init.

Definition digest (msg : list Z) : list Z :=
  let st := digest_state msg in
  flat_map (bytes_of_word 4) [sa st; sb st; sc st; sd st].

Definition hexdigit (n : Z) : ascii :=
  nth (Z.to_nat (n mod 16)) (list_ascii_of_string "0123456789abcdef") "0"%char.

Definition hex_byte (b : Z) : string :=
  String (hexdigit (b / 16)) (String (hexdigit b) EmptyString).

Fixpoint hex (bs : list Z) : string :=
  match bs with
  | [] => EmptyString
  | b :: bs' => (hex_byte b ++ hex bs')%string
  end.

(** [s.encode()]: the bytes of the string. *)
Definition encode (s : string) : list Z :=
  map (fun c => Z.of_nat (nat_of_ascii c)) (list_ascii_of_string s).

(** [hashlib.md5(s.encode()).hexdigest()]. *)
Definition hexdigest (s : string) : string := hex (digest (encode s)).

End MD5.

(* ===================================================================== *)
(** ** [os.path] and [pathlib] on POSIX *)
(* ===================================================================== *)

Module Py_path.

(** [s.rfind(c)]: the index of the last occurrence, [None] for -1. *)
Fixpoint rfind (c : ascii) (s : string) : option nat :=
  match s with
  | EmptyString => None
  | String d s' =>
      match rfind c s' with
      | Some i => Some (S i)
      | None => if Ascii.eqb c d then Some O else None
      end
  end.

(** [s[n:]]. *)
Fixpoint drop (n : nat) (s : string) : string :=
  match n, s with
  | S n', String _ s' => drop n' s'
  | _, _ => s
  end.

(** [os.path.basename(p)]: [p[p.rfind('/') + 1:]]. *)
Definition basename (p : string) : string :=
  match rfind "/"%char p with
  | Some i => drop (S i) p
  | None => p
  end.

(** [s.lstrip('/')]. *)
Fixpoint lstrip_slash (s : string) : string :=
  match s with
  | String "/"%char s' => lstrip_slash s'
  | _ => s
  end.

End Py_path.

Module Path.

(** A pure POSIX path after parsing: the root ([""], ["/"] or ["//"]) and
    the components; empty components and single dots never appear, double
    dots are kept as they are. *)
Record t : Type := mk { root : string; parts : list string }.

(** [splitroot]: exactly two leading slashes are kept apart. *)
Definition splitroot (s : string) : string * string :=
  match s with
  | String "/"%char _ =>
      let stripped := Py_path.lstrip_slash s in
      if (String.length s - String.length stripped =? 2)%nat
      then ("//", stripped) else ("/", stripped)
  | _ => ("", s)
  end.

Definition keep_part (x : string) : bool :=
  negb (String.eqb x "") && negb (String.eqb x ".").

(** [Path(s)]. *)
Definition of_str (s : string) : t :=
  let '(r, rel) := splitroot s in
  mk r (List.filter keep_part (Py.split "/"%char rel)).

(** [p / s]: a rooted right operand replaces the left one. *)
Definition div (p : t) (s : string) : t :=
  let q := of_str s in
  if String.eqb (root q) "" then mk (root p) (parts p ++ parts q)
  else q.

(** [str(p)]. *)
Definition str (p : t) : string :=
  match root p, parts p with
  | EmptyString, [] => "."
  | r, ps => r ++ Py.join "/" ps
  end.

(** [p.name]. *)
Definition name (p : t) : string := List.last (parts p) "".

(** [p.suffix]: from the last dot of the name, unless that dot is the
    first or the last character. *)
Definition suffix (p : t) : string :=
  let n := name p in
  match Py_path.rfind "."%char n with
  | Some i =>
      if (0 <? i)%nat && (i <? String.length n - 1)%nat
      then Py_path.drop i n else ""
  | None => ""
  end.

(** [p.with_suffix(suffix)] for a suffix that is a dot followed by plain
    characters; [None] is the [ValueError] raised on an empty name. *)
Definition with_suffix (p : t) (sfx : string) : option t :=
  let n := name p in
  if String.eqb n "" then None
  else
    let old := suffix p in
    let n' :=
      if String.eqb old "" then n ++ sfx
      else Py.take (String.length n - String.length old) n ++ sfx in
    Some (mk (root p) (removelast (parts p) ++ [n'])).

(** Lexical removal of double dots, as [os.path.realpath] does on a tree
    without symbolic links: a double dot drops the component before it and
    is ignored at the root. *)
Fixpoint normalize (stack : list string) (comps : list string) : list string :=
  match comps with
  | [] => stack
  | c :: rest =>
      if String.eqb c ".." then normalize (removelast stack) rest
      else normalize (stack ++ [c]) rest
  end.

End Path.

Notation "p // s" := (Path.div p s) (at level 40, left associativity).

(* ===================================================================== *)
(** ** [utils/config.py]: the configuration dictionary *)
(* ===================================================================== *)

(** The JSON values a configuration key can hold (numbers: integers). *)
Inductive value : Type :=
  | VNone
  | VBool (b : bool)
  | VInt (n : Z)
  | VStr (s : string).

(** Python truth value, as tested by [if not x]. *)
Definition truthy (v : value) : bool :=
  match v with
  | VNone => false
  | VBool b => b
  | VInt n => negb (n =? 0)%Z
  | VStr s => negb (String.eqb s "")
  end.

(** [get_config(key, default)]: [CONFIG.get(key, default)]. *)
Definition get_config (CONFIG : gmap string value) (key : string) (default : value) : value :=
  match CONFIG !! key with
  | Some v => v
  | None => default
  end.

(* ===================================================================== *)
(** ** The file system *)
(* ===================================================================== *)

Module FS.

(** What [stat] reports.  [st_atime] is [None] when the access time cannot
    be read (reading it raises); times are in microseconds. *)
Record meta : Type := mkMeta { st_atime : option Z; st_mtime : Z }.

Inductive node : Type :=
  | Dir (m : meta)
  | File (content : string) (m : meta).

(** A tree without symbolic links: nodes are keyed by their canonical
    absolute location, the root directory by [[]].  The tree sets no
    limit on names: a real file system refuses a component longer than
    [NAME_MAX] or holding a NUL byte, and the operations below never
    fail for that reason.  Where that matters a property is stated for
    a call that returns. *)
Record t : Type := mk { nodes : gmap (list string) node; cwd : list string }.

Definition is_dir (ns : gmap (list string) node) (k : list string) : bool :=
  match ns !! k with
  | Some (Dir _) => true
  | _ => false
  end.

(** Path resolution by the kernel: every component is looked up in a
    directory that exists; a double dot moves to the parent.  The result
    is the location named by the path, whether or not a node is there. *)
Fixpoint walk (ns : gmap (list string) node) (cur : list string)
    (comps : list string) : option (list string) :=
  match comps with
  | [] => Some cur
  | c :: rest =>
      if is_dir ns cur then
        walk ns (if String.eqb c ".." then removelast cur else (cur ++ [c])%list) rest
      else None
  end.

Definition start (fs : t) (p : Path.t) : list string :=
  if String.eqb (Path.root p) "" then cwd fs else [].

Definition locate (fs : t) (p : Path.t) : option (list string) :=
  walk (nodes fs) (start fs p) (Path.parts p).

Definition lookup (fs : t) (p : Path.t) : option node :=
  match locate fs p with
  | Some k => nodes fs !! k
  | None => None
  end.

(** [p.exists()], on a path whose names the file system accepts: the
    errors [Path.exists] lets through for other paths ([ENAMETOOLONG],
    a NUL byte) have no counterpart here. *)
Definition exists_ (fs : t) (p : Path.t) : bool :=
  match lookup fs p with
  | Some _ => true
  | None => false
  end.

(** [p.stat()]; [None] when it raises. *)
Definition stat (fs : t) (p : Path.t) : option meta :=
  match lookup fs p with
  | Some (Dir m) => Some m
  | Some (File _ m) => Some m
  | None => None
  end.

(** [p.resolve()]: absolute, double dots removed. *)
Definition resolve (fs : t) (p : Path.t) : Path.t :=
  Path.mk "/" (Path.normalize (start fs p) (Path.parts p)).

(** [p.unlink()]: removes a file; raises on a missing path or a
    directory. *)
Definition unlink (fs : t) (p : Path.t) : option t :=
  match locate fs p with
  | Some k =>
      match nodes fs !! k with
      | Some (File _ _) => Some (mk (delete k (nodes fs)) (cwd fs))
      | _ => None
      end
  | None => None
  end.

(** One [os.mkdir] per missing component, as [mkdir(parents=True,
    exist_ok=True)] ends up doing; raises when a component is a file.
    A name the file system would refuse is created like any other. *)
Fixpoint mkdir_walk (now : Z) (ns : gmap (list string) node) (cur : list string)
    (comps : list string) : option (gmap (list string) node) :=
  match comps with
  | [] => Some ns
  | c :: rest =>
      if String.eqb c ".." then mkdir_walk now ns (removelast cur) rest
      else
        let k := (cur ++ [c])%list in
        match ns !! k with
        | Some (Dir _) => mkdir_walk now ns k rest
        | Some (File _ _) => None
        | None => mkdir_walk now (<[k := Dir (mkMeta (Some now) now)]> ns) k rest
        end
  end.

Definition mkdir_p (now : Z) (fs : t) (p : Path.t) : option t :=
  if is_dir (nodes fs) (start fs p) then
    match mkdir_walk now (nodes fs) (start fs p) (Path.parts p) with
    | Some ns => Some (mk ns (cwd fs))
    | None => None
    end
  else None.

(** [open(p, 'wb')]: creates or truncates the file and returns the
    location the handle writes to; raises when the parent directory is
    missing or the path names a directory. *)
Definition open_wb (now : Z) (fs : t) (p : Path.t) : option (t * list string) :=
  match locate fs p with
  | Some k =>
      if is_dir (nodes fs) (removelast k) && negb (is_dir (nodes fs) k)
         && negb (bool_decide (k = []))
      then
        let m :=
          match nodes fs !! k with
          | Some (File _ m0) => mkMeta (st_atime m0) now
          | _ => mkMeta (Some now) now
          end in
        Some (mk (<[k := File "" m]> (nodes fs)) (cwd fs), k)
      else None
  | None => None
  end.

(** [f.write(chunk)] on the handle [k], when the device accepts it.  The
    content of the node is what has been handed to the handle; the
    handle's buffer is not modelled, so on disk the file may lag behind
    until the handle is closed. *)
Definition write (now : Z) (fs : t) (k : list string) (chunk : string) : t :=
  match nodes fs !! k with
  | Some (File c m) =>
      mk (<[k := File (c ++ chunk) (mkMeta (st_atime m) now)]> (nodes fs)) (cwd fs)
  | _ => fs
  end.

(** [src.rename(dst)] for a file [src]: [dst] is replaced when it is a
    file; raises when [src] is missing or [dst] is a directory or has no
    parent directory. *)
Definition rename (fs : t) (src dst : Path.t) : option t :=
  match locate fs src, locate fs dst with
  | Some ks, Some kd =>
      match nodes fs !! ks with
      | Some (File c m) =>
          if is_dir (nodes fs) (removelast kd) && negb (is_dir (nodes fs) kd)
             && negb (bool_decide (kd = []))
          then Some (mk (<[kd := File c m]> (delete ks (nodes fs))) (cwd fs))
          else None
      | _ => None
      end
  | _, _ => None
  end.

(** The bytes of the file at [p], if there is one. *)
Definition read (fs : t) (p : Path.t) : option string :=
  match lookup fs p with
  | Some (File c _) => Some c
  | _ => None
  end.

End FS.

(* ===================================================================== *)
(** ** [services/stats.py]: counters and the in-memory log *)
(* ===================================================================== *)

(** One entry of [LOG_BUFFER] (the time stamp is left out). *)
Record log_entry : Type := mkLog { level : string; message : string }.

Definition MAX_LOG_BUFFER : nat := 100.

(** The mutable state the cache manager works on. *)
Record World : Type := mkWorld {
  fs : FS.t;
  bytes_served : Z;                (* STATS['bytes_served'] *)
  LOG_BUFFER : list log_entry;
  requests_sent : list string      (* the URLs fetched with requests.get, oldest first *)
}.

Definition set_fs (w : World) (f : FS.t) : World :=
  mkWorld f (bytes_served w) (LOG_BUFFER w) (requests_sent w).

(** [add_log(message, level)]. *)
Definition add_log (msg lvl : string) (w : World) : World :=
  let buf := (LOG_BUFFER w ++ [mkLog lvl msg])%list in
  let buf' := if (MAX_LOG_BUFFER <? length buf)%nat then tl buf else buf in
  mkWorld (fs w) (bytes_served w) buf' (requests_sent w).

Definition add_bytes (n : Z) (w : World) : World :=
  mkWorld (fs w) (bytes_served w + n)%Z (LOG_BUFFER w) (requests_sent w).

Definition record_request (url : string) (w : World) : World :=
  mkWorld (fs w) (bytes_served w) (LOG_BUFFER w) (requests_sent w ++ [url])%list.

(* ===================================================================== *)
(** ** [services/cache_manager.py]: path mapper and cache admin *)
(* ===================================================================== *)

Section CacheManager.

(** The configuration dictionary and the reading of the clock (in
    microseconds) during the call. *)
Variable CONFIG : gmap string value.
Variable now : Z.

(** The offset of local time from UTC at an instant, in microseconds:
    [datetime.now()] and [datetime.fromtimestamp(t)] are naive local
    times, the instant plus this offset. *)
Variable utcoffset : Z -> Z.

(** [get_cache_path(distro, path)].  [None] stands for a raised exception:
    a storage path that is not a string, or a failing [mkdir]. *)
Definition get_cache_path (distro path : string) (w : World) : option (World * Path.t) :=
  match get_config CONFIG "storage_path_resolved" VNone with
  | VStr s =>
      let storage_path := Path.of_str s in
      let path_hash := MD5.hexdigest path in
      let filename :=
        if negb (String.eqb (Py_path.basename path) "")
        then Py_path.basename path else "index" in
      let cache_dir := storage_path // distro // Py.take 2 path_hash in
      match FS.mkdir_p now (fs w) cache_dir with
      | Some fs' => Some (set_fs w fs', cache_dir // (path_hash ++ "_" ++ filename))
      | None => None
      end
  | _ => None
  end.

(** [timedelta(days=v)] in microseconds; [None] for the [TypeError] on a
    value that is not a number and the [OverflowError] beyond the range of
    [timedelta]. *)
Definition timedelta_days (v : value) : option Z :=
  let check (d : Z) :=
    if (Z.abs d <=? 999999999)%Z then Some (d * 86400000000)%Z else None in
  match v with
  | VInt d => check d
  | VBool b => check (if b then 1 else 0)%Z
  | _ => None
  end.

(** [is_cache_valid(cache_path)]; [None] when it raises.  The age is
    the difference of two naive local datetimes, that is, of the two
    instants each shifted by the offset of local time in force then. *)
Definition is_cache_valid (cache_path : Path.t) (w : World) : option bool :=
  if negb (FS.exists_ (fs w) cache_path) then Some false
  else if negb (truthy (get_config CONFIG "cache_retention_enabled" (VBool true)))
  then Some true
  else
    let cache_days := get_config CONFIG "cache_days" (VInt 7) in
    match FS.stat (fs w) cache_path with
    | Some st =>
        let last_access :=
          match FS.st_atime st with
          | Some a => a                  (* try: ... .st_atime *)
          | None => FS.st_mtime st       (* except: ... .st_mtime *)
          end in
        (* datetime.now() - datetime.fromtimestamp(last_access) *)
        let file_age :=
          ((now + utcoffset now) - (last_access + utcoffset last_access))%Z in
        match timedelta_days cache_days with
        | Some limit => Some (file_age <? limit)%Z
        | None => None
        end
    | None => None
    end.

(** [delete_cached_file(rel_path)]: the new state and the returned flag.
    Every exception ends in [return False]. *)
Definition delete_cached_file (rel_path : string) (w : World) : World * bool :=
  let storage_path_str := get_config CONFIG "storage_path_resolved" VNone in
  if negb (truthy storage_path_str) then (w, false)
  else
    match storage_path_str with
    | VStr s =>
        let full_path := Path.of_str s // rel_path in
        (* Security check *)
        if negb (Py.startswith (Path.str full_path)
                   (Path.str (FS.resolve (fs w) (Path.of_str s))))
        then (w, false)
        else if FS.exists_ (fs w) full_path then
          match FS.unlink (fs w) full_path with
          | Some fs' =>
              (add_log ("Deleted file: " ++ rel_path) "INFO" (set_fs w fs'), true)
          | None => (w, false)
          end
        else (w, false)
    | _ => (w, false)
    end.

End CacheManager.

(* ===================================================================== *)
(** ** Mirror failover and the cache writer *)
(* ===================================================================== *)

(** One step of [response.iter_content]: a chunk, or a raised
    [requests] exception carrying [str(e)].  The iterator is exhausted at
    the end of the list. *)
Inductive iter_event : Type :=
  | Chunk (data : string)
  | IterRaises (msg : string).

(** The upstream answer to [requests.get(url, stream=True, ...)]. *)
Record upstream_response : Type := mkUpstream {
  status_code : Z;
  headers : list (string * string);
  content : list iter_event
}.

Inductive get_result : Type :=
  | Responds (r : upstream_response)
  | RaisesTimeout                          (* requests.Timeout *)
  | RaisesRequestException (msg : string)  (* another requests.RequestException *)
  | RaisesOther (msg : string).            (* any other exception *)

(** The exceptions met by the generators, by the class that decides
    whether [except Exception] catches them. *)
Inductive exn : Type :=
  | Exception_ (msg : string)   (* an instance of Exception: OSError, requests errors *)
  | GeneratorExit.              (* derives from BaseException only *)

Definition is_Exception (e : exn) : bool :=
  match e with
  | Exception_ _ => true
  | GeneratorExit => false
  end.

(** What a resumption of a generator ends with. *)
Inductive outcome : Type :=
  | Yielded (chunk : string)
  | StopIteration
  | Raised (e : exn).

(** Whether the device accepts the [f.write] of a resumption. *)
Inductive write_outcome : Type :=
  | WriteDone
  | WriteRaises (msg : string).

Inductive gen_state : Type :=
  | GenCreated                                             (* not started *)
  | GenSuspended (f : list string) (rest : list iter_event) (* at the yield, [f] open *)
  | GenFinished.

(** The generator object made by [generate_cached()], with the variables
    its closure captures. *)
Record cached_gen : Type := mkGen {
  temp_path : Path.t;
  cache_path : Path.t;
  response : upstream_response;
  state : gen_state
}.

Definition set_state (g : cached_gen) (st : gen_state) : cached_gen :=
  mkGen (temp_path g) (cache_path g) (response g) st.

Section GenerateCached.

Variable now : Z.

(** The [except Exception as e] clause, entered with the exception that
    reached the [try] statement. *)
Definition on_exception (g : cached_gen) (e : exn) (w : World) : World * outcome :=
  match e with
  | Exception_ msg =>
      let w1 :=
        add_log ("Error caching " ++ Path.name (cache_path g) ++ ": " ++ msg) "ERROR" w in
      if FS.exists_ (fs w1) (temp_path g) then
        match FS.unlink (fs w1) (temp_path g) with
        | Some fs' => (set_fs w1 fs', StopIteration)
        | None => (w1, Raised (Exception_ "unlink"))
        end
      else (w1, StopIteration)
  | GeneratorExit => (w, Raised GeneratorExit)
  end.

(** The [for chunk in response.iter_content(...)] loop with the file [f]
    open, run up to the next [yield] or to the end of the generator.  The
    persisting of the statistics started after a publish is outside the
    model. *)
Fixpoint chunk_loop (g : cached_gen) (disk : write_outcome) (f : list string)
    (rest : list iter_event) (w : World) : World * cached_gen * outcome :=
  match rest with
  | [] =>
      match FS.rename (fs w) (temp_path g) (cache_path g) with
      | Some fs' =>
          (add_log ("CACHED: " ++ Path.name (cache_path g)) "SUCCESS" (set_fs w fs'),
           set_state g GenFinished, StopIteration)
      | None =>
          let '(w', o) := on_exception g (Exception_ "rename") w in
          (w', set_state g GenFinished, o)
      end
  | IterRaises msg :: _ =>
      let '(w', o) := on_exception g (Exception_ msg) w in
      (w', set_state g GenFinished, o)
  | Chunk data :: rest' =>
      if String.eqb data "" then chunk_loop g disk f rest' w
      else
        match disk with
        | WriteRaises msg =>
            let '(w', o) := on_exception g (Exception_ msg) w in
            (w', set_state g GenFinished, o)
        | WriteDone =>
            let w1 := set_fs w (FS.write now (fs w) f data) in
            let w2 := add_bytes (Z.of_nat (String.length data)) w1 in
            (w2, set_state g (GenSuspended f rest'), Yielded data)
        end
  end.

(** [next(gen)]. *)
Definition gen_next (disk : write_outcome) (g : cached_gen) (w : World)
    : World * cached_gen * outcome :=
  match state g with
  | GenCreated =>
      match FS.open_wb now (fs w) (temp_path g) with
      | Some (fs', f) => chunk_loop g disk f (content (response g)) (set_fs w fs')
      | None =>
          let '(w', o) := on_exception g (Exception_ "open") w in
          (w', set_state g GenFinished, o)
      end
  | GenSuspended f rest => chunk_loop g disk f rest w
  | GenFinished => (w, g, StopIteration)
  end.

(** [gen.throw(e)]: the exception is raised at the [yield] the generator
    is suspended on, inside the [with] and the [try]. *)
Definition gen_throw (e : exn) (g : cached_gen) (w : World)
    : World * cached_gen * outcome :=
  match state g with
  | GenSuspended _ _ =>
      let '(w', o) := on_exception g e w in
      (w', set_state g GenFinished, o)
  | _ => (w, set_state g GenFinished, Raised e)
  end.

(** [gen.close()], what the server does with the response iterable when
    the client goes away: [GeneratorExit] is thrown into a suspended
    generator and swallowed by [close] when it comes back out. *)
Definition gen_close (g : cached_gen) (w : World) : World * cached_gen :=
  match state g with
  | GenSuspended _ _ =>
      let '(w', g', _) := gen_throw GeneratorExit g w in (w', g')
  | _ => (w, set_state g GenFinished)
  end.

(** What the consumer of the response does, one call at a time. *)
Inductive turn : Type :=
  | Next (disk : write_outcome)
  | Close.

Fixpoint run (turns : list turn) (g : cached_gen) (w : World)
    : World * cached_gen * list outcome :=
  match turns with
  | [] => (w, g, [])
  | Next disk :: turns' =>
      let '(w1, g1, o) := gen_next disk g w in
      let '(w2, g2, os) := run turns' g1 w1 in
      (w2, g2, o :: os)
  | Close :: turns' =>
      let '(w1, g1) := gen_close g w in
      run turns' g1 w1
  end.

End GenerateCached.

(** The body of a Flask [Response]: nothing, a text, or one of the three
    generators of [stream_and_cache]; the two plain generators are
    represented by what is left of their upstream iterator. *)
Inductive body : Type :=
  | BodyNone
  | BodyText (s : string)
  | BodyPartial (rest : list iter_event)   (* generate_partial() *)
  | BodyCached (g : cached_gen)            (* generate_cached() *)
  | BodyStream (rest : list iter_event).   (* generate_stream() *)

(** The arguments [stream_and_cache] builds a [Response] from:
    [resp_headers] is the [headers=] argument ([[]] when none is given).
    What Flask adds to the headers on its own account (a default
    [Content-Type], a [Content-Length] for a text body) is not part of
    it. *)
Record Response : Type := mkResponse {
  status : Z;
  resp_headers : list (string * string);
  resp_body : body;
  direct_passthrough : bool
}.

(** A call returns a response or lets an exception escape. *)
Inductive call_result : Type :=
  | Returns (r : Response)
  | Escapes (msg : string).

(** [next] on [generate_partial()] and [generate_stream()], which have the
    same body: empty chunks are skipped, every other chunk is counted and
    yielded. *)
Fixpoint plain_next (rest : list iter_event) (w : World)
    : World * list iter_event * outcome :=
  match rest with
  | [] => (w, [], StopIteration)
  | IterRaises msg :: _ => (w, [], Raised (Exception_ msg))
  | Chunk data :: rest' =>
      if String.eqb data "" then plain_next rest' w
      else (add_bytes (Z.of_nat (String.length data)) w, rest', Yielded data)
  end.

Definition excluded_headers : list string :=
  ["transfer-encoding"; "connection"; "content-encoding"; "content-length"].

Definition filter_headers (hs : list (string * string)) : list (string * string) :=
  List.filter (fun kv => negb (Py.list_in (Py.lower (fst kv)) excluded_headers)) hs.

(** [parts = filename.split('_', 1); parts[1] if len(parts) > 1 else filename]. *)
Definition real_name (filename : string) : string :=
  match Py.split1 "_"%char filename with
  | [_; r] => r
  | _ => filename
  end.

(** How an f-string renders [last_error]. *)
Definition fmt_error (last_error : option string) : string :=
  match last_error with
  | Some e => e
  | None => "None"
  end.

Section StreamAndCache.

Variable re_search_other : string -> string -> option bool.
Variable BLACKLIST_PATTERNS : list string.

(** [requests.get(url, stream=True, headers=headers, timeout=20,
    allow_redirects=True)]. *)
Variable requests_get : string -> list (string * string) -> get_result.

Variable cache_path : Path.t.
Variable client_headers : list (string * string).   (* the parameter [headers] *)
Variable should_cache : bool.

(** The [for url in urls] loop and what follows it. *)
Fixpoint try_urls (urls : list string) (last_error : option string) (w : World)
    : World * call_result :=
  match urls with
  | [] =>
      (add_log ("FAILED: " ++ Path.name cache_path ++ " (" ++ fmt_error last_error ++ ")")
         "ERROR" w,
       Returns (mkResponse 502 []
                  (BodyText ("All upstream mirrors failed. Last error: "
                             ++ fmt_error last_error)) false))
  | url :: urls' =>
      let w1 := record_request url w in
      match requests_get url client_headers with
      | RaisesTimeout => try_urls urls' (Some "Timeout") w1
      | RaisesRequestException msg => try_urls urls' (Some msg) w1
      | RaisesOther msg => (w1, Escapes msg)
      | Responds r =>
          let code := status_code r in
          if (code =? 404)%Z then try_urls urls' (Some "404 Not Found") w1
          else if (code =? 200)%Z || (code =? 206)%Z || (code =? 304)%Z then
            let resp_headers := filter_headers (headers r) in
            if (code =? 304)%Z then
              (add_log ("HIT (304): " ++ Path.name cache_path) "SUCCESS" w1,
               Returns (mkResponse 304 resp_headers BodyNone false))
            else if (code =? 206)%Z then
              (add_log ("PARTIAL: " ++ Path.name cache_path) "WARNING" w1,
               Returns (mkResponse 206 resp_headers (BodyPartial (content r)) false))
            else if should_cache then
              match Path.with_suffix cache_path ".tmp" with
              | Some temp_path =>
                  (w1, Returns (mkResponse 200 resp_headers
                                  (BodyCached (mkGen temp_path cache_path r GenCreated))
                                  true))
              | None => (w1, Escapes "ValueError")
              end
            else
              (w1, Returns (mkResponse 200 resp_headers (BodyStream (content r)) false))
          else try_urls urls' (Some ("HTTP " ++ pretty code)) w1
      end
  end.

End StreamAndCache.

(** [stream_and_cache(urls, cache_path, headers)]. *)
Definition stream_and_cache
    (re_search_other : string -> string -> option bool)
    (BLACKLIST_PATTERNS : list string)
    (requests_get : string -> list (string * string) -> get_result)
    (urls : list string) (cache_path : Path.t) (client_headers : list (string * string))
    (w : World) : World * call_result :=
  let filename := Path.name cache_path in
  let real_filename := real_name filename in
  let should_cache := negb (is_blacklisted re_search_other BLACKLIST_PATTERNS real_filename) in
  let w0 :=
    if negb should_cache
    then add_log ("BLACKLISTED: " ++ real_filename) "WARNING" w else w in
  try_urls requests_get cache_path client_headers should_cache urls None w0.

(* ===================================================================== *)
(** ** Index search *)
(* ===================================================================== *)

Module Py_text.

(** The ASCII characters [str.strip()] removes. *)
Definition is_space (c : ascii) : bool :=
  let n := nat_of_ascii c in
  ((9 <=? n)%nat && (n <=? 13)%nat) || ((28 <=? n)%nat && (n <=? 32)%nat).

Fixpoint lstrip (s : string) : string :=
  match s with
  | String c s' => if is_space c then lstrip s' else s
  | EmptyString => EmptyString
  end.

Fixpoint rstrip (s : string) : string :=
  match s with
  | EmptyString => EmptyString
  | String c s' =>
      let r := rstrip s' in
      if String.eqb r "" && is_space c then EmptyString else String c r
  end.

(** [s.strip()]. *)
Definition strip (s : string) : string := rstrip (lstrip s).

(** [os.path.join(a, b)]. *)
Definition os_path_join (a b : string) : string :=
  if Py.startswith b "/" then b
  else if String.eqb a "" || Py.endswith a "/" then a ++ b
  else a ++ "/" ++ b.

End Py_text.

(** One entry of the result list. *)
Record hit : Type := mkHit {
  hit_name : string;
  hit_path : string;
  hit_distro : string;
  hit_url : option string;
  hit_version : option string;
  hit_cached : bool
}.

(** One step of the iteration over the lines of an opened text file: a
    line, or an exception raised by the reader. *)
Inductive read_event : Type :=
  | Line (s : string)
  | ReadRaises.

Section Search.

Variable CONFIG : gmap string value.
Variable now : Z.
Variable utcoffset : Z -> Z.

(** [services.mirrors]: the key of the upstream of a request and the
    configured mirrors (a single string is a list of one). *)
Variable get_upstream_key : string -> string -> string.
Variable get_all_mirrors : gmap string (list string).

(** [requests.head(url, timeout=2).status_code]; [None] when it raises. *)
Variable requests_head : string -> option Z.

(** [os.walk(top)]: the directories in the order they are visited, each
    with the names of its files. *)
Variable os_walk : string -> list (string * list string).

(** [gzip.open(path, 'rt', ...)] and [open(path, 'r', ...)], as the
    sequence of lines they deliver; a failing open is a sequence that
    starts with [ReadRaises]. *)
Variable gzip_open : string -> list read_event.
Variable open_text : string -> list read_event.

Variable distro : string.
Variable query : string.

Definition limit : nat := 20.

(** The direct probe of one mirror: a hit is the early return with that
    single result; an answer other than 200 or a swallowed exception
    leaves the loop running. *)
Definition probe_mirror (mirror : string) (w : World) : World * option hit :=
  let url := mirror ++ "/" ++ query in
  match requests_head url with
  | Some code =>
      if (code =? 200)%Z then
        match get_cache_path CONFIG now distro query w with
        | Some (w', cache_path) =>
            match is_cache_valid CONFIG now utcoffset cache_path w' with
            | Some is_cached =>
                (w', Some (mkHit (Py_path.basename query) query distro (Some url)
                             None is_cached))
            | None => (w', None)
            end
        | None => (w, None)
        end
      else (w, None)
  | None => (w, None)
  end.

Fixpoint probe_mirrors (mirrors : list string) (w : World) : World * option hit :=
  match mirrors with
  | [] => (w, None)
  | mirror :: rest =>
      match probe_mirror mirror w with
      | (w', Some h) => (w', Some h)
      | (w', None) => probe_mirrors rest w'
      end
  end.

(** The loop over the lines in [parse_packages_file]; an exception ends
    the function with the matches found so far. *)
Fixpoint parse_lines (lines : list read_event) (current_pkg : gmap string string)
    (matches : list hit) (w : World) : World * list hit :=
  match lines with
  | [] => (w, matches)
  | ReadRaises :: _ => (w, matches)
  | Line raw :: rest =>
      let line := Py_text.strip raw in
      if String.eqb line "" then
        match current_pkg !! "Package", current_pkg !! "Filename" with
        | Some pkg, Some pkg_path =>
            if Py.contains (Py.lower query) (Py.lower pkg) then
              match get_cache_path CONFIG now distro pkg_path w with
              | Some (w', cache_path) =>
                  match is_cache_valid CONFIG now utcoffset cache_path w' with
                  | Some is_cached =>
                      let version :=
                        match current_pkg !! "Version" with
                        | Some v => v
                        | None => "unknown"
                        end in
                      parse_lines rest ∅
                        (matches ++ [mkHit pkg pkg_path distro None (Some version) is_cached])
                        w'
                  | None => (w', matches)
                  end
              | None => (w, matches)
              end
            else parse_lines rest ∅ matches w
        | _, _ => parse_lines rest ∅ matches w
        end
      else if Py.has_char ":"%char line then
        match Py.split1 ":"%char line with
        | [key; val] =>
            parse_lines rest (<[Py_text.strip key := Py_text.strip val]> current_pkg)
              matches w
        | _ => parse_lines rest current_pkg matches w
        end
      else parse_lines rest current_pkg matches w
  end.

(** [parse_packages_file(filepath)]. *)
Definition parse_packages_file (filepath : string) (w : World) : World * list hit :=
  let f := if Py.endswith filepath ".gz" then gzip_open filepath else open_text filepath in
  parse_lines f ∅ [] w.

(** [for m in file_matches: results.append(m); count += 1; if count >=
    limit: return results].  The flag tells that the function has
    returned. *)
Fixpoint append_matches (file_matches : list hit) (results : list hit) (count : nat)
    : list hit * nat * bool :=
  match file_matches with
  | [] => (results, count, false)
  | m :: rest =>
      let results' := (results ++ [m])%list in
      let count' := S count in
      if (limit <=? count')%nat then (results', count', true)
      else append_matches rest results' count'
  end.

(** The loop over the files of one directory. *)
Fixpoint scan_files (root : string) (files : list string) (results : list hit)
    (count : nat) (w : World) : World * list hit * nat * bool :=
  match files with
  | [] => (w, results, count, false)
  | filename :: rest =>
      if Py.contains "Packages" filename && Py.contains "Packages" (real_name filename)
      then
        let '(w', file_matches) :=
          parse_packages_file (Py_text.os_path_join root filename) w in
        let '(results', count', returned) := append_matches file_matches results count in
        if returned then (w', results', count', true)
        else scan_files root rest results' count' w'
      else scan_files root rest results count w
  end.

(** The loop over [os.walk]. *)
Fixpoint scan_walk (dirs : list (string * list string)) (results : list hit)
    (count : nat) (w : World) : World * list hit :=
  match dirs with
  | [] => (w, results)
  | (root, files) :: rest =>
      let '(w', results', count', returned) := scan_files root files results count w in
      if returned then (w', results')
      else if (limit <=? count')%nat then (w', results')
      else scan_walk rest results' count' w'
  end.

(** The second strategy of [search_upstream_packages], entered with an
    empty result list.  [None] is the [TypeError] of [Path] on a storage
    path that is not a string. *)
Definition index_scan (w : World) : World * option (list hit) :=
  let storage_path_str := get_config CONFIG "storage_path_resolved" VNone in
  if negb (truthy storage_path_str) then (w, Some [])
  else
    match storage_path_str with
    | VStr s =>
        let storage_path := Path.of_str s // distro in
        if negb (FS.exists_ (fs w) storage_path) then (w, Some [])
        else
          let '(w', results) := scan_walk (os_walk (Path.str storage_path)) [] 0 w in
          (w', Some results)
    | _ => (w, None)
    end.

(** [search_upstream_packages(distro, query)]. *)
Definition search_upstream_packages (w : World) : World * option (list hit) :=
  let '(w1, direct) :=
    if Py.has_char "/"%char query then
      match get_all_mirrors !! get_upstream_key distro query with
      | Some mirrors => probe_mirrors mirrors w
      | None => (w, None)
      end
    else (w, None) in
  match direct with
  | Some h => (w1, Some [h])
  | None => index_scan w1
  end.

End Search.

(* ===================================================================== *)
(** ** Notions used by the properties *)
(* ===================================================================== *)

(** A path lies under the storage root when its resolved form extends the
    resolved form of the root, component by component. *)
Definition lies_under (f : FS.t) (storage p : Path.t) : bool :=
  bool_decide (Path.parts (FS.resolve f storage) `prefix_of` Path.parts (FS.resolve f p)).

(** A single ordinary path segment: not empty, no slash, not a dot or a
    double dot. *)
Definition plain_segment (s : string) : bool :=
  negb (String.eqb s "") && negb (Py.has_char "/"%char s)
  && negb (String.eqb s ".") && negb (String.eqb s "..").

(** The access time [is_cache_valid] goes by: [st_atime], or [st_mtime]
    when the access time cannot be read. *)
Definition last_access (st : FS.meta) : Z :=
  match FS.st_atime st with
  | Some a => a
  | None => FS.st_mtime st
  end.

(** The error a mirror's answer makes [stream_and_cache] record before it
    goes on to the next mirror; [None] for an answer that ends the loop. *)
Definition recorded_error (r : get_result) : option string :=
  match r with
  | RaisesTimeout => Some "Timeout"
  | RaisesRequestException msg => Some msg
  | RaisesOther _ => None
  | Responds u =>
      let code := status_code u in
      if (code =? 404)%Z then Some "404 Not Found"
      else if (code =? 200)%Z || (code =? 206)%Z || (code =? 304)%Z then None
      else Some ("HTTP " ++ pretty code)
  end.

(** The failures of the specification: a 404, another status of 400 or
    more, a timeout, a transport error. *)
Definition mirror_fails (r : get_result) : bool :=
  match r with
  | RaisesTimeout => true
  | RaisesRequestException _ => true
  | RaisesOther _ => false
  | Responds u => (400 <=? status_code u)%Z
  end.

(** Every character of the string satisfies the test. *)
Fixpoint all_chars (P : ascii -> bool) (s : string) : bool :=
  match s with
  | EmptyString => true
  | String c s' => P c && all_chars P s'
  end.

Definition is_hex (c : ascii) : bool := Py.has_char c "0123456789abcdef".

(** The name [get_cache_path] appends to the digest: the basename of the
    request path, or [index] when that is empty. *)
Definition cache_filename (path : string) : string :=
  if negb (String.eqb (Py_path.basename path) "") then Py_path.basename path else "index".

(** A concrete installation used to run the code on explicit inputs. *)
Module Scenario.

Definition m0 : FS.meta := FS.mkMeta (Some 100%Z) 100%Z.

Definition CONFIG : gmap string value :=
  <["storage_path_resolved" := VStr "/srv/storage"]>
    (<["cache_days" := VInt 7]> (<["cache_retention_enabled" := VBool true]> ∅)).

(** [/srv/storage] is the empty storage root; [/srv/secret.txt] is a file
    next to it. *)
Definition tree : FS.t :=
  FS.mk (<[ ["srv"; "secret.txt"] := FS.File "top secret" m0 ]>
        (<[ ["srv"; "storage"] := FS.Dir m0 ]>
        (<[ ["srv"] := FS.Dir m0 ]>
        (<[ [] := FS.Dir m0 ]> ∅)))) [].

Definition world : World := mkWorld tree 0 [] [].

Definition no_regex : string -> string -> option bool := fun _ _ => None.

(** Local time is UTC. *)
Definition utc : Z -> Z := fun _ => 0%Z.

Definition hello : string := "pool/main/h/hello/hello_2.10.deb".

End Scenario.

(** The index scan without its cap: every match of every selected file, in
    the order of the walk.  The capped scan of the source is compared with
    this one. *)
Section UncappedScan.

Variable CONFIG : gmap string value.
Variable now : Z.
Variable utcoffset : Z -> Z.
Variable gzip_open : string -> list read_event.
Variable open_text : string -> list read_event.
Variable distro : string.
Variable query : string.

Fixpoint all_file_matches (root : string) (files : list string) (w : World)
    : World * list hit :=
  match files with
  | [] => (w, [])
  | filename :: rest =>
      if Py.contains "Packages" filename && Py.contains "Packages" (real_name filename)
      then
        let '(w', file_matches) :=
          parse_packages_file CONFIG now utcoffset gzip_open open_text distro query
            (Py_text.os_path_join root filename) w in
        let '(w'', more) := all_file_matches root rest w' in
        (w'', (file_matches ++ more)%list)
      else all_file_matches root rest w
  end.

Fixpoint all_matches (dirs : list (string * list string)) (w : World)
    : World * list hit :=
  match dirs with
  | [] => (w, [])
  | (root, files) :: rest =>
      let '(w', here) := all_file_matches root files w in
      let '(w'', more) := all_matches rest w' in
      (w'', (here ++ more)%list)
  end.

End UncappedScan.

(** The bytes of a body delivered in chunks, and the chunks the generators
    pass on (the empty ones are skipped). *)
Definition body_bytes (chunks : list string) : string :=
  fold_right String.append "" chunks.

Definition nonempty_chunks (chunks : list string) : list string :=
  List.filter (fun c => negb (String.eqb c "")) chunks.

(** The state of a cache write between two chunks: the tree [ns0] of the
    start plus the temp file at [tk] holding what has been written. *)
Definition writing (ns0 : gmap (list string) FS.node) (cwd0 tk : list string)
    (acc : string) (w : World) : Prop :=
  exists m, fs w = FS.mk (<[tk := FS.File acc m]> ns0) cwd0.

(** A consumer that keeps asking for the next chunk, the device accepting
    every write. *)
Definition drain (n : nat) : list turn := repeat (Next WriteDone) n.

(** One mirror that serves [hello_2.10.deb] in two chunks with an empty one
    in between, and the request for it. *)
Module CacheScenario.

Definition url : string := "http://deb.example/debian/" ++ Scenario.hello.

Definition upstream : upstream_response :=
  mkUpstream 200 [("Content-Length", "4"); ("ETag", "x")]
    [Chunk "ab"; Chunk ""; Chunk "cd"].

Definition net (u : string) (hs : list (string * string)) : get_result :=
  if String.eqb u url then Responds upstream
  else RaisesRequestException "no route to host".

(** The cache path [get_cache_path] gives for the request, and the state
    it leaves (the two directories of the layout exist). *)
Definition mapped : option (World * Path.t) :=
  get_cache_path Scenario.CONFIG 5 "debian" Scenario.hello Scenario.world.

Definition world : World :=
  match mapped with
  | Some (w, _) => w
  | None => Scenario.world
  end.

Definition cache_path : Path.t :=
  match mapped with
  | Some (_, p) => p
  | None => Path.of_str "."
  end.

(** The call of [stream_and_cache] for it. *)
Definition served : World * call_result :=
  stream_and_cache Scenario.no_regex [] net [url] cache_path [] world.

(** What the call answers: a 200 whose body is the caching generator,
    working on this temp path. *)
Definition temp_path : Path.t :=
  Path.mk "/" ["srv"; "storage"; "debian"; "b4";
               "b42022f5bd8cbb6d9462eb1af349bc75_hello_2.10.tmp"].

Definition gen : cached_gen := mkGen temp_path cache_path upstream GenCreated.

Definition answer : Response :=
  mkResponse 200 [("ETag", "x")] (BodyCached gen) true.

(** Where the two paths are in the tree. *)
Definition tk : list string := Path.parts temp_path.

Definition ck : list string :=
  ["srv"; "storage"; "debian"; "b4"; "b42022f5bd8cbb6d9462eb1af349bc75_hello_2.10.deb"].

End CacheScenario.

(** Three mirrors that fail in three ways. *)
Module FailoverScenario.

Definition net (url : string) (hs : list (string * string)) : get_result :=
  if String.eqb url "http://a.example/x.deb" then Responds (mkUpstream 404 [] [])
  else if String.eqb url "http://b.example/x.deb" then RaisesTimeout
  else if String.eqb url "http://c.example/x.deb" then Responds (mkUpstream 503 [] [])
  else RaisesOther "unknown host".

Definition urls : list string :=
  ["http://a.example/x.deb"; "http://b.example/x.deb"; "http://c.example/x.deb"].

End FailoverScenario.

(** A cached index with twenty-five matching stanzas, and one mirror that
    knows no direct path. *)
Module SearchScenario.

Definition stanza (i : nat) : list read_event :=
  [Line ("Package: hello-" ++ pretty i);
   Line "Version: 2.10";
   Line ("Filename: pool/main/h/hello/hello-" ++ pretty i ++ ".deb");
   Line ""].

Definition packages : list read_event := flat_map stanza (seq 0 25).

Definition gzip_open (path : string) : list read_event :=
  if Py.endswith path "_Packages.gz" then packages else [ReadRaises].

Definition open_text (path : string) : list read_event := [ReadRaises].

Definition os_walk (top : string) : list (string * list string) :=
  [(top, []); (top ++ "/ab", ["abcd_Packages.gz"; "abcd_hello.deb"])].

Definition get_upstream_key (distro path : string) : string := distro.

Definition get_all_mirrors : gmap string (list string) :=
  <["debian" := ["http://deb.example/debian"]]> ∅.

Definition requests_head (url : string) : option Z := Some 404%Z.

(** The storage of [Scenario] with the directory of the distribution. *)
Definition world : World :=
  mkWorld (FS.mk (<[ ["srv"; "storage"; "debian"] := FS.Dir Scenario.m0 ]>
                    (FS.nodes Scenario.tree)) [])
    0 [] [].

Definition search (query : string) : World * option (list hit) :=
  search_upstream_packages Scenario.CONFIG 5 Scenario.utc get_upstream_key get_all_mirrors
    requests_head os_walk gzip_open open_text "debian" query world.

End SearchScenario.

(** A cached file in a zone on Central European time, around the end of
    summer time on 27 October 2024 at 01:00 UTC: the file was last read on
    26 October at 12:00 UTC, and the clock is read seven days and thirty
    minutes later. *)
Module DstScenario.

Definition change : Z := 1729990800 * 1000000.

Definition utcoffset (t : Z) : Z :=
  if (t <? change)%Z then 2 * 3600000000 else 3600000000.

Definition atime : Z := 1729944000 * 1000000.

Definition now : Z := atime + 7 * 86400000000 + 1800000000.

Definition tree : FS.t :=
  FS.mk (<[ ["srv"; "storage"; "debian"; "ab"; "abcd_x.deb"]
            := FS.File "x" (FS.mkMeta (Some atime) atime) ]>
        (<[ ["srv"; "storage"; "debian"; "ab"] := FS.Dir Scenario.m0 ]>
        (<[ ["srv"; "storage"; "debian"] := FS.Dir Scenario.m0 ]>
        (FS.nodes Scenario.tree)))) [].

Definition world : World := mkWorld tree 0 [] [].

End DstScenario.

(* ===================================================================== *)
(** ** Further notions *)
(* ===================================================================== *)

(** A glob pattern whose translation stays inside the interpreted fragment
    of [re]: ordinary characters, dots and stars only. *)
Definition simple_glob_char (c : ascii) : bool :=
  negb (re_special c) || Ascii.eqb c "."%char || Ascii.eqb c "*"%char.

Definition simple_glob (p : string) : bool := all_chars simple_glob_char p.

(** A pattern [is_blacklisted] handles without leaving the interpreted
    fragment: no star at all, or a simple glob. *)
Definition interpreted (p : string) : bool :=
  negb (Py.has_char "*"%char p) || simple_glob p.

(** The number of bytes in the chunks a run of a generator yielded. *)
Fixpoint yielded_bytes (outs : list outcome) : Z :=
  match outs with
  | [] => 0
  | Yielded chunk :: outs' => (Z.of_nat (String.length chunk) + yielded_bytes outs')%Z
  | _ :: outs' => yielded_bytes outs'
  end.

(** A mirror whose connection breaks after the first chunk of
    [hello_2.10.deb], and the caching generator for that answer. *)
Module BrokenStreamScenario.

Definition upstream : upstream_response :=
  mkUpstream 200 [] [Chunk "ab"; IterRaises "connection reset"; Chunk "cd"].

Definition gen : cached_gen :=
  mkGen CacheScenario.temp_path CacheScenario.cache_path upstream GenCreated.

End BrokenStreamScenario.

(** The state after the download of [CacheScenario] has been consumed to
    its end, and the name of the cached file relative to the storage
    root. *)
Module CachedScenario.

Definition world : World :=
  fst (fst (run 5 (drain 3) CacheScenario.gen CacheScenario.world)).

Definition rel : string := "debian/b4/b42022f5bd8cbb6d9462eb1af349bc75_hello_2.10.deb".

End CachedScenario.

(** What a search result says about the request it answers, given the
    mirrors configured for it: a direct hit (it carries a URL) is the query
    itself at one of those mirrors; a hit of the index scan names a package
    whose name contains the query, ASCII letters compared without case, and
    carries a version. *)
Definition sound_hit (mirrors : list string) (distro query : string) (h : hit) : Prop :=
  hit_distro h = distro /\
  match hit_url h with
  | Some url =>
      hit_path h = query /\ hit_name h = Py_path.basename query /\
      exists mirror, In mirror mirrors /\ url = mirror ++ "/" ++ query
  | None =>
      Py.contains (Py.lower query) (Py.lower (hit_name h)) = true /\
      hit_version h <> None
  end.

(** A line of ASCII text; a read that raises delivers no text. *)
Definition ascii_event (e : read_event) : bool :=
  match e with
  | Line raw => Py.isascii raw
  | ReadRaises => true
  end.

(** Lines none of which is blank: what is left of a file after its last
    blank line. *)
Definition no_blank_line (lines : list read_event) : bool :=
  forallb (fun e => match e with
                    | Line raw => negb (String.eqb (Py_text.strip raw) "")
                    | ReadRaises => true
                    end) lines.

(** The state of a cache write into a file whose access time is [a]. *)
Definition writing_since (a : option Z) (ns0 : gmap (list string) FS.node)
    (cwd0 tk : list string) (acc : string) (w : World) : Prop :=
  exists mt, fs w = FS.mk (<[tk := FS.File acc (FS.mkMeta a mt)]> ns0) cwd0.

(** The configuration keeps a file accessed at this very moment: retention
    is switched off, or [cache_days] is a positive number of days. *)
Definition keeps_fresh_files (CONFIG : gmap string value) : Prop :=
  truthy (get_config CONFIG "cache_retention_enabled" (VBool true)) = false \/
  exists d, get_config CONFIG "cache_days" (VInt 7) = VInt d /\
            (0 < d <= 999999999)%Z.

(** The string ends with a slash. *)
Fixpoint ends_with_slash (s : string) : bool :=
  match s with
  | EmptyString => false
  | String c EmptyString => Ascii.eqb c "/"
  | String _ s' => ends_with_slash s'
  end.

(** The components [Path] keeps of a relative path text. *)
Definition parts_of (rel : string) : list string :=
  List.filter Path.keep_part (Py.split "/" rel).

(** Every name in the tree is an ordinary path segment. *)
Definition plain_names (ns : gmap (list string) FS.node) : Prop :=
  forall k n, ns !! k = Some n -> Forall (fun s => plain_segment s = true) k.

(** What [clean_old_cache] may take away: a regular file below the
    location [sk] of the storage directory whose access time and
    modification time both lie before the cutoff. *)
Definition expired_file (cutoff_time : Z) (sk k : list string) (n : FS.node) : Prop :=
  exists content st atime,
    n = FS.File content st /\
    FS.st_atime st = Some atime /\
    (atime < cutoff_time)%Z /\ (FS.st_mtime st < cutoff_time)%Z /\
    sk `prefix_of` k /\ k <> sk.

Definition is_dir_node (n : FS.node) : bool :=
  match n with
  | FS.Dir _ => true
  | FS.File _ _ => false
  end.

(** The number of directories at or below a location. *)
Definition dirs_under (ns : gmap (list string) FS.node) (k : list string) : nat :=
  length (List.filter
            (fun kn : list string * FS.node =>
               bool_decide (k `prefix_of` fst kn) && is_dir_node (snd kn))
            (map_to_list ns)).

(** A bound on the rounds the cleanup still has to make: for every path
    on the stack, the directories it has yet to scan. *)
Definition rounds_left (ns : gmap (list string) FS.node) (cwd0 : list string)
    (stack : list string) : nat :=
  list_sum
    (map (fun p =>
            match FS.locate (FS.mk ns cwd0) (Path.of_str p) with
            | Some k => if FS.is_dir ns k then dirs_under ns k else 1%nat
            | None => 1%nat
            end) stack).

(** The names of the directories among the entries of a scan. *)
Definition dir_names (entries : list (string * FS.node)) : list string :=
  map fst (List.filter (fun e : string * FS.node => is_dir_node (snd e)) entries).

(** Every node but the root sits in a directory. *)
Definition rooted (ns : gmap (list string) FS.node) : Prop :=
  forall k n, ns !! k = Some n -> k <> [] -> FS.is_dir ns (removelast k) = true.

(** The trees met during the cleanup of the tree [ns0]: the directories
    are all there, the nodes are old ones, and what is gone was allowed to
    go. *)
Definition cleaning (cutoff_time : Z) (ns0 : gmap (list string) FS.node)
    (cwd0 sk : list string) (f : FS.t) : Prop :=
  FS.cwd f = cwd0 /\
  (forall k, FS.is_dir (FS.nodes f) k = FS.is_dir ns0 k) /\
  (forall k n, FS.nodes f !! k = Some n -> ns0 !! k = Some n) /\
  (forall k n, ns0 !! k = Some n -> FS.nodes f !! k = None ->
               expired_file cutoff_time sk k n).

(** The paths waiting on the stack name locations at or below the storage
    directory. *)
Definition waiting (ns0 : gmap (list string) FS.node) (cwd0 sk : list string)
    (stack : list string) : Prop :=
  Forall (fun p => exists k, FS.locate (FS.mk ns0 cwd0) (Path.of_str p) = Some k /\
                             sk `prefix_of` k) stack.

(** Where an old file that is still there will be met: below a path on the
    stack, among the entries of the directory being scanned, or below a
    directory among them. *)
Definition to_meet (ns0 : gmap (list string) FS.node) (cwd0 : list string)
    (kd : list string) (entries : list (string * FS.node))
    (stack : list string) (k : list string) (n : FS.node) : Prop :=
  (exists p kp, In p stack /\
                FS.locate (FS.mk ns0 cwd0) (Path.of_str p) = Some kp /\
                kp `prefix_of` removelast k) \/
  (removelast k = kd /\ In (List.last k "", n) entries) \/
  (exists name m, In (name, FS.Dir m) entries /\
                  (kd ++ [name])%list `prefix_of` removelast k).

Definition duties (cutoff_time : Z) (ns0 : gmap (list string) FS.node)
    (cwd0 sk : list string) (kd : list string) (entries : list (string * FS.node))
    (stack : list string) (f : FS.t) : Prop :=
  forall k n, FS.nodes f !! k = Some n -> expired_file cutoff_time sk k n ->
              to_meet ns0 cwd0 kd entries stack k n.

(** A component as [Path] keeps them: not empty, not a single dot, without
    a slash. *)
Definition part_ok (x : string) : bool :=
  Path.keep_part x && negb (Py.has_char "/"%char x).

(** A path as [Path] makes them. *)
Definition parsed (p : Path.t) : Prop :=
  (Path.root p = "" \/ Path.root p = "/" \/ Path.root p = "//") /\
  Forall (fun x => part_ok x = true) (Path.parts p).

(* ===================================================================== *)
(** ** [services/cache_manager.py]: manual caching *)
(* ===================================================================== *)

(** What [manual_cache_package] hands back: the pair of one of its
    [return] statements, the pair [(False, str(e))] of its
    [except Exception] clause (with the text of the exception, or the name
    of the call that raised where the model holds no text), or an
    exception that is no [Exception] and leaves the function. *)
Inductive manual_result : Type :=
  | Answered (ok : bool) (message : string)
  | Caught (e : string)
  | Propagated (e : exn).

(** The number of upstream events a generator has not looked at yet. *)
Definition pending (g : cached_gen) : nat :=
  match state g with
  | GenCreated => length (content (response g))
  | GenSuspended _ rest => length rest
  | GenFinished => 0
  end.

Section ManualCache.

Variable CONFIG : gmap string value.
Variable now : Z.
Variable utcoffset : Z -> Z.
Variable re_search_other : string -> string -> option bool.
Variable BLACKLIST_PATTERNS : list string.
Variable requests_get : string -> list (string * string) -> get_result.
Variable get_upstream_key : string -> string -> string.
Variable get_all_mirrors : gmap string (list string).

(** Whether the device accepts the write of the [i]-th resumption of the
    caching generator. *)
Variable disk : nat -> write_outcome.

(** [for _ in gen: pass] on the caching generator, [i] resumptions in.
    Every resumption that yields has taken a chunk from the upstream
    iterator, so the loop is over before a [fuel] of more than [pending]
    runs out. *)
Fixpoint consume_cached (fuel i : nat) (g : cached_gen) (w : World)
    : World * option exn :=
  match fuel with
  | O => (w, None)
  | S fuel' =>
      match gen_next now (disk i) g w with
      | (w1, g1, Yielded _) => consume_cached fuel' (S i) g1 w1
      | (w1, _, StopIteration) => (w1, None)
      | (w1, _, Raised e) => (w1, Some e)
      end
  end.

(** The same loop on one of the two plain generators. *)
Fixpoint consume_plain (fuel : nat) (rest : list iter_event) (w : World)
    : World * option exn :=
  match fuel with
  | O => (w, None)
  | S fuel' =>
      match plain_next rest w with
      | (w1, rest1, Yielded _) => consume_plain fuel' rest1 w1
      | (w1, _, StopIteration) => (w1, None)
      | (w1, _, Raised e) => (w1, Some e)
      end
  end.

(** [for _ in response.response: pass]; the exception, if one comes out
    of the iteration. *)
Definition consume (b : body) (w : World) : World * option exn :=
  match b with
  | BodyCached g => consume_cached (S (pending g)) 0 g w
  | BodyPartial rest => consume_plain (S (length rest)) rest w
  | BodyStream rest => consume_plain (S (length rest)) rest w
  | BodyNone => (w, None)
  | BodyText _ => (w, None)
  end.

(** [manual_cache_package(distro, package_path)]. *)
Definition manual_cache_package (distro package_path : string) (w : World)
    : World * manual_result :=
  match get_cache_path CONFIG now distro package_path w with
  | None => (w, Caught "get_cache_path")
  | Some (w1, cache_path) =>
      match is_cache_valid CONFIG now utcoffset cache_path w1 with
      | None => (w1, Caught "is_cache_valid")
      | Some true => (w1, Answered true "File already cached")
      | Some false =>
          let upstream_key := get_upstream_key distro package_path in
          let mirrors_config := get_all_mirrors in
          let found :=
            match mirrors_config !! upstream_key with
            | Some mirrors => Some mirrors
            | None => mirrors_config !! distro
            end in
          match found with
          | None =>
              (w1, Answered false ("No upstream configured for: " ++ upstream_key))
          | Some mirrors =>
              let upstream_urls :=
                map (fun mirror => mirror ++ "/" ++ package_path) mirrors in
              let headers := [("User-Agent", "apt-cache-proxy-manual")] in
              match stream_and_cache re_search_other BLACKLIST_PATTERNS requests_get
                      upstream_urls cache_path headers w1 with
              | (w2, Escapes msg) => (w2, Caught msg)
              | (w2, Returns response) =>
                  if (status response =? 200)%Z then
                    match consume (resp_body response) w2 with
                    | (w3, None) => (w3, Answered true "Successfully cached")
                    | (w3, Some (Exception_ msg)) => (w3, Caught msg)
                    | (w3, Some GeneratorExit) => (w3, Propagated GeneratorExit)
                    end
                  else
                    (w2, Answered false
                           ("Failed to download: HTTP " ++ pretty (status response)))
              end
          end
      end
  end.

End ManualCache.

(* ===================================================================== *)
(** ** [utils/config.py]: loading and saving the configuration *)
(* ===================================================================== *)

Module Config.

(** The state the module works on: the dictionary [CONFIG], the file
    system, and the configuration value the logger's level was last set
    from. *)
Record state : Type := mk {
  CONFIG : gmap string value;
  files : FS.t;
  logger_level : value
}.

Section Loading.

(** [BASE_DIR] and the answer of [is_docker()]. *)
Variable BASE_DIR : Path.t.
Variable is_docker : bool.

(** [json.load] on the text of a file ([None] when it raises; a text
    whose JSON is not an object of the values above is outside the
    model) and [json.dump(obj, f, indent=2)]. *)
Variable json_load : string -> option (gmap string value).
Variable json_dump : gmap string value -> string.

(** Whether [logger.setLevel(getattr(logging, v))] goes through. *)
Variable set_level : value -> bool.

(** The clock, and whether the device accepts a write. *)
Variable now : Z.
Variable disk : write_outcome.

Definition DEFAULT_CONFIG : gmap string value :=
  let d : gmap string value :=
    <["host" := VStr "0.0.0.0"]>
    (<["port" := VInt 8080]>
    (<["storage_path" := VStr "storage"]>
    (<["database_path" := VStr "data/stats.db"]>
    (<["cache_days" := VInt 7]>
    (<["cache_retention_enabled" := VBool true]>
    (<["log_level" := VStr "INFO"]>
    (<["passthrough_mode" := VBool true]>
    (<["admin_token" := VStr "changeme_to_secure_random_string"]> ∅)))))))) in
  if is_docker then delete "database_path" (delete "storage_path" d) else d.

(** [get_config_path()]; [None] when [mkdir] raises. *)
Definition get_config_path (f : FS.t) : option (FS.t * Path.t) :=
  let data_dir := BASE_DIR // "data" in
  match FS.mkdir_p now f data_dir with
  | Some f' => Some (f', data_dir // "config.json")
  | None => None
  end.

(** [with open(p, 'r') as f: json.load(f)]; [None] when it raises. *)
Definition read_json (f : FS.t) (p : Path.t) : option (gmap string value) :=
  match FS.read f p with
  | Some text => json_load text
  | None => None
  end.

(** [with open(p, 'w') as f: json.dump(obj, f, indent=2)]: the files
    afterwards, and whether the statement completed.  A refused write
    leaves the file truncated. *)
Definition write_json (f : FS.t) (p : Path.t) (obj : gmap string value)
    : FS.t * bool :=
  match FS.open_wb now f p with
  | Some (f1, k) =>
      match disk with
      | WriteDone => (FS.write now f1 k (json_dump obj), true)
      | WriteRaises _ => (f1, false)
      end
  | None => (f, false)
  end.

(** [save_config_value(key, value)]. *)
Definition save_config_value (key : string) (v : value) (st : state)
    : state * bool :=
  match get_config_path (files st) with
  | None => (st, false)
  | Some (f1, config_path) =>
      let current_disk_config :=
        if FS.exists_ f1 config_path then read_json f1 config_path
        else Some (CONFIG st) in
      match current_disk_config with
      | None => (mk (CONFIG st) f1 (logger_level st), false)
      | Some d =>
          match write_json f1 config_path (<[key := v]> d) with
          | (f2, false) => (mk (CONFIG st) f2 (logger_level st), false)
          | (f2, true) =>
              (* Update memory *)
              let CONFIG' := <[key := v]> (CONFIG st) in
              if String.eqb key "log_level" then
                if set_level v then (mk CONFIG' f2 v, true)
                else (mk CONFIG' f2 (logger_level st), false)
              else (mk CONFIG' f2 (logger_level st), true)
          end
      end
  end.

(** [load_config()]. *)
Definition load_config (st : state) : state * bool :=
  match get_config_path (files st) with
  | None => (st, false)
  | Some (f1, config_path) =>
      let loaded :=
        if negb (FS.exists_ f1 config_path) then
          match write_json f1 config_path DEFAULT_CONFIG with
          | (f2, true) => (f2, Some DEFAULT_CONFIG)
          | (f2, false) => (f2, None)
          end
        else (f1, read_json f1 config_path) in
      match loaded with
      | (f2, None) => (mk (CONFIG st) f2 (logger_level st), false)
      | (f2, Some new_config) =>
          (* CONFIG.clear(); CONFIG.update(new_config) *)
          let c1 := new_config in
          let c2 :=
            if is_docker then
              <["database_path" := VStr "data/stats.db"]>
                (<["storage_path" := VStr "storage"]> c1)
            else c1 in
          match get_config c2 "storage_path" (VStr "storage") with
          | VStr storage_path_str =>
              let storage_path :=
                if Py.startswith storage_path_str "/"
                then Path.of_str storage_path_str
                else BASE_DIR // storage_path_str in
              match FS.mkdir_p now f2 storage_path with
              | Some f3 =>
                  let c3 :=
                    <["storage_path_resolved" := VStr (Path.str storage_path)]> c2 in
                  let lvl := get_config c3 "log_level" (VStr "INFO") in
                  if set_level lvl then (mk c3 f3 lvl, true)
                  else (mk c3 f3 (logger_level st), false)
              | None => (mk c2 f2 (logger_level st), false)
              end
          | _ => (mk c2 f2 (logger_level st), false)   (* os.path.isabs raises *)
          end
      end
  end.

End Loading.

End Config.

(* ===================================================================== *)
(** ** [services/cache_manager.py]: the cleanup of old files *)
(* ===================================================================== *)

Module Os.

(** The entries of the directory at [k]: the name and the node of every
    location one component below it.  The order is the one the map
    lists them in; [os.scandir] promises none. *)
Definition children (ns : gmap (list string) FS.node) (k : list string)
    : list (string * FS.node) :=
  omap (fun kn : list string * FS.node =>
          if bool_decide (fst kn <> [] /\ removelast (fst kn) = k)
          then Some (List.last (fst kn) "", snd kn) else None)
       (map_to_list ns).

(** [os.scandir(path)], read to its end; [None] when it raises: the
    path does not resolve to a directory. *)
Definition scandir (f : FS.t) (path : string) : option (list (string * FS.node)) :=
  match FS.locate f (Path.of_str path) with
  | Some k => if FS.is_dir (FS.nodes f) k then Some (children (FS.nodes f) k) else None
  | None => None
  end.

End Os.

(** [float - n] for an integer [n]: the conversion of [n] raises
    [OverflowError] beyond the range of a float. *)
Definition fits_float (n : Z) : bool := (Z.abs n <? 2 ^ 1024 - 2 ^ 970)%Z.

Section Cleanup.

(** [time.time()], in microseconds like the times of the files. *)
Variable now : Z.

(** [time.time() - (cache_days * 24 * 60 * 60)]; [None] when the
    arithmetic raises. *)
Definition cutoff_of (cache_days : value) : option Z :=
  let minus (d : Z) :=
    if fits_float (d * 24 * 60 * 60) then Some (now - d * 24 * 60 * 60 * 1000000)%Z
    else None in
  match cache_days with
  | VInt d => minus d
  | VBool b => minus (if b then 1 else 0)%Z
  | _ => None
  end.

Variable cutoff_time : Z.

(** The [for entry in scanner] loop of one directory. *)
Fixpoint scan_entries (current_dir : string) (entries : list (string * FS.node))
    (stack : list string) (f : FS.t) (cleaned_count : nat)
    : list string * FS.t * nat :=
  match entries with
  | [] => (stack, f, cleaned_count)
  | (name, node) :: rest =>
      let path := Py_text.os_path_join current_dir name in
      match node with
      | FS.Dir _ => scan_entries current_dir rest (stack ++ [path]) f cleaned_count
      | FS.File _ stat =>
          match FS.st_atime stat with
          | None => scan_entries current_dir rest stack f cleaned_count
          | Some atime =>
              let last_access :=
                if (atime <? FS.st_mtime stat)%Z then FS.st_mtime stat else atime in
              if (last_access <? cutoff_time)%Z then
                match FS.unlink f (Path.of_str path) with
                | Some f' => scan_entries current_dir rest stack f' (S cleaned_count)
                | None => scan_entries current_dir rest stack f cleaned_count
                end
              else scan_entries current_dir rest stack f cleaned_count
          end
      end
  end.

(** One round of [while stack]: the last path is popped and scanned; a
    directory that cannot be scanned is skipped. *)
Definition scan_round (stack : list string) (f : FS.t) (cleaned_count : nat)
    : list string * FS.t * nat :=
  let current_dir := List.last stack "" in
  let stack' := removelast stack in
  match Os.scandir f current_dir with
  | Some entries => scan_entries current_dir entries stack' f cleaned_count
  | None => (stack', f, cleaned_count)
  end.

(** The [while stack] loop, for at most [fuel] rounds; [None] when the
    stack is not empty by then. *)
Fixpoint scan_loop (fuel : nat) (stack : list string) (f : FS.t) (cleaned_count : nat)
    : option (FS.t * nat) :=
  match stack with
  | [] => Some (f, cleaned_count)
  | _ :: _ =>
      match fuel with
      | O => None
      | S fuel' =>
          let '(stack', f', cleaned_count') := scan_round stack f cleaned_count in
          scan_loop fuel' stack' f' cleaned_count'
      end
  end.

End Cleanup.

(** [clean_old_cache()], its loop run for at most [fuel] rounds.
    [error_text v] is the text of the exception the interpreter raises
    when [v] is used where a value of its type cannot be: as the argument
    of [Path], or as a number of days. *)
Definition clean_old_cache (error_text : value -> string) (CONFIG : gmap string value)
    (now : Z) (fuel : nat) (w : World) : option World :=
  if negb (truthy (get_config CONFIG "cache_retention_enabled" (VBool true)))
  then Some w
  else
    let storage_path_str := get_config CONFIG "storage_path_resolved" VNone in
    if negb (truthy storage_path_str) then Some w
    else
      match storage_path_str with
      | VStr s =>
          let storage_path := Path.of_str s in
          let cache_days := get_config CONFIG "cache_days" (VInt 7) in
          match cutoff_of now cache_days with
          | Some cutoff_time =>
              match scan_loop cutoff_time fuel [Path.str storage_path] (fs w) 0 with
              | Some (f', cleaned_count) =>
                  let w' := set_fs w f' in
                  Some (if (0 <? cleaned_count)%nat
                        then add_log ("Cleanup: Removed " ++ pretty cleaned_count
                                      ++ " old files") "INFO" w'
                        else w')
              | None => None
              end
          | None =>
              Some (add_log ("Error during cache cleanup: " ++ error_text cache_days)
                      "ERROR" w)
          end
      | _ =>
          Some (add_log ("Error during cache cleanup: " ++ error_text storage_path_str)
                  "ERROR" w)
      end.

(* ===================================================================== *)
(** ** [services/stats.py]: the statistics of the cached files *)
(* ===================================================================== *)

(** [{'files': d_files, 'size': d_size}] *)
Record distro_stat : Type := mkDistroStat { ds_files : nat; ds_size : nat }.

(** [FILE_STATS]; the dictionary [distro_stats] as the list of its items
    in the order of insertion. *)
Record file_stats : Type := mkFileStats {
  total_files : nat;
  total_size : nat;
  distro_stats : list (string * distro_stat)
}.

(** [d[key] = v]. *)
Fixpoint dict_set {V : Type} (d : list (string * V)) (key : string) (v : V)
    : list (string * V) :=
  match d with
  | [] => [(key, v)]
  | (k, v0) :: rest =>
      if String.eqb k key then (k, v) :: rest else (k, v0) :: dict_set rest key v
  end.

Section FileStats.

Variable f : FS.t.

(** The [for item in scanner] loop of one directory; [st_size] is the
    number of bytes of the file. *)
Fixpoint count_items (current_dir : string) (items : list (string * FS.node))
    (stack : list string) (d_files d_size : nat) : list string * nat * nat :=
  match items with
  | [] => (stack, d_files, d_size)
  | (name, node) :: rest =>
      match node with
      | FS.File content _ =>
          count_items current_dir rest stack (d_files + 1)
            (d_size + String.length content)
      | FS.Dir _ =>
          count_items current_dir rest
            (stack ++ [Py_text.os_path_join current_dir name]) d_files d_size
      end
  end.

(** One round of [while stack]; a directory that cannot be scanned is
    passed over. *)
Definition count_round (stack : list string) (d_files d_size : nat)
    : list string * nat * nat :=
  let current_dir := List.last stack "" in
  let stack' := removelast stack in
  match Os.scandir f current_dir with
  | Some items => count_items current_dir items stack' d_files d_size
  | None => (stack', d_files, d_size)
  end.

(** The [while stack] loop, for at most [fuel] rounds; [None] when the
    stack is not empty by then. *)
Fixpoint count_loop (fuel : nat) (stack : list string) (d_files d_size : nat)
    : option (nat * nat) :=
  match stack with
  | [] => Some (d_files, d_size)
  | _ :: _ =>
      match fuel with
      | O => None
      | S fuel' =>
          let '(stack', d_files', d_size') := count_round stack d_files d_size in
          count_loop fuel' stack' d_files' d_size'
      end
  end.

(** The [for entry in it] loop over the storage directory, each inner
    loop run for at most [fuel] rounds. *)
Fixpoint count_distros (fuel : nat) (storage : string)
    (entries : list (string * FS.node)) (acc : file_stats) : option file_stats :=
  match entries with
  | [] => Some acc
  | (name, node) :: rest =>
      if is_dir_node node && negb (Py.startswith name ".") then
        match count_loop fuel [Py_text.os_path_join storage name] 0 0 with
        | Some (d_files, d_size) =>
            count_distros fuel storage rest
              (mkFileStats (total_files acc + d_files) (total_size acc + d_size)
                 (dict_set (distro_stats acc) name (mkDistroStat d_files d_size)))
        | None => None
        end
      else count_distros fuel storage rest acc
  end.

End FileStats.

(** [update_file_stats()]: what [FILE_STATS] is afterwards, the loops run
    for at most [fuel] rounds each.  An exception leaves it as it was. *)
Definition update_file_stats (CONFIG : gmap string value) (fuel : nat) (f : FS.t)
    (FILE_STATS : file_stats) : option file_stats :=
  let storage_path_str := get_config CONFIG "storage_path_resolved" VNone in
  if truthy storage_path_str then
    match storage_path_str with
    | VStr s =>
        let storage_path := Path.of_str s in
        if FS.exists_ f storage_path then
          match Os.scandir f (Path.str storage_path) with
          | Some entries =>
              count_distros f fuel (Path.str storage_path) entries (mkFileStats 0 0 [])
          | None => Some FILE_STATS
          end
        else Some (mkFileStats 0 0 [])
    | _ => Some FILE_STATS
    end
  else Some (mkFileStats 0 0 []).

(** The sum of [g] over the contents of the regular files at or below a
    location. *)
Definition file_weight (g : string -> nat) (n : FS.node) : nat :=
  match n with
  | FS.File content _ => g content
  | FS.Dir _ => 0%nat
  end.

Definition weight_under (g : string -> nat) (ns : gmap (list string) FS.node)
    (k : list string) : nat :=
  list_sum (map (fun kn : list string * FS.node =>
                   if bool_decide (k `prefix_of` fst kn) then file_weight g (snd kn)
                   else 0%nat)
              (map_to_list ns)).

(** The number of regular files below a location, and their bytes. *)
Definition files_under (ns : gmap (list string) FS.node) (k : list string) : nat :=
  weight_under (fun _ => 1%nat) ns k.

Definition bytes_under (ns : gmap (list string) FS.node) (k : list string) : nat :=
  weight_under String.length ns k.

(** The directories waiting on the stack, and what is still to be counted
    below them. *)
Definition dirs_waiting (ns : gmap (list string) FS.node) (cwd0 : list string)
    (stack : list string) : Prop :=
  Forall (fun p => exists k, FS.locate (FS.mk ns cwd0) (Path.of_str p) = Some k /\
                             FS.is_dir ns k = true) stack.

Definition weight_waiting (g : string -> nat) (ns : gmap (list string) FS.node)
    (cwd0 : list string) (stack : list string) : nat :=
  list_sum (map (fun p => match FS.locate (FS.mk ns cwd0) (Path.of_str p) with
                          | Some k => weight_under g ns k
                          | None => 0%nat
                          end) stack).

(** The entries of the storage directory that get statistics: the
    directories whose names do not start with a dot. *)
Definition counted (e : string * FS.node) : bool :=
  is_dir_node (snd e) && negb (Py.startswith (fst e) ".").

(** The statistics due to such an entry of the directory at [sk]. *)
Definition stat_of (ns : gmap (list string) FS.node) (sk : list string)
    (e : string * FS.node) : string * distro_stat :=
  (fst e, mkDistroStat (files_under ns (sk ++ [fst e])%list)
                       (bytes_under ns (sk ++ [fst e])%list)).

(** Manual caching of [hello_2.10.deb] from the one mirror of
    [SearchScenario], with a disk that takes every write. *)
Module ManualScenario.

Definition disk (i : nat) : write_outcome := WriteDone.

Definition broken_net (u : string) (hs : list (string * string)) : get_result :=
  if String.eqb u CacheScenario.url then Responds BrokenStreamScenario.upstream
  else RaisesRequestException "no route to host".

Definition manual (pats : list string)
    (net : string -> list (string * string) -> get_result) (w : World)
    : World * manual_result :=
  manual_cache_package Scenario.CONFIG 5 Scenario.utc Scenario.no_regex pats net
    SearchScenario.get_upstream_key SearchScenario.get_all_mirrors disk
    "debian" Scenario.hello w.

(** The three failing mirrors of [FailoverScenario], for a request for
    [x.deb]. *)
Definition failing_mirrors : gmap string (list string) :=
  <["debian" := ["http://a.example"; "http://b.example"; "http://c.example"]]> ∅.

Definition manual_failing (w : World) : World * manual_result :=
  manual_cache_package Scenario.CONFIG 5 Scenario.utc Scenario.no_regex [] FailoverScenario.net
    SearchScenario.get_upstream_key failing_mirrors disk "debian" "x.deb" w.

End ManualScenario.

(** An installation under [/app] that has no config file yet, with
    stand-ins for the JSON codec and a logger that knows the standard level
    names. *)
Module ConfigScenario.

Definition json_load (text : string) : option (gmap string value) :=
  Some (<["port" := VInt 9000]> ∅).

Definition json_dump (obj : gmap string value) : string := "{}".

Definition set_level (v : value) : bool :=
  match v with
  | VStr s => Py.list_in s ["CRITICAL"; "ERROR"; "WARNING"; "INFO"; "DEBUG"]
  | _ => false
  end.

Definition tree : FS.t :=
  FS.mk (<[ ["app"] := FS.Dir Scenario.m0 ]> (<[ [] := FS.Dir Scenario.m0 ]> ∅)) [].

Definition st0 : Config.state := Config.mk ∅ tree (VStr "WARNING").

Definition save (key : string) (v : value) (st : Config.state) : Config.state * bool :=
  Config.save_config_value (Path.of_str "/app") json_load json_dump set_level 5 WriteDone
    key v st.

Definition load (st : Config.state) : Config.state * bool :=
  Config.load_config (Path.of_str "/app") false json_load json_dump set_level 5 WriteDone
    st.

End ConfigScenario.

(** A cache under [/srv/storage] looked at on the eighth day, with seven
    days of retention: a file last used in the first hour, a file used on
    the seventh day, a file rewritten on the seventh day, and an old file
    outside the storage directory. *)
Module CleanupScenario.

Definition day : Z := 24 * 60 * 60 * 1000000.

Definition now : Z := 8 * day.

Definition old : FS.meta := FS.mkMeta (Some 100%Z) 100%Z.

Definition used : FS.meta := FS.mkMeta (Some (7 * day)%Z) 100%Z.

Definition rewritten : FS.meta := FS.mkMeta (Some 100%Z) (7 * day)%Z.

Definition tree : FS.t :=
  FS.mk (<[ ["srv"; "storage"; "debian"; "old.deb"] := FS.File "old" old ]>
        (<[ ["srv"; "storage"; "debian"; "used.deb"] := FS.File "used" used ]>
        (<[ ["srv"; "storage"; "debian"; "rewritten.deb"] := FS.File "new" rewritten ]>
        (<[ ["srv"; "storage"; "debian"] := FS.Dir old ]>
        (<[ ["srv"; "secret.txt"] := FS.File "top secret" old ]>
        (<[ ["srv"; "storage"] := FS.Dir old ]>
        (<[ ["srv"] := FS.Dir old ]>
        (<[ [] := FS.Dir old ]> ∅)))))))) [].

Definition world : World := mkWorld tree 0 [] [].

Definition error_text (v : value) : string := "unsupported operand".

Definition clean (fuel : nat) : option World :=
  clean_old_cache error_text Scenario.CONFIG now fuel world.

End CleanupScenario.

(** A storage directory with two distributions, a hidden directory and a
    file of its own. *)
Module StatsScenario.

Definition m0 : FS.meta := Scenario.m0.

Definition tree : FS.t :=
  FS.mk (<[ ["srv"; "storage"; "ubuntu"; "ab"; "c.deb"] := FS.File "ubuntu" m0 ]>
        (<[ ["srv"; "storage"; "ubuntu"; "ab"] := FS.Dir m0 ]>
        (<[ ["srv"; "storage"; "ubuntu"] := FS.Dir m0 ]>
        (<[ ["srv"; "storage"; "debian"; "b.deb"] := FS.File "de" m0 ]>
        (<[ ["srv"; "storage"; "debian"; "a.deb"] := FS.File "abc" m0 ]>
        (<[ ["srv"; "storage"; "debian"] := FS.Dir m0 ]>
        (<[ ["srv"; "storage"; ".tmp"; "x.tmp"] := FS.File "partial" m0 ]>
        (<[ ["srv"; "storage"; ".tmp"] := FS.Dir m0 ]>
        (<[ ["srv"; "storage"; "README"] := FS.File "read me" m0 ]>
        (<[ ["srv"; "storage"] := FS.Dir m0 ]>
        (<[ ["srv"] := FS.Dir m0 ]>
        (<[ [] := FS.Dir m0 ]> ∅)))))))))))) [].

Definition update (fuel : nat) : option file_stats :=
  update_file_stats Scenario.CONFIG fuel tree (mkFileStats 7 7 []).

End StatsScenario.

(* ===================================================================== *)
(** * Properties *)
(* ===================================================================== *)

(** ** Strings and lists *)

Lemma startswith_empty (s : string) : Py.startswith s "" = true.
Proof. destruct s; reflexivity. Qed.

Lemma contains_empty (hay : string) : Py.contains "" hay = true.
Proof. destruct hay; reflexivity. Qed.

Lemma list_in_true (x : string) (l : list string) :
  Py.list_in x l = true <-> In x l.
Proof.
  induction l as [|y l IH]; simpl.
  - split; [discriminate | tauto].
  - rewrite orb_true_iff, IH, String.eqb_eq. split; intros [H | H]; auto.
Qed.

Lemma list_in_app (x : string) (l1 l2 : list string) :
  Py.list_in x (l1 ++ l2)%list = Py.list_in x l1 || Py.list_in x l2.
Proof.
  induction l1 as [|y l1 IH]; simpl; [reflexivity|].
  rewrite IH. apply orb_assoc.
Qed.

Lemma list_remove_fresh_snoc (x : string) (l : list string) :
  Py.list_in x l = false -> Py.list_remove x (l ++ [x])%list = l.
Proof.
  induction l as [|y l IH]; simpl; intros H.
  - rewrite String.eqb_refl. reflexivity.
  - apply orb_false_iff in H as [Hxy Hl].
    rewrite Hxy. f_equal. apply IH, Hl.
Qed.

(** ** Blacklist matcher *)

Definition scenario_patterns : list string := ["*-doc_*.deb"; "translations"].

(** C4 as stated fails: the plain pattern [translations] is not a substring
    of [i18n/translation-en.gz], whatever the regex engine does outside the
    modelled fragment. *)
Lemma blacklist_scenario_counterexample :
  ~ exists re,
      is_blacklisted re scenario_patterns "vim-doc_9.0.deb" = true /\
      is_blacklisted re scenario_patterns "i18n/Translation-en.gz" = true /\
      is_blacklisted re scenario_patterns "hello_2.10.deb" = false.
Proof.
  intros [re (_ & H & _)]. vm_compute in H. discriminate H.
Qed.

(** C4 (amended): with the patterns [*-doc_*.deb] and [translations], the
    name [vim-doc_9.0.deb] is blacklisted, while [i18n/Translation-en.gz]
    and [hello_2.10.deb] are not. *)
Theorem blacklist_scenario (re : string -> string -> option bool) :
  is_blacklisted re scenario_patterns "vim-doc_9.0.deb" = true /\
  is_blacklisted re scenario_patterns "i18n/Translation-en.gz" = false /\
  is_blacklisted re scenario_patterns "hello_2.10.deb" = false.
Proof. repeat split; vm_compute; reflexivity. Qed.

(** C8 as stated fails: when the pattern is already listed the add changes
    nothing and the remove takes the original entry away. *)
Lemma add_remove_counterexample :
  ~ forall (re : string -> string -> option bool) (pats : list string) (p f : string),
      is_blacklisted re
        (fst (remove_blacklist_pattern DbDone p
                (fst (add_blacklist_pattern DbDone p pats)))) f
      = is_blacklisted re pats f.
Proof.
  intros H.
  specialize (H (fun _ _ => None) ["foo"] "foo" "foo.deb").
  vm_compute in H. discriminate H.
Qed.

(** C8 (amended): for every blacklist and every pattern [p] that is not
    already in it, a successful add of [p] followed by a successful remove
    of [p] gives back the same list, so [is_blacklisted] answers as before
    on every filename. *)
Theorem add_remove_restores
    (re : string -> string -> option bool) (db1 db2 : db_outcome)
    (pats : list string) (p : string) :
  Py.list_in p pats = false ->
  snd (add_blacklist_pattern db1 p pats) = true ->
  snd (remove_blacklist_pattern db2 p (fst (add_blacklist_pattern db1 p pats))) = true ->
  fst (remove_blacklist_pattern db2 p (fst (add_blacklist_pattern db1 p pats))) = pats /\
  forall f,
    is_blacklisted re
      (fst (remove_blacklist_pattern db2 p (fst (add_blacklist_pattern db1 p pats)))) f
    = is_blacklisted re pats f.
Proof.
  intros Hfresh Hadd Hrem.
  assert (Hlist :
    fst (remove_blacklist_pattern db2 p (fst (add_blacklist_pattern db1 p pats))) = pats).
  { destruct db1; [|discriminate Hadd].
    cbn [add_blacklist_pattern fst] in *. rewrite Hfresh in *. cbn [negb] in *.
    destruct db2; [|discriminate Hrem].
    cbn [remove_blacklist_pattern fst].
    rewrite list_in_app, Hfresh. cbn [Py.list_in orb].
    rewrite String.eqb_refl. cbn [orb].
    apply list_remove_fresh_snoc, Hfresh. }
  split; [exact Hlist|]. intros f. rewrite Hlist. reflexivity.
Qed.

Lemma add_remove_restores_witness :
  Py.list_in "*.iso" ["translations"] = false /\
  fst (remove_blacklist_pattern DbDone "*.iso"
         (fst (add_blacklist_pattern DbDone "*.iso" ["translations"])))
  = ["translations"].
Proof.
  split; [reflexivity|].
  apply (add_remove_restores (fun _ _ => None) DbDone DbDone ["translations"] "*.iso");
    reflexivity.
Defined.

Lemma is_blacklisted_empty_pattern
    (re : string -> string -> option bool) (pats : list string) (f : string) :
  In "" pats -> is_blacklisted re pats f = true.
Proof.
  induction pats as [|p pats IH]; intros Hin; [destruct Hin|].
  cbn [is_blacklisted].
  destruct (pattern_matches re p f) eqn:Hm; [reflexivity|].
  destruct Hin as [-> | Hin]; [|apply IH, Hin].
  unfold pattern_matches in Hm. cbn in Hm.
  rewrite contains_empty in Hm. discriminate Hm.
Qed.

(** ** World bookkeeping *)

Lemma fs_add_log (msg lvl : string) (w : World) : fs (add_log msg lvl w) = fs w.
Proof. reflexivity. Qed.

Lemma fs_record_request (url : string) (w : World) : fs (record_request url w) = fs w.
Proof. reflexivity. Qed.

Lemma fs_add_bytes (n : Z) (w : World) : fs (add_bytes n w) = fs w.
Proof. reflexivity. Qed.

Lemma requests_sent_add_log (msg lvl : string) (w : World) :
  requests_sent (add_log msg lvl w) = requests_sent w.
Proof. reflexivity. Qed.

(** [stream_and_cache] itself never touches the file system: only the
    caching generator it may return does. *)
Lemma try_urls_fs
    (net : string -> list (string * string) -> get_result) (cp : Path.t)
    (hs : list (string * string)) (sc : bool) (urls : list string) :
  forall (le : option string) (w : World),
    fs (fst (try_urls net cp hs sc urls le w)) = fs w.
Proof.
  induction urls as [|url urls IH]; intros le w; cbn [try_urls]; [reflexivity|].
  destruct (net url hs) as [r| |msg|msg]; try (rewrite IH; reflexivity); [|reflexivity].
  repeat (match goal with |- context [if ?b then _ else _] => destruct b end;
          try reflexivity; try (rewrite IH; reflexivity)).
  destruct (Path.with_suffix cp ".tmp"); reflexivity.
Qed.

Lemma try_urls_no_cache
    (net : string -> list (string * string) -> get_result) (cp : Path.t)
    (hs : list (string * string)) (urls : list string) :
  forall (le : option string) (w : World) (r : Response) (g : cached_gen),
    snd (try_urls net cp hs false urls le w) = Returns r ->
    resp_body r <> BodyCached g.
Proof.
  induction urls as [|url urls IH]; intros le w r g; cbn [try_urls snd].
  - intros [= <-]. discriminate.
  - destruct (net url hs) as [u| |msg|msg]; try (apply IH); [|discriminate].
    repeat (match goal with |- context [if ?b then _ else _] => destruct b end;
            try (apply IH); try (cbn [snd]; intros [= <-]; discriminate)).
Qed.

Lemma plain_next_fs (rest : list iter_event) (w : World) :
  fs (fst (fst (plain_next rest w))) = fs w.
Proof.
  induction rest as [|[data|msg] rest IH]; cbn [plain_next]; try reflexivity.
  destruct (String.eqb data ""); [apply IH | reflexivity].
Qed.

(** C10: while the blacklist holds the empty pattern, [is_blacklisted] is
    true of every filename; hence [stream_and_cache] never hands out the
    caching generator, leaves the file system as it is, and the streaming
    generator it uses instead writes no file. *)
Theorem empty_pattern_blocks_caching
    (re : string -> string -> option bool) (pats : list string) :
  In "" pats ->
  (forall f, is_blacklisted re pats f = true) /\
  (forall net urls cp hs w,
      fs (fst (stream_and_cache re pats net urls cp hs w)) = fs w /\
      forall r g,
        snd (stream_and_cache re pats net urls cp hs w) = Returns r ->
        resp_body r <> BodyCached g) /\
  (forall rest w, fs (fst (fst (plain_next rest w))) = fs w).
Proof.
  intros Hin. split; [|split].
  - intros f. apply is_blacklisted_empty_pattern, Hin.
  - intros net urls cp hs w. unfold stream_and_cache.
    rewrite (is_blacklisted_empty_pattern re pats _ Hin). cbn [negb].
    split.
    + rewrite try_urls_fs. apply fs_add_log.
    + intros r g. apply try_urls_no_cache.
  - apply plain_next_fs.
Qed.

Lemma empty_pattern_blocks_caching_witness :
  In "" ["*.iso"; ""] /\
  forall f, is_blacklisted Scenario.no_regex ["*.iso"; ""] f = true.
Proof.
  assert (H : In "" ["*.iso"; ""]) by (right; left; reflexivity).
  split; [exact H|].
  exact (proj1 (empty_pattern_blocks_caching Scenario.no_regex ["*.iso"; ""] H)).
Defined.

(** ** Cache admin *)

Lemma exists_stat (f : FS.t) (p : Path.t) :
  FS.exists_ f p = true <-> exists st, FS.stat f p = Some st.
Proof.
  unfold FS.exists_, FS.stat.
  destruct (FS.lookup f p) as [[m|c m]|]; split; intros H;
    try reflexivity; try discriminate H; eauto.
  destruct H as [st H]. discriminate H.
Qed.

(** When local time has the same offset from UTC now and at the last
    access, the answer goes by the time that has passed: [false] when
    nothing exists at the path, [true] for whatever exists when retention
    is disabled, and otherwise [true] exactly when the time since the last
    access is less than [cache_days] days. *)
Lemma is_cache_valid_same_offset
    (CONFIG : gmap string value) (now : Z) (utcoffset : Z -> Z) (p : Path.t) (w : World) :
  (FS.exists_ (fs w) p = false -> is_cache_valid CONFIG now utcoffset p w = Some false) /\
  (FS.exists_ (fs w) p = true ->
   truthy (get_config CONFIG "cache_retention_enabled" (VBool true)) = false ->
   is_cache_valid CONFIG now utcoffset p w = Some true) /\
  (forall (st : FS.meta) (cache_days : Z),
     FS.stat (fs w) p = Some st ->
     truthy (get_config CONFIG "cache_retention_enabled" (VBool true)) = true ->
     get_config CONFIG "cache_days" (VInt 7) = VInt cache_days ->
     (Z.abs cache_days <= 999999999)%Z ->
     utcoffset (last_access st) = utcoffset now ->
     exists b,
       is_cache_valid CONFIG now utcoffset p w = Some b /\
       (b = true <-> (now - last_access st < cache_days * 86400000000)%Z)).
Proof.
  split; [|split].
  - intros He. unfold is_cache_valid. rewrite He. reflexivity.
  - intros He Hr. unfold is_cache_valid. rewrite He, Hr. reflexivity.
  - intros st d Hst Hr Hd Hrange Hoff.
    assert (He : FS.exists_ (fs w) p = true) by (apply exists_stat; eauto).
    unfold is_cache_valid. rewrite He, Hr, Hst, Hd. cbn [negb timedelta_days].
    apply Z.leb_le in Hrange. rewrite Hrange.
    eexists; split; [reflexivity|].
    unfold last_access in *. rewrite Z.ltb_lt.
    destruct (FS.st_atime st); lia.
Qed.

(** C7, the code across a change of the clocks: in a zone that leaves
    summer time on 27 October 2024, a file last read the day before is
    checked seven days and thirty minutes later, with seven days of
    retention.  More than [cache_days] days have passed, yet
    [is_cache_valid] answers [True]: it subtracts two local wall-clock
    times, and the hour the clocks went back is missing from their
    difference. *)
Theorem is_cache_valid_dst :
  let p := Path.of_str "/srv/storage/debian/ab/abcd_x.deb" in
  truthy (get_config Scenario.CONFIG "cache_retention_enabled" (VBool true)) = true /\
  get_config Scenario.CONFIG "cache_days" (VInt 7) = VInt 7 /\
  FS.stat DstScenario.tree p
  = Some (FS.mkMeta (Some DstScenario.atime) DstScenario.atime) /\
  (DstScenario.now - DstScenario.atime = 7 * 86400000000 + 1800000000)%Z /\
  DstScenario.utcoffset DstScenario.atime = (2 * 3600000000)%Z /\
  DstScenario.utcoffset DstScenario.now = 3600000000%Z /\
  is_cache_valid Scenario.CONFIG DstScenario.now DstScenario.utcoffset p DstScenario.world
  = Some true.
Proof. vm_compute. repeat split; reflexivity. Qed.

(** C1, the code at a traversal: with the storage root [/srv/storage],
    [delete_cached_file("../secret.txt")] passes the prefix test (the joined
    path keeps its double dot: [/srv/storage/../secret.txt]), returns [True]
    and unlinks [/srv/secret.txt], a file outside the storage root. *)
Theorem delete_cached_file_traversal :
  let rel := "../secret.txt" in
  let target := Path.of_str "/srv/storage" // rel in
  let r := delete_cached_file Scenario.CONFIG rel Scenario.world in
  lies_under Scenario.tree (Path.of_str "/srv/storage") target = false /\
  Path.str target = "/srv/storage/../secret.txt" /\
  FS.read Scenario.tree (Path.of_str "/srv/secret.txt") = Some "top secret" /\
  snd r = true /\
  FS.exists_ (fs (fst r)) (Path.of_str "/srv/secret.txt") = false.
Proof. vm_compute. repeat split; reflexivity. Qed.

(** ** Mirror failover *)

Lemma mirror_fails_recorded (r : get_result) :
  mirror_fails r = true -> exists e, recorded_error r = Some e.
Proof.
  destruct r as [u| |msg|msg]; cbn; intros H; try discriminate H; eauto.
  apply Z.leb_le in H.
  destruct (status_code u =? 404)%Z; [eauto|].
  destruct (status_code u =? 200)%Z eqn:E1; [apply Z.eqb_eq in E1; lia|].
  destruct (status_code u =? 206)%Z eqn:E2; [apply Z.eqb_eq in E2; lia|].
  destruct (status_code u =? 304)%Z eqn:E3; [apply Z.eqb_eq in E3; lia|].
  cbn. eauto.
Qed.

Lemma last_cons_default {A : Type} (x : A) (l : list A) (d d' : A) :
  List.last (x :: l) d = List.last (x :: l) d'.
Proof.
  revert x. induction l as [|y l IH]; intros x; [reflexivity|].
  change (List.last (y :: l) d = List.last (y :: l) d'). apply IH.
Qed.

Section Failover.

Variable net : string -> list (string * string) -> get_result.
Variable cp : Path.t.
Variable hs : list (string * string).
Variable sc : bool.

(** One failing mirror: its error becomes [last_error], the request is on
    record, the loop goes on. *)
Lemma try_urls_recorded (url : string) (urls : list string)
    (le : option string) (w : World) (e : string) :
  recorded_error (net url hs) = Some e ->
  try_urls net cp hs sc (url :: urls) le w
  = try_urls net cp hs sc urls (Some e) (record_request url w).
Proof.
  intros H. cbn [try_urls].
  destruct (net url hs) as [u| |msg|msg]; cbn in H.
  - destruct (status_code u =? 404)%Z; [congruence|].
    destruct ((status_code u =? 200)%Z || (status_code u =? 206)%Z
              || (status_code u =? 304)%Z); [discriminate H|congruence].
  - congruence.
  - congruence.
  - discriminate H.
Qed.

(** An answer that records no error ends the loop at that mirror. *)
Lemma try_urls_stops (url : string) (urls : list string)
    (le : option string) (w : World) :
  recorded_error (net url hs) = None ->
  requests_sent (fst (try_urls net cp hs sc (url :: urls) le w))
  = (requests_sent w ++ [url])%list.
Proof.
  intros H. cbn [try_urls].
  destruct (net url hs) as [u| |msg|msg]; cbn in H; try discriminate H; [|reflexivity].
  destruct (status_code u =? 404)%Z; [discriminate H|].
  destruct ((status_code u =? 200)%Z || (status_code u =? 206)%Z
            || (status_code u =? 304)%Z); [|discriminate H].
  destruct (status_code u =? 304)%Z; [reflexivity|].
  destruct (status_code u =? 206)%Z; [reflexivity|].
  destruct sc; [|reflexivity].
  destruct (Path.with_suffix cp ".tmp"); reflexivity.
Qed.

Lemma try_urls_failing_prefix (pre : list string) :
  forall (rest : list string) (le : option string) (w : World),
    Forall (fun url => mirror_fails (net url hs) = true) pre ->
    try_urls net cp hs sc (pre ++ rest)%list le w
    = try_urls net cp hs sc rest
        (List.last (map (fun url => recorded_error (net url hs)) pre) le)
        (mkWorld (fs w) (bytes_served w) (LOG_BUFFER w) (requests_sent w ++ pre)%list).
Proof.
  induction pre as [|url pre IH]; intros rest le w Hall.
  - cbn [app map List.last]. rewrite app_nil_r. destruct w; reflexivity.
  - inversion Hall as [|? ? Hu Hpre]; subst.
    destruct (mirror_fails_recorded _ Hu) as [e He].
    change ((url :: pre) ++ rest)%list with (url :: (pre ++ rest))%list.
    rewrite (try_urls_recorded _ _ _ _ _ He), (IH _ _ _ Hpre).
    cbn [record_request fs bytes_served LOG_BUFFER requests_sent].
    rewrite <- app_assoc. cbn [app]. f_equal.
    cbn [map]. rewrite He.
    destruct pre as [|url' pre']; [reflexivity|].
    cbn [map].
    change (List.last (Some e :: ?x :: ?l) le) with (List.last (x :: l) le).
    apply last_cons_default.
Qed.

End Failover.

(** C6: [stream_and_cache] asks the mirrors in the listed order.  A mirror
    that answers 404 or another status of 400 or more, times out or fails in
    transport has its error recorded and the next mirror is asked; the
    first answer that records no error ends the round there; and when every
    mirror fails the response is a 502 whose body carries the error of the
    last mirror. *)
Theorem mirror_failover
    (re : string -> string -> option bool) (pats : list string)
    (net : string -> list (string * string) -> get_result)
    (cp : Path.t) (hs : list (string * string)) (urls : list string) (w : World) :
  Forall (fun url => mirror_fails (net url hs) = true) urls ->
  (forall url, In url urls -> exists e, recorded_error (net url hs) = Some e) /\
  (forall url' post,
      recorded_error (net url' hs) = None ->
      requests_sent (fst (stream_and_cache re pats net (urls ++ url' :: post) cp hs w))
      = (requests_sent w ++ urls ++ [url'])%list) /\
  requests_sent (fst (stream_and_cache re pats net urls cp hs w))
  = (requests_sent w ++ urls)%list /\
  snd (stream_and_cache re pats net urls cp hs w)
  = Returns (mkResponse 502 []
               (BodyText ("All upstream mirrors failed. Last error: "
                          ++ fmt_error (List.last
                                          (map (fun url => recorded_error (net url hs)) urls)
                                          None)))
               false).
Proof.
  intros Hall. split; [|split; [|split]].
  - intros url Hin. apply mirror_fails_recorded.
    rewrite Forall_forall in Hall. apply Hall. apply list_elem_of_In, Hin.
  - intros url' post Hstop. unfold stream_and_cache.
    rewrite (try_urls_failing_prefix net cp hs _ urls _ _ _ Hall).
    rewrite (try_urls_stops net cp hs _ _ _ _ _ Hstop).
    cbn [requests_sent]. rewrite <- app_assoc.
    destruct (negb _); reflexivity.
  - unfold stream_and_cache.
    rewrite <- (app_nil_r urls) at 1.
    rewrite (try_urls_failing_prefix net cp hs _ urls _ _ _ Hall).
    cbn [try_urls fst requests_sent add_log].
    destruct (negb _); reflexivity.
  - unfold stream_and_cache.
    rewrite <- (app_nil_r urls) at 1.
    rewrite (try_urls_failing_prefix net cp hs _ urls _ _ _ Hall).
    reflexivity.
Qed.

Lemma mirror_failover_witness :
  Forall (fun url => mirror_fails (FailoverScenario.net url []) = true)
    FailoverScenario.urls /\
  snd (stream_and_cache Scenario.no_regex [] FailoverScenario.net FailoverScenario.urls
         (Path.of_str "/srv/storage/debian/ab/abcd_x.deb") [] Scenario.world)
  = Returns (mkResponse 502 []
               (BodyText "All upstream mirrors failed. Last error: HTTP 503") false).
Proof.
  assert (H : Forall (fun url => mirror_fails (FailoverScenario.net url []) = true)
                FailoverScenario.urls).
  { repeat constructor. }
  split; [exact H|].
  exact (proj2 (proj2 (proj2
    (mirror_failover Scenario.no_regex [] FailoverScenario.net
       (Path.of_str "/srv/storage/debian/ab/abcd_x.deb") [] FailoverScenario.urls
       Scenario.world H)))).
Defined.

(** ** Index search *)

Lemma append_matches_spec (ms : list hit) :
  forall (rs : list hit) (count : nat),
    (count < limit)%nat ->
    append_matches ms rs count
    = ((rs ++ take (limit - count) ms)%list,
       (count + Nat.min (limit - count) (length ms))%nat,
       bool_decide (limit - count <= length ms)%nat).
Proof.
  induction ms as [|m ms IH]; intros rs count Hlt; cbn [append_matches].
  - rewrite take_nil, app_nil_r, Nat.min_0_r, Nat.add_0_r.
    rewrite bool_decide_eq_false_2 by (cbn [length]; lia). reflexivity.
  - destruct (limit <=? S count)%nat eqn:Hcap.
    + apply Nat.leb_le in Hcap.
      replace (limit - count)%nat with 1%nat by lia.
      cbn [take length]. rewrite take_0.
      rewrite bool_decide_eq_true_2 by lia.
      f_equal. f_equal. lia.
    + apply Nat.leb_gt in Hcap.
      rewrite IH by lia.
      replace (limit - count)%nat with (S (limit - S count)) by lia.
      cbn [take length]. rewrite <- app_assoc. cbn [app].
      f_equal; [f_equal; lia|].
      apply bool_decide_ext. lia.
Qed.

Section ScanCap.

Variable CONFIG : gmap string value.
Variable now : Z.
Variable utcoffset : Z -> Z.
Variable gzip_open : string -> list read_event.
Variable open_text : string -> list read_event.
Variable distro : string.
Variable query : string.

Local Abbreviation scanF := (scan_files CONFIG now utcoffset gzip_open open_text distro query).
Local Abbreviation scanW := (scan_walk CONFIG now utcoffset gzip_open open_text distro query).
Local Abbreviation allF := (all_file_matches CONFIG now utcoffset gzip_open open_text distro query).
Local Abbreviation allM := (all_matches CONFIG now utcoffset gzip_open open_text distro query).

Lemma scan_files_spec (root : string) (files : list string) :
  forall (rs : list hit) (count : nat) (w : World),
    (count < limit)%nat ->
    let all := snd (allF root files w) in
    let r := scanF root files rs count w in
    snd (fst (fst r)) = (rs ++ take (limit - count) all)%list /\
    snd (fst r) = (count + Nat.min (limit - count) (length all))%nat /\
    snd r = bool_decide (limit - count <= length all)%nat /\
    (snd r = false -> fst (fst (fst r)) = fst (allF root files w)).
Proof.
  induction files as [|filename files IH]; intros rs count w Hlt.
  - cbn [scan_files all_file_matches fst snd length].
    rewrite take_nil, app_nil_r, Nat.min_0_r, Nat.add_0_r.
    rewrite bool_decide_eq_false_2 by lia. auto.
  - cbn [scan_files all_file_matches].
    destruct (Py.contains "Packages" filename && Py.contains "Packages" (real_name filename)).
    2: { apply IH, Hlt. }
    destruct (parse_packages_file CONFIG now utcoffset gzip_open open_text distro query
                (Py_text.os_path_join root filename) w) as [w' fm] eqn:Hparse.
    rewrite (append_matches_spec fm rs count Hlt).
    destruct (decide (limit - count <= length fm)%nat) as [Hfull|Hmore].
    + rewrite bool_decide_eq_true_2 by exact Hfull.
      destruct (allF root files w') as [w'' more] eqn:Hall.
      cbn [fst snd]. rewrite length_app.
      rewrite take_app_le by lia.
      repeat split; try reflexivity.
      * f_equal. lia.
      * symmetry. apply bool_decide_eq_true_2. lia.
      * discriminate.
    + rewrite bool_decide_eq_false_2 by exact Hmore.
      rewrite Nat.min_r by lia. rewrite take_ge by lia.
      specialize (IH (rs ++ fm)%list (count + length fm)%nat w').
      destruct (allF root files w') as [w'' more] eqn:Hall.
      cbn [fst snd] in *.
      destruct IH as (H1 & H2 & H3 & H4); [lia|].
      rewrite H1, H2, H3. rewrite length_app, <- app_assoc.
      rewrite take_app_ge by lia.
      repeat split.
      * do 3 f_equal. lia.
      * lia.
      * apply bool_decide_ext. lia.
      * rewrite <- H3. exact H4.
Qed.

Lemma scan_walk_spec (dirs : list (string * list string)) :
  forall (rs : list hit) (count : nat) (w : World),
    (count < limit)%nat ->
    snd (scanW dirs rs count w)
    = (rs ++ take (limit - count) (snd (allM dirs w)))%list.
Proof.
  induction dirs as [|[root files] dirs IH]; intros rs count w Hlt.
  - cbn [scan_walk all_matches snd]. rewrite take_nil, app_nil_r. reflexivity.
  - cbn [scan_walk all_matches].
    pose proof (scan_files_spec root files rs count w Hlt) as Hf.
    cbn zeta in Hf.
    destruct (scanF root files rs count w) as [[[w' rs'] count'] returned].
    destruct (allF root files w) as [wa here].
    cbn [fst snd] in Hf. destruct Hf as (Hrs & Hcount & Hret & Hw).
    destruct (allM dirs wa) as [wb more] eqn:Hmore.
    cbn [snd].
    destruct returned.
    + symmetry in Hret. apply bool_decide_eq_true_1 in Hret.
      cbn [snd]. rewrite Hrs, take_app_le by lia. reflexivity.
    + symmetry in Hret. apply bool_decide_eq_false_1 in Hret.
      rewrite (Hw eq_refl).
      rewrite Nat.min_r in Hcount by lia.
      destruct (limit <=? count')%nat eqn:Hcap.
      { apply Nat.leb_le in Hcap. lia. }
      apply Nat.leb_gt in Hcap.
      rewrite IH by exact Hcap. rewrite Hmore. cbn [snd].
      rewrite Hrs, take_ge by lia.
      rewrite <- app_assoc, take_app_ge by lia.
      do 3 f_equal. lia.
Qed.

End ScanCap.

(** C9: every list [search_upstream_packages] returns has at most 20
    hits, and the index scan returns exactly the first 20 matches of the
    walk (all of them when there are fewer): nothing is emitted once the
    cap is reached. *)
Theorem search_cap
    (CONFIG : gmap string value) (now : Z) (utcoffset : Z -> Z)
    (get_upstream_key : string -> string -> string)
    (get_all_mirrors : gmap string (list string))
    (requests_head : string -> option Z)
    (os_walk : string -> list (string * list string))
    (gzip_open open_text : string -> list read_event)
    (distro query : string) (w : World) :
  (forall results,
      snd (search_upstream_packages CONFIG now utcoffset get_upstream_key get_all_mirrors
             requests_head os_walk gzip_open open_text distro query w) = Some results ->
      (length results <= 20)%nat) /\
  (forall dirs w0,
      snd (scan_walk CONFIG now utcoffset gzip_open open_text distro query dirs [] 0 w0)
      = take 20 (snd (all_matches CONFIG now utcoffset gzip_open open_text distro query
                        dirs w0))).
Proof.
  assert (Hscan : forall dirs w0,
    snd (scan_walk CONFIG now utcoffset gzip_open open_text distro query dirs [] 0 w0)
    = take 20 (snd (all_matches CONFIG now utcoffset gzip_open open_text distro query
                      dirs w0))).
  { intros dirs w0. rewrite scan_walk_spec by (unfold limit; lia). reflexivity. }
  split; [|exact Hscan].
  intros results. unfold search_upstream_packages.
  destruct (if Py.has_char "/" query then _ else _) as [w1 [h|]].
  - intros [= <-]. cbn. lia.
  - unfold index_scan.
    destruct (negb (truthy _)); [intros [= <-]; cbn; lia|].
    destruct (get_config CONFIG "storage_path_resolved" VNone) as [|b|n|s];
      try discriminate.
    destruct (negb (FS.exists_ (fs w1) (Path.of_str s // distro)));
      [intros [= <-]; cbn; lia|].
    specialize (Hscan (os_walk (Path.str (Path.of_str s // distro))) w1).
    destruct (scan_walk _ _ _ _ _ _ _ _ _ _ _) as [w' results'].
    cbn [snd] in *. intros [= <-].
    rewrite Hscan, length_take. lia.
Qed.

(** In the scenario twenty-five stanzas match and twenty are returned. *)
Lemma search_cap_witness :
  exists results,
    snd (SearchScenario.search "HELLO") = Some results /\ length results = 20%nat.
Proof.
  destruct (snd (SearchScenario.search "HELLO")) as [results|] eqn:E.
  - exists results. split; [reflexivity|].
    pose proof (proj1 (search_cap Scenario.CONFIG 5 Scenario.utc
                         SearchScenario.get_upstream_key
                         SearchScenario.get_all_mirrors SearchScenario.requests_head
                         SearchScenario.os_walk SearchScenario.gzip_open
                         SearchScenario.open_text "debian" "HELLO" SearchScenario.world)
                  results E) as Hcap.
    assert (H : option_map (fun l : list hit => (20 <=? length l)%nat)
                  (snd (SearchScenario.search "HELLO")) = Some true)
      by (vm_compute; reflexivity).
    rewrite E in H. change (Some (20 <=? length results)%nat = Some true) in H.
    assert (H' : (20 <=? length results)%nat = true) by congruence.
    apply Nat.leb_le in H'. lia.
  - exfalso.
    assert (H : match snd (SearchScenario.search "HELLO") with
                | Some _ => true
                | None => false
                end = true) by (vm_compute; reflexivity).
    rewrite E in H. discriminate H.
Defined.

Example search_scenario_capped :
  option_map (length (A:=hit)) (snd (SearchScenario.search "HELLO")) = Some 20%nat /\
  option_map (map hit_name) (snd (SearchScenario.search "hello-24")) = Some ["hello-24"].
Proof. vm_compute. split; reflexivity. Qed.

(** ** Path mapper *)

(** *** Characters of strings *)

Lemma has_char_app (c : ascii) (s1 s2 : string) :
  Py.has_char c (s1 ++ s2) = Py.has_char c s1 || Py.has_char c s2.
Proof.
  induction s1 as [|d s1 IH]; simpl; [reflexivity|].
  rewrite IH. apply orb_assoc.
Qed.

Lemma all_chars_app (P : ascii -> bool) (s1 s2 : string) :
  all_chars P (s1 ++ s2) = all_chars P s1 && all_chars P s2.
Proof.
  induction s1 as [|d s1 IH]; simpl; [reflexivity|].
  rewrite IH. apply andb_assoc.
Qed.

Lemma all_hex_no_slash (s : string) :
  all_chars is_hex s = true -> Py.has_char "/"%char s = false.
Proof.
  induction s as [|c s IH]; cbn [all_chars Py.has_char]; [reflexivity|].
  intros H. apply andb_true_iff in H as [Hc Hs].
  rewrite (IH Hs), orb_false_r.
  destruct (Ascii.eqb "/" c) eqn:E; [|reflexivity].
  apply Ascii.eqb_eq in E. subst c. discriminate Hc.
Qed.

Lemma all_chars_take (P : ascii -> bool) (n : nat) (s : string) :
  all_chars P s = true -> all_chars P (Py.take n s) = true.
Proof.
  revert s. induction n as [|n IH]; intros [|c s]; cbn; try reflexivity.
  intros H. apply andb_true_iff in H as [Hc Hs].
  rewrite Hc, (IH _ Hs). reflexivity.
Qed.

(** A name that starts with a hexadecimal digit and holds no slash is an
    ordinary segment. *)
Lemma plain_by_head (c : ascii) (s : string) :
  is_hex c = true -> Py.has_char "/"%char (String c s) = false ->
  plain_segment (String c s) = true.
Proof.
  intros Hc Hs. unfold plain_segment. rewrite Hs. cbn [negb andb String.eqb].
  destruct (Ascii.eqb c ".") eqn:E.
  - apply Ascii.eqb_eq in E. subst c. discriminate Hc.
  - reflexivity.
Qed.

(** *** The digest is thirty-two hexadecimal digits *)

Lemma hexdigit_is_hex (n : Z) : is_hex (MD5.hexdigit n) = true.
Proof.
  unfold MD5.hexdigit.
  assert (H : (Z.to_nat (n mod 16) < 16)%nat).
  { pose proof (Z.mod_pos_bound n 16 ltac:(lia)). lia. }
  remember (Z.to_nat (n mod 16)) as k eqn:Hk. clear Hk.
  do 16 (destruct k as [|k]; [reflexivity|]). lia.
Qed.

Lemma hex_all_hex (bs : list Z) : all_chars is_hex (MD5.hex bs) = true.
Proof.
  induction bs as [|b bs IH]; [reflexivity|].
  change (MD5.hex (b :: bs))
    with (String (MD5.hexdigit (b / 16)) (String (MD5.hexdigit b) (MD5.hex bs))).
  cbn [all_chars]. rewrite !hexdigit_is_hex, IH. reflexivity.
Qed.

Lemma hex_length (bs : list Z) : String.length (MD5.hex bs) = (2 * length bs)%nat.
Proof.
  induction bs as [|b bs IH]; [reflexivity|].
  change (MD5.hex (b :: bs))
    with (String (MD5.hexdigit (b / 16)) (String (MD5.hexdigit b) (MD5.hex bs))).
  cbn [String.length length]. rewrite IH. lia.
Qed.

Lemma digest_length (msg : list Z) : length (MD5.digest msg) = 16%nat.
Proof.
  unfold MD5.digest. cbn [flat_map].
  rewrite !length_app. unfold MD5.bytes_of_word.
  rewrite !length_map, !length_seq. reflexivity.
Qed.

Lemma hexdigest_all_hex (s : string) : all_chars is_hex (MD5.hexdigest s) = true.
Proof. apply hex_all_hex. Qed.

Lemma hexdigest_length (s : string) : String.length (MD5.hexdigest s) = 32%nat.
Proof. unfold MD5.hexdigest. rewrite hex_length, digest_length. reflexivity. Qed.

(** *** [basename] *)

Lemma rfind_spec (c : ascii) (s : string) :
  match Py_path.rfind c s with
  | Some i => Py.has_char c (Py_path.drop (S i) s) = false
  | None => Py.has_char c s = false
  end.
Proof.
  induction s as [|d s IH]; cbn [Py_path.rfind]; [reflexivity|].
  destruct (Py_path.rfind c s) as [i|].
  - exact IH.
  - destruct (Ascii.eqb c d) eqn:E.
    + exact IH.
    + cbn [Py.has_char]. rewrite E, IH. reflexivity.
Qed.

Lemma basename_no_slash (p : string) :
  Py.has_char "/"%char (Py_path.basename p) = false.
Proof.
  unfold Py_path.basename.
  pose proof (rfind_spec "/"%char p) as H.
  destruct (Py_path.rfind "/" p); exact H.
Qed.

(** *** Parsing one segment *)

Lemma append_cons (c : ascii) (s1 s2 : string) : String c s1 ++ s2 = String c (s1 ++ s2).
Proof. reflexivity. Qed.

Lemma append_nil_r (s : string) : s ++ "" = s.
Proof.
  induction s as [|c s IH]; [reflexivity|].
  rewrite append_cons, IH. reflexivity.
Qed.

Lemma append_assoc (s1 s2 s3 : string) : (s1 ++ s2) ++ s3 = s1 ++ (s2 ++ s3).
Proof.
  induction s1 as [|c s1 IH]; [reflexivity|].
  rewrite !append_cons, IH. reflexivity.
Qed.

Lemma split_acc_no_sep (sep : ascii) (s : string) :
  forall cur, Py.has_char sep s = false -> Py.split_acc sep cur s = [cur ++ s].
Proof.
  induction s as [|c s IH]; intros cur H; cbn [Py.split_acc].
  - rewrite append_nil_r. reflexivity.
  - cbn [Py.has_char] in H. apply orb_false_iff in H as [Hc Hs].
    rewrite Ascii.eqb_sym, Hc, (IH _ Hs), append_assoc. reflexivity.
Qed.

Lemma of_str_plain (s : string) :
  plain_segment s = true -> Path.of_str s = Path.mk "" [s].
Proof.
  unfold plain_segment. intros H.
  apply andb_true_iff in H as [H Hdd].
  apply andb_true_iff in H as [H Hd].
  apply andb_true_iff in H as [Hne Hsl].
  apply negb_true_iff in Hsl, Hne, Hd.
  unfold Path.of_str.
  assert (Hroot : Path.splitroot s = ("", s)).
  { destruct s as [|c s']; [reflexivity|].
    cbn [Py.has_char] in Hsl. apply orb_false_iff in Hsl as [Hc _].
    unfold Path.splitroot.
    destruct (Ascii.eqb_spec "/"%char c) as [<-|Hn]; [discriminate Hc|].
    destruct c as [[] [] [] [] [] [] [] []]; try reflexivity. congruence. }
  rewrite Hroot. unfold Py.split. rewrite (split_acc_no_sep _ _ _ Hsl).
  change ("" ++ s) with s. cbn [List.filter]. unfold Path.keep_part.
  rewrite Hne, Hd. reflexivity.
Qed.

Lemma div_plain (p : Path.t) (s : string) :
  plain_segment s = true ->
  p // s = Path.mk (Path.root p) (Path.parts p ++ [s]).
Proof.
  intros H. unfold Path.div. rewrite (of_str_plain _ H). reflexivity.
Qed.

(** The two names [get_cache_path] derives from the digest are ordinary
    segments. *)
Lemma hash_prefix_plain (path : string) :
  plain_segment (Py.take 2 (MD5.hexdigest path)) = true.
Proof.
  pose proof (hexdigest_length path) as Hlen.
  pose proof (hexdigest_all_hex path) as Hhex.
  destruct (MD5.hexdigest path) as [|c1 [|c2 rest]]; try discriminate Hlen.
  cbn [Py.take]. cbn [all_chars] in Hhex.
  apply andb_true_iff in Hhex as [H1 Hhex].
  apply andb_true_iff in Hhex as [H2 _].
  apply plain_by_head; [exact H1|].
  apply all_hex_no_slash. cbn [all_chars]. rewrite H1, H2. reflexivity.
Qed.

Lemma cache_name_plain (path filename : string) :
  Py.has_char "/"%char filename = false ->
  plain_segment (MD5.hexdigest path ++ "_" ++ filename) = true.
Proof.
  intros Hf.
  pose proof (hexdigest_length path) as Hlen.
  pose proof (hexdigest_all_hex path) as Hhex.
  assert (Hsl : Py.has_char "/"%char (MD5.hexdigest path ++ "_" ++ filename) = false).
  { rewrite !has_char_app, (all_hex_no_slash _ Hhex), Hf. reflexivity. }
  destruct (MD5.hexdigest path) as [|c1 rest]; [discriminate Hlen|].
  cbn [all_chars] in Hhex. apply andb_true_iff in Hhex as [H1 _].
  rewrite append_cons in *. apply plain_by_head; assumption.
Qed.

Lemma cache_filename_no_slash (path : string) :
  Py.has_char "/"%char (cache_filename path) = false.
Proof.
  unfold cache_filename. destruct (negb _); [apply basename_no_slash | reflexivity].
Qed.

(** *** [str] and [join] *)

Lemma join_snoc (sep : string) (l : list string) (x : string) :
  l <> [] -> Py.join sep (l ++ [x])%list = Py.join sep l ++ sep ++ x.
Proof.
  induction l as [|y l IH]; intros Hne; [contradiction Hne; reflexivity|].
  destruct l as [|z l].
  - reflexivity.
  - change (Py.join sep ((y :: z :: l) ++ [x])%list)
      with (y ++ sep ++ Py.join sep ((z :: l) ++ [x])%list).
    rewrite IH by discriminate.
    change (Py.join sep (y :: z :: l)) with (y ++ sep ++ Py.join sep (z :: l)).
    rewrite !append_assoc. reflexivity.
Qed.

Lemma str_parts (p : Path.t) :
  Path.parts p <> [] -> Path.str p = Path.root p ++ Py.join "/" (Path.parts p).
Proof.
  destruct p as [r [|x ps]]; intros H; [contradiction H; reflexivity|].
  unfold Path.str. cbn [Path.root Path.parts]. destruct r; reflexivity.
Qed.

(** *** Directories on the way *)

Lemma is_dir_lookup (ns : gmap (list string) FS.node) (k : list string) :
  FS.is_dir ns k = true -> exists m, ns !! k = Some (FS.Dir m).
Proof.
  unfold FS.is_dir. destruct (ns !! k) as [[m|c m]|]; intros H;
    try discriminate H. eauto.
Qed.

Lemma plain_not_dotdot (s : string) : plain_segment s = true -> String.eqb s ".." = false.
Proof.
  unfold plain_segment. intros H. apply andb_true_iff in H as [_ H].
  apply negb_true_iff in H. exact H.
Qed.

(** *** Resolution *)

Lemma normalize_app (comps tail : list string) :
  forall stack,
    Path.normalize stack (comps ++ tail)%list
    = Path.normalize (Path.normalize stack comps) tail.
Proof.
  induction comps as [|c comps IH]; intros stack; [reflexivity|].
  cbn [app Path.normalize]. destruct (String.eqb c ".."); apply IH.
Qed.

Lemma normalize_plain (tail : list string) :
  forall stack,
    Forall (fun s => plain_segment s = true) tail ->
    Path.normalize stack tail = (stack ++ tail)%list.
Proof.
  induction tail as [|c tail IH]; intros stack Hall.
  - rewrite app_nil_r. reflexivity.
  - inversion Hall as [|? ? Hc Htail]; subst.
    cbn [Path.normalize]. rewrite (plain_not_dotdot _ Hc), (IH _ Htail).
    rewrite <- app_assoc. reflexivity.
Qed.

Lemma lies_under_extend (f : FS.t) (storage : Path.t) (tail : list string) :
  Forall (fun s => plain_segment s = true) tail ->
  lies_under f storage (Path.mk (Path.root storage) (Path.parts storage ++ tail)) = true.
Proof.
  intros Hall. unfold lies_under. apply bool_decide_eq_true_2.
  unfold FS.resolve, FS.start. cbn [Path.root Path.parts].
  rewrite normalize_app, (normalize_plain _ _ Hall).
  apply prefix_app_r. reflexivity.
Qed.

(** *** The layout *)

Lemma get_cache_path_value (CONFIG : gmap string value) (now : Z)
    (distro path : string) (w w' : World) (p : Path.t) (root : string) :
  get_config CONFIG "storage_path_resolved" VNone = VStr root ->
  get_cache_path CONFIG now distro path w = Some (w', p) ->
  p = Path.of_str root // distro // Py.take 2 (MD5.hexdigest path)
      // (MD5.hexdigest path ++ "_" ++ cache_filename path).
Proof.
  intros Hcfg. unfold get_cache_path. rewrite Hcfg.
  destruct (FS.mkdir_p _ _ _); intros [= <- <-]. reflexivity.
Qed.

(** C5 as stated fails: an absolute [distro] replaces the storage root, so
    the mapped path is neither of the stated form nor under the root. *)
Lemma get_cache_path_counterexample :
  exists w' p,
    get_cache_path Scenario.CONFIG 5 "/etc" Scenario.hello Scenario.world = Some (w', p) /\
    Path.str p = "/etc/b4/b42022f5bd8cbb6d9462eb1af349bc75_hello_2.10.deb" /\
    Path.str p <> "/srv/storage" ++ "/" ++ "/etc" ++ "/"
                  ++ Py.take 2 (MD5.hexdigest Scenario.hello) ++ "/"
                  ++ MD5.hexdigest Scenario.hello ++ "_" ++ cache_filename Scenario.hello /\
    lies_under Scenario.tree (Path.of_str "/srv/storage") p = false.
Proof.
  destruct (get_cache_path Scenario.CONFIG 5 "/etc" Scenario.hello Scenario.world)
    as [[w' p]|] eqn:E; [|vm_compute in E; discriminate E].
  exists w', p. split; [reflexivity|].
  assert (Hcfg : get_config Scenario.CONFIG "storage_path_resolved" VNone
                 = VStr "/srv/storage") by (vm_compute; reflexivity).
  apply (get_cache_path_value _ _ _ _ _ _ _ _ Hcfg) in E. subst p.
  vm_compute. repeat split; discriminate.
Qed.

(** C5 (amended): for every [distro] that is a single ordinary path
    segment and every [path], whenever [get_cache_path] returns, the path it
    returns is the storage root followed by the three components [distro],
    [H[0:2]] and [H_basename], with [H] the md5 hex digest of [path] and
    [basename] its last segment or [index]: as text
    [<storage_root>/<distro>/<H[0:2]>/<H>_<basename>] for a storage root in
    the form [load_config] stores it (normalised, with at least one
    component).  That path lies under the storage root, and every call with
    the same arguments that returns, at any time and in any state, returns
    the same path. *)
Theorem get_cache_path_layout (CONFIG : gmap string value) (now : Z)
    (distro path : string) (w w' : World) (p : Path.t) :
  let H := MD5.hexdigest path in
  plain_segment distro = true ->
  get_cache_path CONFIG now distro path w = Some (w', p) ->
  exists root,
    get_config CONFIG "storage_path_resolved" VNone = VStr root /\
    Path.root p = Path.root (Path.of_str root) /\
    Path.parts p
    = (Path.parts (Path.of_str root)
       ++ [distro; Py.take 2 H; (H ++ "_" ++ cache_filename path)%string])%list /\
    (Path.str (Path.of_str root) = root -> Path.parts (Path.of_str root) <> [] ->
     Path.str p = root ++ "/" ++ distro ++ "/" ++ Py.take 2 H ++ "/"
                  ++ H ++ "_" ++ cache_filename path) /\
    lies_under (fs w) (Path.of_str root) p = true /\
    lies_under (fs w') (Path.of_str root) p = true /\
    (forall now2 w2 r2,
        get_cache_path CONFIG now2 distro path w2 = Some r2 -> snd r2 = p).
Proof.
  intros H Hdistro Hget.
  destruct (get_config CONFIG "storage_path_resolved" VNone) as [| | |root] eqn:Hcfg;
    try (unfold get_cache_path in Hget; rewrite Hcfg in Hget; discriminate Hget).
  exists root. split; [reflexivity|].
  pose proof (hash_prefix_plain path) as Hh2.
  pose proof (cache_name_plain path _ (cache_filename_no_slash path)) as Hname.
  fold H in Hh2, Hname.
  pose proof (get_cache_path_value _ _ _ _ _ _ _ _ Hcfg Hget) as Hval. fold H in Hval.
  set (storage := Path.of_str root) in *.
  assert (Hp : p = Path.mk (Path.root storage)
                     (Path.parts storage
                      ++ [distro; Py.take 2 H; H ++ "_" ++ cache_filename path])).
  { rewrite Hval, (div_plain _ _ Hdistro), (div_plain _ _ Hh2), (div_plain _ _ Hname).
    cbn [Path.root Path.parts]. rewrite <- !app_assoc. reflexivity. }
  assert (Hall : Forall (fun s => plain_segment s = true)
                   [distro; Py.take 2 H; H ++ "_" ++ cache_filename path])
    by (repeat constructor; assumption).
  split; [rewrite Hp; reflexivity|]. split; [rewrite Hp; reflexivity|].
  split; [|split; [|split]].
  - intros Hnorm Hparts.
    rewrite Hp, str_parts by (cbn [Path.parts]; destruct (Path.parts storage); discriminate).
    cbn [Path.root Path.parts].
    set (nm := H ++ "_" ++ cache_filename path).
    change [distro; Py.take 2 H; nm] with ([distro] ++ [Py.take 2 H] ++ [nm])%list.
    rewrite !app_assoc.
    rewrite !join_snoc
      by (try exact Hparts; destruct (Path.parts storage); discriminate).
    pose proof (str_parts _ Hparts) as Hs. rewrite Hnorm in Hs.
    clearbody storage. rewrite Hs, !append_assoc. reflexivity.
  - rewrite Hp. apply lies_under_extend, Hall.
  - rewrite Hp. apply lies_under_extend, Hall.
  - intros now2 w2 [w2' p2] Hget2. cbn [snd].
    apply (get_cache_path_value _ _ _ _ _ _ _ root Hcfg) in Hget2.
    rewrite Hget2. symmetry. exact Hval.
Qed.

(** Scenario 1 of the specification. *)
Lemma get_cache_path_layout_witness :
  exists w' p,
    get_cache_path Scenario.CONFIG 5 "debian" Scenario.hello Scenario.world = Some (w', p) /\
    Path.str p = "/srv/storage/debian/b4/b42022f5bd8cbb6d9462eb1af349bc75_hello_2.10.deb" /\
    lies_under Scenario.tree (Path.of_str "/srv/storage") p = true.
Proof.
  destruct (get_cache_path Scenario.CONFIG 5 "debian" Scenario.hello Scenario.world)
    as [[w' p]|] eqn:E; [|vm_compute in E; discriminate E].
  exists w', p. split; [reflexivity|].
  destruct (get_cache_path_layout Scenario.CONFIG 5 "debian" Scenario.hello
              Scenario.world w' p eq_refl E)
    as (root & Hcfg & _ & _ & Hstr & Hunder & _).
  assert (Hroot : root = "/srv/storage").
  { assert (H1 : get_config Scenario.CONFIG "storage_path_resolved" VNone
                 = VStr "/srv/storage") by (vm_compute; reflexivity).
    rewrite H1 in Hcfg. injection Hcfg as <-. reflexivity. }
  subst root. split.
  - rewrite Hstr; [vm_compute; reflexivity | vm_compute; reflexivity
                   | vm_compute; discriminate].
  - exact Hunder.
Defined.

(** ** The caching generator *)

(** *** Files come and go, directories stay *)

Lemma is_dir_insert_file (ns : gmap (list string) FS.node) (tk k : list string)
    (c : string) (m : FS.meta) :
  FS.is_dir ns tk = false ->
  FS.is_dir (<[tk := FS.File c m]> ns) k = FS.is_dir ns k.
Proof.
  unfold FS.is_dir. intros H.
  destruct (decide (tk = k)) as [->|Hne].
  - rewrite lookup_insert_eq. destruct (ns !! k) as [[m'|c' m']|];
      [discriminate H | reflexivity | reflexivity].
  - rewrite lookup_insert_ne by exact Hne. reflexivity.
Qed.

Lemma is_dir_delete_file (ns : gmap (list string) FS.node) (tk k : list string) :
  FS.is_dir ns tk = false ->
  FS.is_dir (delete tk ns) k = FS.is_dir ns k.
Proof.
  unfold FS.is_dir. intros H.
  destruct (decide (tk = k)) as [->|Hne].
  - rewrite lookup_delete_eq. destruct (ns !! k) as [[m'|c' m']|];
      [discriminate H | reflexivity | reflexivity].
  - rewrite lookup_delete_ne by exact Hne. reflexivity.
Qed.

Lemma walk_same_dirs (ns ns' : gmap (list string) FS.node) :
  (forall k, FS.is_dir ns' k = FS.is_dir ns k) ->
  forall comps cur, FS.walk ns' cur comps = FS.walk ns cur comps.
Proof.
  intros Hsame. induction comps as [|c rest IH]; intros cur; cbn [FS.walk].
  - reflexivity.
  - rewrite Hsame. destruct (FS.is_dir ns cur); [apply IH | reflexivity].
Qed.

Lemma locate_same_dirs (f f' : FS.t) (p : Path.t) :
  (forall k, FS.is_dir (FS.nodes f') k = FS.is_dir (FS.nodes f) k) ->
  FS.cwd f' = FS.cwd f ->
  FS.locate f' p = FS.locate f p.
Proof.
  intros Hsame Hcwd. unfold FS.locate, FS.start. rewrite Hcwd.
  apply walk_same_dirs, Hsame.
Qed.

Lemma open_wb_inv (now : Z) (f f1 : FS.t) (p : Path.t) (tk : list string) :
  FS.open_wb now f p = Some (f1, tk) ->
  FS.locate f p = Some tk /\
  FS.is_dir (FS.nodes f) tk = false /\
  exists m, f1 = FS.mk (<[tk := FS.File "" m]> (FS.nodes f)) (FS.cwd f).
Proof.
  unfold FS.open_wb. destruct (FS.locate f p) as [k|]; [|discriminate].
  destruct (FS.is_dir (FS.nodes f) (removelast k)); [|discriminate].
  destruct (FS.is_dir (FS.nodes f) k) eqn:Hk; [discriminate|].
  destruct (bool_decide (k = [])); [discriminate|].
  cbn [andb negb]. intros [= <- <-]. eauto.
Qed.

(** *** The generator does not look at its own state field *)

Lemma chunk_loop_paths (now : Z) (g g' : cached_gen) (disk : write_outcome)
    (f : list string) (rest : list iter_event) :
  temp_path g' = temp_path g -> cache_path g' = cache_path g ->
  response g' = response g ->
  forall w, chunk_loop now g' disk f rest w = chunk_loop now g disk f rest w.
Proof.
  intros Ht Hc Hr.
  assert (Hset : forall st, set_state g' st = set_state g st).
  { intros st. unfold set_state. rewrite Ht, Hc, Hr. reflexivity. }
  assert (Hexc : forall e w, on_exception g' e w = on_exception g e w).
  { intros e w. unfold on_exception. rewrite Ht, Hc. reflexivity. }
  induction rest as [|[data|msg] rest IH]; intros w; cbn [chunk_loop].
  - rewrite Ht, Hc, Hexc, !Hset. reflexivity.
  - destruct (String.eqb data ""); [apply IH|].
    destruct disk; rewrite ?Hexc, !Hset; reflexivity.
  - rewrite Hexc, !Hset. reflexivity.
Qed.

Section CleanRun.

Variable now : Z.
Variable tp cp : Path.t.                    (* temp and cache path *)
Variable tk ck : list string.               (* where they are *)
Variable ns0 : gmap (list string) FS.node.  (* the tree before the write *)
Variable cwd0 : list string.

Hypothesis Htk : FS.locate (FS.mk ns0 cwd0) tp = Some tk.
Hypothesis Hck : FS.locate (FS.mk ns0 cwd0) cp = Some ck.
Hypothesis Htk_file : FS.is_dir ns0 tk = false.
Hypothesis Hck_file : FS.is_dir ns0 ck = false.
Hypothesis Hck_parent : FS.is_dir ns0 (removelast ck) = true.
Hypothesis Hck_root : ck <> [].

Local Abbreviation writing := (writing ns0 cwd0 tk).

Lemma writing_locate (acc : string) (w : World) (p : Path.t) :
  writing acc w -> FS.locate (fs w) p = FS.locate (FS.mk ns0 cwd0) p.
Proof.
  intros [m ->]. apply locate_same_dirs; [|reflexivity].
  intros k. cbn [FS.nodes]. apply is_dir_insert_file, Htk_file.
Qed.

Lemma writing_rename (acc : string) (w : World) :
  writing acc w ->
  exists m,
    FS.rename (fs w) tp cp
    = Some (FS.mk (<[ck := FS.File acc m]> (delete tk ns0)) cwd0).
Proof.
  intros Hw. unfold FS.rename.
  rewrite !(writing_locate _ _ _ Hw), Htk, Hck.
  destruct Hw as [m ->]. cbn [FS.nodes FS.cwd].
  rewrite lookup_insert_eq.
  rewrite !is_dir_insert_file by exact Htk_file.
  rewrite Hck_parent, Hck_file.
  rewrite bool_decide_eq_false_2 by exact Hck_root.
  cbn [andb negb]. rewrite delete_insert_eq. eauto.
Qed.

Lemma writing_write (acc data : string) (w : World) :
  writing acc w ->
  writing (acc ++ data)
    (add_bytes (Z.of_nat (String.length data)) (set_fs w (FS.write now (fs w) tk data))).
Proof.
  intros [m Hw]. unfold writing, FS.write. cbn [fs add_bytes set_fs].
  rewrite Hw. cbn [FS.nodes FS.cwd]. rewrite lookup_insert_eq, insert_insert_eq.
  eauto.
Qed.

(** From any point between two chunks of a stream that ends cleanly:
    every remaining non-empty chunk is written and yielded, then the temp
    file is renamed to the cache path. *)
Lemma run_clean (chunks : list string) :
  forall (g : cached_gen) (acc : string) (w : World),
    temp_path g = tp -> cache_path g = cp ->
    writing acc w ->
    exists w' g' m,
      run now (drain (S (length (nonempty_chunks chunks))))
        (set_state g (GenSuspended tk (map Chunk chunks))) w
      = (w', g', (map Yielded (nonempty_chunks chunks) ++ [StopIteration])%list) /\
      state g' = GenFinished /\
      fs w' = FS.mk (<[ck := FS.File (acc ++ body_bytes chunks) m]> (delete tk ns0)) cwd0.
Proof.
  induction chunks as [|c chunks IH]; intros g acc w Ht Hc Hw.
  - destruct (writing_rename _ _ Hw) as [m Hren].
    cbn [nonempty_chunks List.filter length drain repeat run gen_next state set_state
         map chunk_loop temp_path cache_path].
    rewrite Ht, Hc, Hren.
    eexists _, _, m. split; [reflexivity|]. split; [reflexivity|].
    cbn [fs add_log set_fs body_bytes fold_right]. rewrite append_nil_r. reflexivity.
  - destruct (String.eqb c "") eqn:Hempty.
    + apply String.eqb_eq in Hempty. subst c.
      destruct (IH g acc w Ht Hc Hw) as (w' & g' & m & Hrun & Hst & Hfs).
      exists w', g', m. split; [|split; [exact Hst | exact Hfs]].
      change (nonempty_chunks ("" :: chunks)) with (nonempty_chunks chunks).
      rewrite <- Hrun.
      change (drain (S ?n)) with (Next WriteDone :: drain n).
      cbn [run gen_next state set_state map chunk_loop String.eqb].
      rewrite (chunk_loop_paths now
                 (mkGen (temp_path g) (cache_path g) (response g)
                    (GenSuspended tk (Chunk "" :: map Chunk chunks)))
                 (mkGen (temp_path g) (cache_path g) (response g)
                    (GenSuspended tk (map Chunk chunks)))) by reflexivity.
      reflexivity.
    + pose proof (writing_write acc c w Hw) as Hw2.
      destruct (IH g (acc ++ c) _ Ht Hc Hw2) as (w' & g' & m & Hrun & Hst & Hfs).
      exists w', g', m. split; [|split; [exact Hst|]].
      * cbn [nonempty_chunks List.filter]. rewrite Hempty. cbn [negb length map app].
        change (drain (S (S ?n))) with (Next WriteDone :: drain (S n)).
        cbn [run gen_next state set_state map chunk_loop]. rewrite Hempty.
        cbn [set_state temp_path cache_path response] in Hrun |- *.
        change (set_state (set_state g ?a) ?b) with (set_state g b).
        unfold nonempty_chunks in Hrun. rewrite Hrun. reflexivity.
      * rewrite Hfs, append_assoc. reflexivity.
Qed.

(** An exception of class [Exception] that reaches the [try] statement
    while the temp file is being written removes the temp file: the tree
    is the one of the start, without whatever was at the temp path. *)
Lemma on_exception_removes_temp (g : cached_gen) (msg acc : string) (w : World) :
  temp_path g = tp -> writing acc w ->
  exists w',
    on_exception g (Exception_ msg) w = (w', StopIteration) /\
    fs w' = FS.mk (delete tk ns0) cwd0.
Proof.
  intros Ht Hw. unfold on_exception. rewrite Ht.
  set (w1 := add_log _ _ w).
  assert (Hw1 : writing acc w1) by exact Hw.
  unfold FS.exists_, FS.unlink, FS.lookup.
  rewrite (writing_locate _ _ _ Hw1), Htk.
  destruct Hw1 as [m Hfs]. rewrite Hfs. cbn [FS.nodes FS.cwd].
  rewrite lookup_insert_eq, delete_insert_eq.
  eexists. split; reflexivity.
Qed.

(** The upstream iterator raises. *)
Lemma upstream_error_removes_temp (g : cached_gen) (disk : write_outcome)
    (msg acc : string) (rest : list iter_event) (w : World) :
  temp_path g = tp -> writing acc w ->
  state g = GenSuspended tk (IterRaises msg :: rest) ->
  exists w',
    gen_next now disk g w = (w', set_state g GenFinished, StopIteration) /\
    fs w' = FS.mk (delete tk ns0) cwd0.
Proof.
  intros Ht Hw Hst. unfold gen_next. rewrite Hst. cbn [chunk_loop].
  destruct (on_exception_removes_temp g msg acc w Ht Hw) as (w' & -> & Hfs).
  eauto.
Qed.

(** The write of the next chunk raises. *)
Lemma write_error_removes_temp (g : cached_gen) (msg data acc : string)
    (rest : list iter_event) (w : World) :
  temp_path g = tp -> writing acc w -> data <> "" ->
  state g = GenSuspended tk (Chunk data :: rest) ->
  exists w',
    gen_next now (WriteRaises msg) g w = (w', set_state g GenFinished, StopIteration) /\
    fs w' = FS.mk (delete tk ns0) cwd0.
Proof.
  intros Ht Hw Hdata Hst. unfold gen_next. rewrite Hst. cbn [chunk_loop].
  apply String.eqb_neq in Hdata. rewrite Hdata.
  destruct (on_exception_removes_temp g msg acc w Ht Hw) as (w' & -> & Hfs).
  eauto.
Qed.

End CleanRun.

(** Closing a suspended generator changes nothing: [GeneratorExit] passes
    the [except Exception] clause by, so the temp file stays as it is. *)
Lemma close_keeps_temp (g : cached_gen) (f : list string) (rest : list iter_event)
    (w : World) :
  state g = GenSuspended f rest ->
  gen_close g w = (w, set_state g GenFinished).
Proof.
  intros Hst. unfold gen_close, gen_throw. rewrite Hst. reflexivity.
Qed.

(** *** What [stream_and_cache] hands out *)

Lemma try_urls_cached
    (net : string -> list (string * string) -> get_result) (cp : Path.t)
    (hs : list (string * string)) (sc : bool) (urls : list string) :
  forall (le : option string) (w : World) (r : Response) (g : cached_gen),
    snd (try_urls net cp hs sc urls le w) = Returns r ->
    resp_body r = BodyCached g ->
    sc = true /\ status r = 200%Z /\ status_code (response g) = 200%Z /\
    Path.with_suffix cp ".tmp" = Some (temp_path g) /\
    cache_path g = cp /\ state g = GenCreated.
Proof.
  induction urls as [|url urls IH]; intros le w r g; cbn [try_urls snd].
  - intros [= <-]. discriminate.
  - destruct (net url hs) as [u| |msg|msg]; try (apply IH); [|discriminate].
    destruct (status_code u =? 404)%Z; [apply IH|].
    destruct ((status_code u =? 200)%Z || (status_code u =? 206)%Z
              || (status_code u =? 304)%Z) eqn:Hok; [|apply IH].
    destruct (status_code u =? 304)%Z eqn:H304; [intros [= <-]; discriminate|].
    destruct (status_code u =? 206)%Z eqn:H206; [intros [= <-]; discriminate|].
    rewrite !orb_false_r in Hok. apply Z.eqb_eq in Hok.
    destruct sc; [|intros [= <-]; discriminate].
    destruct (Path.with_suffix cp ".tmp") as [t|]; [|discriminate].
    cbn [snd]. intros [= <-]. cbn [resp_body]. intros [= <-].
    cbn. repeat split; try reflexivity. exact Hok.
Qed.

(** *** [with_suffix] on a name without extension *)

Lemma join_cons (sep a : string) (l : list string) :
  l <> [] -> Py.join sep (a :: l) = a ++ sep ++ Py.join sep l.
Proof. destruct l; [intros H; contradiction H; reflexivity | reflexivity]. Qed.

Lemma join_last_append (sep x y : string) (init : list string) :
  Py.join sep (init ++ [(x ++ y)%string])%list = Py.join sep (init ++ [x])%list ++ y.
Proof.
  induction init as [|a init IH]; [reflexivity|].
  cbn [app]. rewrite !join_cons by (destruct init; discriminate).
  rewrite IH, !append_assoc. reflexivity.
Qed.

Lemma last_nonempty (l : list string) : List.last l "" <> "" -> l <> [].
Proof. destruct l; [intros H; contradiction H; reflexivity | discriminate]. Qed.

Lemma with_suffix_appends (p t : Path.t) (sfx : string) :
  Path.with_suffix p sfx = Some t -> Path.suffix p = "" ->
  Path.str t = Path.str p ++ sfx.
Proof.
  unfold Path.with_suffix. intros H Hs.
  destruct (String.eqb (Path.name p) "") eqn:Hn; [discriminate H|].
  apply String.eqb_neq in Hn. rewrite Hs in H. cbn [String.eqb] in H.
  injection H as <-.
  pose proof (last_nonempty _ Hn) as Hparts.
  rewrite !str_parts; cbn [Path.root Path.parts];
    [|exact Hparts | destruct (removelast (Path.parts p)); discriminate].
  rewrite join_last_append. unfold Path.name.
  rewrite <- (app_removelast_last "" Hparts), append_assoc. reflexivity.
Qed.

Lemma scenario_answer : snd CacheScenario.served = Returns CacheScenario.answer.
Proof. vm_compute. reflexivity. Qed.

(** C2 as stated fails: for the cache path of [hello_2.10.deb] the writer
    works on [..._hello_2.10.tmp], the path with its extension replaced, and
    not on [..._hello_2.10.deb.tmp].  For a cache path whose name already
    ends in [.tmp] the file the writer works on is the cache path itself. *)
Lemma temp_path_counterexample :
  (snd CacheScenario.served = Returns CacheScenario.answer /\
   status CacheScenario.answer = 200%Z /\
   resp_body CacheScenario.answer = BodyCached CacheScenario.gen /\
   Path.str (cache_path CacheScenario.gen)
   = "/srv/storage/debian/b4/b42022f5bd8cbb6d9462eb1af349bc75_hello_2.10.deb" /\
   Path.str (temp_path CacheScenario.gen)
   = "/srv/storage/debian/b4/b42022f5bd8cbb6d9462eb1af349bc75_hello_2.10.tmp" /\
   Path.str (temp_path CacheScenario.gen)
   <> Path.str (cache_path CacheScenario.gen) ++ ".tmp") /\
  let cp := Path.of_str "/srv/storage/debian/b4/b42022f5bd8cbb6d9462eb1af349bc75_x.tmp" in
  match snd (stream_and_cache Scenario.no_regex [] CacheScenario.net [CacheScenario.url]
               cp [] CacheScenario.world) with
  | Returns r =>
      status r = 200%Z /\
      match resp_body r with
      | BodyCached g => cache_path g = cp /\ temp_path g = cp
      | _ => False
      end
  | _ => False
  end.
Proof.
  split.
  - split; [exact scenario_answer|].
    vm_compute. repeat split; discriminate.
  - vm_compute. repeat split; reflexivity.
Qed.

(** C2 (amended): when [stream_and_cache] answers a 200 with the caching
    generator (so the name is not blacklisted), the generator works on
    [cache_path.with_suffix('.tmp')], the cache path with the last extension
    of its name replaced by [.tmp], which is [cache_path + ".tmp"] when the
    name has no extension.  Provided that file is another one than the
    cache path (it is the cache path itself when the name already ends in
    [.tmp]): consumed to the end of a stream that ends cleanly, the
    generator opens that file, writes every non-empty chunk to it and
    yields it, and renames the file to [cache_path]; afterwards the tree
    differs from the one before only in that the temp file is gone and the
    cache path holds the whole body. *)
Theorem cache_write_publishes
    (re : string -> string -> option bool) (pats : list string)
    (net : string -> list (string * string) -> get_result)
    (urls : list string) (cp : Path.t) (hs : list (string * string)) (w0 : World)
    (r : Response) (g : cached_gen)
    (now : Z) (w : World) (chunks : list string) (tk ck : list string) :
  snd (stream_and_cache re pats net urls cp hs w0) = Returns r ->
  resp_body r = BodyCached g ->
  content (response g) = map Chunk chunks ->
  option_map snd (FS.open_wb now (fs w) (temp_path g)) = Some tk ->
  FS.locate (fs w) cp = Some ck ->
  FS.is_dir (FS.nodes (fs w)) ck = false ->
  FS.is_dir (FS.nodes (fs w)) (removelast ck) = true ->
  ck <> [] ->
  tk <> ck ->
  (status r = 200%Z /\ status_code (response g) = 200%Z /\
   is_blacklisted re pats (real_name (Path.name cp)) = false) /\
  Path.with_suffix cp ".tmp" = Some (temp_path g) /\
  (Path.suffix cp = "" -> Path.str (temp_path g) = Path.str cp ++ ".tmp") /\
  exists w' g' m,
    run now (drain (S (length (nonempty_chunks chunks)))) g w
    = (w', g', (map Yielded (nonempty_chunks chunks) ++ [StopIteration])%list) /\
    state g' = GenFinished /\
    fs w' = FS.mk (<[ck := FS.File (body_bytes chunks) m]> (delete tk (FS.nodes (fs w))))
              (FS.cwd (fs w)) /\
    FS.nodes (fs w') !! tk = None /\
    FS.read (fs w') cp = Some (body_bytes chunks).
Proof.
  intros Hres Hbody Hclean Hopened Hck Hck_file Hck_parent Hck_root Hapart.
  destruct (FS.open_wb now (fs w) (temp_path g)) as [[fs1 tk']|] eqn:Hopen;
    [|discriminate Hopened].
  cbn [option_map snd] in Hopened. injection Hopened as ->.
  unfold stream_and_cache in Hres.
  destruct (try_urls_cached _ _ _ _ _ _ _ _ _ Hres Hbody)
    as (Hsc & Hst & Hcode & Hsfx & Hcp & Hcreated).
  apply negb_true_iff in Hsc.
  split; [auto|]. split; [exact Hsfx|]. split.
  { intros Hnone. apply (with_suffix_appends _ _ _ Hsfx Hnone). }
  destruct (open_wb_inv _ _ _ _ _ Hopen) as (Htk & Htk_file & m0 & Hfs1).
  destruct (fs w) as [ns0 cwd0] eqn:Hfsw. cbn [FS.nodes FS.cwd] in *.
  assert (Hw1 : writing ns0 cwd0 tk "" (set_fs w fs1)).
  { exists m0. exact Hfs1. }
  destruct (run_clean now (temp_path g) cp tk ck ns0 cwd0 Htk Hck Htk_file
              Hck_file Hck_parent Hck_root chunks g "" (set_fs w fs1)
              eq_refl Hcp Hw1)
    as (w' & g' & m & Hrun & Hfin & Hfs').
  exists w', g', m. split; [|split; [exact Hfin|split; [exact Hfs'|split]]].
  - rewrite <- Hrun.
    change (drain (S ?n)) with (Next WriteDone :: drain n).
    cbn [run]. unfold gen_next at 1. rewrite Hcreated, Hfsw, Hopen, Hclean.
    unfold gen_next at 1. cbn [state set_state].
    rewrite (chunk_loop_paths now
               (mkGen (temp_path g) (cache_path g) (response g)
                  (GenSuspended tk (map Chunk chunks))) g) by reflexivity.
    reflexivity.
  - rewrite Hfs'. cbn [FS.nodes].
    rewrite lookup_insert_ne by (intros Heq; apply Hapart; symmetry; exact Heq).
    apply lookup_delete_eq.
  - unfold FS.read, FS.lookup. rewrite Hfs'.
    assert (Hsame : forall k,
      FS.is_dir (<[ck := FS.File ("" ++ body_bytes chunks) m]> (delete tk ns0)) k
      = FS.is_dir ns0 k).
    { intros k. rewrite is_dir_insert_file.
      - apply is_dir_delete_file, Htk_file.
      - rewrite is_dir_delete_file by exact Htk_file. exact Hck_file. }
    rewrite (locate_same_dirs (FS.mk ns0 cwd0)) by (cbn [FS.nodes FS.cwd]; auto).
    rewrite Hck. cbn [FS.nodes]. rewrite lookup_insert_eq. reflexivity.
Qed.

Lemma cache_write_publishes_witness :
  exists w' g',
    run 9 (drain 3) CacheScenario.gen (fst CacheScenario.served)
    = (w', g', [Yielded "ab"; Yielded "cd"; StopIteration]) /\
    FS.read (fs w') CacheScenario.cache_path = Some "abcd".
Proof.
  assert (Hopen : option_map snd (FS.open_wb 9 (fs (fst CacheScenario.served))
                                    (temp_path CacheScenario.gen))
                  = Some CacheScenario.tk)
    by (vm_compute; reflexivity).
  assert (Hck : FS.locate (fs (fst CacheScenario.served)) CacheScenario.cache_path
                = Some CacheScenario.ck) by (vm_compute; reflexivity).
  assert (Hfile : FS.is_dir (FS.nodes (fs (fst CacheScenario.served))) CacheScenario.ck
                  = false) by (vm_compute; reflexivity).
  assert (Hparent : FS.is_dir (FS.nodes (fs (fst CacheScenario.served)))
                      (removelast CacheScenario.ck) = true) by (vm_compute; reflexivity).
  assert (Hroot : CacheScenario.ck <> []) by discriminate.
  assert (Hapart : CacheScenario.tk <> CacheScenario.ck) by (vm_compute; discriminate).
  destruct (cache_write_publishes Scenario.no_regex [] CacheScenario.net
              [CacheScenario.url] CacheScenario.cache_path [] CacheScenario.world
              CacheScenario.answer CacheScenario.gen 9 (fst CacheScenario.served)
              ["ab"; ""; "cd"] CacheScenario.tk CacheScenario.ck
              scenario_answer eq_refl eq_refl Hopen Hck Hfile Hparent Hroot Hapart)
    as (_ & _ & _ & w' & g' & m & Hrun & _ & _ & _ & Hread).
  exists w', g'. split; [exact Hrun | exact Hread].
Defined.

(** C3, the code at a client disconnect: the generator of the scenario is
    resumed once (the chunk [ab] is written and yielded) and then closed, as
    the server does when the client goes away.  The generator ends without
    publishing, but the temp file is still there, holding [ab]. *)
Theorem client_disconnect_leaves_temp :
  snd CacheScenario.served = Returns CacheScenario.answer /\
  resp_body CacheScenario.answer = BodyCached CacheScenario.gen /\
  let '(w', g', outs) :=
    run 9 [Next WriteDone; Close] CacheScenario.gen (fst CacheScenario.served) in
  outs = [Yielded "ab"] /\
  state g' = GenFinished /\
  FS.exists_ (fs w') (cache_path CacheScenario.gen) = false /\
  FS.read (fs w') (temp_path CacheScenario.gen) = Some "ab".
Proof.
  split; [exact scenario_answer|].
  vm_compute. repeat split; reflexivity.
Qed.

(* ===================================================================== *)
(** * Further properties of the code *)
(* ===================================================================== *)

(** ** Blacklist: how the matcher and the two mutators compose *)

Lemma is_blacklisted_app
    (re : string -> string -> option bool) (l1 l2 : list string) (f : string) :
  is_blacklisted re (l1 ++ l2)%list f = is_blacklisted re l1 f || is_blacklisted re l2 f.
Proof.
  induction l1 as [|p l1 IH]; [reflexivity|].
  cbn [app is_blacklisted]. destruct (pattern_matches re p f); [reflexivity | exact IH].
Qed.

Lemma is_blacklisted_member
    (re : string -> string -> option bool) (pats : list string) (p f : string) :
  Py.list_in p pats = true -> pattern_matches re p f = true ->
  is_blacklisted re pats f = true.
Proof.
  induction pats as [|q pats IH]; cbn [Py.list_in is_blacklisted]; [discriminate|].
  intros Hin Hm. destruct (pattern_matches re q f) eqn:Hq; [reflexivity|].
  apply orb_true_iff in Hin as [Heq | Hin]; [|apply IH; assumption].
  apply String.eqb_eq in Heq. subst q. congruence.
Qed.

Lemma list_in_snoc_nodup (p : string) (pats : list string) :
  Py.list_in p pats = false -> NoDup pats -> NoDup (pats ++ [p])%list.
Proof.
  intros Hfresh Hnd. apply NoDup_app. split; [exact Hnd|]. split.
  - intros x Hx Hxp. apply list_elem_of_In in Hx.
    apply list_elem_of_In in Hxp. destruct Hxp as [<- | []].
    apply list_in_true in Hx. congruence.
  - apply NoDup_singleton.
Qed.

(** X1: after [add_blacklist_pattern] a filename is blacklisted exactly
    when it was before or the call succeeded and the new pattern matches it:
    an add never takes a filename off the blacklist.  A successful add
    leaves the pattern in the list, and a list without duplicates stays
    without duplicates. *)
Theorem add_blacklist_pattern_effect
    (re : string -> string -> option bool) (db : db_outcome)
    (p : string) (pats : list string) :
  let r := add_blacklist_pattern db p pats in
  (forall f,
      is_blacklisted re (fst r) f
      = is_blacklisted re pats f || (snd r && pattern_matches re p f)) /\
  (snd r = true -> Py.list_in p (fst r) = true) /\
  (NoDup pats -> NoDup (fst r)).
Proof.
  destruct db; cbn [add_blacklist_pattern fst snd].
  - destruct (Py.list_in p pats) eqn:Hin; cbn [negb andb].
    + split; [|split; [auto | auto]].
      intros f. destruct (pattern_matches re p f) eqn:Hm.
      * rewrite (is_blacklisted_member re pats p f Hin Hm). reflexivity.
      * rewrite orb_false_r. reflexivity.
    + split; [|split].
      * intros f. rewrite is_blacklisted_app. cbn [is_blacklisted].
        destruct (pattern_matches re p f); reflexivity.
      * intros _. rewrite list_in_app. cbn [Py.list_in].
        rewrite String.eqb_refl. apply orb_true_r.
      * apply list_in_snoc_nodup, Hin.
  - split; [|split; [discriminate | auto]].
    intros f. rewrite orb_false_r. reflexivity.
Qed.

Lemma list_remove_filter (p : string) (pats : list string) :
  NoDup pats ->
  Py.list_remove p pats = List.filter (fun q => negb (String.eqb p q)) pats.
Proof.
  induction pats as [|q pats IH]; intros Hnd; [reflexivity|].
  apply NoDup_cons in Hnd as [Hq Hnd].
  cbn [Py.list_remove List.filter].
  destruct (String.eqb p q) eqn:Hpq; cbn [negb].
  - apply String.eqb_eq in Hpq. subst q.
    symmetry. apply forallb_filter_id. apply forallb_forall.
    intros x Hx. apply negb_true_iff, String.eqb_neq. intros <-.
    apply Hq. apply list_elem_of_In, Hx.
  - f_equal. apply IH, Hnd.
Qed.

Lemma filter_absent (p : string) (pats : list string) :
  Py.list_in p pats = false ->
  List.filter (fun q => negb (String.eqb p q)) pats = pats.
Proof.
  induction pats as [|q pats IH]; cbn [Py.list_in List.filter]; [reflexivity|].
  intros H. apply orb_false_iff in H as [Hpq Hin].
  rewrite Hpq. cbn [negb]. f_equal. apply IH, Hin.
Qed.

(** X2: on a blacklist without duplicates a successful
    [remove_blacklist_pattern] leaves exactly the other patterns, in their
    order: the pattern is gone, and a filename stays blacklisted exactly
    when one of the remaining patterns matches it. *)
Theorem remove_blacklist_pattern_effect
    (re : string -> string -> option bool) (p : string) (pats : list string) :
  NoDup pats ->
  let r := remove_blacklist_pattern DbDone p pats in
  fst r = List.filter (fun q => negb (String.eqb p q)) pats /\
  Py.list_in p (fst r) = false /\
  NoDup (fst r) /\
  (forall f,
      is_blacklisted re (fst r) f
      = existsb (fun q => negb (String.eqb p q) && pattern_matches re q f) pats).
Proof.
  intros Hnd. cbn zeta.
  assert (Hlist : fst (remove_blacklist_pattern DbDone p pats)
                  = List.filter (fun q => negb (String.eqb p q)) pats).
  { cbn [remove_blacklist_pattern fst].
    destruct (Py.list_in p pats) eqn:Hin.
    - apply list_remove_filter, Hnd.
    - symmetry. apply filter_absent, Hin. }
  rewrite Hlist. split; [reflexivity|]. split; [|split].
  - clear. induction pats as [|q pats IH]; [reflexivity|].
    cbn [List.filter]. destruct (String.eqb p q) eqn:Hpq; cbn [negb]; [exact IH|].
    cbn [Py.list_in]. rewrite Hpq. exact IH.
  - clear Hlist. induction Hnd as [|q pats Hq Hnd IH]; [constructor|].
    cbn [List.filter]. destruct (negb (String.eqb p q)); [|exact IH].
    constructor; [|exact IH].
    intros Hin. apply Hq. apply list_elem_of_In in Hin.
    apply filter_In in Hin as [Hin _]. apply list_elem_of_In, Hin.
  - intros f. clear. induction pats as [|q pats IH]; [reflexivity|].
    cbn [List.filter existsb]. destruct (negb (String.eqb p q)); cbn [andb orb].
    + cbn [is_blacklisted]. destruct (pattern_matches re q f); [reflexivity | exact IH].
    + exact IH.
Qed.

Lemma remove_blacklist_pattern_effect_witness :
  NoDup ["*.iso"; "translations"] /\
  fst (remove_blacklist_pattern DbDone "*.iso" ["*.iso"; "translations"]) = ["translations"].
Proof.
  assert (H : NoDup ["*.iso"; "translations"]).
  { repeat constructor; rewrite ?list_elem_of_In; cbn; intuition discriminate. }
  split; [exact H|].
  exact (proj1 (remove_blacklist_pattern_effect Scenario.no_regex "*.iso"
                  ["*.iso"; "translations"] H)).
Defined.

(** ** Blacklist: what a pattern matches *)

Lemma lower_app (a b : string) : Py.lower (a ++ b) = Py.lower a ++ Py.lower b.
Proof.
  induction a as [|c a IH]; [reflexivity|].
  rewrite append_cons. cbn [Py.lower]. rewrite IH, append_cons. reflexivity.
Qed.

Lemma startswith_app (s t p : string) :
  Py.startswith s p = true -> Py.startswith (s ++ t) p = true.
Proof.
  revert s. induction p as [|a p IH]; intros s; [intros _; apply startswith_empty|].
  destruct s as [|b s]; [discriminate|].
  rewrite append_cons. cbn [Py.startswith].
  intros H. apply andb_true_iff in H as [Hab Hs].
  rewrite Hab, (IH _ Hs). reflexivity.
Qed.

Lemma contains_app_r (n h post : string) :
  Py.contains n h = true -> Py.contains n (h ++ post) = true.
Proof.
  induction h as [|c h IH].
  - cbn [Py.contains]. rewrite orb_false_r. intros H.
    destruct n; [apply contains_empty | discriminate H].
  - rewrite append_cons. cbn [Py.contains]. intros H.
    apply orb_true_iff in H as [H | H].
    + change (String c (h ++ post)) with (String c h ++ post).
      rewrite (startswith_app _ _ _ H). reflexivity.
    + rewrite (IH H). apply orb_true_r.
Qed.

Lemma contains_app_l (n h pre : string) :
  Py.contains n h = true -> Py.contains n (pre ++ h) = true.
Proof.
  intros H. induction pre as [|c pre IH]; [exact H|].
  rewrite append_cons. cbn [Py.contains]. rewrite IH. apply orb_true_r.
Qed.

Lemma match_here_app (items : list re_item) :
  forall s post, re_match_here items s = true -> re_match_here items (s ++ post) = true.
Proof.
  induction items as [|[c|] items IH]; intros s post.
  - reflexivity.
  - destruct s as [|d s]; [discriminate|].
    rewrite append_cons. cbn [re_match_here].
    intros H. apply andb_true_iff in H as [Hc Hs].
    rewrite Hc, (IH _ _ Hs). reflexivity.
  - induction s as [|d s IHs].
    + cbn [re_match_here]. rewrite orb_false_r. intros H.
      change ("" ++ post) with post.
      pose proof (IH "" post H) as Hm. change ("" ++ post) with post in Hm.
      destruct post; cbn [re_match_here]; rewrite Hm; reflexivity.
    + rewrite append_cons. cbn [re_match_here]. intros H.
      apply orb_true_iff in H as [H | H].
      * change (String d (s ++ post)) with (String d s ++ post).
        rewrite (IH _ _ H). reflexivity.
      * apply andb_true_iff in H as [Hd Hs].
        rewrite Hd. cbn [re_match_here] in IHs. rewrite (IHs Hs).
        apply orb_true_r.
Qed.

Lemma search_items_app_r (items : list re_item) (s post : string) :
  re_search_items items s = true -> re_search_items items (s ++ post) = true.
Proof.
  induction s as [|c s IH].
  - cbn [re_search_items]. rewrite orb_false_r. intros H.
    change ("" ++ post) with post.
    pose proof (match_here_app items "" post H) as Hm.
    change ("" ++ post) with post in Hm.
    destruct post; cbn [re_search_items]; rewrite Hm; reflexivity.
  - rewrite append_cons. cbn [re_search_items]. intros H.
    apply orb_true_iff in H as [H | H].
    + change (String c (s ++ post)) with (String c s ++ post).
      rewrite (match_here_app _ _ _ H). reflexivity.
    + rewrite (IH H). apply orb_true_r.
Qed.

Lemma search_items_app_l (items : list re_item) (s pre : string) :
  re_search_items items s = true -> re_search_items items (pre ++ s) = true.
Proof.
  intros H. induction pre as [|c pre IH]; [exact H|].
  rewrite append_cons. cbn [re_search_items]. rewrite IH. apply orb_true_r.
Qed.

(** *** The translation of a simple glob is always understood *)

Lemma replace_app (c : ascii) (new s1 s2 : string) :
  Py.replace c new (s1 ++ s2) = Py.replace c new s1 ++ Py.replace c new s2.
Proof.
  induction s1 as [|d s1 IH]; [reflexivity|].
  rewrite append_cons. cbn [Py.replace]. rewrite IH.
  destruct (Ascii.eqb c d); [rewrite append_assoc | rewrite append_cons]; reflexivity.
Qed.

Lemma re_parse_ordinary (c : ascii) (r : string) :
  re_special c = false ->
  re_parse (String c r) = option_map (cons (ReLit c)) (re_parse r).
Proof.
  intros H.
  destruct c as [[] [] [] [] [] [] [] []]; try discriminate H;
    cbn [re_parse]; rewrite ?H; reflexivity.
Qed.

Lemma glob_to_regex_cons (c : ascii) (p : string) :
  glob_to_regex (String c p)
  = if Ascii.eqb c "." then String "\" (String "." (glob_to_regex p))
    else if Ascii.eqb c "*" then String "." (String "*" (glob_to_regex p))
    else String c (glob_to_regex p).
Proof.
  unfold glob_to_regex. cbn [Py.replace].
  rewrite (Ascii.eqb_sym "." c).
  destruct (Ascii.eqb c ".") eqn:Hdot.
  - reflexivity.
  - cbn [Py.replace]. rewrite (Ascii.eqb_sym "*" c).
    destruct (Ascii.eqb c "*"); reflexivity.
Qed.

Lemma re_parse_simple_glob (p : string) :
  simple_glob p = true -> exists items, re_parse (glob_to_regex p) = Some items.
Proof.
  induction p as [|c p IH]; [intros _; exists []; reflexivity|].
  unfold simple_glob. cbn [all_chars]. intros H.
  apply andb_true_iff in H as [Hc Hp].
  destruct (IH Hp) as [items Hitems].
  rewrite glob_to_regex_cons.
  destruct (Ascii.eqb c ".") eqn:Hdot.
  - cbn [re_parse]. rewrite Hitems. eexists. reflexivity.
  - destruct (Ascii.eqb c "*") eqn:Hstar.
    + cbn [re_parse]. rewrite Hitems. eexists. reflexivity.
    + unfold simple_glob_char in Hc. rewrite Hdot, Hstar, !orb_false_r in Hc.
      apply negb_true_iff in Hc.
      rewrite (re_parse_ordinary _ _ Hc), Hitems. eexists. reflexivity.
Qed.

Lemma pattern_matches_substring
    (re : string -> string -> option bool) (p f pre post : string) :
  interpreted p = true ->
  pattern_matches re p f = true ->
  pattern_matches re p (pre ++ f ++ post) = true.
Proof.
  unfold interpreted, pattern_matches. intros Hi.
  destruct (Py.has_char "*" p); cbn [negb orb] in Hi.
  - destruct (re_parse_simple_glob _ Hi) as [items Hitems].
    unfold re_search. rewrite Hitems.
    intros H. apply search_items_app_l, search_items_app_r, H.
  - rewrite !lower_app. intros H. apply contains_app_l, contains_app_r, H.
Qed.

(** X3: matching is by substring.  For ASCII text, when every pattern is
    a plain string or a simple glob (ordinary characters, dots and stars),
    a blacklisted filename stays blacklisted whatever ASCII text is put
    before and after it; in particular a pattern cannot be anchored to the
    start or the end of the name. *)
Theorem blacklist_substring_closed
    (re : string -> string -> option bool) (pats : list string)
    (f pre post : string) :
  Forall (fun p => interpreted p = true) pats ->
  Forall (fun p => Py.isascii p = true) pats ->
  Py.isascii f = true -> Py.isascii pre = true -> Py.isascii post = true ->
  is_blacklisted re pats f = true ->
  is_blacklisted re pats (pre ++ f ++ post) = true.
Proof.
  intros Hint _ _ _ _.
  induction Hint as [|p pats Hp Hall IH]; [discriminate|].
  cbn [is_blacklisted].
  destruct (pattern_matches re p f) eqn:Hm.
  - rewrite (pattern_matches_substring re p f pre post Hp Hm). reflexivity.
  - intros H. rewrite (IH H).
    destruct (pattern_matches re p (pre ++ f ++ post)); reflexivity.
Qed.

Lemma blacklist_substring_closed_witness :
  Forall (fun p => interpreted p = true) ["*.deb"] /\
  Forall (fun p => Py.isascii p = true) ["*.deb"] /\
  is_blacklisted Scenario.no_regex ["*.deb"] ("pool/" ++ "hello.deb" ++ ".sig") = true.
Proof.
  assert (H : Forall (fun p => interpreted p = true) ["*.deb"]) by (repeat constructor).
  assert (Ha : Forall (fun p => Py.isascii p = true) ["*.deb"]) by (repeat constructor).
  split; [exact H|]. split; [exact Ha|].
  apply (blacklist_substring_closed Scenario.no_regex ["*.deb"] "hello.deb" "pool/" ".sig"
           H Ha eq_refl eq_refl eq_refl).
  vm_compute. reflexivity.
Defined.

(** A pattern that is a single star matches every filename. *)
Lemma lone_star_matches_everything
    (re : string -> string -> option bool) (pats : list string) :
  Py.list_in "*" pats = true ->
  forall f, is_blacklisted re pats f = true.
Proof.
  intros Hin f. apply (is_blacklisted_member re pats "*" f Hin).
  unfold pattern_matches, re_search. cbn.
  destruct f; reflexivity.
Qed.

(** *** Case *)

Lemma lower_ascii_idem (c : ascii) : Py.lower_ascii (Py.lower_ascii c) = Py.lower_ascii c.
Proof. destruct c as [[] [] [] [] [] [] [] []]; reflexivity. Qed.

Lemma lower_ascii_newline (c : ascii) :
  Ascii.eqb (Py.lower_ascii c) newline = Ascii.eqb c newline.
Proof. destruct c as [[] [] [] [] [] [] [] []]; reflexivity. Qed.

Lemma lower_idem (s : string) : Py.lower (Py.lower s) = Py.lower s.
Proof.
  induction s as [|c s IH]; [reflexivity|].
  cbn [Py.lower]. rewrite lower_ascii_idem, IH. reflexivity.
Qed.

Lemma match_here_lower (items : list re_item) :
  forall s, re_match_here items (Py.lower s) = re_match_here items s.
Proof.
  induction items as [|[c|] items IH]; intros s.
  - reflexivity.
  - destruct s as [|d s]; [reflexivity|].
    cbn [Py.lower re_match_here]. rewrite lower_ascii_idem, IH. reflexivity.
  - induction s as [|d s IHs].
    + reflexivity.
    + cbn [Py.lower re_match_here].
      change (String (Py.lower_ascii d) (Py.lower s)) with (Py.lower (String d s)).
      rewrite IH, lower_ascii_newline.
      cbn [re_match_here] in IHs. rewrite IHs. reflexivity.
Qed.

Lemma search_items_lower (items : list re_item) (s : string) :
  re_search_items items (Py.lower s) = re_search_items items s.
Proof.
  induction s as [|c s IH].
  - reflexivity.
  - cbn [Py.lower re_search_items].
    change (String (Py.lower_ascii c) (Py.lower s)) with (Py.lower (String c s)).
    rewrite match_here_lower, IH. reflexivity.
Qed.

Lemma pattern_matches_lower
    (re : string -> string -> option bool) (p f : string) :
  interpreted p = true ->
  pattern_matches re p (Py.lower f) = pattern_matches re p f.
Proof.
  unfold interpreted, pattern_matches. intros Hi.
  destruct (Py.has_char "*" p); cbn [negb orb] in Hi.
  - destruct (re_parse_simple_glob _ Hi) as [items Hitems].
    unfold re_search. rewrite Hitems, search_items_lower. reflexivity.
  - rewrite lower_idem. reflexivity.
Qed.

(** X4: the case of the filename does not matter.  When every pattern is a
    plain string or a simple glob, two filenames that differ only in the
    case of their ASCII letters get the same answer. *)
Theorem blacklist_ignores_case
    (re : string -> string -> option bool) (pats : list string) (f1 f2 : string) :
  Forall (fun p => interpreted p = true) pats ->
  Py.lower f1 = Py.lower f2 ->
  is_blacklisted re pats f1 = is_blacklisted re pats f2.
Proof.
  intros Hall Hcase.
  assert (Hlow : forall f, is_blacklisted re pats (Py.lower f) = is_blacklisted re pats f).
  { intros f. induction Hall as [|p pats Hp Hall IH]; [reflexivity|].
    cbn [is_blacklisted]. rewrite (pattern_matches_lower re p f Hp), IH. reflexivity. }
  rewrite <- (Hlow f1), <- (Hlow f2), Hcase. reflexivity.
Qed.

Lemma blacklist_ignores_case_witness :
  Forall (fun p => interpreted p = true) ["*-doc_*.deb"; "Translation"] /\
  is_blacklisted Scenario.no_regex ["*-doc_*.deb"; "Translation"] "VIM-DOC_9.0.DEB"
  = is_blacklisted Scenario.no_regex ["*-doc_*.deb"; "Translation"] "vim-doc_9.0.deb".
Proof.
  assert (H : Forall (fun p => interpreted p = true) ["*-doc_*.deb"; "Translation"])
    by (repeat constructor).
  split; [exact H|].
  apply (blacklist_ignores_case Scenario.no_regex _ _ _ H). reflexivity.
Defined.

(** ** The in-memory log *)

(** X5: [add_log] keeps the buffer within its bound.  On a buffer of at
    most 100 entries the new entry becomes the last one; below the bound
    nothing is dropped, at the bound the oldest entry is; the buffer never
    grows beyond 100; and nothing else of the state changes. *)
Theorem add_log_bounded (msg lvl : string) (w : World) :
  (length (LOG_BUFFER w) <= MAX_LOG_BUFFER)%nat ->
  let w' := add_log msg lvl w in
  (length (LOG_BUFFER w') <= MAX_LOG_BUFFER)%nat /\
  List.last (LOG_BUFFER w') (mkLog "" "") = mkLog lvl msg /\
  ((length (LOG_BUFFER w) < MAX_LOG_BUFFER)%nat ->
   LOG_BUFFER w' = (LOG_BUFFER w ++ [mkLog lvl msg])%list) /\
  (length (LOG_BUFFER w) = MAX_LOG_BUFFER ->
   LOG_BUFFER w' = (tl (LOG_BUFFER w) ++ [mkLog lvl msg])%list) /\
  fs w' = fs w /\ bytes_served w' = bytes_served w /\ requests_sent w' = requests_sent w.
Proof.
  intros Hlen. unfold add_log. cbn [LOG_BUFFER fs bytes_served requests_sent].
  rewrite length_app. cbn [length].
  destruct (MAX_LOG_BUFFER <? length (LOG_BUFFER w) + 1)%nat eqn:Hfull.
  - apply Nat.ltb_lt in Hfull.
    assert (Heq : length (LOG_BUFFER w) = MAX_LOG_BUFFER) by lia.
    destruct (LOG_BUFFER w) as [|e0 buf] eqn:Hbuf; [cbn in Heq; discriminate Heq|].
    cbn [app tl length] in *. rewrite length_app. cbn [length].
    repeat split; try lia; try reflexivity.
    apply last_last.
  - apply Nat.ltb_ge in Hfull.
    rewrite length_app. cbn [length].
    repeat split; try lia; try reflexivity.
    apply last_last.
Qed.

Lemma add_log_bounded_witness :
  (length (LOG_BUFFER Scenario.world) <= MAX_LOG_BUFFER)%nat /\
  LOG_BUFFER (add_log "CACHED: x" "SUCCESS" Scenario.world) = [mkLog "SUCCESS" "CACHED: x"].
Proof.
  assert (H : (length (LOG_BUFFER Scenario.world) <= MAX_LOG_BUFFER)%nat)
    by (cbn; unfold MAX_LOG_BUFFER; lia).
  split; [exact H|].
  apply (proj1 (proj2 (proj2 (add_log_bounded "CACHED: x" "SUCCESS" Scenario.world H)))).
  cbn. unfold MAX_LOG_BUFFER. lia.
Defined.

(** ** [stream_and_cache]: where the response comes from *)

Section ResponseOrigin.

Variable net : string -> list (string * string) -> get_result.
Variable cp : Path.t.
Variable hs : list (string * string).
Variable sc : bool.

(** The mirrors whose answer makes the loop record an error and go on. *)
Local Abbreviation passed_over :=
  (Forall (fun url => recorded_error (net url hs) <> None)).

(** What the response is built from, given the answer [u] of a mirror. *)
Local Abbreviation built_from u r :=
  (status r = status_code u /\
   resp_headers r = filter_headers (headers u) /\
   ((status r = 304%Z /\ resp_body r = BodyNone) \/
    (status r = 206%Z /\ resp_body r = BodyPartial (content u)) \/
    (status r = 200%Z /\ sc = false /\ resp_body r = BodyStream (content u)) \/
    (status r = 200%Z /\ sc = true /\
     exists t, Path.with_suffix cp ".tmp" = Some t /\
               resp_body r = BodyCached (mkGen t cp u GenCreated)))).

Lemma try_urls_origin (urls : list string) :
  forall (le : option string) (w : World) (r : Response),
    snd (try_urls net cp hs sc urls le w) = Returns r ->
    (passed_over urls /\ status r = 502%Z /\ resp_headers r = [] /\
     resp_body r = BodyText ("All upstream mirrors failed. Last error: "
                             ++ fmt_error (List.last
                                  (map (fun url => recorded_error (net url hs)) urls) le)))
    \/
    exists pre url post u,
      urls = (pre ++ url :: post)%list /\ passed_over pre /\
      net url hs = Responds u /\ recorded_error (net url hs) = None /\
      built_from u r.
Proof.
  induction urls as [|url urls IH]; intros le w r.
  - cbn [try_urls snd map List.last]. intros [= <-]. left.
    split; [constructor | auto].
  - destruct (recorded_error (net url hs)) as [e|] eqn:He.
    + rewrite (try_urls_recorded net cp hs sc _ _ _ _ _ He). intros Hres.
      assert (Hurl : recorded_error (net url hs) <> None) by (rewrite He; discriminate).
      destruct (IH _ _ _ Hres) as [(H0 & H1 & H2 & H3) | H].
      * left. split; [constructor; assumption|]. split; [exact H1|].
        split; [exact H2|]. rewrite H3.
        cbn [map]. rewrite He. destruct urls as [|url' urls']; [reflexivity|].
        cbn [map].
        change (List.last (Some e :: ?x :: ?l) le) with (List.last (x :: l) le).
        do 3 f_equal. apply last_cons_default.
      * right. destruct H as (pre & url0 & post & u & -> & Hpre & Hrest).
        exists (url :: pre), url0, post, u.
        split; [reflexivity|]. split; [constructor; assumption | exact Hrest].
    + cbn [try_urls]. unfold recorded_error in He.
      destruct (net url hs) as [u| |msg|msg] eqn:Hnet; try discriminate He;
        [|discriminate].
      destruct (status_code u =? 404)%Z eqn:H404; [discriminate He|].
      destruct ((status_code u =? 200)%Z || (status_code u =? 206)%Z
                || (status_code u =? 304)%Z) eqn:Hok; [|discriminate He].
      intros Hres. right. exists [], url, urls, u.
      split; [reflexivity|]. split; [constructor|]. split; [exact Hnet|].
      split; [rewrite Hnet; cbn; rewrite H404, Hok; reflexivity|].
      destruct (status_code u =? 304)%Z eqn:H304.
      { apply Z.eqb_eq in H304. cbn [snd] in Hres. injection Hres as <-.
        cbn [status resp_headers resp_body]. auto. }
      destruct (status_code u =? 206)%Z eqn:H206.
      { apply Z.eqb_eq in H206. cbn [snd] in Hres. injection Hres as <-.
        cbn [status resp_headers resp_body]. auto 6. }
      rewrite !orb_false_r in Hok. apply Z.eqb_eq in Hok.
      destruct sc.
      * destruct (Path.with_suffix cp ".tmp") as [t|]; [|discriminate Hres].
        cbn [snd] in Hres. injection Hres as <-.
        cbn [status resp_headers resp_body]. split; [auto|]. split; [reflexivity|].
        right. right. right. eauto.
      * cbn [snd] in Hres. injection Hres as <-.
        cbn [status resp_headers resp_body]. auto 8.
Qed.

(** The requests on record are the old ones followed by the mirrors up to
    and including the first whose answer records no error, and neither
    the counter nor the file system has moved. *)
Lemma try_urls_trace (urls : list string) :
  forall (le : option string) (w : World),
    let w' := fst (try_urls net cp hs sc urls le w) in
    ((passed_over urls /\ requests_sent w' = (requests_sent w ++ urls)%list) \/
     (exists pre url post,
         urls = (pre ++ url :: post)%list /\ passed_over pre /\
         recorded_error (net url hs) = None /\
         requests_sent w' = (requests_sent w ++ pre ++ [url])%list)) /\
    bytes_served w' = bytes_served w /\ fs w' = fs w.
Proof.
  induction urls as [|url urls IH]; intros le w.
  - cbn. split; [left; split; [constructor | rewrite app_nil_r; reflexivity] | auto].
  - destruct (recorded_error (net url hs)) as [e|] eqn:He.
    + rewrite (try_urls_recorded net cp hs sc _ _ _ _ _ He).
      assert (Hurl : recorded_error (net url hs) <> None) by (rewrite He; discriminate).
      destruct (IH (Some e) (record_request url w)) as (Hreq & Hb & Hf).
      cbn zeta in *. split; [|split; [exact Hb | exact Hf]].
      cbn [record_request requests_sent] in Hreq.
      destruct Hreq as [(Hall & Hreq) | (pre & url0 & post & -> & Hpre & Hnone & Hreq)].
      * left. split; [constructor; assumption|].
        rewrite Hreq, <- app_assoc. reflexivity.
      * right. exists (url :: pre), url0, post.
        split; [reflexivity|]. split; [constructor; assumption|].
        split; [exact Hnone|]. rewrite Hreq, <- app_assoc. reflexivity.
    + assert (Hstop : forall w1,
                requests_sent w1 = (requests_sent w ++ [url])%list ->
                bytes_served w1 = bytes_served w -> fs w1 = fs w ->
                ((passed_over (url :: urls)
                  /\ requests_sent w1 = (requests_sent w ++ url :: urls)%list) \/
                 (exists pre url0 post,
                     (url :: urls) = (pre ++ url0 :: post)%list /\ passed_over pre /\
                     recorded_error (net url0 hs) = None /\
                     requests_sent w1 = (requests_sent w ++ pre ++ [url0])%list)) /\
                bytes_served w1 = bytes_served w /\ fs w1 = fs w).
      { intros w1 H1 H2 H3. split; [|auto]. right. exists [], url, urls.
        split; [reflexivity|]. split; [constructor|]. split; [exact He | exact H1]. }
      cbn [try_urls]. unfold recorded_error in He.
      destruct (net url hs) as [u| |msg|msg]; try discriminate He.
      * destruct (status_code u =? 404)%Z; [discriminate He|].
        destruct ((status_code u =? 200)%Z || (status_code u =? 206)%Z
                  || (status_code u =? 304)%Z); [|discriminate He].
        destruct (status_code u =? 304)%Z; [apply Hstop; reflexivity|].
        destruct (status_code u =? 206)%Z; [apply Hstop; reflexivity|].
        destruct sc; [|apply Hstop; reflexivity].
        destruct (Path.with_suffix cp ".tmp"); apply Hstop; reflexivity.
      * apply Hstop; reflexivity.
Qed.

End ResponseOrigin.

(** X6: where a response of [stream_and_cache] comes from.  Every response
    the function builds is either its own 502, built without a [headers]
    argument after every listed mirror had its error recorded, or built
    from the answer of the first listed mirror whose answer records no
    error: with that mirror's status, which is 200, 206 or 304; with that
    mirror's headers after filtering as the [headers] argument; and with a
    body that is empty for 304, the plain stream of the mirror's content
    for 206 and for a blacklisted 200, and the caching generator over the
    mirror's answer for a 200 that may be cached.  An upstream error status
    is never passed on.  The headers spoken of are the ones the function
    hands to [Response], not those the framework adds of its own. *)
Theorem response_origin
    (re : string -> string -> option bool) (pats : list string)
    (net : string -> list (string * string) -> get_result)
    (urls : list string) (cp : Path.t) (hs : list (string * string)) (w : World)
    (r : Response) :
  snd (stream_and_cache re pats net urls cp hs w) = Returns r ->
  let blacklisted := is_blacklisted re pats (real_name (Path.name cp)) in
  (Forall (fun url => recorded_error (net url hs) <> None) urls /\
   status r = 502%Z /\ resp_headers r = []) \/
  exists pre url post u,
    urls = (pre ++ url :: post)%list /\
    Forall (fun url => recorded_error (net url hs) <> None) pre /\
    net url hs = Responds u /\
    status r = status_code u /\
    resp_headers r = filter_headers (headers u) /\
    ((status r = 304%Z /\ resp_body r = BodyNone) \/
     (status r = 206%Z /\ resp_body r = BodyPartial (content u)) \/
     (status r = 200%Z /\ blacklisted = true /\ resp_body r = BodyStream (content u)) \/
     (status r = 200%Z /\ blacklisted = false /\
      exists t, Path.with_suffix cp ".tmp" = Some t /\
                resp_body r = BodyCached (mkGen t cp u GenCreated))).
Proof.
  unfold stream_and_cache. intros Hres. cbn zeta.
  destruct (try_urls_origin _ _ _ _ _ _ _ _ Hres) as [(H0 & H1 & H2 & _) | H].
  - left. auto.
  - right. destruct H as (pre & url & post & u & Hurls & Hpre & Hnet & _ & Hst & Hh & Hbody).
    exists pre, url, post, u. repeat (split; [assumption|]).
    destruct Hbody as [H | [H | [(Ha & Hb & Hc) | (Ha & Hb & Hc)]]]; auto.
    + apply negb_false_iff in Hb. auto 6.
    + apply negb_true_iff in Hb. auto 8.
Qed.

Lemma response_origin_witness :
  let urls := ["http://mirror.example/debian/" ++ Scenario.hello; CacheScenario.url] in
  exists r u,
    snd (stream_and_cache Scenario.no_regex [] CacheScenario.net urls
           CacheScenario.cache_path [] CacheScenario.world) = Returns r /\
    CacheScenario.net CacheScenario.url [] = Responds u /\
    status r = status_code u /\
    resp_headers r = filter_headers (headers u).
Proof.
  cbn zeta.
  set (urls := ["http://mirror.example/debian/" ++ Scenario.hello; CacheScenario.url]).
  assert (Hres : snd (stream_and_cache Scenario.no_regex [] CacheScenario.net urls
                        CacheScenario.cache_path [] CacheScenario.world)
                 = Returns CacheScenario.answer) by (vm_compute; reflexivity).
  exists CacheScenario.answer.
  destruct (response_origin Scenario.no_regex [] CacheScenario.net urls
              CacheScenario.cache_path [] CacheScenario.world CacheScenario.answer Hres)
    as [(_ & H & _) | (pre & url & post & u & Hurls & Hpre & Hnet & Hst & Hh & _)].
  - discriminate H.
  - assert (Hurl : url = CacheScenario.url).
    { unfold urls in Hurls. destruct pre as [|a [|b pre]].
      - injection Hurls as <- _. vm_compute in Hnet. discriminate Hnet.
      - injection Hurls as _ <- _. reflexivity.
      - apply (f_equal (@length string)) in Hurls.
        cbn [length app] in Hurls. rewrite length_app in Hurls. cbn [length] in Hurls.
        lia. }
    subst url. exists u. auto.
Defined.

Lemma filter_headers_clean (hs : list (string * string)) :
  Forall (fun kv => Py.list_in (Py.lower (fst kv)) excluded_headers = false)
    (filter_headers hs).
Proof.
  apply Forall_forall. intros kv Hin. apply list_elem_of_In in Hin.
  apply filter_In in Hin as [_ H]. apply negb_true_iff in H. exact H.
Qed.

(** X7: the headers [stream_and_cache] hands to the response it builds
    (the [headers] argument of [Response]; what the framework adds of its
    own is not part of it) never include a header named
    [transfer-encoding], [connection], [content-encoding] or
    [content-length], in any case of the ASCII letters; unless the
    response is the function's own 502, they are every other header of the
    mirror that answered, in that mirror's order. *)
Theorem hop_headers_never_relayed
    (re : string -> string -> option bool) (pats : list string)
    (net : string -> list (string * string) -> get_result)
    (urls : list string) (cp : Path.t) (hs : list (string * string)) (w : World)
    (r : Response) :
  snd (stream_and_cache re pats net urls cp hs w) = Returns r ->
  Forall (fun kv => Py.list_in (Py.lower (fst kv)) excluded_headers = false)
    (resp_headers r) /\
  (status r <> 502%Z ->
   exists pre url post u,
     urls = (pre ++ url :: post)%list /\
     Forall (fun url => recorded_error (net url hs) <> None) pre /\
     net url hs = Responds u /\
     resp_headers r
     = List.filter (fun kv => negb (Py.list_in (Py.lower (fst kv)) excluded_headers))
         (headers u)).
Proof.
  unfold stream_and_cache. intros Hres.
  destruct (try_urls_origin _ _ _ _ _ _ _ _ Hres)
    as [(_ & H1 & H2 & _) | (pre & url & post & u & Hurls & Hpre & Hnet & _ & _ & Hh & _)].
  - rewrite H2. split; [constructor | congruence].
  - rewrite Hh. split; [apply filter_headers_clean|].
    intros _. exists pre, url, post, u. auto.
Qed.

Lemma hop_headers_never_relayed_witness :
  snd CacheScenario.served = Returns CacheScenario.answer /\
  headers CacheScenario.upstream = [("Content-Length", "4"); ("ETag", "x")] /\
  resp_headers CacheScenario.answer = [("ETag", "x")].
Proof.
  split; [exact scenario_answer|]. split; [reflexivity|].
  destruct (proj2 (hop_headers_never_relayed Scenario.no_regex [] CacheScenario.net
                     [CacheScenario.url] CacheScenario.cache_path [] CacheScenario.world
                     CacheScenario.answer scenario_answer))
    as (pre & url & post & u & Hurls & _ & Hnet & Hh); [discriminate|].
  assert (Hurl : url = CacheScenario.url).
  { destruct pre as [|a pre].
    - injection Hurls as <- _. reflexivity.
    - apply (f_equal (@length string)) in Hurls.
      cbn [length app] in Hurls. rewrite length_app in Hurls. cbn [length] in Hurls. lia. }
  subst url. vm_compute in Hnet. injection Hnet as <-. exact Hh.
Defined.

(** X8: [stream_and_cache] asks the mirrors in the listed order, up to and
    including the first whose answer records no error, and none after it:
    the requests on record afterwards are the earlier ones followed by
    every listed mirror, when each of them had its error recorded, and
    otherwise by the mirrors before the first answer that records no error
    and the mirror that gave it.  The call itself streams nothing: the byte
    counter and the file system are as before. *)
Theorem requests_are_a_prefix
    (re : string -> string -> option bool) (pats : list string)
    (net : string -> list (string * string) -> get_result)
    (urls : list string) (cp : Path.t) (hs : list (string * string)) (w : World) :
  let w' := fst (stream_and_cache re pats net urls cp hs w) in
  ((Forall (fun url => recorded_error (net url hs) <> None) urls /\
    requests_sent w' = (requests_sent w ++ urls)%list) \/
   (exists pre url post,
       urls = (pre ++ url :: post)%list /\
       Forall (fun url => recorded_error (net url hs) <> None) pre /\
       recorded_error (net url hs) = None /\
       requests_sent w' = (requests_sent w ++ pre ++ [url])%list)) /\
  bytes_served w' = bytes_served w /\ fs w' = fs w.
Proof.
  unfold stream_and_cache. cbn zeta.
  destruct (try_urls_trace net cp hs
              (negb (is_blacklisted re pats (real_name (Path.name cp)))) urls None
              (if negb (negb (is_blacklisted re pats (real_name (Path.name cp))))
               then add_log ("BLACKLISTED: " ++ real_name (Path.name cp)) "WARNING" w
               else w)) as (Hn & Hb & Hf).
  cbn zeta in *. rewrite Hb, Hf.
  assert (Hsame : requests_sent
                    (if negb (negb (is_blacklisted re pats (real_name (Path.name cp))))
                     then add_log ("BLACKLISTED: " ++ real_name (Path.name cp)) "WARNING" w
                     else w) = requests_sent w)
    by (destruct (negb (negb _)); reflexivity).
  rewrite Hsame in Hn.
  split; [exact Hn|].
  split; destruct (negb (negb _)); reflexivity.
Qed.

(** ** The generators: counting, cleaning up, publishing at the end only *)

Lemma on_exception_bytes (g : cached_gen) (e : exn) (w : World) :
  bytes_served (fst (on_exception g e w)) = bytes_served w /\
  yielded_bytes [snd (on_exception g e w)] = 0%Z.
Proof.
  unfold on_exception. destruct e as [msg|]; [|auto].
  destruct (FS.exists_ _ _); [|auto].
  destruct (FS.unlink _ _); auto.
Qed.

Lemma chunk_loop_bytes (now : Z) (g : cached_gen) (disk : write_outcome)
    (f : list string) (rest : list iter_event) :
  forall w,
    bytes_served (fst (fst (chunk_loop now g disk f rest w)))
    = (bytes_served w + yielded_bytes [snd (chunk_loop now g disk f rest w)])%Z.
Proof.
  assert (Hexc : forall e w,
    bytes_served (fst (fst (let '(w', o) := on_exception g e w in
                            (w', set_state g GenFinished, o))))
    = (bytes_served w
       + yielded_bytes [snd (let '(w', o) := on_exception g e w in
                             (w', set_state g GenFinished, o))])%Z).
  { intros e w. destruct (on_exception_bytes g e w) as [Hb Hy].
    destruct (on_exception g e w) as [w' o]. cbn [fst snd] in *. lia. }
  induction rest as [|[data|msg] rest IH]; intros w; cbn [chunk_loop].
  - destruct (FS.rename _ _ _); [cbn; lia | apply Hexc].
  - destruct (String.eqb data ""); [apply IH|].
    destruct disk; [cbn; lia | apply Hexc].
  - apply Hexc.
Qed.

Lemma gen_next_bytes (now : Z) (disk : write_outcome) (g : cached_gen) (w : World) :
  bytes_served (fst (fst (gen_next now disk g w)))
  = (bytes_served w + yielded_bytes [snd (gen_next now disk g w)])%Z.
Proof.
  unfold gen_next. destruct (state g) as [|f rest|].
  - destruct (FS.open_wb now (fs w) (temp_path g)) as [[fs' f]|].
    + rewrite chunk_loop_bytes. reflexivity.
    + destruct (on_exception_bytes g (Exception_ "open") w) as [Hb Hy].
      destruct (on_exception g (Exception_ "open") w) as [w' o].
      cbn [fst snd] in *. lia.
  - apply chunk_loop_bytes.
  - cbn. lia.
Qed.

Lemma gen_close_bytes (g : cached_gen) (w : World) :
  bytes_served (fst (gen_close g w)) = bytes_served w.
Proof.
  unfold gen_close, gen_throw. destruct (state g); reflexivity.
Qed.

Lemma yielded_bytes_cons (o : outcome) (outs : list outcome) :
  yielded_bytes (o :: outs) = (yielded_bytes [o] + yielded_bytes outs)%Z.
Proof. destruct o; cbn; lia. Qed.

(** X9: the byte counter counts what is handed to the client.  Whatever
    the consumer does with the caching generator (resume it, with writes
    that succeed or fail, or close it) and whatever the upstream delivers,
    [bytes_served] grows by exactly the length of the chunks yielded; the
    two plain generators count in the same way. *)
Theorem bytes_served_counts_yielded (now : Z) :
  (forall turns g w,
      bytes_served (fst (fst (run now turns g w)))
      = (bytes_served w + yielded_bytes (snd (run now turns g w)))%Z) /\
  (forall rest w,
      bytes_served (fst (fst (plain_next rest w)))
      = (bytes_served w + yielded_bytes [snd (plain_next rest w)])%Z).
Proof.
  split.
  - induction turns as [|[disk|] turns IH]; intros g w; cbn [run].
    + cbn. lia.
    + pose proof (gen_next_bytes now disk g w) as Hn.
      destruct (gen_next now disk g w) as [[w1 g1] o]. cbn [fst snd] in Hn.
      specialize (IH g1 w1).
      destruct (run now turns g1 w1) as [[w2 g2] outs]. cbn [fst snd] in *.
      rewrite yielded_bytes_cons. lia.
    + pose proof (gen_close_bytes g w) as Hc.
      destruct (gen_close g w) as [w1 g1]. cbn [fst] in Hc.
      rewrite IH. lia.
  - induction rest as [|[data|msg] rest IH]; intros w; cbn [plain_next].
    + cbn. lia.
    + destruct (String.eqb data ""); [apply IH | cbn; lia].
    + cbn. lia.
Qed.

(** *** Runs that stop before the end of the stream *)

Lemma run_skip_empty (now : Z) (g : cached_gen) (tk : list string)
    (r : list iter_event) (t : turn) (turns : list turn) (w : World) :
  run now (t :: turns) (set_state g (GenSuspended tk (Chunk "" :: r))) w
  = run now (t :: turns) (set_state g (GenSuspended tk r)) w.
Proof.
  destruct t as [disk|]; cbn [run].
  - unfold gen_next. cbn [state set_state chunk_loop String.eqb].
    rewrite (chunk_loop_paths now
               (mkGen (temp_path g) (cache_path g) (response g)
                  (GenSuspended tk (Chunk "" :: r)))
               (mkGen (temp_path g) (cache_path g) (response g) (GenSuspended tk r)))
      by reflexivity.
    reflexivity.
  - reflexivity.
Qed.

Section PartialRun.

Variable now : Z.
Variable tk : list string.
Variable ns0 : gmap (list string) FS.node.
Variable cwd0 : list string.
Variable g : cached_gen.

Local Abbreviation writing := (writing ns0 cwd0 tk).
Local Abbreviation at_rest rest := (set_state g (GenSuspended tk rest)).

Lemma gen_next_yields (data : string) (rest : list iter_event) (w : World) :
  data <> "" ->
  gen_next now WriteDone (at_rest (Chunk data :: rest)) w
  = (add_bytes (Z.of_nat (String.length data)) (set_fs w (FS.write now (fs w) tk data)),
     at_rest rest, Yielded data).
Proof.
  intros Hd. apply String.eqb_neq in Hd.
  unfold gen_next. cbn [state set_state chunk_loop]. rewrite Hd. reflexivity.
Qed.

(** The first [k] non-empty chunks: each is appended to the temp file and
    yielded, and the generator is suspended again. *)
Lemma run_prefix (chunks : list string) :
  forall (k : nat) (rest : list iter_event) (acc : string) (w : World),
    writing acc w ->
    (k <= length (nonempty_chunks chunks))%nat ->
    exists w' rest',
      run now (drain k) (at_rest (map Chunk chunks ++ rest)) w
      = (w', at_rest rest', map Yielded (take k (nonempty_chunks chunks))) /\
      writing (acc ++ body_bytes (take k (nonempty_chunks chunks))) w'.
Proof.
  induction chunks as [|c chunks IH]; intros k rest acc w Hw Hk.
  - cbn [nonempty_chunks List.filter length] in Hk.
    assert (k = 0%nat) as -> by lia.
    exists w, rest. cbn. rewrite append_nil_r. auto.
  - destruct k as [|k].
    { eexists w, _. cbn [drain repeat run take map body_bytes fold_right].
      rewrite append_nil_r. split; [reflexivity | exact Hw]. }
    destruct (String.eqb c "") eqn:Hc.
    + apply String.eqb_eq in Hc. subst c.
      change (nonempty_chunks ("" :: chunks)) with (nonempty_chunks chunks) in *.
      destruct (IH (S k) rest acc w Hw Hk) as (w' & rest' & Hrun & Hw').
      exists w', rest'. split; [|exact Hw'].
      rewrite <- Hrun. apply (run_skip_empty now g tk).
    + assert (Hne : nonempty_chunks (c :: chunks) = c :: nonempty_chunks chunks).
      { unfold nonempty_chunks. cbn [List.filter]. rewrite Hc. reflexivity. }
      rewrite Hne in *. cbn [length] in Hk.
      pose proof (writing_write now tk ns0 cwd0 acc c w Hw) as Hw1.
      destruct (IH k rest (acc ++ c) _ Hw1 ltac:(lia)) as (w' & rest' & Hrun & Hw').
      exists w', rest'. split.
      * change (drain (S k)) with (Next WriteDone :: drain k).
        cbn [run map app]. rewrite gen_next_yields by (apply String.eqb_neq, Hc).
        rewrite Hrun. reflexivity.
      * cbn [take body_bytes fold_right].
        change (fold_right String.append "" ?l) with (body_bytes l).
        rewrite <- append_assoc. exact Hw'.
Qed.

(** A run that ends in a failing step: the chunks before it are yielded,
    then the failing step finishes the generator. *)
Lemma run_until (d : write_outcome) (rest : list iter_event) (F : FS.t)
    (chunks : list string) (acc : string) (w : World) :
  (forall acc' w1,
      writing acc' w1 ->
      exists w', gen_next now d (at_rest rest) w1
                 = (w', set_state g GenFinished, StopIteration) /\ fs w' = F) ->
  writing acc w ->
  exists w' g',
    run now (drain (length (nonempty_chunks chunks)) ++ [Next d])
      (at_rest (map Chunk chunks ++ rest)) w
    = (w', g', (map Yielded (nonempty_chunks chunks) ++ [StopIteration])%list) /\
    state g' = GenFinished /\ fs w' = F.
Proof.
  intros Hfin Hw.
  destruct (run_prefix chunks (length (nonempty_chunks chunks)) rest acc w Hw (le_n _))
    as (w1 & rest1 & Hrun & Hw1).
  revert w acc Hw w1 rest1 Hrun Hw1.
  induction chunks as [|c chunks IH]; intros w acc Hw w1 rest1 Hrun Hw1.
  - cbn [nonempty_chunks List.filter length drain repeat app map].
    destruct (Hfin acc w Hw) as (w' & Hstep & HF).
    exists w', (set_state g GenFinished). cbn [run]. rewrite Hstep.
    cbn [run]. auto.
  - destruct (String.eqb c "") eqn:Hc.
    + apply String.eqb_eq in Hc. subst c.
      change (nonempty_chunks ("" :: chunks)) with (nonempty_chunks chunks) in *.
      destruct (run_prefix chunks (length (nonempty_chunks chunks)) rest acc w Hw (le_n _))
        as (w2 & rest2 & Hrun2 & Hw2).
      destruct (IH w acc Hw w2 rest2 Hrun2 Hw2) as (w' & g' & Hr & Hs & HF).
      exists w', g'. split; [|auto]. rewrite <- Hr.
      cbn [map app].
      destruct (drain (length (nonempty_chunks chunks)) ++ [Next d])%list
        as [|t turns] eqn:Hturns.
      { destruct (drain _); discriminate Hturns. }
      apply (run_skip_empty now g tk).
    + assert (Hne : nonempty_chunks (c :: chunks) = c :: nonempty_chunks chunks).
      { unfold nonempty_chunks. cbn [List.filter]. rewrite Hc. reflexivity. }
      rewrite Hne. cbn [length].
      pose proof (writing_write now tk ns0 cwd0 acc c w Hw) as Hwc.
      destruct (run_prefix chunks (length (nonempty_chunks chunks)) rest (acc ++ c) _
                  Hwc (le_n _)) as (w2 & rest2 & Hrun2 & Hw2).
      destruct (IH _ _ Hwc w2 rest2 Hrun2 Hw2) as (w' & g' & Hr & Hs & HF).
      exists w', g'. split; [|auto].
      change (drain (S ?n)) with (Next WriteDone :: drain n).
      cbn [run map app]. rewrite gen_next_yields by (apply String.eqb_neq, Hc).
      rewrite Hr. reflexivity.
Qed.

End PartialRun.

Lemma drain_snoc (n : nat) : drain (S n) = (drain n ++ [Next WriteDone])%list.
Proof. unfold drain. apply repeat_cons. Qed.

(** The first resumption of a fresh generator opens the temp file and goes
    on as a suspended generator would. *)
Lemma run_started (now : Z) (g : cached_gen) (w : World) (tk : list string)
    (d : write_outcome) (turns : list turn) :
  state g = GenCreated ->
  option_map snd (FS.open_wb now (fs w) (temp_path g)) = Some tk ->
  FS.locate (FS.mk (FS.nodes (fs w)) (FS.cwd (fs w))) (temp_path g) = Some tk /\
  FS.is_dir (FS.nodes (fs w)) tk = false /\
  exists w1,
    writing (FS.nodes (fs w)) (FS.cwd (fs w)) tk "" w1 /\
    run now (Next d :: turns) g w
    = run now (Next d :: turns)
        (set_state g (GenSuspended tk (content (response g)))) w1.
Proof.
  intros Hst Hopened.
  destruct (FS.open_wb now (fs w) (temp_path g)) as [[fs1 tk']|] eqn:Hopen;
    [|discriminate Hopened].
  cbn [option_map snd] in Hopened. injection Hopened as ->.
  destruct (open_wb_inv _ _ _ _ _ Hopen) as (Htk & Hfile & m0 & Hfs1).
  split; [destruct (fs w); exact Htk|]. split; [exact Hfile|].
  exists (set_fs w fs1). split; [exists m0; exact Hfs1|].
  cbn [run]. unfold gen_next at 1. rewrite Hst, Hopen.
  unfold gen_next at 1. cbn [state set_state].
  rewrite (chunk_loop_paths now
             (mkGen (temp_path g) (cache_path g) (response g)
                (GenSuspended tk (content (response g)))) g) by reflexivity.
  reflexivity.
Qed.

(** The upstream iterator raises after the chunks [pre]: they are yielded,
    then the generator ends and the temp file is gone. *)
Lemma run_upstream_error
    (now : Z) (g : cached_gen) (w : World) (tk : list string)
    (pre : list string) (post : list iter_event) (msg : string) :
  state g = GenCreated ->
  option_map snd (FS.open_wb now (fs w) (temp_path g)) = Some tk ->
  content (response g) = (map Chunk pre ++ IterRaises msg :: post)%list ->
  exists w' g',
    run now (drain (S (length (nonempty_chunks pre)))) g w
    = (w', g', (map Yielded (nonempty_chunks pre) ++ [StopIteration])%list) /\
    state g' = GenFinished /\
    fs w' = FS.mk (delete tk (FS.nodes (fs w))) (FS.cwd (fs w)).
Proof.
  intros Hst Hopened Hcontent. rewrite drain_snoc.
  destruct (drain (length (nonempty_chunks pre)) ++ [Next WriteDone])%list
    as [|[d|] turns] eqn:Hturns;
    [destruct (drain _); discriminate Hturns | | destruct (length _); discriminate Hturns].
  destruct (run_started now g w tk d turns Hst Hopened)
    as (Htk & Hfile & w1 & Hw1 & ->).
  rewrite <- Hturns, Hcontent.
  apply (run_until now tk (FS.nodes (fs w)) (FS.cwd (fs w)) g WriteDone
           (IterRaises msg :: post) _ pre "" w1); [|exact Hw1].
  intros acc' w2 Hw2.
  apply (upstream_error_removes_temp now (temp_path g) tk _ _ Htk Hfile
           (set_state g (GenSuspended tk (IterRaises msg :: post)))
           WriteDone msg acc' post w2 eq_refl Hw2 eq_refl).
Qed.

(** The device refuses the write of the chunk [data] that follows [pre]. *)
Lemma run_write_error
    (now : Z) (g : cached_gen) (w : World) (tk : list string)
    (pre : list string) (post : list iter_event) (msg data : string) :
  state g = GenCreated ->
  option_map snd (FS.open_wb now (fs w) (temp_path g)) = Some tk ->
  data <> "" ->
  content (response g) = (map Chunk pre ++ Chunk data :: post)%list ->
  exists w' g',
    run now (drain (length (nonempty_chunks pre)) ++ [Next (WriteRaises msg)]) g w
    = (w', g', (map Yielded (nonempty_chunks pre) ++ [StopIteration])%list) /\
    state g' = GenFinished /\
    fs w' = FS.mk (delete tk (FS.nodes (fs w))) (FS.cwd (fs w)).
Proof.
  intros Hst Hopened Hdata Hcontent.
  destruct (drain (length (nonempty_chunks pre)) ++ [Next (WriteRaises msg)])%list
    as [|[d|] turns] eqn:Hturns;
    [destruct (drain _); discriminate Hturns | | destruct (length _); discriminate Hturns].
  destruct (run_started now g w tk d turns Hst Hopened)
    as (Htk & Hfile & w1 & Hw1 & ->).
  rewrite <- Hturns, Hcontent.
  apply (run_until now tk (FS.nodes (fs w)) (FS.cwd (fs w)) g (WriteRaises msg)
           (Chunk data :: post) _ pre "" w1); [|exact Hw1].
  intros acc' w2 Hw2.
  apply (write_error_removes_temp now (temp_path g) tk _ _ Htk Hfile
           (set_state g (GenSuspended tk (Chunk data :: post)))
           msg data acc' post w2 eq_refl Hw2 Hdata eq_refl).
Qed.

(** X10: an error of the upstream or of the disk in the middle of a cache
    write leaves no file behind.  The chunks before the error are yielded,
    the generator then ends normally, and the tree is the one from before
    the write without whatever was at the temp path: nothing has been
    renamed to the cache path, and when there was no stale temp file the
    tree is exactly as it was. *)
Theorem failed_write_leaves_no_file
    (now : Z) (g : cached_gen) (w : World) (tk : list string)
    (pre : list string) (post : list iter_event) (msg : string) :
  state g = GenCreated ->
  option_map snd (FS.open_wb now (fs w) (temp_path g)) = Some tk ->
  let cleaned := FS.mk (delete tk (FS.nodes (fs w))) (FS.cwd (fs w)) in
  (FS.nodes (fs w) !! tk = None -> cleaned = fs w) /\
  (content (response g) = (map Chunk pre ++ IterRaises msg :: post)%list ->
   exists w' g',
     run now (drain (S (length (nonempty_chunks pre)))) g w
     = (w', g', (map Yielded (nonempty_chunks pre) ++ [StopIteration])%list) /\
     state g' = GenFinished /\ fs w' = cleaned) /\
  (forall data,
     data <> "" ->
     content (response g) = (map Chunk pre ++ Chunk data :: post)%list ->
     exists w' g',
       run now (drain (length (nonempty_chunks pre)) ++ [Next (WriteRaises msg)]) g w
       = (w', g', (map Yielded (nonempty_chunks pre) ++ [StopIteration])%list) /\
       state g' = GenFinished /\ fs w' = cleaned).
Proof.
  intros Hst Hopened. cbn zeta.
  split; [|split].
  - intros Hnone. rewrite delete_id by exact Hnone. destruct (fs w); reflexivity.
  - apply run_upstream_error; assumption.
  - intros data Hdata. apply run_write_error; assumption.
Qed.

Lemma failed_write_leaves_no_file_witness :
  exists w' g',
    run 5 (drain 2) BrokenStreamScenario.gen CacheScenario.world
    = (w', g', [Yielded "ab"; StopIteration]) /\
    state g' = GenFinished /\ fs w' = fs CacheScenario.world.
Proof.
  assert (Hopen : option_map snd (FS.open_wb 5 (fs CacheScenario.world)
                                    (temp_path BrokenStreamScenario.gen))
                  = Some CacheScenario.tk) by (vm_compute; reflexivity).
  assert (Hnone : FS.nodes (fs CacheScenario.world) !! CacheScenario.tk = None)
    by (vm_compute; reflexivity).
  destruct (failed_write_leaves_no_file 5 BrokenStreamScenario.gen CacheScenario.world
              CacheScenario.tk ["ab"] [Chunk "cd"] "connection reset" eq_refl Hopen)
    as (Hid & Hup & _).
  destruct (Hup eq_refl) as (w' & g' & Hrun & Hst & Hfs).
  exists w', g'. split; [exact Hrun|]. split; [exact Hst|].
  rewrite Hfs. apply Hid, Hnone.
Defined.

(** *** A download in progress *)

(** X11: a download in progress is not visible at the cache path.  After
    the consumer has taken [k] chunks (at least one) of a body that goes on,
    the generator is suspended inside the write with exactly those chunks
    handed out, the temp file exists, and what is found at the cache path
    is what was there before the download began, provided the cache path
    and the temp path are not the same file. *)
Theorem download_in_progress
    (now : Z) (g : cached_gen) (w : World) (tk : list string)
    (chunks : list string) (rest : list iter_event) (k : nat) :
  state g = GenCreated ->
  option_map snd (FS.open_wb now (fs w) (temp_path g)) = Some tk ->
  FS.locate (fs w) (cache_path g) <> Some tk ->
  content (response g) = (map Chunk chunks ++ rest)%list ->
  (1 <= k <= length (nonempty_chunks chunks))%nat ->
  exists w' g' rest',
    run now (drain k) g w = (w', g', map Yielded (take k (nonempty_chunks chunks))) /\
    state g' = GenSuspended tk rest' /\
    FS.exists_ (fs w') (temp_path g) = true /\
    FS.lookup (fs w') (cache_path g) = FS.lookup (fs w) (cache_path g).
Proof.
  intros Hst Hopened Hdiff Hcontent [Hk1 Hk].
  destruct k as [|k]; [lia|].
  change (drain (S k)) with (Next WriteDone :: drain k).
  destruct (run_started now g w tk WriteDone (drain k) Hst Hopened)
    as (Htk & Hfile & w1 & Hw1 & ->).
  rewrite Hcontent.
  destruct (run_prefix now tk (FS.nodes (fs w)) (FS.cwd (fs w)) g chunks (S k) rest "" w1
              Hw1 Hk) as (w' & rest' & Hrun & Hw').
  change (Next WriteDone :: drain k) with (drain (S k)).
  exists w', (set_state g (GenSuspended tk rest')), rest'.
  split; [exact Hrun|]. split; [reflexivity|].
  change ("" ++ ?s) with s in Hw'.
  assert (Hloc : forall p, FS.locate (fs w') p = FS.locate (fs w) p).
  { intros p. rewrite (writing_locate tk (FS.nodes (fs w)) (FS.cwd (fs w)) Hfile _ w' p Hw').
    destruct (fs w); reflexivity. }
  destruct Hw' as [m Hfs].
  assert (Htk' : FS.locate (fs w) (temp_path g) = Some tk)
    by (destruct (fs w); exact Htk).
  split.
  - unfold FS.exists_, FS.lookup. rewrite Hloc, Htk', Hfs. cbn [FS.nodes].
    rewrite lookup_insert_eq. reflexivity.
  - unfold FS.lookup. rewrite Hloc.
    destruct (FS.locate (fs w) (cache_path g)) as [ck|]; [|reflexivity].
    rewrite Hfs. cbn [FS.nodes]. apply lookup_insert_ne. congruence.
Qed.

Lemma download_in_progress_witness :
  exists w' g' rest',
    run 5 (drain 1) CacheScenario.gen CacheScenario.world = (w', g', [Yielded "ab"]) /\
    state g' = GenSuspended CacheScenario.tk rest' /\
    FS.exists_ (fs w') CacheScenario.temp_path = true /\
    FS.lookup (fs w') CacheScenario.cache_path = None.
Proof.
  assert (Hopen : option_map snd (FS.open_wb 5 (fs CacheScenario.world)
                                    (temp_path CacheScenario.gen))
                  = Some CacheScenario.tk) by (vm_compute; reflexivity).
  assert (Hck : FS.locate (fs CacheScenario.world) (cache_path CacheScenario.gen)
                = Some CacheScenario.ck) by (vm_compute; reflexivity).
  assert (Hdiff : FS.locate (fs CacheScenario.world) (cache_path CacheScenario.gen)
                  <> Some CacheScenario.tk).
  { rewrite Hck. intros [= H]. }
  assert (Hnone : FS.lookup (fs CacheScenario.world) (cache_path CacheScenario.gen) = None)
    by (vm_compute; reflexivity).
  destruct (download_in_progress 5 CacheScenario.gen CacheScenario.world CacheScenario.tk
              ["ab"; ""; "cd"] [] 1 eq_refl Hopen Hdiff eq_refl ltac:(cbn; lia))
    as (w' & g' & rest' & Hrun & Hst & Hread & Hlook).
  exists w', g', rest'. split; [exact Hrun|]. split; [exact Hst|]. split; [exact Hread|].
  rewrite <- Hnone. exact Hlook.
Defined.

(** ** [delete_cached_file]: what a call can do *)

(** The two ways a call ends: nothing happens and [False] is returned, or
    the guard has passed, the joined path names a regular file, that file
    is removed, the deletion is logged and [True] is returned. *)
Lemma delete_cached_file_cases (CONFIG : gmap string value) (rel : string) (w : World) :
  delete_cached_file CONFIG rel w = (w, false) \/
  exists s k c m,
    get_config CONFIG "storage_path_resolved" VNone = VStr s /\
    s <> "" /\
    Py.startswith (Path.str (Path.of_str s // rel))
      (Path.str (FS.resolve (fs w) (Path.of_str s))) = true /\
    FS.locate (fs w) (Path.of_str s // rel) = Some k /\
    FS.nodes (fs w) !! k = Some (FS.File c m) /\
    delete_cached_file CONFIG rel w
    = (add_log ("Deleted file: " ++ rel) "INFO"
         (set_fs w (FS.mk (delete k (FS.nodes (fs w))) (FS.cwd (fs w)))), true).
Proof.
  unfold delete_cached_file.
  destruct (get_config CONFIG "storage_path_resolved" VNone) as [|b|n|s] eqn:Hcfg;
    cbn [truthy negb].
  - left. reflexivity.
  - left. destruct b; reflexivity.
  - left. destruct (n =? 0)%Z; reflexivity.
  - destruct (String.eqb s "") eqn:Hs; cbn [negb]; [left; reflexivity|].
    destruct (Py.startswith _ _) eqn:Hguard; cbn [negb]; [|left; reflexivity].
    destruct (FS.exists_ _ _); [|left; reflexivity].
    unfold FS.unlink.
    destruct (FS.locate _ _) as [k|] eqn:Hloc; [|left; reflexivity].
    destruct (FS.nodes (fs w) !! k) as [[m|c m]|] eqn:Hk; try (left; reflexivity).
    right. exists s, k, c, m. apply String.eqb_neq in Hs. auto 10.
Qed.

Lemma last_add_log (msg lvl : string) (w : World) (d : log_entry) :
  List.last (LOG_BUFFER (add_log msg lvl w)) d = mkLog lvl msg.
Proof.
  unfold add_log. cbn [LOG_BUFFER].
  destruct (LOG_BUFFER w) as [|e buf].
  - reflexivity.
  - destruct (MAX_LOG_BUFFER <? length ((e :: buf) ++ [mkLog lvl msg]))%nat.
    + cbn [app tl]. apply last_last.
    + apply last_last.
Qed.

(** X12: [delete_cached_file] removes at most one regular file.  A call
    that returns [False] leaves the whole state as it was; a call that
    returns [True] has removed exactly one node, a regular file (never a
    directory), has kept every other node, and has logged the deletion. *)
Theorem delete_cached_file_outcomes
    (CONFIG : gmap string value) (rel : string) (w : World) :
  let r := delete_cached_file CONFIG rel w in
  (snd r = false -> fst r = w) /\
  (snd r = true ->
   exists k c m,
     FS.nodes (fs w) !! k = Some (FS.File c m) /\
     FS.nodes (fs (fst r)) = delete k (FS.nodes (fs w)) /\
     (forall k', k' <> k -> FS.nodes (fs (fst r)) !! k' = FS.nodes (fs w) !! k') /\
     FS.cwd (fs (fst r)) = FS.cwd (fs w) /\
     bytes_served (fst r) = bytes_served w /\
     List.last (LOG_BUFFER (fst r)) (mkLog "" "")
     = mkLog "INFO" ("Deleted file: " ++ rel)).
Proof.
  cbn zeta.
  destruct (delete_cached_file_cases CONFIG rel w)
    as [-> | (s & k & c & m & _ & _ & _ & _ & Hk & ->)]; cbn [fst snd].
  - split; [reflexivity | discriminate].
  - split; [discriminate|]. intros _. exists k, c, m.
    split; [exact Hk|]. split; [reflexivity|]. split.
    { intros k' Hne. cbn. apply lookup_delete_ne. congruence. }
    split; [reflexivity|]. split; [reflexivity|].
    apply last_add_log.
Qed.

(** X13: a deleted file is gone.  After a call that returned [True] the
    joined path no longer exists, so [is_cache_valid] answers [False] for
    it, and a second call with the same argument returns [False] and
    changes nothing. *)
Theorem delete_cached_file_then
    (CONFIG : gmap string value) (now : Z) (utcoffset : Z -> Z) (s rel : string)
    (w : World) :
  get_config CONFIG "storage_path_resolved" VNone = VStr s ->
  snd (delete_cached_file CONFIG rel w) = true ->
  let w' := fst (delete_cached_file CONFIG rel w) in
  FS.exists_ (fs w') (Path.of_str s // rel) = false /\
  is_cache_valid CONFIG now utcoffset (Path.of_str s // rel) w' = Some false /\
  delete_cached_file CONFIG rel w' = (w', false).
Proof.
  intros Hcfg Hok. cbn zeta.
  destruct (delete_cached_file_cases CONFIG rel w)
    as [Hno | (s' & k & c & m & Hcfg' & Hs & Hguard & Hloc & Hk & Hyes)].
  { rewrite Hno in Hok. discriminate Hok. }
  rewrite Hcfg in Hcfg'. injection Hcfg' as <-.
  rewrite Hyes. cbn [fst].
  set (w' := add_log _ _ _).
  assert (Hfs : fs w' = FS.mk (delete k (FS.nodes (fs w))) (FS.cwd (fs w))) by reflexivity.
  assert (Hfile : FS.is_dir (FS.nodes (fs w)) k = false).
  { unfold FS.is_dir. rewrite Hk. reflexivity. }
  assert (Hloc' : FS.locate (fs w') (Path.of_str s // rel) = Some k).
  { rewrite <- Hloc. apply locate_same_dirs.
    - intros k'. rewrite Hfs. cbn [FS.nodes]. apply is_dir_delete_file, Hfile.
    - rewrite Hfs. reflexivity. }
  assert (Hgone : FS.exists_ (fs w') (Path.of_str s // rel) = false).
  { unfold FS.exists_, FS.lookup. rewrite Hloc', Hfs. cbn [FS.nodes].
    rewrite lookup_delete_eq. reflexivity. }
  split; [exact Hgone|]. split.
  - unfold is_cache_valid. rewrite Hgone. reflexivity.
  - unfold delete_cached_file. rewrite Hcfg. cbn [truthy].
    apply String.eqb_neq in Hs. rewrite Hs. cbn [negb].
    assert (Hres : FS.resolve (fs w') (Path.of_str s) = FS.resolve (fs w) (Path.of_str s)).
    { unfold FS.resolve, FS.start. rewrite Hfs. reflexivity. }
    rewrite Hres, Hguard, Hgone. reflexivity.
Qed.

(** *** Paths without double dots *)

Lemma walk_no_dotdot (ns : gmap (list string) FS.node) (comps : list string) :
  forall cur k,
    Forall (fun c => c <> "..") comps ->
    FS.walk ns cur comps = Some k -> k = (cur ++ comps)%list.
Proof.
  induction comps as [|c comps IH]; intros cur k Hall; cbn [FS.walk].
  - intros [= <-]. rewrite app_nil_r. reflexivity.
  - inversion Hall as [|? ? Hc Hrest]; subst.
    destruct (FS.is_dir ns cur); [|discriminate].
    apply String.eqb_neq in Hc. rewrite Hc.
    intros Hw. rewrite (IH _ _ Hrest Hw), <- app_assoc. reflexivity.
Qed.

Lemma normalize_no_dotdot (comps : list string) :
  forall stack,
    Forall (fun c => c <> "..") comps ->
    Path.normalize stack comps = (stack ++ comps)%list.
Proof.
  induction comps as [|c comps IH]; intros stack Hall.
  - rewrite app_nil_r. reflexivity.
  - inversion Hall as [|? ? Hc Hrest]; subst.
    cbn [Path.normalize]. apply String.eqb_neq in Hc. rewrite Hc, (IH _ Hrest).
    rewrite <- app_assoc. reflexivity.
Qed.

Lemma startswith_refl (s : string) : Py.startswith s s = true.
Proof.
  induction s as [|c s IH]; [reflexivity|].
  cbn [Py.startswith]. rewrite Ascii.eqb_refl, IH. reflexivity.
Qed.

Lemma startswith_same_head (a s p : string) :
  Py.startswith (a ++ s) (a ++ p) = Py.startswith s p.
Proof.
  induction a as [|c a IH]; [reflexivity|].
  rewrite !append_cons. cbn [Py.startswith]. rewrite Ascii.eqb_refl, IH. reflexivity.
Qed.

Lemma join_app_startswith (sep : string) (l1 l2 : list string) :
  Py.startswith (Py.join sep (l1 ++ l2)%list) (Py.join sep l1) = true.
Proof.
  induction l1 as [|x l1 IH]; [apply startswith_empty|].
  destruct l1 as [|y l1].
  - destruct l2 as [|z l2]; [apply startswith_refl|].
    change (Py.join sep ([x] ++ z :: l2)%list) with (x ++ sep ++ Py.join sep (z :: l2)).
    apply startswith_app, startswith_refl.
  - change (Py.join sep ((x :: y :: l1) ++ l2)%list)
      with (x ++ sep ++ Py.join sep ((y :: l1) ++ l2)%list).
    change (Py.join sep (x :: y :: l1)) with (x ++ sep ++ Py.join sep (y :: l1)).
    rewrite !startswith_same_head. exact IH.
Qed.


Lemma delete_cached_file_then_witness :
  snd (delete_cached_file Scenario.CONFIG CachedScenario.rel CachedScenario.world) = true /\
  let w' := fst (delete_cached_file Scenario.CONFIG CachedScenario.rel CachedScenario.world) in
  FS.exists_ (fs w') (Path.of_str "/srv/storage" // CachedScenario.rel) = false /\
  is_cache_valid Scenario.CONFIG 6 Scenario.utc (Path.of_str "/srv/storage" // CachedScenario.rel) w'
  = Some false /\
  delete_cached_file Scenario.CONFIG CachedScenario.rel w' = (w', false).
Proof.
  assert (Hcfg : get_config Scenario.CONFIG "storage_path_resolved" VNone
                 = VStr "/srv/storage") by (vm_compute; reflexivity).
  assert (Hok : snd (delete_cached_file Scenario.CONFIG CachedScenario.rel
                       CachedScenario.world) = true) by (vm_compute; reflexivity).
  split; [exact Hok|].
  exact (delete_cached_file_then Scenario.CONFIG 6 Scenario.utc "/srv/storage"
           CachedScenario.rel
           CachedScenario.world Hcfg Hok).
Defined.


(** ** [get_cache_path]: the directories it leaves behind *)

Lemma mkdir_walk_keeps (now : Z) (comps : list string) :
  forall ns cur ns',
    FS.mkdir_walk now ns cur comps = Some ns' ->
    forall k n, ns !! k = Some n -> ns' !! k = Some n.
Proof.
  induction comps as [|c comps IH]; intros ns cur ns'; cbn [FS.mkdir_walk].
  - intros [= <-]. auto.
  - destruct (String.eqb c ".."); [apply IH|].
    destruct (ns !! (cur ++ [c])%list) as [[m|c' m]|] eqn:Hk; [apply IH | discriminate |].
    intros Hw k n Hn. apply (IH _ _ _ Hw).
    rewrite lookup_insert_ne; [exact Hn | congruence].
Qed.

Lemma mkdir_walk_adds (now : Z) (comps : list string) :
  forall ns cur ns',
    FS.mkdir_walk now ns cur comps = Some ns' ->
    forall k n, ns' !! k = Some n ->
                ns !! k = Some n \/ (ns !! k = None /\ n = FS.Dir (FS.mkMeta (Some now) now)).
Proof.
  induction comps as [|c comps IH]; intros ns cur ns'; cbn [FS.mkdir_walk].
  - intros [= <-]. auto.
  - destruct (String.eqb c ".."); [apply IH|].
    destruct (ns !! (cur ++ [c])%list) as [[m|c' m]|] eqn:Hk; [apply IH | discriminate |].
    intros Hw k n Hn. destruct (IH _ _ _ Hw k n Hn) as [H | [H ->]].
    + destruct (decide (k = (cur ++ [c])%list)) as [->|Hne].
      * rewrite lookup_insert_eq in H. injection H as <-. auto.
      * rewrite lookup_insert_ne in H by congruence. auto.
    + destruct (decide (k = (cur ++ [c])%list)) as [->|Hne].
      * rewrite lookup_insert_eq in H. discriminate H.
      * rewrite lookup_insert_ne in H by congruence. auto.
Qed.

Lemma mkdir_walk_again (now now' : Z) (comps : list string) :
  forall ns cur ns',
    FS.mkdir_walk now ns cur comps = Some ns' ->
    FS.mkdir_walk now' ns' cur comps = Some ns'.
Proof.
  induction comps as [|c comps IH]; intros ns cur ns'; cbn [FS.mkdir_walk].
  - reflexivity.
  - destruct (String.eqb c ".."); [apply IH|].
    destruct (ns !! (cur ++ [c])%list) as [[m|c' m]|] eqn:Hk; [|discriminate|].
    + intros Hw. rewrite (mkdir_walk_keeps _ _ _ _ _ Hw _ _ Hk). apply (IH _ _ _ Hw).
    + intros Hw.
      rewrite (mkdir_walk_keeps _ _ _ _ _ Hw (cur ++ [c])%list
                 (FS.Dir (FS.mkMeta (Some now) now))) by apply lookup_insert_eq.
      apply (IH _ _ _ Hw).
Qed.

(** X15: [get_cache_path] only ever adds directories.  A call that returns
    keeps every node of the tree as it was, adds nothing but directories
    stamped with the time of the call, and touches nothing else of the
    state; a further call with the same arguments returns the same path and
    changes nothing at all. *)
Theorem get_cache_path_adds_directories_only
    (CONFIG : gmap string value) (now : Z) (distro path : string)
    (w w' : World) (p : Path.t) :
  get_cache_path CONFIG now distro path w = Some (w', p) ->
  (forall k n, FS.nodes (fs w) !! k = Some n -> FS.nodes (fs w') !! k = Some n) /\
  (forall k n, FS.nodes (fs w') !! k = Some n ->
               FS.nodes (fs w) !! k = Some n \/
               (FS.nodes (fs w) !! k = None /\ n = FS.Dir (FS.mkMeta (Some now) now))) /\
  w' = set_fs w (FS.mk (FS.nodes (fs w')) (FS.cwd (fs w))) /\
  (forall now', get_cache_path CONFIG now' distro path w' = Some (w', p)).
Proof.
  unfold get_cache_path.
  destruct (get_config CONFIG "storage_path_resolved" VNone) as [| | |s]; try discriminate.
  unfold FS.mkdir_p.
  destruct (FS.is_dir (FS.nodes (fs w)) _) eqn:Hstart; [|discriminate].
  destruct (FS.mkdir_walk now _ _ _) as [ns'|] eqn:Hwalk; [|discriminate].
  intros [= <- <-]. cbn [fs set_fs FS.nodes FS.cwd].
  split; [exact (mkdir_walk_keeps _ _ _ _ _ Hwalk)|].
  split; [exact (mkdir_walk_adds _ _ _ _ _ Hwalk)|].
  split; [reflexivity|].
  intros now'.
  assert (Hstart' : FS.is_dir ns' (FS.start (fs w) (Path.of_str s // distro
                                       // Py.take 2 (MD5.hexdigest path))) = true).
  { destruct (is_dir_lookup _ _ Hstart) as [m Hm].
    unfold FS.is_dir. rewrite (mkdir_walk_keeps _ _ _ _ _ Hwalk _ _ Hm). reflexivity. }
  unfold FS.start in *. cbn [FS.cwd FS.nodes].
  rewrite Hstart', (mkdir_walk_again now now' _ _ _ _ Hwalk). reflexivity.
Qed.

Lemma get_cache_path_adds_directories_only_witness :
  exists w' p,
    get_cache_path Scenario.CONFIG 5 "debian" Scenario.hello Scenario.world = Some (w', p) /\
    forall now', get_cache_path Scenario.CONFIG now' "debian" Scenario.hello w' = Some (w', p).
Proof.
  destruct (get_cache_path Scenario.CONFIG 5 "debian" Scenario.hello Scenario.world)
    as [[w' p]|] eqn:E.
  - exists w', p. split; [reflexivity|].
    exact (proj2 (proj2 (proj2
             (get_cache_path_adds_directories_only Scenario.CONFIG 5 "debian"
                Scenario.hello Scenario.world w' p E)))).
  - exfalso.
    assert (H : match get_cache_path Scenario.CONFIG 5 "debian" Scenario.hello
                        Scenario.world with
                | Some _ => true
                | None => false
                end = true) by (vm_compute; reflexivity).
    rewrite E in H. discriminate H.
Defined.

(** ** Index search: what the results say *)

Section SearchResults.

Variable CONFIG : gmap string value.
Variable now : Z.
Variable utcoffset : Z -> Z.
Variable get_upstream_key : string -> string -> string.
Variable get_all_mirrors : gmap string (list string).
Variable requests_head : string -> option Z.
Variable os_walk : string -> list (string * list string).
Variable gzip_open : string -> list read_event.
Variable open_text : string -> list read_event.
Variable distro : string.
Variable query : string.

Variable mirrors : list string.

Local Abbreviation sound := (Forall (sound_hit mirrors distro query)).

Lemma parse_lines_sound (lines : list read_event) :
  forall pkg ms w,
    sound ms -> sound (snd (parse_lines CONFIG now utcoffset distro query lines pkg ms w)).
Proof.
  induction lines as [|[raw|] lines IH]; intros pkg ms w Hms; cbn [parse_lines];
    [exact Hms | | exact Hms].
  destruct (String.eqb (Py_text.strip raw) "").
  - destruct (pkg !! "Package") as [name|]; [|apply IH, Hms].
    destruct (pkg !! "Filename") as [pkg_path|]; [|apply IH, Hms].
    destruct (Py.contains (Py.lower query) (Py.lower name)) eqn:Hq; [|apply IH, Hms].
    destruct (get_cache_path CONFIG now distro pkg_path w) as [[w' cp]|]; [|exact Hms].
    destruct (is_cache_valid CONFIG now utcoffset cp w') as [c|]; [|exact Hms].
    apply IH. apply Forall_app. split; [exact Hms|].
    constructor; [|constructor].
    split; [reflexivity|]. cbn [hit_url hit_name hit_version].
    split; [exact Hq | discriminate].
  - destruct (Py.has_char ":" (Py_text.strip raw)); [|apply IH, Hms].
    destruct (Py.split1 ":" (Py_text.strip raw)) as [|key [|val [|? ?]]];
      apply IH, Hms.
Qed.

Lemma append_matches_sound (fm : list hit) :
  forall results count,
    sound fm -> sound results ->
    sound (fst (fst (append_matches fm results count))).
Proof.
  induction fm as [|m fm IH]; intros results count Hfm Hres; cbn [append_matches];
    [exact Hres|].
  inversion Hfm as [|? ? Hm Hrest]; subst.
  assert (Hres' : sound (results ++ [m])%list)
    by (apply Forall_app; split; [exact Hres | constructor; [exact Hm | constructor]]).
  destruct (limit <=? S count)%nat; [exact Hres' | apply IH; assumption].
Qed.

Lemma scan_files_sound (root : string) (files : list string) :
  forall results count w,
    sound results ->
    sound (snd (fst (fst (scan_files CONFIG now utcoffset gzip_open open_text distro query
                            root files results count w)))).
Proof.
  induction files as [|filename files IH]; intros results count w Hres;
    cbn [scan_files]; [exact Hres|].
  destruct (Py.contains "Packages" filename && Py.contains "Packages" (real_name filename));
    [|apply IH, Hres].
  pose proof (parse_lines_sound
                (if Py.endswith (Py_text.os_path_join root filename) ".gz"
                 then gzip_open (Py_text.os_path_join root filename)
                 else open_text (Py_text.os_path_join root filename))
                ∅ [] w (List.Forall_nil _)) as Hfm.
  unfold parse_packages_file.
  destruct (parse_lines _ _ _ _ _ _ _ _ _) as [w' fm]. cbn [snd] in Hfm.
  pose proof (append_matches_sound fm results count Hfm Hres) as Happ.
  destruct (append_matches fm results count) as [[results' count'] returned].
  cbn [fst] in Happ.
  destruct returned; [exact Happ | apply IH, Happ].
Qed.

Lemma scan_walk_sound (dirs : list (string * list string)) :
  forall results count w,
    sound results ->
    sound (snd (scan_walk CONFIG now utcoffset gzip_open open_text distro query
                  dirs results count w)).
Proof.
  induction dirs as [|[root files] dirs IH]; intros results count w Hres;
    cbn [scan_walk]; [exact Hres|].
  pose proof (scan_files_sound root files results count w Hres) as Hf.
  destruct (scan_files _ _ _ _ _ _ _ _ _ _ _ _) as [[[w' results'] count'] returned].
  cbn [fst snd] in Hf.
  destruct returned; [exact Hf|].
  destruct (limit <=? count')%nat; [exact Hf | apply IH, Hf].
Qed.

Lemma probe_mirrors_sound (ms : list string) :
  (forall m, In m ms -> In m mirrors) ->
  forall w h,
    snd (probe_mirrors CONFIG now utcoffset requests_head distro query ms w) = Some h ->
    sound_hit mirrors distro query h.
Proof.
  induction ms as [|mirror ms IH]; intros Hin w h; cbn [probe_mirrors];
    [discriminate|].
  destruct (probe_mirror CONFIG now utcoffset requests_head distro query mirror w)
    as [w' [h'|]] eqn:Hp; [|apply IH; intros m Hm; apply Hin; right; exact Hm].
  cbn [snd]. intros [= <-]. revert Hp. unfold probe_mirror.
  destruct (requests_head _) as [code|]; [|discriminate].
  destruct (code =? 200)%Z; [|discriminate].
  destruct (get_cache_path _ _ _ _ _) as [[w1 cp]|]; [|discriminate].
  destruct (is_cache_valid _ _ _ _ _) as [c|]; [|discriminate].
  intros [= _ <-]. split; [reflexivity|]. cbn [hit_url hit_path hit_name].
  split; [reflexivity|]. split; [reflexivity|]. exists mirror.
  split; [apply Hin; left; reflexivity | reflexivity].
Qed.

(** *** The end of an index file *)

Lemma parse_lines_no_blank (tail : list read_event) :
  forall pkg ms w,
    no_blank_line tail = true ->
    parse_lines CONFIG now utcoffset distro query tail pkg ms w = (w, ms).
Proof.
  induction tail as [|[raw|] tail IH]; intros pkg ms w; cbn [parse_lines no_blank_line forallb];
    [reflexivity | | reflexivity].
  intros H. apply andb_true_iff in H as [Hraw Htail].
  apply negb_true_iff in Hraw. rewrite Hraw.
  destruct (Py.has_char ":" (Py_text.strip raw)); [|apply IH, Htail].
  destruct (Py.split1 ":" (Py_text.strip raw)) as [|key [|val [|? ?]]];
    apply IH, Htail.
Qed.

Lemma parse_lines_drop_tail (lines tail : list read_event) :
  no_blank_line tail = true ->
  forall pkg ms w,
    parse_lines CONFIG now utcoffset distro query (lines ++ tail) pkg ms w
    = parse_lines CONFIG now utcoffset distro query lines pkg ms w.
Proof.
  intros Htail.
  induction lines as [|[raw|] lines IH]; intros pkg ms w; cbn [app parse_lines].
  - apply parse_lines_no_blank, Htail.
  - destruct (String.eqb (Py_text.strip raw) "").
    + destruct (pkg !! "Package") as [name|]; [|apply IH].
      destruct (pkg !! "Filename") as [pkg_path|]; [|apply IH].
      destruct (Py.contains (Py.lower query) (Py.lower name)); [|apply IH].
      destruct (get_cache_path CONFIG now distro pkg_path w) as [[w' cp]|]; [|reflexivity].
      destruct (is_cache_valid CONFIG now utcoffset cp w') as [c|]; [|reflexivity].
      apply IH.
    + destruct (Py.has_char ":" (Py_text.strip raw)); [|apply IH].
      destruct (Py.split1 ":" (Py_text.strip raw)) as [|key [|val [|? ?]]]; apply IH.
  - reflexivity.
Qed.

End SearchResults.

(** X16: the results answer the query.  For a query and index files of
    ASCII text, every entry of a returned result list is for the requested
    distribution; an entry found by the direct probe is the query itself at
    one of the mirrors configured for the request, and an entry found in a
    cached index names a package whose name contains the query, letters
    compared without case. *)
Theorem search_results_answer_the_query
    (CONFIG : gmap string value) (now : Z) (utcoffset : Z -> Z)
    (get_upstream_key : string -> string -> string)
    (get_all_mirrors : gmap string (list string))
    (requests_head : string -> option Z)
    (os_walk : string -> list (string * list string))
    (gzip_open open_text : string -> list read_event)
    (distro query : string) (w : World) (hits : list hit) :
  Py.isascii query = true ->
  (forall path, forallb ascii_event (gzip_open path) = true) ->
  (forall path, forallb ascii_event (open_text path) = true) ->
  snd (search_upstream_packages CONFIG now utcoffset get_upstream_key get_all_mirrors
         requests_head os_walk gzip_open open_text distro query w) = Some hits ->
  Forall (sound_hit (default [] (get_all_mirrors !! get_upstream_key distro query))
            distro query) hits.
Proof.
  intros _ _ _.
  set (mirrors := default [] (get_all_mirrors !! get_upstream_key distro query)).
  unfold search_upstream_packages.
  set (direct := if Py.has_char "/" query then _ else _).
  assert (Hdirect : forall h, snd direct = Some h -> sound_hit mirrors distro query h).
  { intros h. subst direct mirrors.
    destruct (Py.has_char "/" query); [|discriminate].
    destruct (get_all_mirrors !! _) as [ms|]; [|discriminate].
    apply probe_mirrors_sound. auto. }
  destruct direct as [w1 [h|]]; cbn [snd] in *.
  - intros [= <-]. constructor; [apply Hdirect; reflexivity | constructor].
  - unfold index_scan.
    destruct (negb (truthy _)); [intros [= <-]; constructor|].
    destruct (get_config CONFIG "storage_path_resolved" VNone) as [| | |s];
      try discriminate.
    destruct (negb (FS.exists_ _ _)); [intros [= <-]; constructor|].
    pose proof (scan_walk_sound CONFIG now utcoffset gzip_open open_text distro query
                  mirrors (os_walk (Path.str (Path.of_str s // distro))) [] 0 w1
                  (List.Forall_nil _)) as Hs.
    destruct (scan_walk _ _ _ _ _ _ _ _ _ _ _) as [w' results]. cbn [snd] in *.
    intros [= <-]. exact Hs.
Qed.

(** X17: a stanza counts only when a blank line follows it.  In an index
    of ASCII text read from its start, the lines after the last blank line
    never produce a result, however complete the stanza they hold: reading
    the file with or without them gives the same matches and the same
    state. *)
Theorem unterminated_stanza_is_dropped
    (CONFIG : gmap string value) (now : Z) (utcoffset : Z -> Z)
    (distro query : string) (lines tail : list read_event) (w : World) :
  Py.isascii query = true ->
  forallb ascii_event (lines ++ tail) = true ->
  no_blank_line tail = true ->
  parse_lines CONFIG now utcoffset distro query (lines ++ tail) ∅ [] w
  = parse_lines CONFIG now utcoffset distro query lines ∅ [] w.
Proof.
  intros _ _ Htail. apply parse_lines_drop_tail, Htail.
Qed.

Lemma search_results_answer_the_query_witness :
  exists hits,
    snd (SearchScenario.search "HELLO-1") = Some hits /\
    length hits = 11%nat /\
    Forall (sound_hit ["http://deb.example/debian"] "debian" "HELLO-1") hits.
Proof.
  assert (Hgz : forall path, forallb ascii_event (SearchScenario.gzip_open path) = true).
  { intros path. unfold SearchScenario.gzip_open.
    destruct (Py.endswith path "_Packages.gz"); vm_compute; reflexivity. }
  destruct (snd (SearchScenario.search "HELLO-1")) as [hits|] eqn:E.
  - exists hits. split; [reflexivity|]. split.
    + assert (H : option_map (@length hit) (snd (SearchScenario.search "HELLO-1"))
                  = Some 11%nat) by (vm_compute; reflexivity).
      rewrite E in H. injection H as H. exact H.
    + exact (search_results_answer_the_query Scenario.CONFIG 5 Scenario.utc
               SearchScenario.get_upstream_key SearchScenario.get_all_mirrors
               SearchScenario.requests_head SearchScenario.os_walk
               SearchScenario.gzip_open SearchScenario.open_text "debian" "HELLO-1"
               SearchScenario.world hits eq_refl Hgz (fun _ => eq_refl) E).
  - exfalso.
    assert (H : option_map (@length hit) (snd (SearchScenario.search "HELLO-1"))
                = Some 11%nat) by (vm_compute; reflexivity).
    rewrite E in H. discriminate H.
Defined.

Lemma unterminated_stanza_is_dropped_witness :
  let tail := [Line "Package: hello-26"; Line "Filename: pool/main/h/hello/hello-26.deb"] in
  no_blank_line tail = true /\
  parse_lines Scenario.CONFIG 5 Scenario.utc "debian" "hello"
    (SearchScenario.stanza 1 ++ tail) ∅ [] SearchScenario.world
  = parse_lines Scenario.CONFIG 5 Scenario.utc "debian" "hello"
      (SearchScenario.stanza 1) ∅ [] SearchScenario.world.
Proof.
  split; [reflexivity|].
  exact (unterminated_stanza_is_dropped Scenario.CONFIG 5 Scenario.utc "debian" "hello"
           (SearchScenario.stanza 1)
           [Line "Package: hello-26"; Line "Filename: pool/main/h/hello/hello-26.deb"]
           SearchScenario.world eq_refl eq_refl eq_refl).
Defined.

(** *** The case of the query *)

Lemma has_char_slash_lower (s : string) :
  Py.has_char "/" (Py.lower s) = Py.has_char "/" s.
Proof.
  induction s as [|c s IH]; [reflexivity|].
  cbn [Py.lower Py.has_char]. rewrite IH. f_equal.
  destruct c as [[] [] [] [] [] [] [] []]; reflexivity.
Qed.

Section QueryCase.

Variable CONFIG : gmap string value.
Variable now : Z.
Variable utcoffset : Z -> Z.
Variable get_upstream_key : string -> string -> string.
Variable get_all_mirrors : gmap string (list string).
Variable requests_head : string -> option Z.
Variable os_walk : string -> list (string * list string).
Variable gzip_open : string -> list read_event.
Variable open_text : string -> list read_event.
Variable distro : string.
Variable q1 q2 : string.

Hypothesis Hcase : Py.lower q1 = Py.lower q2.

Lemma parse_lines_query_case (lines : list read_event) :
  forall pkg ms w,
    parse_lines CONFIG now utcoffset distro q1 lines pkg ms w
    = parse_lines CONFIG now utcoffset distro q2 lines pkg ms w.
Proof.
  induction lines as [|[raw|] lines IH]; intros pkg ms w; cbn [parse_lines];
    [reflexivity | | reflexivity].
  rewrite Hcase.
  destruct (String.eqb (Py_text.strip raw) "").
  - destruct (pkg !! "Package") as [name|]; [|apply IH].
    destruct (pkg !! "Filename") as [pkg_path|]; [|apply IH].
    destruct (Py.contains (Py.lower q2) (Py.lower name)); [|apply IH].
    destruct (get_cache_path CONFIG now distro pkg_path w) as [[w' cp]|]; [|reflexivity].
    destruct (is_cache_valid CONFIG now utcoffset cp w') as [c|]; [|reflexivity].
    apply IH.
  - destruct (Py.has_char ":" (Py_text.strip raw)); [|apply IH].
    destruct (Py.split1 ":" (Py_text.strip raw)) as [|key [|val [|? ?]]]; apply IH.
Qed.

Lemma scan_files_query_case (root : string) (files : list string) :
  forall results count w,
    scan_files CONFIG now utcoffset gzip_open open_text distro q1 root files results count w
    = scan_files CONFIG now utcoffset gzip_open open_text distro q2 root files results count w.
Proof.
  induction files as [|filename files IH]; intros results count w; cbn [scan_files];
    [reflexivity|].
  destruct (Py.contains "Packages" filename && Py.contains "Packages" (real_name filename));
    [|apply IH].
  unfold parse_packages_file. rewrite parse_lines_query_case.
  destruct (parse_lines _ _ _ _ _ _ _ _ _) as [w' fm].
  destruct (append_matches fm results count) as [[results' count'] returned].
  destruct returned; [reflexivity | apply IH].
Qed.

Lemma scan_walk_query_case (dirs : list (string * list string)) :
  forall results count w,
    scan_walk CONFIG now utcoffset gzip_open open_text distro q1 dirs results count w
    = scan_walk CONFIG now utcoffset gzip_open open_text distro q2 dirs results count w.
Proof.
  induction dirs as [|[root files] dirs IH]; intros results count w; cbn [scan_walk];
    [reflexivity|].
  rewrite scan_files_query_case.
  destruct (scan_files _ _ _ _ _ _ _ _ _ _ _ _) as [[[w' results'] count'] returned].
  destruct returned; [reflexivity|].
  destruct (limit <=? count')%nat; [reflexivity | apply IH].
Qed.

(** X18: a package name is searched without regard to case.  Two queries
    that differ only in the case of their ASCII letters, and are not
    paths, give the same results and leave the same state. *)
Theorem search_ignores_query_case (w : World) :
  Py.has_char "/" q1 = false ->
  search_upstream_packages CONFIG now utcoffset get_upstream_key get_all_mirrors
    requests_head os_walk gzip_open open_text distro q1 w
  = search_upstream_packages CONFIG now utcoffset get_upstream_key get_all_mirrors
      requests_head os_walk gzip_open open_text distro q2 w.
Proof.
  intros Hslash.
  assert (Hslash2 : Py.has_char "/" q2 = false).
  { rewrite <- has_char_slash_lower, <- Hcase, has_char_slash_lower. exact Hslash. }
  unfold search_upstream_packages. rewrite Hslash, Hslash2.
  unfold index_scan.
  destruct (negb (truthy _)); [reflexivity|].
  destruct (get_config CONFIG "storage_path_resolved" VNone) as [| | |s]; try reflexivity.
  destruct (negb (FS.exists_ _ _)); [reflexivity|].
  rewrite scan_walk_query_case. reflexivity.
Qed.

End QueryCase.

Lemma search_ignores_query_case_witness :
  SearchScenario.search "Hello-2" = SearchScenario.search "hello-2".
Proof.
  exact (search_ignores_query_case Scenario.CONFIG 5 Scenario.utc
           SearchScenario.get_upstream_key SearchScenario.get_all_mirrors
           SearchScenario.requests_head SearchScenario.os_walk
           SearchScenario.gzip_open SearchScenario.open_text "debian"
           "Hello-2" "hello-2" eq_refl SearchScenario.world eq_refl).
Defined.

(** ** [manual_cache_package] *)

Lemma nonempty_chunks_length (chunks : list string) :
  (length (nonempty_chunks chunks) <= length chunks)%nat.
Proof.
  induction chunks as [|c chunks IH]; [reflexivity|].
  unfold nonempty_chunks in *. cbn [List.filter length].
  destruct (negb (String.eqb c "")); cbn [length]; lia.
Qed.

Section Consuming.

Variable now : Z.
Variable disk : nat -> write_outcome.

Hypothesis Hdisk : forall i, disk i = WriteDone.

(** A run in which every write succeeds and which ends in
    [StopIteration] is what the [for] loop does. *)
Lemma consume_cached_run (ys : list string) :
  forall fuel i g w w' g',
    run now (drain (S (length ys))) g w
    = (w', g', (map Yielded ys ++ [StopIteration])%list) ->
    (length ys < fuel)%nat ->
    consume_cached now disk fuel i g w = (w', None).
Proof.
  induction ys as [|y ys IH]; intros fuel i g w w' g' Hrun Hfuel;
    (destruct fuel as [|fuel]; [cbn in Hfuel; lia|]);
    change (drain (S ?n)) with (Next WriteDone :: drain n) in Hrun;
    cbn [run] in Hrun; cbn [consume_cached]; rewrite Hdisk;
    destruct (gen_next now WriteDone g w) as [[w1 g1] o].
  - cbn [length drain repeat run map app] in Hrun.
    injection Hrun as <- _ ->. reflexivity.
  - destruct (run now (drain (length (y :: ys))) g1 w1) as [[w2 g2] os] eqn:Hrest.
    cbn [map app] in Hrun. injection Hrun as <- <- -> ->.
    apply (IH fuel (S i) g1 w1 w2 g2 Hrest). cbn [length] in Hfuel. lia.
Qed.

(** A plain generator over chunks only runs to its end and leaves the
    file system alone. *)
Lemma consume_plain_chunks (chunks : list string) :
  forall fuel w,
    (length chunks < fuel)%nat ->
    exists w',
      consume_plain fuel (map Chunk chunks) w = (w', None) /\
      fs w' = fs w /\ requests_sent w' = requests_sent w.
Proof.
  induction chunks as [|c chunks IH]; intros fuel w Hfuel;
    (destruct fuel as [|fuel]; [cbn in Hfuel; lia|]).
  - exists w. auto.
  - cbn [length] in Hfuel. cbn [map consume_plain plain_next].
    destruct (String.eqb c "").
    + destruct (IH (S fuel) w ltac:(lia)) as (w' & Hc & Hf).
      exists w'. split; [exact Hc | exact Hf].
    + destruct (IH fuel (add_bytes (Z.of_nat (String.length c)) w) ltac:(lia))
        as (w' & Hc & Hf & Hr).
      exists w'. auto.
Qed.

End Consuming.

(** *** A write with the access time on record *)

Lemma writing_since_writing (a : option Z) (ns0 : gmap (list string) FS.node)
    (cwd0 tk : list string) (acc : string) (w : World) :
  writing_since a ns0 cwd0 tk acc w -> writing ns0 cwd0 tk acc w.
Proof. intros [mt H]. exists (FS.mkMeta a mt). exact H. Qed.

Lemma open_wb_fresh (now : Z) (f f1 : FS.t) (p : Path.t) (tk : list string) :
  FS.open_wb now f p = Some (f1, tk) ->
  FS.nodes f !! tk = None ->
  f1 = FS.mk (<[tk := FS.File "" (FS.mkMeta (Some now) now)]> (FS.nodes f)) (FS.cwd f).
Proof.
  unfold FS.open_wb. destruct (FS.locate f p) as [k|]; [|discriminate].
  destruct (_ && _); [|discriminate].
  intros [= <- <-] Hnone. rewrite Hnone. reflexivity.
Qed.

Section FreshRun.

Variable now : Z.
Variable tp cp : Path.t.
Variable tk ck : list string.
Variable ns0 : gmap (list string) FS.node.
Variable cwd0 : list string.
Variable a : option Z.

Hypothesis Htk : FS.locate (FS.mk ns0 cwd0) tp = Some tk.
Hypothesis Hck : FS.locate (FS.mk ns0 cwd0) cp = Some ck.
Hypothesis Htk_file : FS.is_dir ns0 tk = false.
Hypothesis Hck_file : FS.is_dir ns0 ck = false.
Hypothesis Hck_parent : FS.is_dir ns0 (removelast ck) = true.
Hypothesis Hck_root : ck <> [].

Local Abbreviation since := (writing_since a ns0 cwd0 tk).

Lemma since_rename (acc : string) (w : World) :
  since acc w ->
  exists mt,
    FS.rename (fs w) tp cp
    = Some (FS.mk (<[ck := FS.File acc (FS.mkMeta a mt)]> (delete tk ns0)) cwd0).
Proof.
  intros Hw. unfold FS.rename.
  rewrite !(writing_locate tk ns0 cwd0 Htk_file acc w _ (writing_since_writing _ _ _ _ _ _ Hw)).
  rewrite Htk, Hck.
  destruct Hw as [mt ->]. cbn [FS.nodes FS.cwd].
  rewrite lookup_insert_eq.
  rewrite !is_dir_insert_file by exact Htk_file.
  rewrite Hck_parent, Hck_file.
  rewrite bool_decide_eq_false_2 by exact Hck_root.
  cbn [andb negb]. rewrite delete_insert_eq. eauto.
Qed.

Lemma since_write (acc data : string) (w : World) :
  since acc w ->
  since (acc ++ data)
    (add_bytes (Z.of_nat (String.length data)) (set_fs w (FS.write now (fs w) tk data))).
Proof.
  intros [mt Hw]. unfold writing_since, FS.write. cbn [fs add_bytes set_fs].
  rewrite Hw. cbn [FS.nodes FS.cwd FS.st_atime].
  rewrite lookup_insert_eq, insert_insert_eq. eauto.
Qed.

(** A clean run publishes the file with the access time it was opened
    with. *)
Lemma run_clean_since (chunks : list string) :
  forall (g : cached_gen) (acc : string) (w : World),
    temp_path g = tp -> cache_path g = cp ->
    since acc w ->
    exists w' g' mt,
      run now (drain (S (length (nonempty_chunks chunks))))
        (set_state g (GenSuspended tk (map Chunk chunks))) w
      = (w', g', (map Yielded (nonempty_chunks chunks) ++ [StopIteration])%list) /\
      state g' = GenFinished /\
      fs w' = FS.mk (<[ck := FS.File (acc ++ body_bytes chunks) (FS.mkMeta a mt)]>
                       (delete tk ns0)) cwd0 /\
      requests_sent w' = requests_sent w.
Proof.
  induction chunks as [|c chunks IH]; intros g acc w Ht Hc Hw.
  - destruct (since_rename _ _ Hw) as [mt Hren].
    cbn [nonempty_chunks List.filter length drain repeat run gen_next state set_state
         map chunk_loop temp_path cache_path].
    rewrite Ht, Hc, Hren.
    eexists _, _, mt. split; [reflexivity|]. split; [reflexivity|].
    cbn [fs add_log set_fs body_bytes fold_right requests_sent].
    rewrite append_nil_r. split; reflexivity.
  - destruct (String.eqb c "") eqn:Hempty.
    + apply String.eqb_eq in Hempty. subst c.
      destruct (IH g acc w Ht Hc Hw) as (w' & g' & mt & Hrun & Hst & Hfs).
      exists w', g', mt. split; [|split; [exact Hst | exact Hfs]].
      change (nonempty_chunks ("" :: chunks)) with (nonempty_chunks chunks).
      rewrite <- Hrun.
      change (map Chunk ("" :: chunks)) with (Chunk "" :: map Chunk chunks).
      change (drain (S ?n)) with (Next WriteDone :: drain n).
      apply (run_skip_empty now g tk).
    + pose proof (since_write acc c w Hw) as Hw2.
      destruct (IH g (acc ++ c) _ Ht Hc Hw2) as (w' & g' & mt & Hrun & Hst & Hfs & Hreq).
      exists w', g', mt. split; [|split; [exact Hst|split]].
      * cbn [nonempty_chunks List.filter]. rewrite Hempty. cbn [negb length map app].
        change (drain (S (S ?n))) with (Next WriteDone :: drain (S n)).
        cbn [run gen_next state set_state map chunk_loop]. rewrite Hempty.
        cbn [set_state temp_path cache_path response] in Hrun |- *.
        change (set_state (set_state g ?x) ?b) with (set_state g b).
        unfold nonempty_chunks in Hrun. rewrite Hrun. reflexivity.
      * rewrite Hfs, append_assoc. reflexivity.
      * rewrite Hreq. reflexivity.
Qed.

End FreshRun.

(** *** Directories found in place *)

Lemma mkdir_walk_found (now : Z) (comps : list string) :
  forall ns cur ns1 ns2,
    FS.mkdir_walk now ns cur comps = Some ns1 ->
    (forall k, FS.is_dir ns1 k = true -> FS.is_dir ns2 k = true) ->
    forall now', FS.mkdir_walk now' ns2 cur comps = Some ns2.
Proof.
  induction comps as [|c comps IH]; intros ns cur ns1 ns2; cbn [FS.mkdir_walk].
  - reflexivity.
  - destruct (String.eqb c ".."); [apply IH|].
    intros Hw Hdirs now'.
    assert (Hk : FS.is_dir ns1 (cur ++ [c])%list = true).
    { unfold FS.is_dir.
      destruct (ns !! (cur ++ [c])%list) as [[m|c' m]|] eqn:Hk; [|discriminate Hw|].
      - rewrite (mkdir_walk_keeps _ _ _ _ _ Hw _ _ Hk). reflexivity.
      - rewrite (mkdir_walk_keeps _ _ _ _ _ Hw (cur ++ [c])%list
                   (FS.Dir (FS.mkMeta (Some now) now))) by apply lookup_insert_eq.
        reflexivity. }
    destruct (is_dir_lookup _ _ (Hdirs _ Hk)) as [m2 ->].
    destruct (ns !! (cur ++ [c])%list) as [[m|c' m]|]; [|discriminate Hw|];
      apply (IH _ _ _ _ Hw Hdirs).
Qed.

Lemma get_cache_path_found (CONFIG : gmap string value) (now now' : Z)
    (distro path : string) (w w1 w2 : World) (cp : Path.t) :
  get_cache_path CONFIG now distro path w = Some (w1, cp) ->
  (forall k, FS.is_dir (FS.nodes (fs w1)) k = true -> FS.is_dir (FS.nodes (fs w2)) k = true) ->
  FS.cwd (fs w2) = FS.cwd (fs w1) ->
  get_cache_path CONFIG now' distro path w2 = Some (w2, cp).
Proof.
  unfold get_cache_path.
  destruct (get_config CONFIG "storage_path_resolved" VNone) as [| | |s]; try discriminate.
  unfold FS.mkdir_p.
  destruct (FS.is_dir (FS.nodes (fs w)) _) eqn:Hstart; [|discriminate].
  destruct (FS.mkdir_walk now _ _ _) as [ns1|] eqn:Hwalk; [|discriminate].
  intros [= <- <-]. cbn [fs set_fs FS.nodes FS.cwd]. intros Hdirs Hcwd.
  unfold FS.start in *. rewrite Hcwd.
  assert (Hstart1 : FS.is_dir ns1 (if String.eqb (Path.root (Path.of_str s // distro
                       // Py.take 2 (MD5.hexdigest path))) "" then FS.cwd (fs w) else [])
                    = true).
  { destruct (is_dir_lookup _ _ Hstart) as [m Hm].
    unfold FS.is_dir. rewrite (mkdir_walk_keeps _ _ _ _ _ Hwalk _ _ Hm). reflexivity. }
  rewrite (Hdirs _ Hstart1), (mkdir_walk_found _ _ _ _ _ _ Hwalk Hdirs now').
  destruct w2 as [[ns2 c2] b2 l2 r2]. cbn in Hcwd. subst c2. reflexivity.
Qed.

Section ManualDownload.

Variable CONFIG : gmap string value.
Variable now : Z.
Variable utcoffset : Z -> Z.
Variable re : string -> string -> option bool.
Variable pats : list string.
Variable net : string -> list (string * string) -> get_result.
Variable key : string -> string -> string.
Variable mirrors_config : gmap string (list string).
Variable disk : nat -> write_outcome.

Variable distro path : string.
Variable w w1 : World.
Variable cp : Path.t.
Variable mirror : string.
Variable others : list string.
Variable r : upstream_response.

Local Abbreviation manual :=
  (manual_cache_package CONFIG now utcoffset re pats net key mirrors_config disk distro path).
Local Abbreviation url := (mirror ++ "/" ++ path).
Local Abbreviation agent := [("User-Agent", "apt-cache-proxy-manual")].

(** The file is not in the cache, and the first mirror configured for it
    answers 200. *)
Hypothesis Hget : get_cache_path CONFIG now distro path w = Some (w1, cp).
Hypothesis Hnew : FS.exists_ (fs w1) cp = false.
Hypothesis Hmirrors : mirrors_config !! key distro path = Some (mirror :: others).
Hypothesis Hresp : net url agent = Responds r.
Hypothesis H200 : status_code r = 200%Z.

Lemma manual_downloads :
  manual w
  = match stream_and_cache re pats net
            (map (fun m => m ++ "/" ++ path) (mirror :: others)) cp agent w1 with
    | (w2, Escapes msg) => (w2, Caught msg)
    | (w2, Returns response) =>
        if (status response =? 200)%Z then
          match consume now disk (resp_body response) w2 with
          | (w3, None) => (w3, Answered true "Successfully cached")
          | (w3, Some (Exception_ msg)) => (w3, Caught msg)
          | (w3, Some GeneratorExit) => (w3, Propagated GeneratorExit)
          end
        else (w2, Answered false ("Failed to download: HTTP " ++ pretty (status response)))
    end.
Proof.
  unfold manual_cache_package. rewrite Hget.
  unfold is_cache_valid. rewrite Hnew. cbn [negb].
  rewrite Hmirrors. reflexivity.
Qed.

Lemma stream_first_answers :
  stream_and_cache re pats net
    (map (fun m => m ++ "/" ++ path) (mirror :: others)) cp agent w1
  = if is_blacklisted re pats (real_name (Path.name cp)) then
      (record_request url
         (add_log ("BLACKLISTED: " ++ real_name (Path.name cp)) "WARNING" w1),
       Returns (mkResponse 200 (filter_headers (headers r))
                  (BodyStream (content r)) false))
    else
      match Path.with_suffix cp ".tmp" with
      | Some tp =>
          (record_request url w1,
           Returns (mkResponse 200 (filter_headers (headers r))
                      (BodyCached (mkGen tp cp r GenCreated)) true))
      | None => (record_request url w1, Escapes "ValueError")
      end.
Proof.
  unfold stream_and_cache. cbn [map try_urls]. rewrite Hresp, H200.
  destruct (is_blacklisted re pats (real_name (Path.name cp))); reflexivity.
Qed.


Variable tp : Path.t.
Variable tk : list string.

Hypothesis Hallowed : is_blacklisted re pats (real_name (Path.name cp)) = false.
Hypothesis Htmp : Path.with_suffix cp ".tmp" = Some tp.
Hypothesis Hopen : option_map snd (FS.open_wb now (fs w1) tp) = Some tk.
Hypothesis Hdisk : forall i, disk i = WriteDone.

Lemma manual_consumes :
  manual w
  = match consume_cached now disk (S (length (content r))) 0
            (mkGen tp cp r GenCreated) (record_request url w1) with
    | (w3, None) => (w3, Answered true "Successfully cached")
    | (w3, Some (Exception_ msg)) => (w3, Caught msg)
    | (w3, Some GeneratorExit) => (w3, Propagated GeneratorExit)
    end.
Proof.
  rewrite manual_downloads, stream_first_answers, Hallowed, Htmp. reflexivity.
Qed.


Variable ck : list string.

Hypothesis Hfresh : FS.nodes (fs w1) !! tk = None.
Hypothesis Hck : FS.locate (fs w1) cp = Some ck.
Hypothesis Hparent : FS.is_dir (FS.nodes (fs w1)) (removelast ck) = true.
Hypothesis Hkeep : keeps_fresh_files CONFIG.

Lemma manual_round_trip (chunks : list string) :
  content r = map Chunk chunks ->
  exists w',
    manual w = (w', Answered true "Successfully cached") /\
    FS.read (fs w') cp = Some (body_bytes chunks) /\
    requests_sent w' = (requests_sent w1 ++ [url])%list /\
    is_cache_valid CONFIG now utcoffset cp w' = Some true /\
    manual w' = (w', Answered true "File already cached").
Proof.
  intros Hcontent. rewrite manual_consumes.
  set (w2 := record_request url w1).
  set (g := mkGen tp cp r GenCreated).
  assert (Hnone : FS.nodes (fs w1) !! ck = None).
  { revert Hnew. unfold FS.exists_, FS.lookup. rewrite Hck.
    destruct (FS.nodes (fs w1) !! ck); [discriminate | reflexivity]. }
  assert (Hck_file : FS.is_dir (FS.nodes (fs w1)) ck = false).
  { unfold FS.is_dir. rewrite Hnone. reflexivity. }
  assert (Hck_root : ck <> []).
  { intros ->. cbn [removelast] in Hparent. congruence. }
  destruct (FS.open_wb now (fs w1) tp) as [[f1 tk']|] eqn:Hop; [|discriminate Hopen].
  cbn in Hopen. injection Hopen as ->.
  destruct (open_wb_inv _ _ _ _ _ Hop) as (Htk & Htk_file & _).
  pose proof (open_wb_fresh _ _ _ _ _ Hop Hfresh) as Hf1.
  assert (Hsince : writing_since (Some now) (FS.nodes (fs w1)) (FS.cwd (fs w1)) tk ""
                     (set_fs w2 f1)).
  { exists now. exact Hf1. }
  assert (Htk0 : FS.locate (FS.mk (FS.nodes (fs w1)) (FS.cwd (fs w1))) tp = Some tk)
    by (destruct (fs w1); exact Htk).
  assert (Hck0 : FS.locate (FS.mk (FS.nodes (fs w1)) (FS.cwd (fs w1))) cp = Some ck)
    by (destruct (fs w1); exact Hck).
  destruct (run_clean_since now tp cp tk ck (FS.nodes (fs w1)) (FS.cwd (fs w1)) (Some now)
              Htk0 Hck0 Htk_file Hck_file Hparent Hck_root chunks g "" (set_fs w2 f1)
              eq_refl eq_refl Hsince) as (w' & g' & mt & Hrun & _ & Hfs & Hreq).
  change ("" ++ ?s) with s in Hfs.
  assert (Hrun0 : run now (drain (S (length (nonempty_chunks chunks)))) g w2
                  = (w', g', (map Yielded (nonempty_chunks chunks) ++ [StopIteration])%list)).
  { rewrite <- Hrun.
    change (drain (S ?n)) with (Next WriteDone :: drain n).
    cbn [run]. unfold gen_next at 1. cbn [state g].
    change (FS.open_wb now (fs w2) (temp_path g)) with (FS.open_wb now (fs w1) tp).
    rewrite Hop.
    unfold gen_next at 1. cbn [state set_state].
    change (content (response g)) with (content r). rewrite Hcontent.
    rewrite (chunk_loop_paths now
               (set_state g (GenSuspended tk (map Chunk chunks))) g) by reflexivity.
    reflexivity. }
  rewrite (consume_cached_run now disk Hdisk (nonempty_chunks chunks) _ 0 _ _ _ _ Hrun0).
  2: { rewrite Hcontent, length_map.
       pose proof (nonempty_chunks_length chunks). lia. }
  exists w'. split; [reflexivity|].
  assert (Hloc : FS.locate (fs w') cp = Some ck).
  { rewrite <- Hck. apply locate_same_dirs; [|rewrite Hfs; reflexivity].
    intros k. rewrite Hfs. cbn [FS.nodes].
    rewrite is_dir_insert_file, is_dir_delete_file; auto.
    rewrite is_dir_delete_file; auto. }
  assert (Hlook : FS.lookup (fs w') cp
                  = Some (FS.File (body_bytes chunks) (FS.mkMeta (Some now) mt))).
  { unfold FS.lookup. rewrite Hloc, Hfs. cbn [FS.nodes]. apply lookup_insert_eq. }
  assert (Hvalid : is_cache_valid CONFIG now utcoffset cp w' = Some true).
  { unfold is_cache_valid, FS.exists_, FS.stat. rewrite Hlook. cbn [negb FS.st_atime].
    destruct Hkeep as [Hoff | (d & Hd & Hrange)].
    - rewrite Hoff. reflexivity.
    - destruct (negb (truthy _)); [reflexivity|].
      rewrite Hd. unfold timedelta_days.
      destruct (Z.abs d <=? 999999999)%Z eqn:Habs; [|apply Z.leb_gt in Habs; lia].
      f_equal. apply Z.ltb_lt. lia. }
  split; [unfold FS.read; rewrite Hlook; reflexivity|].
  split; [rewrite Hreq; reflexivity|].
  split; [exact Hvalid|].
  unfold manual_cache_package.
  rewrite (get_cache_path_found CONFIG now now distro path w w1 w' cp Hget).
  - rewrite Hvalid. reflexivity.
  - intros k. rewrite Hfs. cbn [FS.nodes].
    rewrite is_dir_insert_file, is_dir_delete_file; auto.
    rewrite is_dir_delete_file; auto.
  - rewrite Hfs. reflexivity.
Qed.

End ManualDownload.


(** *** The scenario *)

Lemma scenario_mapped :
  get_cache_path Scenario.CONFIG 5 "debian" Scenario.hello Scenario.world
  = Some (CacheScenario.world, CacheScenario.cache_path).
Proof.
  change (CacheScenario.mapped = Some (CacheScenario.world, CacheScenario.cache_path)).
  unfold CacheScenario.world, CacheScenario.cache_path.
  destruct CacheScenario.mapped as [[w p]|] eqn:E; [reflexivity|].
  exfalso.
  assert (H : match CacheScenario.mapped with Some _ => true | None => false end = true)
    by (vm_compute; reflexivity).
  rewrite E in H. discriminate H.
Qed.




(** *** When no mirror delivers *)

Section ManualFailure.

Variable CONFIG : gmap string value.
Variable now : Z.
Variable utcoffset : Z -> Z.
Variable re : string -> string -> option bool.
Variable pats : list string.
Variable net : string -> list (string * string) -> get_result.
Variable key : string -> string -> string.
Variable mirrors_config : gmap string (list string).
Variable disk : nat -> write_outcome.

Variable distro path : string.
Variable w w1 : World.
Variable cp : Path.t.

Local Abbreviation manual :=
  (manual_cache_package CONFIG now utcoffset re pats net key mirrors_config disk distro path).
Local Abbreviation agent := [("User-Agent", "apt-cache-proxy-manual")].
Local Abbreviation url_of := (fun mirror : string => mirror ++ "/" ++ path).

(** X22: a manual download that no mirror serves.  With no valid copy in
    the cache, the mirrors are looked up under the upstream key and,
    failing that, under the distribution.  When neither is configured
    the call answers [(False, "No upstream configured for: <key>")]
    without any request; when every mirror fails it answers
    [(False, "Failed to download: HTTP 502")], whatever the mirrors'
    own errors were, after one request to each mirror in order, and the
    tree is as [get_cache_path] left it. *)
Theorem manual_cache_unserved :
  get_cache_path CONFIG now distro path w = Some (w1, cp) ->
  is_cache_valid CONFIG now utcoffset cp w1 = Some false ->
  let found :=
    match mirrors_config !! key distro path with
    | Some mirrors => Some mirrors
    | None => mirrors_config !! distro
    end in
  (found = None ->
   manual w = (w1, Answered false ("No upstream configured for: " ++ key distro path))) /\
  (forall mirrors,
      found = Some mirrors ->
      Forall (fun mirror => mirror_fails (net (url_of mirror) agent) = true) mirrors ->
      exists w',
        manual w = (w', Answered false "Failed to download: HTTP 502") /\
        fs w' = fs w1 /\
        requests_sent w' = (requests_sent w1 ++ map url_of mirrors)%list).
Proof.
  intros Hget Hstale. cbn zeta. split.
  - intros Hnone. unfold manual_cache_package. rewrite Hget, Hstale, Hnone. reflexivity.
  - intros mirrors Hfound Hfail.
    unfold manual_cache_package. rewrite Hget, Hstale, Hfound.
    unfold stream_and_cache.
    assert (Hall : Forall (fun url => mirror_fails (net url agent) = true)
                     (map url_of mirrors)).
    { clear Hfound. induction Hfail as [|m ms Hm _ IH]; cbn [map]; [constructor|].
      apply List.Forall_cons; [exact Hm | exact IH]. }
    set (sc := negb (is_blacklisted re pats (real_name (Path.name cp)))).
    set (w0 := if negb sc then _ else w1).
    pose proof (try_urls_failing_prefix net cp agent sc (map url_of mirrors) [] None w0
                  Hall) as Hs.
    rewrite app_nil_r in Hs. rewrite Hs.
    cbn [try_urls status]. eexists. split; [reflexivity|].
    cbn [fs add_log requests_sent]. subst w0.
    split; destruct (negb sc); reflexivity.
Qed.

End ManualFailure.

Lemma manual_cache_unserved_witness :
  exists w',
    ManualScenario.manual_failing Scenario.world
    = (w', Answered false "Failed to download: HTTP 502") /\
    requests_sent w' = FailoverScenario.urls.
Proof.
  destruct (get_cache_path Scenario.CONFIG 5 "debian" "x.deb" Scenario.world)
    as [[w1 cp]|] eqn:Hget.
  2: { exfalso.
       assert (H : match get_cache_path Scenario.CONFIG 5 "debian" "x.deb" Scenario.world
                   with Some _ => true | None => false end = true)
         by (vm_compute; reflexivity).
       rewrite Hget in H. discriminate H. }
  assert (Hstale : is_cache_valid Scenario.CONFIG 5 Scenario.utc cp w1 = Some false).
  { assert (H : option_map (fun r => is_cache_valid Scenario.CONFIG 5 Scenario.utc (snd r) (fst r))
                  (get_cache_path Scenario.CONFIG 5 "debian" "x.deb" Scenario.world)
                = Some (Some false)) by (vm_compute; reflexivity).
    rewrite Hget in H. cbn in H. injection H as H. exact H. }
  assert (Hreq : requests_sent w1 = []).
  { assert (H : option_map (fun r => requests_sent (fst r))
                  (get_cache_path Scenario.CONFIG 5 "debian" "x.deb" Scenario.world)
                = Some []) by (vm_compute; reflexivity).
    rewrite Hget in H. cbn in H. injection H as H. exact H. }
  assert (Hfail : Forall (fun mirror => mirror_fails
                            (FailoverScenario.net (mirror ++ "/" ++ "x.deb")
                               [("User-Agent", "apt-cache-proxy-manual")]) = true)
                    ["http://a.example"; "http://b.example"; "http://c.example"]).
  { repeat constructor. }
  assert (Hfound : match ManualScenario.failing_mirrors
                           !! SearchScenario.get_upstream_key "debian" "x.deb" with
                   | Some mirrors => Some mirrors
                   | None => ManualScenario.failing_mirrors !! "debian"
                   end
                   = Some ["http://a.example"; "http://b.example"; "http://c.example"])
    by (vm_compute; reflexivity).
  destruct (proj2 (manual_cache_unserved Scenario.CONFIG 5 Scenario.utc Scenario.no_regex []
                     FailoverScenario.net SearchScenario.get_upstream_key
                     ManualScenario.failing_mirrors
                     ManualScenario.disk "debian" "x.deb" Scenario.world w1 cp
                     Hget Hstale)
              ["http://a.example"; "http://b.example"; "http://c.example"]
              Hfound Hfail) as (w' & Hm & _ & Hsent).
  exists w'. split; [exact Hm|]. rewrite Hsent, Hreq. reflexivity.
Defined.

(** ** [utils/config.py]: saving and loading *)

(** A tree that has grown by directories resolves the old paths as
    before. *)
Lemma walk_grown (ns ns' : gmap (list string) FS.node) :
  (forall k n, ns !! k = Some n -> ns' !! k = Some n) ->
  forall comps cur k, FS.walk ns cur comps = Some k -> FS.walk ns' cur comps = Some k.
Proof.
  intros Hkeep. induction comps as [|c comps IH]; intros cur k; cbn [FS.walk]; [auto|].
  destruct (FS.is_dir ns cur) eqn:Hdir; [|discriminate].
  destruct (is_dir_lookup _ _ Hdir) as [m Hm].
  unfold FS.is_dir. rewrite (Hkeep _ _ Hm). apply IH.
Qed.

Lemma mkdir_p_keeps (now : Z) (f f' : FS.t) (p : Path.t) :
  FS.mkdir_p now f p = Some f' ->
  FS.cwd f' = FS.cwd f /\
  (forall k n, FS.nodes f !! k = Some n -> FS.nodes f' !! k = Some n) /\
  (forall q n, FS.lookup f q = Some n -> FS.lookup f' q = Some n).
Proof.
  unfold FS.mkdir_p. destruct (FS.is_dir _ _); [|discriminate].
  destruct (FS.mkdir_walk now _ _ _) as [ns'|] eqn:Hwalk; [|discriminate].
  intros [= <-]. cbn [FS.cwd FS.nodes].
  pose proof (mkdir_walk_keeps _ _ _ _ _ Hwalk) as Hkeep.
  split; [reflexivity|]. split; [exact Hkeep|].
  intros q n. unfold FS.lookup, FS.locate, FS.start. cbn [FS.cwd FS.nodes].
  destruct (FS.walk (FS.nodes f) _ _) as [k|] eqn:Hw; [|discriminate].
  rewrite (walk_grown _ _ Hkeep _ _ _ Hw). apply Hkeep.
Qed.

Section ConfigFiles.

Variable BASE_DIR : Path.t.
Variable is_docker : bool.
Variable json_load : string -> option (gmap string value).
Variable json_dump : gmap string value -> string.
Variable set_level : value -> bool.
Variable now : Z.
Variable disk : write_outcome.

Local Abbreviation config_path := (BASE_DIR // "data" // "config.json").
Local Abbreviation save :=
  (Config.save_config_value BASE_DIR json_load json_dump set_level now disk).
Local Abbreviation load :=
  (Config.load_config BASE_DIR is_docker json_load json_dump set_level now disk).

Lemma write_json_done (f f2 : FS.t) (p : Path.t) (obj : gmap string value) :
  Config.write_json json_dump now disk f p obj = (f2, true) ->
  FS.read f2 p = Some (json_dump obj).
Proof.
  unfold Config.write_json.
  destruct (FS.open_wb now f p) as [[f1 k]|] eqn:Hopen; [|discriminate].
  destruct disk; [|discriminate]. intros [= <-].
  destruct (open_wb_inv _ _ _ _ _ Hopen) as (Hloc & Hfile & m & ->).
  unfold FS.write. cbn [FS.nodes FS.cwd]. rewrite lookup_insert_eq, insert_insert_eq.
  unfold FS.read, FS.lookup.
  rewrite (locate_same_dirs f _ p).
  - rewrite Hloc. cbn [FS.nodes]. rewrite lookup_insert_eq. reflexivity.
  - intros k'. cbn [FS.nodes]. apply is_dir_insert_file, Hfile.
  - reflexivity.
Qed.

(** X23: what the answer of [save_config_value] means.  After [True] the
    key holds the new value in [CONFIG], every other key is as before,
    and the config file holds the dump of what was on disk (or of
    [CONFIG], when there was no file) with the key set.  After [False]
    either [CONFIG] is unchanged, or the key was [log_level] with a value
    the logger refused: then the value is in [CONFIG] and in the file all
    the same, and only the logger keeps its level. *)
Theorem save_config_value_outcomes
    (key : string) (v : value) (st st' : Config.state) (ok : bool) :
  save key v st = (st', ok) ->
  let stored :=
    Config.CONFIG st' = <[key := v]> (Config.CONFIG st) /\
    (forall d, get_config (Config.CONFIG st') key d = v) /\
    (forall k, k <> key -> Config.CONFIG st' !! k = Config.CONFIG st !! k) /\
    exists base, FS.read (Config.files st') config_path
                 = Some (json_dump (<[key := v]> base)) in
  (ok = true ->
   stored /\
   Config.logger_level st'
   = (if String.eqb key "log_level" then v else Config.logger_level st)) /\
  (ok = false ->
   Config.logger_level st' = Config.logger_level st /\
   (Config.CONFIG st' = Config.CONFIG st \/
    (key = "log_level" /\ set_level v = false /\ stored))).
Proof.
  unfold Config.save_config_value, Config.get_config_path.
  destruct (FS.mkdir_p now (Config.files st) (BASE_DIR // "data")) as [f1|].
  2: { intros [= <- <-]. cbn zeta. split; [discriminate | auto]. }
  destruct (if FS.exists_ f1 config_path
            then Config.read_json json_load f1 config_path
            else Some (Config.CONFIG st)) as [base|].
  2: { intros [= <- <-]. cbn zeta. split; [discriminate | auto]. }
  destruct (Config.write_json json_dump now disk f1 config_path (<[key := v]> base))
    as [f2 [|]] eqn:Hwrite.
  2: { intros [= <- <-]. cbn zeta. split; [discriminate | auto]. }
  pose proof (write_json_done _ _ _ _ Hwrite) as Hread.
  assert (Hstored : forall lvl,
            let st2 := Config.mk (<[key := v]> (Config.CONFIG st)) f2 lvl in
            Config.CONFIG st2 = <[key := v]> (Config.CONFIG st) /\
            (forall d, get_config (Config.CONFIG st2) key d = v) /\
            (forall k, k <> key -> Config.CONFIG st2 !! k = Config.CONFIG st !! k) /\
            exists base, FS.read (Config.files st2) config_path
                         = Some (json_dump (<[key := v]> base))).
  { intros lvl. cbn. split; [reflexivity|]. split; [|split].
    - intros d. unfold get_config. rewrite lookup_insert_eq. reflexivity.
    - intros k Hk. apply lookup_insert_ne. congruence.
    - exists base. exact Hread. }
  destruct (String.eqb key "log_level") eqn:Hkey.
  - apply String.eqb_eq in Hkey.
    destruct (set_level v) eqn:Hlevel; intros [= <- <-]; cbn zeta.
    + split; [|discriminate]. intros _. split; [apply Hstored | reflexivity].
    + split; [discriminate|]. intros _. split; [reflexivity|].
      right. split; [exact Hkey|]. split; [reflexivity | apply Hstored].
  - intros [= <- <-]. cbn zeta.
    split; [|discriminate]. intros _. split; [apply Hstored | reflexivity].
Qed.

(** X24: what a successful [load_config] leaves in [CONFIG].  The
    dictionary is the object read from the config file, or
    [DEFAULT_CONFIG] when there was no file (the file then holds its
    dump), changed in this way only: in Docker [storage_path] and
    [database_path] are forced, and [storage_path_resolved] is the text
    of the storage directory, [BASE_DIR / storage_path] or the absolute
    [storage_path] itself.  No default is filled in for a key the file
    does not have, and the logger has taken the level of [log_level]. *)
Theorem load_config_loaded (st st' : Config.state) :
  load st = (st', true) ->
  exists new_config sp,
    ((FS.exists_ (Config.files st) config_path = false /\
      new_config = Config.DEFAULT_CONFIG is_docker /\
      FS.read (Config.files st') config_path = Some (json_dump new_config))
     \/ Config.read_json json_load (Config.files st') config_path = Some new_config) /\
    (if is_docker then sp = "storage"
     else get_config new_config "storage_path" (VStr "storage") = VStr sp) /\
    Config.CONFIG st' !! "storage_path_resolved"
    = Some (VStr (Path.str (if Py.startswith sp "/" then Path.of_str sp
                            else BASE_DIR // sp))) /\
    (is_docker = true ->
     Config.CONFIG st' !! "storage_path" = Some (VStr "storage") /\
     Config.CONFIG st' !! "database_path" = Some (VStr "data/stats.db")) /\
    (forall k,
        k <> "storage_path_resolved" ->
        (is_docker = true -> k <> "storage_path" /\ k <> "database_path") ->
        Config.CONFIG st' !! k = new_config !! k) /\
    Config.logger_level st' = get_config (Config.CONFIG st') "log_level" (VStr "INFO") /\
    set_level (Config.logger_level st') = true.
Proof.
  unfold Config.load_config, Config.get_config_path.
  destruct (FS.mkdir_p now (Config.files st) (BASE_DIR // "data")) as [f1|] eqn:Hmk;
    [|discriminate].
  destruct (mkdir_p_keeps _ _ _ _ Hmk) as (_ & _ & Hlook).
  assert (Htail : forall f2 new_config,
    (let c2 := if is_docker
               then <["database_path" := VStr "data/stats.db"]>
                      (<["storage_path" := VStr "storage"]> new_config)
               else new_config in
     match get_config c2 "storage_path" (VStr "storage") with
     | VStr storage_path_str =>
         let storage_path :=
           if Py.startswith storage_path_str "/" then Path.of_str storage_path_str
           else BASE_DIR // storage_path_str in
         match FS.mkdir_p now f2 storage_path with
         | Some f3 =>
             let c3 := <["storage_path_resolved" := VStr (Path.str storage_path)]> c2 in
             let lvl := get_config c3 "log_level" (VStr "INFO") in
             if set_level lvl then (Config.mk c3 f3 lvl, true)
             else (Config.mk c3 f3 (Config.logger_level st), false)
         | None => (Config.mk c2 f2 (Config.logger_level st), false)
         end
     | _ => (Config.mk c2 f2 (Config.logger_level st), false)
     end) = (st', true) ->
    exists sp,
      (forall q n, FS.lookup f2 q = Some n -> FS.lookup (Config.files st') q = Some n) /\
      (if is_docker then sp = "storage"
       else get_config new_config "storage_path" (VStr "storage") = VStr sp) /\
      Config.CONFIG st' !! "storage_path_resolved"
      = Some (VStr (Path.str (if Py.startswith sp "/" then Path.of_str sp
                              else BASE_DIR // sp))) /\
      (is_docker = true ->
       Config.CONFIG st' !! "storage_path" = Some (VStr "storage") /\
       Config.CONFIG st' !! "database_path" = Some (VStr "data/stats.db")) /\
      (forall k,
          k <> "storage_path_resolved" ->
          (is_docker = true -> k <> "storage_path" /\ k <> "database_path") ->
          Config.CONFIG st' !! k = new_config !! k) /\
      Config.logger_level st' = get_config (Config.CONFIG st') "log_level" (VStr "INFO") /\
      set_level (Config.logger_level st') = true).
  { intros f2 new_config. cbn zeta.
    set (c2 := if is_docker then _ else new_config).
    destruct (get_config c2 "storage_path" (VStr "storage")) as [| | |sp] eqn:Hsp;
      try discriminate.
    destruct (FS.mkdir_p now f2 _) as [f3|] eqn:Hmk3; [|discriminate].
    destruct (set_level _) eqn:Hlvl; [|discriminate].
    intros [= <-]. cbn [Config.CONFIG Config.files Config.logger_level].
    exists sp. split; [exact (proj2 (proj2 (mkdir_p_keeps _ _ _ _ Hmk3)))|].
    split.
    { subst c2. destruct is_docker; [|exact Hsp].
      revert Hsp. unfold get_config.
      rewrite lookup_insert_ne by discriminate. rewrite lookup_insert_eq.
      intros [= <-]. reflexivity. }
    split; [apply lookup_insert_eq|].
    split.
    { intros ->. subst c2. rewrite !lookup_insert_ne by discriminate.
      rewrite lookup_insert_eq, lookup_insert_ne by discriminate.
      rewrite lookup_insert_eq. auto. }
    split; [|split; [reflexivity | exact Hlvl]].
    intros k Hk Hdocker. rewrite lookup_insert_ne by congruence.
    subst c2. destruct is_docker; [|reflexivity].
    destruct (Hdocker eq_refl) as [H1 H2].
    rewrite !lookup_insert_ne by congruence. reflexivity. }
  destruct (FS.exists_ f1 config_path) eqn:Hex; cbn [negb].
  - destruct (Config.read_json json_load f1 config_path) as [new_config|] eqn:Hread;
      [|discriminate].
    intros Hrun. destruct (Htail _ _ Hrun) as (sp & Hkeep3 & Hrest).
    exists new_config, sp. split; [|exact Hrest].
    right. revert Hread. unfold Config.read_json, FS.read.
    destruct (FS.lookup f1 config_path) as [[m|c m]|] eqn:Hl; try discriminate.
    rewrite (Hkeep3 _ _ Hl). auto.
  - destruct (Config.write_json json_dump now disk f1 config_path
                (Config.DEFAULT_CONFIG is_docker)) as [f2 [|]] eqn:Hwrite;
      [|discriminate].
    intros Hrun. destruct (Htail _ _ Hrun) as (sp & Hkeep3 & Hrest).
    exists (Config.DEFAULT_CONFIG is_docker), sp. split; [|exact Hrest].
    left. split; [|split; [reflexivity|]].
    + revert Hex. unfold FS.exists_.
      destruct (FS.lookup (Config.files st) config_path) as [n|] eqn:Hl0; [|reflexivity].
      rewrite (Hlook _ _ Hl0). discriminate.
    + pose proof (write_json_done _ _ _ _ Hwrite) as Hr. revert Hr. unfold FS.read.
      destruct (FS.lookup f2 config_path) as [[m|c m]|] eqn:Hl; try discriminate.
      rewrite (Hkeep3 _ _ Hl). auto.
Qed.

End ConfigFiles.

Lemma save_config_value_outcomes_witness :
  exists st',
    ConfigScenario.save "log_level" (VStr "LOUD") ConfigScenario.st0 = (st', false) /\
    Config.logger_level st' = VStr "WARNING" /\
    (Config.CONFIG st' = ∅ \/ get_config (Config.CONFIG st') "log_level" VNone = VStr "LOUD").
Proof.
  destruct (ConfigScenario.save "log_level" (VStr "LOUD") ConfigScenario.st0)
    as [st' ok] eqn:E.
  assert (Hok : snd (ConfigScenario.save "log_level" (VStr "LOUD") ConfigScenario.st0)
                = false) by (vm_compute; reflexivity).
  rewrite E in Hok. cbn [snd] in Hok. subst ok.
  exists st'. split; [reflexivity|].
  destruct (proj2 (save_config_value_outcomes (Path.of_str "/app")
                     ConfigScenario.json_load ConfigScenario.json_dump
                     ConfigScenario.set_level 5 WriteDone
                     "log_level" (VStr "LOUD") ConfigScenario.st0 st' false E) eq_refl)
    as [Hlevel [Hsame | (_ & _ & _ & Hget & _)]].
  - split; [exact Hlevel|]. left. exact Hsame.
  - split; [exact Hlevel|]. right. apply Hget.
Defined.

Lemma load_config_loaded_witness :
  exists st' new_config sp,
    ConfigScenario.load ConfigScenario.st0 = (st', true) /\
    get_config new_config "storage_path" (VStr "storage") = VStr sp /\
    Config.CONFIG st' !! "storage_path_resolved"
    = Some (VStr (Path.str (if Py.startswith sp "/" then Path.of_str sp
                            else Path.of_str "/app" // sp))).
Proof.
  destruct (ConfigScenario.load ConfigScenario.st0) as [st' ok] eqn:E.
  assert (Hok : snd (ConfigScenario.load ConfigScenario.st0) = true)
    by (vm_compute; reflexivity).
  rewrite E in Hok. cbn [snd] in Hok. subst ok.
  destruct (load_config_loaded (Path.of_str "/app") false
              ConfigScenario.json_load ConfigScenario.json_dump
              ConfigScenario.set_level 5 WriteDone ConfigScenario.st0 st' E)
    as (new_config & sp & _ & Hsp & Hres & _).
  exists st', new_config, sp. auto.
Defined.

(** ** Paths built by [os.path.join] *)

Lemma lstrip_slash_other (c : ascii) (s : string) :
  c <> "/"%char -> Py_path.lstrip_slash (String c s) = String c s.
Proof.
  intros Hc. destruct c as [[] [] [] [] [] [] [] []]; try reflexivity. congruence.
Qed.

Lemma splitroot_other (c : ascii) (s : string) :
  c <> "/"%char -> Path.splitroot (String c s) = ("", String c s).
Proof.
  intros Hc. destruct c as [[] [] [] [] [] [] [] []]; try reflexivity. congruence.
Qed.

Lemma splitroot_slash (s : string) :
  Path.splitroot (String "/" s)
  = (if (S (String.length s) - String.length (Py_path.lstrip_slash s) =? 2)%nat
     then "//" else "/",
     Py_path.lstrip_slash s).
Proof.
  unfold Path.splitroot.
  change (Py_path.lstrip_slash (String "/" s)) with (Py_path.lstrip_slash s).
  cbn [String.length].
  destruct (_ =? 2)%nat; reflexivity.
Qed.

Lemma length_append (a b : string) :
  String.length (a ++ b) = (String.length a + String.length b)%nat.
Proof.
  induction a as [|c a IH]; [reflexivity|].
  rewrite append_cons. cbn [String.length]. rewrite IH. reflexivity.
Qed.

Lemma lstrip_slash_length (s : string) :
  (String.length (Py_path.lstrip_slash s) <= String.length s)%nat.
Proof.
  induction s as [|c s IH]; [reflexivity|].
  destruct (Ascii.eqb_spec c "/") as [->|Hc].
  - change (Py_path.lstrip_slash (String "/" s)) with (Py_path.lstrip_slash s).
    cbn [String.length]. lia.
  - rewrite (lstrip_slash_other _ _ Hc). reflexivity.
Qed.

(** Text that does not begin with a slash is not touched by the strip of
    what precedes it. *)
Lemma lstrip_slash_app (d t : string) :
  Py.startswith t "/" = false ->
  Py_path.lstrip_slash (d ++ t) = Py_path.lstrip_slash d ++ t.
Proof.
  intros Ht. induction d as [|c d IH].
  - change ("" ++ t) with t. destruct t as [|c t]; [reflexivity|].
    cbn [Py.startswith] in Ht. rewrite startswith_empty, andb_true_r in Ht.
    apply lstrip_slash_other. intros ->. discriminate Ht.
  - rewrite append_cons. destruct (Ascii.eqb_spec c "/") as [->|Hc].
    + exact IH.
    + rewrite !(lstrip_slash_other _ _ Hc). rewrite append_cons. reflexivity.
Qed.

(** Nor is any text, when what precedes it does not end with a slash. *)
Lemma lstrip_slash_app_open (d t : string) :
  d <> "" -> ends_with_slash d = false ->
  Py_path.lstrip_slash (d ++ t) = Py_path.lstrip_slash d ++ t.
Proof.
  induction d as [|c d IH]; intros Hne Hend; [contradiction Hne; reflexivity|].
  rewrite append_cons. destruct (Ascii.eqb_spec c "/") as [->|Hc].
  - destruct d as [|c' d']; [discriminate Hend|].
    apply IH; [discriminate | exact Hend].
  - rewrite !(lstrip_slash_other _ _ Hc). rewrite append_cons. reflexivity.
Qed.

Lemma splitroot_app (y t : string) :
  y <> "" ->
  Py.startswith t "/" = false \/ ends_with_slash y = false ->
  Path.splitroot (y ++ t) = (fst (Path.splitroot y), snd (Path.splitroot y) ++ t).
Proof.
  intros Hne Hor. destruct y as [|c y]; [contradiction Hne; reflexivity|].
  rewrite append_cons. destruct (Ascii.eqb_spec c "/") as [->|Hc].
  - rewrite !splitroot_slash. cbn [fst snd].
    assert (Hstrip : Py_path.lstrip_slash (y ++ t) = Py_path.lstrip_slash y ++ t).
    { destruct Hor as [Ht | Hend]; [apply lstrip_slash_app, Ht|].
      destruct y as [|c' y']; [discriminate Hend|].
      apply lstrip_slash_app_open; [discriminate | exact Hend]. }
    rewrite Hstrip, !length_append.
    pose proof (lstrip_slash_length y) as Hlen.
    replace (S (String.length y + String.length t)
             - (String.length (Py_path.lstrip_slash y) + String.length t))%nat
      with (S (String.length y) - String.length (Py_path.lstrip_slash y))%nat by lia.
    reflexivity.
  - rewrite !(splitroot_other _ _ Hc). cbn [fst snd]. rewrite append_cons. reflexivity.
Qed.

(** *** Splitting at slashes *)

Lemma split_acc_app_sep (sep : ascii) (r t : string) :
  forall cur,
    Py.split_acc sep cur (r ++ String sep t)
    = (Py.split_acc sep cur r ++ Py.split_acc sep "" t)%list.
Proof.
  induction r as [|c r IH]; intros cur.
  - change ("" ++ String sep t) with (String sep t).
    cbn [Py.split_acc]. rewrite Ascii.eqb_refl. reflexivity.
  - rewrite append_cons. cbn [Py.split_acc].
    destruct (Ascii.eqb c sep); [rewrite IH; reflexivity | apply IH].
Qed.

Lemma parts_of_app (r t : string) :
  parts_of (r ++ "/" ++ t) = (parts_of r ++ parts_of t)%list.
Proof.
  unfold parts_of, Py.split.
  change ("/" ++ t) with (String "/" t).
  rewrite split_acc_app_sep. apply List.filter_app.
Qed.

Lemma parts_of_plain (name : string) :
  plain_segment name = true -> parts_of name = [name].
Proof.
  unfold plain_segment. intros H.
  apply andb_true_iff in H as [H _]. apply andb_true_iff in H as [H Hd].
  apply andb_true_iff in H as [Hne Hsl]. apply negb_true_iff in Hsl.
  unfold parts_of, Py.split. rewrite (split_acc_no_sep _ _ _ Hsl).
  change ("" ++ name) with name.
  cbn [List.filter]. unfold Path.keep_part. rewrite Hne, Hd. reflexivity.
Qed.

Lemma parts_of_slash (r : string) : parts_of (r ++ "/") = parts_of r.
Proof.
  change (r ++ "/") with (r ++ "/" ++ ""). rewrite parts_of_app.
  apply app_nil_r.
Qed.

Lemma of_str_parts_of (s : string) :
  Path.of_str s = Path.mk (fst (Path.splitroot s)) (parts_of (snd (Path.splitroot s))).
Proof. unfold Path.of_str. destruct (Path.splitroot s); reflexivity. Qed.

(** *** What ends with a slash *)

Lemma ends_with_slash_spec (s : string) : Py.endswith s "/" = ends_with_slash s.
Proof.
  unfold Py.endswith. cbn [String.length].
  induction s as [|c s IH]; [reflexivity|].
  cbn [String.length]. rewrite Nat.sub_succ, Nat.sub_0_r.
  destruct s as [|c' s'].
  - cbn. destruct (Ascii.eqb c "/"); reflexivity.
  - cbn [String.length] in *. rewrite Nat.sub_succ, Nat.sub_0_r in IH.
    change (ends_with_slash (String c (String c' s')))
      with (ends_with_slash (String c' s')).
    rewrite <- IH. cbn [Nat.leb substring]. reflexivity.
Qed.

Lemma ends_with_slash_inv (y : string) :
  ends_with_slash y = true -> exists x, y = x ++ "/".
Proof.
  induction y as [|c y IH]; [discriminate|].
  destruct y as [|c' y'].
  - cbn. intros H. apply Ascii.eqb_eq in H. subst c. exists "". reflexivity.
  - intros H. destruct (IH H) as [x Hx]. exists (String c x).
    rewrite append_cons, <- Hx. reflexivity.
Qed.

Lemma rel_ends_with_slash (x : string) :
  snd (Path.splitroot (x ++ "/")) = "" \/
  exists r, snd (Path.splitroot (x ++ "/")) = r ++ "/".
Proof.
  assert (Hstrip : forall z, Py_path.lstrip_slash (z ++ "/") = "" \/
                             exists r, Py_path.lstrip_slash (z ++ "/") = r ++ "/").
  { induction z as [|c z IH]; [left; reflexivity|].
    rewrite append_cons. destruct (Ascii.eqb_spec c "/") as [->|Hc]; [exact IH|].
    right. exists (String c z). rewrite (lstrip_slash_other _ _ Hc), append_cons.
    reflexivity. }
  destruct x as [|c x].
  - left. reflexivity.
  - rewrite append_cons. destruct (Ascii.eqb_spec c "/") as [->|Hc].
    + rewrite splitroot_slash. cbn [snd]. apply Hstrip.
    + rewrite (splitroot_other _ _ Hc). cbn [snd]. right.
      exists (String c x). rewrite append_cons. reflexivity.
Qed.

Lemma plain_no_leading_slash (name : string) :
  plain_segment name = true -> Py.startswith name "/" = false /\ name <> "".
Proof.
  unfold plain_segment. intros H.
  apply andb_true_iff in H as [H _]. apply andb_true_iff in H as [H _].
  apply andb_true_iff in H as [Hne Hsl].
  apply negb_true_iff in Hsl, Hne. apply String.eqb_neq in Hne.
  split; [|exact Hne].
  destruct name as [|c name]; [reflexivity|].
  cbn [Py.has_char] in Hsl. apply orb_false_iff in Hsl as [Hc _].
  cbn [Py.startswith]. rewrite Hc. reflexivity.
Qed.

(** A name joined onto a text that ends with a slash. *)
Lemma of_str_onto_slash (x name : string) :
  plain_segment name = true ->
  Path.of_str ((x ++ "/") ++ name) = Path.of_str (x ++ "/") // name.
Proof.
  intros Hplain. destruct (plain_no_leading_slash _ Hplain) as [Hlead _].
  rewrite (div_plain _ _ Hplain), !of_str_parts_of. cbn [Path.root Path.parts].
  rewrite splitroot_app by (auto; destruct x; discriminate).
  cbn [fst snd]. f_equal.
  destruct (rel_ends_with_slash x) as [-> | [r ->]].
  - change ("" ++ name) with name. rewrite (parts_of_plain _ Hplain). reflexivity.
  - rewrite append_assoc, parts_of_app, parts_of_slash, (parts_of_plain _ Hplain).
    reflexivity.
Qed.

(** A slash put after a text that does not end with one changes
    nothing. *)
Lemma of_str_trailing_slash (x : string) :
  x <> "" -> ends_with_slash x = false -> Path.of_str (x ++ "/") = Path.of_str x.
Proof.
  intros Hne Hend. rewrite !of_str_parts_of.
  rewrite splitroot_app by auto. cbn [fst snd]. rewrite parts_of_slash. reflexivity.
Qed.

(** [os.path.join(d, name)] names the entry [name] of [d]. *)
Lemma of_str_join (d name : string) :
  plain_segment name = true ->
  Path.of_str (Py_text.os_path_join d name) = Path.of_str d // name.
Proof.
  intros Hplain. destruct (plain_no_leading_slash _ Hplain) as [Hlead Hne].
  unfold Py_text.os_path_join. rewrite Hlead.
  destruct (String.eqb_spec d "") as [->|Hd]; cbn [orb].
  - change ("" ++ name) with name.
    rewrite (of_str_plain _ Hplain), (div_plain _ _ Hplain). reflexivity.
  - rewrite ends_with_slash_spec. destruct (ends_with_slash d) eqn:Hend.
    + destruct (ends_with_slash_inv _ Hend) as [x ->].
      apply of_str_onto_slash, Hplain.
    + rewrite <- append_assoc, (of_str_onto_slash _ _ Hplain).
      rewrite (of_str_trailing_slash _ Hd Hend). reflexivity.
Qed.

(** ** [clean_old_cache]: what the cleanup takes away *)

Lemma walk_app (ns : gmap (list string) FS.node) (a b : list string) :
  forall cur,
    FS.walk ns cur (a ++ b)%list
    = match FS.walk ns cur a with
      | Some k => FS.walk ns k b
      | None => None
      end.
Proof.
  induction a as [|c a IH]; intros cur; [reflexivity|].
  cbn [app FS.walk]. destruct (FS.is_dir ns cur); [apply IH | reflexivity].
Qed.

(** The entry [name] of a directory that [d] names is named by
    [os.path.join(d, name)]. *)
Lemma locate_join (f : FS.t) (d name : string) (kd : list string) :
  plain_segment name = true ->
  FS.locate f (Path.of_str d) = Some kd ->
  FS.is_dir (FS.nodes f) kd = true ->
  FS.locate f (Path.of_str (Py_text.os_path_join d name)) = Some (kd ++ [name])%list.
Proof.
  intros Hplain Hloc Hdir.
  rewrite (of_str_join _ _ Hplain), (div_plain _ _ Hplain).
  revert Hloc. unfold FS.locate, FS.start. cbn [Path.root Path.parts].
  intros Hloc. rewrite walk_app, Hloc. cbn [FS.walk].
  rewrite Hdir, (plain_not_dotdot _ Hplain). reflexivity.
Qed.

Lemma children_spec (ns : gmap (list string) FS.node) (k : list string)
    (name : string) (n : FS.node) :
  In (name, n) (Os.children ns k) -> ns !! (k ++ [name])%list = Some n.
Proof.
  unfold Os.children. intros Hin. apply list_elem_of_In in Hin.
  apply list_elem_of_omap in Hin as ([key n'] & Hkn & Hf).
  apply elem_of_map_to_list in Hkn. cbn [fst snd] in Hf.
  destruct (bool_decide _) eqn:Hd; [|discriminate Hf].
  apply bool_decide_eq_true_1 in Hd as [Hne <-].
  injection Hf as <- <-.
  rewrite <- (app_removelast_last "" Hne). exact Hkn.
Qed.

Section CleanupSafety.

Variable cutoff_time : Z.
Variable ns0 : gmap (list string) FS.node.   (* the tree before the cleanup *)
Variable cwd0 : list string.
Variable sk : list string.                   (* where the storage directory is *)

Hypothesis Hnames : plain_names ns0.

Local Abbreviation cleaning := (cleaning cutoff_time ns0 cwd0 sk).
Local Abbreviation waiting := (waiting ns0 cwd0 sk).

Lemma cleaning_locate (f : FS.t) (p : Path.t) :
  cleaning f -> FS.locate f p = FS.locate (FS.mk ns0 cwd0) p.
Proof.
  intros (Hcwd & Hdirs & _). apply locate_same_dirs; [exact Hdirs | exact Hcwd].
Qed.

Lemma scan_entries_safe (current_dir : string) (kd : list string)
    (entries : list (string * FS.node)) :
  FS.locate (FS.mk ns0 cwd0) (Path.of_str current_dir) = Some kd ->
  FS.is_dir ns0 kd = true ->
  sk `prefix_of` kd ->
  forall stack f cleaned_count,
    (forall name n, In (name, n) entries -> ns0 !! (kd ++ [name])%list = Some n) ->
    cleaning f -> waiting stack ->
    cleaning (snd (fst (scan_entries cutoff_time current_dir entries stack f
                          cleaned_count))) /\
    waiting (fst (fst (scan_entries cutoff_time current_dir entries stack f
                         cleaned_count))).
Proof.
  intros Hloc Hdir Hprefix.
  induction entries as [|[name node] entries IH]; intros stack f cleaned_count Hent Hf Hst;
    cbn [scan_entries]; [auto|].
  assert (Hrest : forall name' n, In (name', n) entries ->
                                  ns0 !! (kd ++ [name'])%list = Some n)
    by (intros ? ? ?; apply Hent; right; assumption).
  pose proof (Hent name node (or_introl eq_refl)) as Hnode.
  assert (Hplain : plain_segment name = true).
  { pose proof (Hnames _ _ Hnode) as Hall. apply Forall_app in Hall as [_ Hall].
    inversion Hall; assumption. }
  assert (Hchild : FS.locate (FS.mk ns0 cwd0)
                     (Path.of_str (Py_text.os_path_join current_dir name))
                   = Some (kd ++ [name])%list)
    by (apply locate_join; assumption).
  destruct node as [m|content st].
  - apply IH; [exact Hrest | exact Hf |].
    apply Forall_app. split; [exact Hst|]. constructor; [|constructor].
    exists (kd ++ [name])%list. split; [exact Hchild|].
    apply prefix_app_r, Hprefix.
  - destruct (FS.st_atime st) as [atime|] eqn:Hat; [|apply IH; assumption].
    destruct (_ <? cutoff_time)%Z eqn:Hold; [|apply IH; assumption].
    unfold FS.unlink. rewrite (cleaning_locate _ _ Hf), Hchild.
    destruct (FS.nodes f !! (kd ++ [name])%list) as [[m'|content' st']|] eqn:Hcur;
      try (apply IH; assumption).
    apply IH; [exact Hrest | | exact Hst].
    destruct Hf as (Hcwd & Hdirs & Hkept & Hgone).
    assert (Hfile : FS.is_dir (FS.nodes f) (kd ++ [name])%list = false).
    { unfold FS.is_dir. rewrite Hcur. reflexivity. }
    split; [exact Hcwd|]. cbn [FS.nodes]. split; [|split].
    + intros k. rewrite is_dir_delete_file by exact Hfile. apply Hdirs.
    + intros k n Hk. apply lookup_delete_Some in Hk as [_ Hk]. apply Hkept, Hk.
    + intros k n Hk0 Hk. apply lookup_delete_None in Hk as [<- | Hk];
        [|apply Hgone; assumption].
      rewrite Hnode in Hk0. injection Hk0 as <-.
      apply Z.ltb_lt in Hold.
      exists content, st, atime. split; [reflexivity|]. split; [exact Hat|].
      destruct (atime <? FS.st_mtime st)%Z eqn:Hmax;
        [apply Z.ltb_lt in Hmax | apply Z.ltb_ge in Hmax].
      * repeat split; try lia; [apply prefix_app_r, Hprefix|].
        intros Heq. apply prefix_length in Hprefix.
        apply (f_equal length) in Heq. rewrite length_app in Heq. cbn in Heq. lia.
      * repeat split; try lia; [apply prefix_app_r, Hprefix|].
        intros Heq. apply prefix_length in Hprefix.
        apply (f_equal length) in Heq. rewrite length_app in Heq. cbn in Heq. lia.
Qed.

Lemma scan_round_safe (stack : list string) (f : FS.t) (cleaned_count : nat) :
  stack <> [] -> cleaning f -> waiting stack ->
  cleaning (snd (fst (scan_round cutoff_time stack f cleaned_count))) /\
  waiting (fst (fst (scan_round cutoff_time stack f cleaned_count))).
Proof.
  intros Hne Hf Hst. unfold scan_round.
  assert (Hpop : waiting (removelast stack) /\
                 exists kd, FS.locate (FS.mk ns0 cwd0) (Path.of_str (List.last stack ""))
                            = Some kd /\ sk `prefix_of` kd).
  { rewrite (app_removelast_last "" Hne) in Hst at 1.
    apply Forall_app in Hst as [Hinit Hlast]. split; [exact Hinit|].
    inversion Hlast; assumption. }
  destruct Hpop as (Hinit & kd & Hloc & Hprefix).
  unfold Os.scandir. rewrite (cleaning_locate _ _ Hf), Hloc.
  destruct (FS.is_dir (FS.nodes f) kd) eqn:Hdir; [|auto].
  apply (scan_entries_safe _ kd); try assumption.
  - destruct Hf as (_ & Hdirs & _). rewrite <- Hdirs. exact Hdir.
  - intros name n Hin. destruct Hf as (_ & _ & Hkept & _).
    apply Hkept, children_spec, Hin.
Qed.

Lemma scan_loop_safe (fuel : nat) :
  forall stack f cleaned_count f' cleaned_count',
    cleaning f -> waiting stack ->
    scan_loop cutoff_time fuel stack f cleaned_count = Some (f', cleaned_count') ->
    cleaning f'.
Proof.
  induction fuel as [|fuel IH]; intros stack f cleaned_count f' cleaned_count' Hf Hst;
    destruct stack as [|p stack]; cbn [scan_loop]; try discriminate;
    try (intros [= <- <-]; exact Hf).
  destruct (scan_round_safe (p :: stack) f cleaned_count ltac:(discriminate) Hf Hst)
    as [Hf1 Hst1].
  destruct (scan_round cutoff_time (p :: stack) f cleaned_count) as [[stack1 f1] c1].
  apply IH; assumption.
Qed.

End CleanupSafety.

(** X25: the cleanup takes away old cache files and nothing else.  With
    the names in the tree being ordinary ones and the storage path in the
    normalised form [load_config] stores, whenever [clean_old_cache]
    completes, every node left is a node of before, unchanged, and every
    node that is gone was a regular file below the storage directory whose
    access and modification times both lie more than [cache_days] days
    back.  No directory is removed, nothing outside the storage directory
    is touched, and nothing is created. *)
Theorem clean_old_cache_safe
    (error_text : value -> string) (CONFIG : gmap string value) (now : Z) (fuel : nat)
    (w w' : World) (s : string) :
  plain_names (FS.nodes (fs w)) ->
  get_config CONFIG "storage_path_resolved" VNone = VStr s ->
  Path.str (Path.of_str s) = s ->
  clean_old_cache error_text CONFIG now fuel w = Some w' ->
  (forall k n, FS.nodes (fs w') !! k = Some n -> FS.nodes (fs w) !! k = Some n) /\
  (forall k n,
      FS.nodes (fs w) !! k = Some n -> FS.nodes (fs w') !! k = None ->
      exists sk cutoff_time,
        FS.locate (fs w) (Path.of_str s) = Some sk /\
        cutoff_of now (get_config CONFIG "cache_days" (VInt 7)) = Some cutoff_time /\
        expired_file cutoff_time sk k n) /\
  (forall k, FS.is_dir (FS.nodes (fs w')) k = FS.is_dir (FS.nodes (fs w)) k) /\
  FS.cwd (fs w') = FS.cwd (fs w) /\
  bytes_served w' = bytes_served w /\ requests_sent w' = requests_sent w.
Proof.
  intros Hnames Hcfg Hnorm. unfold clean_old_cache.
  assert (Hsame : (forall k n, FS.nodes (fs w) !! k = Some n ->
                               FS.nodes (fs w) !! k = Some n) /\
                  (forall k n,
                      FS.nodes (fs w) !! k = Some n -> FS.nodes (fs w) !! k = None ->
                      exists sk cutoff_time,
                        FS.locate (fs w) (Path.of_str s) = Some sk /\
                        cutoff_of now (get_config CONFIG "cache_days" (VInt 7))
                        = Some cutoff_time /\
                        expired_file cutoff_time sk k n) /\
                  (forall k, FS.is_dir (FS.nodes (fs w)) k = FS.is_dir (FS.nodes (fs w)) k) /\
                  FS.cwd (fs w) = FS.cwd (fs w) /\
                  bytes_served w = bytes_served w /\ requests_sent w = requests_sent w).
  { repeat split; auto. intros k n H1 H2. congruence. }
  destruct (negb (truthy (get_config CONFIG "cache_retention_enabled" (VBool true)))).
  { intros [= <-]. exact Hsame. }
  rewrite Hcfg. destruct (negb (truthy (VStr s))).
  { intros [= <-]. exact Hsame. }
  destruct (cutoff_of now (get_config CONFIG "cache_days" (VInt 7))) as [cutoff_time|]
    eqn:Hcut.
  2: { intros [= <-]. exact Hsame. }
  rewrite Hnorm.
  destruct (scan_loop cutoff_time fuel [s] (fs w) 0) as [[f' count]|] eqn:Hloop;
    [|discriminate].
  intros Hw'.
  assert (Hfs : fs w' = f').
  { destruct (0 <? count)%nat; injection Hw' as <-; reflexivity. }
  assert (Hother : bytes_served w' = bytes_served w /\ requests_sent w' = requests_sent w).
  { destruct (0 <? count)%nat; injection Hw' as <-; auto. }
  rewrite Hfs. clear Hw' Hfs.
  destruct (FS.locate (fs w) (Path.of_str s)) as [sk|] eqn:Hloc.
  - assert (Hstart : cleaning cutoff_time (FS.nodes (fs w)) (FS.cwd (fs w)) sk (fs w)).
    { split; [reflexivity|]. split; [reflexivity|]. split; [auto|].
      intros k n H1 H2. congruence. }
    assert (Hstack : waiting (FS.nodes (fs w)) (FS.cwd (fs w)) sk [s]).
    { constructor; [|constructor]. exists sk. split; [|reflexivity].
      destruct (fs w); exact Hloc. }
    destruct (scan_loop_safe cutoff_time _ _ sk Hnames fuel _ _ _ _ _ Hstart Hstack Hloop)
      as (Hcwd & Hdirs & Hkept & Hgone).
    split; [exact Hkept|]. split; [|split; [exact Hdirs | split; [exact Hcwd | exact Hother]]].
    intros k n H1 H2. exists sk, cutoff_time. auto.
  - (* the storage path does not resolve: the scan fails and nothing happens *)
    destruct fuel as [|fuel]; [discriminate Hloop|].
    cbn [scan_loop] in Hloop. unfold scan_round, Os.scandir in Hloop.
    cbn [List.last removelast] in Hloop. rewrite Hloc in Hloop.
    cbn [scan_loop] in Hloop.
    destruct Hsame as (H1 & H2 & H3 & H4 & _). destruct Hother as [Hb Hr].
    destruct fuel; injection Hloop as <- _; auto 10.
Qed.

(** ** [clean_old_cache]: the traversal ends *)

(** *** Counting in two ways *)

Lemma list_sum_cons (a : nat) (l : list nat) : list_sum (a :: l) = (a + list_sum l)%nat.
Proof. reflexivity. Qed.

Lemma count_swap {A B : Type} (R : A -> B -> bool) (C : list A) (L : list B) :
  list_sum (map (fun c => length (List.filter (R c) L)) C)
  = list_sum (map (fun d => length (List.filter (fun c => R c d) C)) L).
Proof.
  induction C as [|c C IH].
  - cbn [map List.filter length]. induction L as [|d L IHL]; [reflexivity|].
    rewrite map_cons, list_sum_cons, <- IHL. reflexivity.
  - rewrite map_cons, list_sum_cons, IH. clear IH.
    induction L as [|d L IHL]; [reflexivity|].
    rewrite !map_cons, !list_sum_cons, <- IHL.
    cbn [List.filter]. destruct (R c d); cbn [length]; lia.
Qed.

Lemma filter_at_most_one {A : Type} (P : A -> bool) (C : list A) :
  NoDup C ->
  (forall c1 c2, In c1 C -> In c2 C -> P c1 = true -> P c2 = true -> c1 = c2) ->
  (length (List.filter P C) <= 1)%nat.
Proof.
  induction 1 as [|c C Hc Hnd IH]; intros Huniq; [cbn; lia|].
  cbn [List.filter]. destruct (P c) eqn:Hp.
  - cbn [length].
    assert (Hnone : List.filter P C = []).
    { destruct (List.filter P C) as [|c' F] eqn:HF; [reflexivity|]. exfalso.
      assert (Hin : In c' (List.filter P C)) by (rewrite HF; left; reflexivity).
      apply filter_In in Hin as [Hin Hp'].
      apply Hc. rewrite list_elem_of_In.
      rewrite (Huniq c c' (or_introl eq_refl) (or_intror Hin) Hp Hp'). exact Hin. }
    rewrite Hnone. cbn. lia.
  - apply IH. intros c1 c2 H1 H2. apply Huniq; right; assumption.
Qed.

Lemma list_sum_le {B : Type} (g h : B -> nat) (L : list B) :
  (forall d, In d L -> g d <= h d)%nat ->
  (list_sum (map g L) <= list_sum (map h L))%nat.
Proof.
  induction L as [|d L IH]; intros H; [cbn; lia|].
  rewrite !map_cons, !list_sum_cons. pose proof (H d (or_introl eq_refl)).
  assert (list_sum (map g L) <= list_sum (map h L))%nat
    by (apply IH; intros; apply H; right; assumption).
  lia.
Qed.

Lemma filter_length_sum {B : Type} (Q : B -> bool) (L : list B) :
  length (List.filter Q L) = list_sum (map (fun d => if Q d then 1%nat else 0%nat) L).
Proof.
  induction L as [|d L IH]; [reflexivity|].
  rewrite map_cons, list_sum_cons, <- IH.
  cbn [List.filter]. destruct (Q d); cbn [length]; lia.
Qed.

Lemma filter_length_mono {B : Type} (P Q : B -> bool) (L : list B) :
  (forall d, In d L -> P d = true -> Q d = true) ->
  (length (List.filter P L) <= length (List.filter Q L))%nat.
Proof.
  intros H. rewrite !filter_length_sum. apply list_sum_le.
  intros d Hd. specialize (H d Hd).
  destruct (P d); [rewrite H by reflexivity; lia|]. destruct (Q d); lia.
Qed.

(** *** The directories below a directory *)

Section DirsUnder.

Variable ns0 : gmap (list string) FS.node.

Local Abbreviation under k :=
  (fun kn : list string * FS.node =>
     bool_decide (k `prefix_of` fst kn) && is_dir_node (snd kn)).

Lemma dirs_under_bound (k : list string) : (dirs_under ns0 k <= size ns0)%nat.
Proof.
  unfold dirs_under. rewrite <- length_map_to_list. apply List.filter_length_le.
Qed.

(** The directories below the child directories of [kd] are directories
    strictly below [kd], each below one child only. *)
Lemma children_dirs_under (kd : list string) (names : list string) (m : FS.meta) :
  ns0 !! kd = Some (FS.Dir m) ->
  NoDup names ->
  (list_sum (map (fun name => dirs_under ns0 (kd ++ [name])%list) names) + 1
   <= dirs_under ns0 kd)%nat.
Proof.
  intros Hkd Hnd. unfold dirs_under.
  set (L := map_to_list ns0).
  set (C := map (fun name => (kd ++ [name])%list) names).
  assert (HC : NoDup C).
  { apply NoDup_fmap_2; [|exact Hnd]. intros a b Hab.
    apply app_inv_head in Hab. congruence. }
  assert (Hsum : list_sum (map (fun name => length (List.filter (under (kd ++ [name])%list) L))
                             names)
                 = list_sum (map (fun c => length (List.filter (under c) L)) C)).
  { subst C. rewrite map_map. reflexivity. }
  rewrite Hsum, (count_swap (fun c kn => under c kn) C L).
  set (strictly := fun kn : list string * FS.node =>
                     under kd kn && negb (bool_decide (fst kn = kd))).
  assert (Hle : (list_sum (map (fun d => length (List.filter (fun c => under c d) C)) L)
                 <= length (List.filter strictly L))%nat).
  { rewrite filter_length_sum. apply list_sum_le. intros [key n] _.
    destruct (strictly (key, n)) eqn:Hs.
    - apply filter_at_most_one; [exact HC|].
      intros c1 c2 H1 H2 Hp1 Hp2.
      apply in_map_iff in H1 as (n1 & <- & _). apply in_map_iff in H2 as (n2 & <- & _).
      apply andb_true_iff in Hp1 as [Hp1 _]. apply andb_true_iff in Hp2 as [Hp2 _].
      apply bool_decide_eq_true_1 in Hp1, Hp2. cbn [fst] in Hp1, Hp2.
      destruct Hp1 as [t1 Ht1]. destruct Hp2 as [t2 Ht2].
      rewrite Ht1 in Ht2. rewrite <- !app_assoc in Ht2.
      apply app_inv_head in Ht2. cbn in Ht2. congruence.
    - assert (Hnone : List.filter (fun c => under c (key, n)) C = []).
      { destruct (List.filter _ C) as [|c F] eqn:HF; [reflexivity|]. exfalso.
        assert (Hin : In c (List.filter (fun c => under c (key, n)) C))
          by (rewrite HF; left; reflexivity).
        apply filter_In in Hin as [Hin Hp].
        apply in_map_iff in Hin as (name & <- & _).
        apply andb_true_iff in Hp as [Hp Hdir].
        apply bool_decide_eq_true_1 in Hp. cbn [fst snd] in Hp, Hdir.
        revert Hs. unfold strictly. cbn [fst snd]. rewrite Hdir.
        rewrite bool_decide_eq_true_2.
        2: { destruct Hp as [t Ht]. exists ([name] ++ t)%list.
             rewrite Ht, <- app_assoc. reflexivity. }
        rewrite bool_decide_eq_false_2; [discriminate|].
        intros ->. destruct Hp as [t Ht].
        apply (f_equal length) in Ht. rewrite !length_app in Ht. cbn in Ht. lia. }
      rewrite Hnone. cbn. lia. }
  assert (Hsplit : (length (List.filter strictly L) + 1
                    <= length (List.filter (under kd) L))%nat).
  { assert (Hin : In (kd, FS.Dir m) L).
    { apply list_elem_of_In. apply elem_of_map_to_list. exact Hkd. }
    clearbody L. clear -Hin.
    induction L as [|[key n] L IH]; [destruct Hin|].
    cbn [List.filter]. unfold strictly at 1. cbn [fst snd].
    destruct Hin as [[= -> ->] | Hin].
    - rewrite bool_decide_eq_true_2 by reflexivity. cbn [is_dir_node andb].
      rewrite bool_decide_eq_true_2 by reflexivity. cbn [negb length].
      pose proof (filter_length_mono strictly (under kd) L) as Hm.
      assert (length (List.filter strictly L) <= length (List.filter (under kd) L))%nat.
      { apply Hm. intros d _ Hd. unfold strictly in Hd.
        apply andb_true_iff in Hd as [Hd _]. exact Hd. }
      lia.
    - specialize (IH Hin).
      destruct (bool_decide (kd `prefix_of` key) && is_dir_node n);
        cbn [andb]; [|exact IH].
      destruct (negb (bool_decide (key = kd))); cbn [length]; lia. }
  lia.
Qed.

End DirsUnder.

(** *** The names a scan lists *)

Lemma nodup_map_filter {A B : Type} (g : A -> B) (P : A -> bool) (L : list A) :
  NoDup (map g L) -> NoDup (map g (List.filter P L)).
Proof.
  induction L as [|a L IH]; intros Hnd; [constructor|].
  cbn [map] in Hnd. apply NoDup_cons in Hnd as [Ha Hnd].
  cbn [List.filter]. destruct (P a); [|apply IH, Hnd].
  cbn [map]. apply NoDup_cons. split; [|apply IH, Hnd].
  intros Hin. apply Ha. apply list_elem_of_In in Hin. apply list_elem_of_In.
  apply in_map_iff in Hin as (x & Hx & Hin). apply filter_In in Hin as [Hin _].
  apply in_map_iff. eauto.
Qed.

Lemma children_keys (ns : gmap (list string) FS.node) (k : list string) :
  map (fun e : string * FS.node => (k ++ [fst e])%list) (Os.children ns k)
  = map fst (List.filter
               (fun kn : list string * FS.node =>
                  bool_decide (fst kn <> [] /\ removelast (fst kn) = k))
               (map_to_list ns)).
Proof.
  unfold Os.children. induction (map_to_list ns) as [|[key n] L IH]; [reflexivity|].
  cbn [omap list_omap List.filter fst snd].
  destruct (bool_decide (key <> [] /\ removelast key = k)) eqn:Hd.
  - apply bool_decide_eq_true_1 in Hd as [Hne <-].
    cbn [map fst]. rewrite <- (app_removelast_last "" Hne). f_equal. exact IH.
  - exact IH.
Qed.

Lemma children_names_nodup (ns : gmap (list string) FS.node) (k : list string) :
  NoDup (dir_names (Os.children ns k)).
Proof.
  unfold dir_names. apply nodup_map_filter.
  apply (NoDup_fmap_1 (fun name : string => (k ++ [name])%list)).
  change (NoDup (map (fun name : string => (k ++ [name])%list)
                   (map fst (Os.children ns k)))).
  rewrite map_map, children_keys.
  apply nodup_map_filter. apply NoDup_fst_map_to_list.
Qed.

Lemma dir_names_spec (ns : gmap (list string) FS.node) (k : list string) (name : string) :
  In name (dir_names (Os.children ns k)) ->
  exists m, ns !! (k ++ [name])%list = Some (FS.Dir m).
Proof.
  unfold dir_names. intros Hin. apply in_map_iff in Hin as ([name' n] & <- & Hin).
  apply filter_In in Hin as [Hin Hdir]. cbn [fst snd] in *.
  destruct n as [m|c m]; [|discriminate Hdir].
  exists m. apply children_spec, Hin.
Qed.

Section CleanupEnds.

Variable cutoff_time : Z.
Variable ns0 : gmap (list string) FS.node.
Variable cwd0 : list string.
Variable sk : list string.

Hypothesis Hnames : plain_names ns0.

Local Abbreviation cleaning := (cleaning cutoff_time ns0 cwd0 sk).
Local Abbreviation waiting := (waiting ns0 cwd0 sk).
Local Abbreviation left_of := (rounds_left ns0 cwd0).

(** What a scan leaves on the stack: the paths of the directories it
    met, after what was there. *)
Lemma scan_entries_stack (current_dir : string) (entries : list (string * FS.node)) :
  forall stack f cleaned_count,
    fst (fst (scan_entries cutoff_time current_dir entries stack f cleaned_count))
    = (stack ++ map (Py_text.os_path_join current_dir) (dir_names entries))%list.
Proof.
  induction entries as [|[name node] entries IH]; intros stack f cleaned_count;
    cbn [scan_entries].
  - cbn. rewrite app_nil_r. reflexivity.
  - destruct node as [m|content st].
    + rewrite IH, <- app_assoc. reflexivity.
    + assert (Hnames' : dir_names ((name, FS.File content st) :: entries)
                        = dir_names entries) by reflexivity.
      rewrite Hnames'.
      destruct (FS.st_atime st); [|apply IH].
      destruct (_ <? cutoff_time)%Z; [|apply IH].
      destruct (FS.unlink f _); apply IH.
Qed.

Lemma rounds_left_app (s1 s2 : list string) :
  left_of (s1 ++ s2)%list = (left_of s1 + left_of s2)%nat.
Proof.
  unfold rounds_left. rewrite map_app. induction (map _ s1) as [|a l IH]; [reflexivity|].
  cbn [app]. rewrite !list_sum_cons, IH. lia.
Qed.

Lemma rounds_left_positive (p : string) : (1 <= left_of [p])%nat.
Proof.
  unfold rounds_left. cbn [map]. rewrite list_sum_cons. cbn [list_sum fold_right].
  destruct (FS.locate _ _) as [k|]; [|lia].
  destruct (FS.is_dir ns0 k) eqn:Hdir; [|lia].
  destruct (is_dir_lookup _ _ Hdir) as [m Hm].
  pose proof (children_dirs_under ns0 k [] m Hm (NoDup_nil_2 (A:=string))) as H.
  cbn in H. lia.
Qed.

(** Every round brings the end nearer. *)
Lemma scan_round_progress (stack : list string) (f : FS.t) (cleaned_count : nat) :
  stack <> [] -> cleaning f -> waiting stack ->
  (left_of (fst (fst (scan_round cutoff_time stack f cleaned_count))) + 1
   <= left_of stack)%nat.
Proof.
  intros Hne Hf Hst.
  rewrite (app_removelast_last "" Hne) at 2. rewrite rounds_left_app.
  unfold scan_round.
  assert (Hlast : exists kd, FS.locate (FS.mk ns0 cwd0) (Path.of_str (List.last stack ""))
                             = Some kd).
  { rewrite (app_removelast_last "" Hne) in Hst.
    apply Forall_app in Hst as [_ Hl]. inversion Hl as [|? ? (kd & Hkd & _) _]. eauto. }
  destruct Hlast as [kd Hloc].
  unfold Os.scandir. rewrite (cleaning_locate _ _ _ _ _ _ Hf), Hloc.
  destruct (FS.is_dir (FS.nodes f) kd) eqn:Hdir.
  - rewrite scan_entries_stack, rounds_left_app.
    destruct Hf as (Hcwd & Hdirs & Hkept & _).
    rewrite Hdirs in Hdir. destruct (is_dir_lookup _ _ Hdir) as [m Hm].
    pose proof (children_dirs_under ns0 kd _ m Hm
                  (children_names_nodup (FS.nodes f) kd)) as Hbound.
    assert (Hpushed : left_of (map (Py_text.os_path_join (List.last stack ""))
                                 (dir_names (Os.children (FS.nodes f) kd)))
                      = list_sum (map (fun name => dirs_under ns0 (kd ++ [name])%list)
                                    (dir_names (Os.children (FS.nodes f) kd)))).
    { unfold rounds_left. rewrite map_map. f_equal. apply map_ext_in.
      intros name Hin. destruct (dir_names_spec _ _ _ Hin) as [m' Hm'].
      apply Hkept in Hm'.
      assert (Hplain : plain_segment name = true).
      { pose proof (Hnames _ _ Hm') as Hall. apply Forall_app in Hall as [_ Hall].
        inversion Hall; assumption. }
      rewrite (locate_join _ _ _ kd Hplain Hloc Hdir).
      unfold FS.is_dir. rewrite Hm'. reflexivity. }
    rewrite Hpushed.
    assert (Hw : left_of [List.last stack ""] = dirs_under ns0 kd).
    { unfold rounds_left. cbn [map]. rewrite list_sum_cons, Hloc, Hdir. cbn. lia. }
    rewrite Hw. lia.
  - cbn [fst]. pose proof (rounds_left_positive (List.last stack "")). lia.
Qed.

Lemma scan_loop_ends (fuel : nat) :
  forall stack f cleaned_count,
    cleaning f -> waiting stack -> (left_of stack <= fuel)%nat ->
    exists r, scan_loop cutoff_time fuel stack f cleaned_count = Some r.
Proof.
  induction fuel as [|fuel IH]; intros stack f cleaned_count Hf Hst Hfuel;
    destruct stack as [|p stack]; cbn [scan_loop]; eauto.
  - exfalso. change (p :: stack) with ([p] ++ stack)%list in Hfuel.
    rewrite rounds_left_app in Hfuel. pose proof (rounds_left_positive p). lia.
  - pose proof (scan_round_progress (p :: stack) f cleaned_count ltac:(discriminate)
                  Hf Hst) as Hprog.
    destruct (scan_round_safe cutoff_time ns0 cwd0 sk Hnames (p :: stack) f cleaned_count
                ltac:(discriminate) Hf Hst) as [Hf1 Hst1].
    destruct (scan_round cutoff_time (p :: stack) f cleaned_count) as [[stack1 f1] c1].
    cbn [fst snd] in *. apply IH; [assumption | assumption | lia].
Qed.

End CleanupEnds.

Lemma scan_loop_more_fuel (cutoff_time : Z) (fuel : nat) :
  forall stack f cleaned_count r,
    scan_loop cutoff_time fuel stack f cleaned_count = Some r ->
    forall fuel', (fuel <= fuel')%nat ->
                  scan_loop cutoff_time fuel' stack f cleaned_count = Some r.
Proof.
  induction fuel as [|fuel IH]; intros stack f cleaned_count r Hrun fuel' Hle;
    destruct stack as [|p stack]; cbn [scan_loop] in Hrun; try discriminate Hrun.
  - destruct fuel'; exact Hrun.
  - destruct fuel'; exact Hrun.
  - destruct fuel' as [|fuel']; [lia|]. cbn [scan_loop].
    destruct (scan_round cutoff_time (p :: stack) f cleaned_count) as [[stack1 f1] c1].
    apply (IH _ _ _ _ Hrun). lia.
Qed.

(** ** [clean_old_cache]: every old file goes *)

Lemma children_complete (ns : gmap (list string) FS.node) (k : list string)
    (name : string) (n : FS.node) :
  ns !! (k ++ [name])%list = Some n -> In (name, n) (Os.children ns k).
Proof.
  intros Hk. unfold Os.children. apply list_elem_of_In, list_elem_of_omap.
  exists ((k ++ [name])%list, n). split; [apply elem_of_map_to_list, Hk|].
  cbn [fst snd]. rewrite bool_decide_eq_true_2.
  - rewrite last_last. reflexivity.
  - split; [destruct k; discriminate | apply removelast_last].
Qed.

Lemma prefix_removelast (a k : list string) :
  a `prefix_of` k -> a <> k -> a `prefix_of` removelast k.
Proof.
  intros [t ->] Hne. destruct t as [|x t] using rev_ind.
  - rewrite app_nil_r in Hne. contradiction Hne; reflexivity.
  - rewrite app_assoc, removelast_last. apply prefix_app_r. reflexivity.
Qed.

Lemma prefix_step (a b : list string) :
  a `prefix_of` b -> a <> b -> exists x, (a ++ [x])%list `prefix_of` b.
Proof.
  intros [t ->] Hne. destruct t as [|x t].
  - rewrite app_nil_r in Hne. contradiction Hne; reflexivity.
  - exists x. exists t. rewrite <- app_assoc. reflexivity.
Qed.

(** In a rooted tree everything above a node is a directory. *)
Lemma rooted_above (ns : gmap (list string) FS.node) :
  rooted ns ->
  forall (len : nat) (k : list string) (n : FS.node) (a : list string),
    length k = len -> ns !! k = Some n -> a `prefix_of` k -> a <> k ->
    FS.is_dir ns a = true.
Proof.
  intros Hr. induction len as [|len IH]; intros k n a Hlen Hk Hpre Hne.
  - destruct k; [|discriminate Hlen]. destruct Hpre as [t Ht].
    symmetry in Ht. apply app_eq_nil in Ht as [-> _]. contradiction Hne; reflexivity.
  - assert (Hk0 : k <> []) by (intros ->; discriminate Hlen).
    pose proof (Hr _ _ Hk Hk0) as Hparent.
    destruct (decide (a = removelast k)) as [->|Hne']; [exact Hparent|].
    destruct (is_dir_lookup _ _ Hparent) as [m Hm].
    apply (IH (removelast k) (FS.Dir m) a); [| exact Hm | | exact Hne'].
    + rewrite (app_removelast_last "" Hk0) in Hlen.
      rewrite length_app in Hlen. cbn in Hlen. lia.
    + apply prefix_removelast; assumption.
Qed.

Section CleanupComplete.

Variable cutoff_time : Z.
Variable ns0 : gmap (list string) FS.node.
Variable cwd0 : list string.
Variable sk : list string.

Hypothesis Hnames : plain_names ns0.
Hypothesis Hrooted : rooted ns0.

Local Abbreviation cleaning := (cleaning cutoff_time ns0 cwd0 sk).
Local Abbreviation waiting := (waiting ns0 cwd0 sk).
Local Abbreviation expired := (expired_file cutoff_time sk).

Local Abbreviation pending := (duties cutoff_time ns0 cwd0 sk).

Lemma expired_key (k : list string) (n : FS.node) :
  expired k n -> k = (removelast k ++ [List.last k ""])%list.
Proof.
  intros (c & st & a & _ & _ & _ & _ & Hpre & Hne).
  apply app_removelast_last. intros ->.
  destruct Hpre as [t Ht]. symmetry in Ht. apply app_eq_nil in Ht as [-> _].
  contradiction Hne; reflexivity.
Qed.

Lemma scan_entries_complete (current_dir : string) (kd : list string)
    (entries : list (string * FS.node)) :
  FS.locate (FS.mk ns0 cwd0) (Path.of_str current_dir) = Some kd ->
  FS.is_dir ns0 kd = true ->
  sk `prefix_of` kd ->
  forall stack f cleaned_count,
    (forall name n, In (name, n) entries -> ns0 !! (kd ++ [name])%list = Some n) ->
    cleaning f ->
    pending kd entries stack f ->
    pending kd []
      (fst (fst (scan_entries cutoff_time current_dir entries stack f cleaned_count)))
      (snd (fst (scan_entries cutoff_time current_dir entries stack f cleaned_count))).
Proof.
  intros Hloc Hdir Hprefix.
  induction entries as [|[name node] entries IH]; intros stack f cleaned_count Hent Hf Hp;
    cbn [scan_entries]; [exact Hp|].
  assert (Hrest : forall name' n, In (name', n) entries ->
                                  ns0 !! (kd ++ [name'])%list = Some n)
    by (intros ? ? ?; apply Hent; right; assumption).
  pose proof (Hent name node (or_introl eq_refl)) as Hnode.
  assert (Hplain : plain_segment name = true).
  { pose proof (Hnames _ _ Hnode) as Hall. apply Forall_app in Hall as [_ Hall].
    inversion Hall; assumption. }
  assert (Hchild : FS.locate (FS.mk ns0 cwd0)
                     (Path.of_str (Py_text.os_path_join current_dir name))
                   = Some (kd ++ [name])%list)
    by (apply locate_join; assumption).
  (* after an entry the duties are the old ones, but for the entry
     itself, which must not be an old file that is still there *)
  assert (Hnext : forall f1 stack1,
             (forall k n, FS.nodes f1 !! k = Some n -> FS.nodes f !! k = Some n) ->
             (FS.nodes f1 !! (kd ++ [name])%list = Some node ->
              expired (kd ++ [name])%list node -> False) ->
             (forall p, In p stack -> In p stack1) ->
             (forall m, node = FS.Dir m ->
                        In (Py_text.os_path_join current_dir name) stack1) ->
             pending kd entries stack1 f1).
  { intros f1 stack1 Hsub Hnot Hstack Hpush k n Hk Hexp.
    destruct (Hp k n (Hsub _ _ Hk) Hexp)
      as [(p & kp & Hin & Hkp & Hpre) | [(Hparent & Hin) | (name' & m & Hin & Hpre)]].
    - left. exists p, kp. auto.
    - destruct Hin as [[= Hn <-] | Hin]; [|right; left; auto].
      exfalso. pose proof (expired_key _ _ Hexp) as Hkey.
      rewrite Hparent, <- Hn in Hkey. subst k. auto.
    - destruct Hin as [[= Hname Hdirnode] | Hin]; [|right; right; eauto].
      left. exists (Py_text.os_path_join current_dir name), (kd ++ [name])%list.
      split; [apply (Hpush m); exact Hdirnode|]. split; [exact Hchild|].
      rewrite Hname. exact Hpre. }
  assert (Hyoung : forall content st,
             node = FS.File content st ->
             (forall a, FS.st_atime st = Some a ->
                        ((if (a <? FS.st_mtime st)%Z then FS.st_mtime st else a)
                         <? cutoff_time)%Z = false) ->
             pending kd entries stack f).
  { intros content st -> Hcheck. apply Hnext; auto; [|discriminate].
    intros _ (c & st' & a & [= <- <-] & Hat & Ha & Hm & _).
    specialize (Hcheck a Hat). apply Z.ltb_ge in Hcheck.
    destruct (a <? FS.st_mtime st)%Z; lia. }
  destruct node as [m|content st].
  - apply IH; [exact Hrest | exact Hf |].
    apply Hnext; auto.
    + intros _ (c & st & a & Hd & _). discriminate Hd.
    + intros p Hin. apply in_or_app. auto.
    + intros m' _. apply in_or_app. right. left. reflexivity.
  - destruct (FS.st_atime st) as [atime|] eqn:Hat.
    2: { apply IH; [exact Hrest | exact Hf |].
         apply (Hyoung content st eq_refl). rewrite Hat. discriminate. }
    destruct (_ <? cutoff_time)%Z eqn:Hold.
    2: { apply IH; [exact Hrest | exact Hf |].
         apply (Hyoung content st eq_refl). rewrite Hat. intros a [= <-]. exact Hold. }
    pose proof (scan_entries_safe cutoff_time ns0 cwd0 sk Hnames current_dir kd
                  [(name, FS.File content st)] Hloc Hdir Hprefix [] f 0%nat) as Hsafe.
    cbn [scan_entries] in Hsafe. rewrite Hat, Hold in Hsafe.
    revert Hsafe. unfold FS.unlink. rewrite (cleaning_locate _ _ _ _ _ _ Hf), Hchild.
    destruct (FS.nodes f !! (kd ++ [name])%list) as [[m'|content' st']|] eqn:Hcur;
      intros Hsafe.
    + apply IH; [exact Hrest | exact Hf |].
      apply Hnext; auto; [|discriminate]. intros H. congruence.
    + destruct Hsafe as [Hf' _]; [| exact Hf | constructor |].
      { intros name' n [[= <- <-] | []]. exact Hnode. }
      cbn [fst snd] in Hf'.
      apply IH; [exact Hrest | exact Hf' |].
      apply Hnext; auto; [| | discriminate].
      * cbn [FS.nodes]. intros k n Hk.
        apply lookup_delete_Some in Hk as [_ Hk]. exact Hk.
      * cbn [FS.nodes]. rewrite lookup_delete_eq. discriminate.
    + apply IH; [exact Hrest | exact Hf |].
      apply Hnext; auto; [|discriminate]. intros H. congruence.
Qed.

Lemma scan_round_complete (stack : list string) (f : FS.t) (cleaned_count : nat) :
  stack <> [] -> cleaning f -> waiting stack ->
  pending [] [] stack f ->
  pending [] []
    (fst (fst (scan_round cutoff_time stack f cleaned_count)))
    (snd (fst (scan_round cutoff_time stack f cleaned_count))).
Proof.
  intros Hne Hf Hst Hp. unfold scan_round.
  assert (Hpop : exists kd, FS.locate (FS.mk ns0 cwd0) (Path.of_str (List.last stack ""))
                            = Some kd /\ sk `prefix_of` kd).
  { rewrite (app_removelast_last "" Hne) in Hst.
    apply Forall_app in Hst as [_ Hlast]. inversion Hlast; assumption. }
  destruct Hpop as (kd & Hloc & Hprefix).
  (* what was to be met below the popped path is now to be met among
     the entries of its directory *)
  assert (Hturn : forall entries,
             (FS.is_dir (FS.nodes f) kd = true -> entries = Os.children (FS.nodes f) kd) ->
             (FS.is_dir (FS.nodes f) kd = false -> entries = []) ->
             pending kd entries (removelast stack) f).
  { intros entries Hyes Hno k n Hk Hexp.
    destruct (Hp k n Hk Hexp) as [(p & kp & Hin & Hkp & Hpre) | [(_ & []) | (? & ? & [] & _)]].
    rewrite (app_removelast_last "" Hne) in Hin.
    apply in_app_or in Hin as [Hin | [<- | []]]; [left; eauto|].
    rewrite Hloc in Hkp. injection Hkp as <-.
    destruct Hf as (_ & Hdirs & Hkept & _).
    pose proof (Hkept _ _ Hk) as Hk0.
    pose proof (expired_key _ _ Hexp) as Hkey.
    assert (Hk_ne : k <> []) by (intros ->; destruct (removelast []); discriminate Hkey).
    assert (Hparent : FS.is_dir ns0 (removelast k) = true) by (apply (Hrooted _ _ Hk0 Hk_ne)).
    destruct (decide (kd = removelast k)) as [->|Hstrict].
    - right. left. split; [reflexivity|].
      rewrite Hyes by (rewrite Hdirs; exact Hparent).
      apply children_complete. rewrite <- Hkey. exact Hk.
    - destruct (prefix_step _ _ Hpre Hstrict) as [x Hx].
      assert (Hxdir : FS.is_dir ns0 (kd ++ [x])%list = true).
      { destruct (decide ((kd ++ [x])%list = removelast k)) as [->|Hne']; [exact Hparent|].
        destruct (is_dir_lookup _ _ Hparent) as [m Hm].
        apply (rooted_above ns0 Hrooted (length (removelast k)) (removelast k) (FS.Dir m));
          auto. }
      assert (Hkd_dir : FS.is_dir ns0 kd = true).
      { destruct (is_dir_lookup _ _ Hxdir) as [m Hm].
        pose proof (Hrooted _ _ Hm ltac:(destruct kd; discriminate)) as H.
        rewrite removelast_last in H. exact H. }
      rewrite <- Hdirs in Hxdir. destruct (is_dir_lookup _ _ Hxdir) as [m Hm].
      right. right. exists x, m. split; [|exact Hx].
      rewrite Hyes by (rewrite Hdirs; exact Hkd_dir).
      apply children_complete, Hm. }
  unfold Os.scandir. rewrite (cleaning_locate _ _ _ _ _ _ Hf), Hloc.
  destruct (FS.is_dir (FS.nodes f) kd) eqn:Hdir.
  - assert (Hdir0 : FS.is_dir ns0 kd = true)
      by (destruct Hf as (_ & Hdirs & _); rewrite <- Hdirs; exact Hdir).
    pose proof (scan_entries_complete (List.last stack "") kd
                  (Os.children (FS.nodes f) kd) Hloc Hdir0 Hprefix
                  (removelast stack) f cleaned_count) as Hdone.
    intros k n Hk Hexp.
    destruct (Hdone ltac:(intros name n' Hin; destruct Hf as (_ & _ & Hkept & _);
                          apply Hkept, children_spec, Hin)
                    Hf (Hturn _ ltac:(auto) ltac:(discriminate)) k n Hk Hexp)
      as [H | [(_ & []) | (? & ? & [] & _)]].
    left. exact H.
  - cbn [fst snd]. intros k n Hk Hexp.
    destruct (Hturn [] ltac:(discriminate) ltac:(auto) k n Hk Hexp)
      as [H | [(_ & []) | (? & ? & [] & _)]].
    left. exact H.
Qed.

Lemma scan_loop_complete (fuel : nat) :
  forall stack f cleaned_count f' cleaned_count',
    cleaning f -> waiting stack -> pending [] [] stack f ->
    scan_loop cutoff_time fuel stack f cleaned_count = Some (f', cleaned_count') ->
    forall k n, FS.nodes f' !! k = Some n -> ~ expired k n.
Proof.
  induction fuel as [|fuel IH]; intros stack f cleaned_count f' cleaned_count' Hf Hst Hp;
    destruct stack as [|p stack]; cbn [scan_loop]; try discriminate.
  - intros [= <- <-] k n Hk Hexp.
    destruct (Hp k n Hk Hexp) as [(? & ? & [] & _) | [(_ & []) | (? & ? & [] & _)]].
  - intros [= <- <-] k n Hk Hexp.
    destruct (Hp k n Hk Hexp) as [(? & ? & [] & _) | [(_ & []) | (? & ? & [] & _)]].
  - destruct (scan_round_safe cutoff_time ns0 cwd0 sk Hnames (p :: stack) f cleaned_count
                ltac:(discriminate) Hf Hst) as [Hf1 Hst1].
    pose proof (scan_round_complete (p :: stack) f cleaned_count ltac:(discriminate)
                  Hf Hst Hp) as Hp1.
    destruct (scan_round cutoff_time (p :: stack) f cleaned_count) as [[stack1 f1] c1].
    cbn [fst snd] in *. apply IH; assumption.
Qed.

End CleanupComplete.

(** X26: the cleanup ends, and it takes every old file.  In a tree of
    ordinary names where every node sits in a directory, with retention
    switched on, the storage path in the normalised form [load_config]
    stores and a usable [cache_days], [clean_old_cache] is done after at
    most one round for every node of the tree plus one.  What it leaves
    is exactly the nodes of before that are not regular files below the
    storage directory with access and modification times both before the
    cutoff. *)
Theorem clean_old_cache_complete
    (error_text : value -> string) (CONFIG : gmap string value) (now : Z) (w : World)
    (s : string) (sk : list string) (cutoff_time : Z) :
  plain_names (FS.nodes (fs w)) ->
  rooted (FS.nodes (fs w)) ->
  truthy (get_config CONFIG "cache_retention_enabled" (VBool true)) = true ->
  get_config CONFIG "storage_path_resolved" VNone = VStr s ->
  Path.str (Path.of_str s) = s ->
  FS.locate (fs w) (Path.of_str s) = Some sk ->
  cutoff_of now (get_config CONFIG "cache_days" (VInt 7)) = Some cutoff_time ->
  exists w',
    (forall fuel, (size (FS.nodes (fs w)) < fuel)%nat ->
                  clean_old_cache error_text CONFIG now fuel w = Some w') /\
    (forall k n, FS.nodes (fs w') !! k = Some n <->
                 FS.nodes (fs w) !! k = Some n /\ ~ expired_file cutoff_time sk k n).
Proof.
  intros Hnames Hrooted Hret Hcfg Hnorm Hloc Hcut.
  assert (Hs : String.eqb s "" = false).
  { destruct (String.eqb_spec s "") as [->|]; [|reflexivity].
    vm_compute in Hnorm. discriminate Hnorm. }
  assert (Hloc' : FS.locate (FS.mk (FS.nodes (fs w)) (FS.cwd (fs w))) (Path.of_str s)
                  = Some sk) by (destruct (fs w); exact Hloc).
  assert (Hstart : cleaning cutoff_time (FS.nodes (fs w)) (FS.cwd (fs w)) sk (fs w)).
  { split; [reflexivity|]. split; [reflexivity|]. split; [auto|].
    intros k n H1 H2. congruence. }
  assert (Hstack : waiting (FS.nodes (fs w)) (FS.cwd (fs w)) sk [s]).
  { constructor; [|constructor]. exists sk. split; [exact Hloc' | reflexivity]. }
  assert (Hduties : duties cutoff_time (FS.nodes (fs w)) (FS.cwd (fs w)) sk [] [] [s] (fs w)).
  { intros k n Hk (c & st & a & _ & _ & _ & _ & Hpre & Hne).
    left. exists s, sk. split; [left; reflexivity|]. split; [exact Hloc'|].
    apply prefix_removelast; [exact Hpre | congruence]. }
  assert (Hle : (rounds_left (FS.nodes (fs w)) (FS.cwd (fs w)) [s]
                 <= S (size (FS.nodes (fs w))))%nat).
  { unfold rounds_left. cbn [map]. rewrite list_sum_cons, Hloc'. cbn [list_sum fold_right].
    pose proof (dirs_under_bound (FS.nodes (fs w)) sk).
    destruct (FS.is_dir (FS.nodes (fs w)) sk); lia. }
  destruct (scan_loop_ends cutoff_time _ _ sk Hnames _ [s] (fs w) 0%nat Hstart Hstack Hle)
    as [[f' count] Hrun].
  exists (if (0 <? count)%nat
          then add_log ("Cleanup: Removed " ++ pretty count ++ " old files") "INFO"
                 (set_fs w f')
          else set_fs w f').
  split.
  - intros fuel Hfuel. unfold clean_old_cache. rewrite Hret, Hcfg. cbn [negb truthy].
    rewrite Hs, Hcut, Hnorm. cbn [negb].
    rewrite (scan_loop_more_fuel _ _ _ _ _ _ Hrun fuel) by lia. reflexivity.
  - assert (Hfs : fs (if (0 <? count)%nat
                      then add_log ("Cleanup: Removed " ++ pretty count ++ " old files")
                             "INFO" (set_fs w f')
                      else set_fs w f') = f')
      by (destruct (0 <? count)%nat; reflexivity).
    rewrite Hfs.
    destruct (scan_loop_safe cutoff_time _ _ sk Hnames _ _ _ _ _ _ Hstart Hstack Hrun)
      as (_ & _ & Hkept & Hgone).
    pose proof (scan_loop_complete cutoff_time _ _ sk Hnames Hrooted _ _ _ _ _ _
                  Hstart Hstack Hduties Hrun) as Hdone.
    intros k n. split.
    + intros Hk. split; [apply Hkept, Hk | apply (Hdone _ _ Hk)].
    + intros [Hk Hyoung].
      destruct (FS.nodes f' !! k) as [n'|] eqn:Hk'.
      * rewrite (Hkept _ _ Hk') in Hk. exact Hk.
      * contradiction Hyoung. apply Hgone; assumption.
Qed.

Lemma plain_names_decided (ns : gmap (list string) FS.node) :
  map_Forall (fun k _ => forallb plain_segment k = true) ns -> plain_names ns.
Proof.
  intros H k n Hk. apply Forall_forall. intros x Hx.
  pose proof (proj1 (forallb_forall _ _) (map_Forall_lookup_1 _ _ _ _ H Hk)) as Hall.
  apply Hall, list_elem_of_In, Hx.
Qed.

Lemma rooted_decided (ns : gmap (list string) FS.node) :
  map_Forall (fun k _ => match k with
                         | [] => true
                         | _ :: _ => FS.is_dir ns (removelast k)
                         end = true) ns ->
  rooted ns.
Proof.
  intros H k n Hk Hne. pose proof (map_Forall_lookup_1 _ _ _ _ H Hk) as Hd.
  destruct k; [contradiction Hne; reflexivity | exact Hd].
Qed.

Lemma clean_old_cache_safe_witness :
  exists w',
    CleanupScenario.clean 3 = Some w' /\
    (forall k n, FS.nodes (fs w') !! k = Some n ->
                 FS.nodes CleanupScenario.tree !! k = Some n) /\
    (forall k, FS.is_dir (FS.nodes (fs w')) k = FS.is_dir (FS.nodes CleanupScenario.tree) k).
Proof.
  assert (Hnames : plain_names (FS.nodes (fs CleanupScenario.world))).
  { apply plain_names_decided. refine (bool_decide_unpack _ _). vm_compute. reflexivity. }
  assert (Hcfg : get_config Scenario.CONFIG "storage_path_resolved" VNone
                 = VStr "/srv/storage") by (vm_compute; reflexivity).
  assert (Hnorm : Path.str (Path.of_str "/srv/storage") = "/srv/storage")
    by (vm_compute; reflexivity).
  destruct (CleanupScenario.clean 3) as [w'|] eqn:E.
  - exists w'. split; [reflexivity|].
    destruct (clean_old_cache_safe CleanupScenario.error_text Scenario.CONFIG
                CleanupScenario.now 3 CleanupScenario.world w' "/srv/storage"
                Hnames Hcfg Hnorm E) as (Hkept & _ & Hdirs & _).
    split; [exact Hkept | exact Hdirs].
  - exfalso.
    assert (H : match CleanupScenario.clean 3 with
                | Some _ => true
                | None => false
                end = true) by (vm_compute; reflexivity).
    rewrite E in H. discriminate H.
Defined.

Lemma clean_old_cache_complete_witness :
  exists w',
    CleanupScenario.clean 9 = Some w' /\
    FS.nodes (fs w') !! ["srv"; "storage"; "debian"; "old.deb"] = None /\
    FS.nodes (fs w') !! ["srv"; "storage"; "debian"; "rewritten.deb"]
    = Some (FS.File "new" CleanupScenario.rewritten) /\
    FS.nodes (fs w') !! ["srv"; "secret.txt"]
    = Some (FS.File "top secret" CleanupScenario.old).
Proof.
  assert (Hnames : plain_names (FS.nodes (fs CleanupScenario.world))).
  { apply plain_names_decided. refine (bool_decide_unpack _ _). vm_compute. reflexivity. }
  assert (Hrooted : rooted (FS.nodes (fs CleanupScenario.world))).
  { apply rooted_decided. refine (bool_decide_unpack _ _). vm_compute. reflexivity. }
  assert (Hret : truthy (get_config Scenario.CONFIG "cache_retention_enabled" (VBool true))
                 = true) by (vm_compute; reflexivity).
  assert (Hcfg : get_config Scenario.CONFIG "storage_path_resolved" VNone
                 = VStr "/srv/storage") by (vm_compute; reflexivity).
  assert (Hnorm : Path.str (Path.of_str "/srv/storage") = "/srv/storage")
    by (vm_compute; reflexivity).
  assert (Hloc : FS.locate (fs CleanupScenario.world) (Path.of_str "/srv/storage")
                 = Some ["srv"; "storage"]) by (vm_compute; reflexivity).
  assert (Hcut : cutoff_of CleanupScenario.now (get_config Scenario.CONFIG "cache_days" (VInt 7))
                 = Some CleanupScenario.day) by (vm_compute; reflexivity).
  assert (Hsize : (size (FS.nodes (fs CleanupScenario.world)) < 9)%nat).
  { apply Nat.ltb_lt. vm_compute. reflexivity. }
  destruct (clean_old_cache_complete CleanupScenario.error_text Scenario.CONFIG
              CleanupScenario.now CleanupScenario.world "/srv/storage" ["srv"; "storage"]
              CleanupScenario.day Hnames Hrooted Hret Hcfg Hnorm Hloc Hcut)
    as (w' & Hrun & Hleft).
  exists w'. split; [exact (Hrun 9%nat Hsize)|].
  split; [|split].
  - destruct (FS.nodes (fs w') !! ["srv"; "storage"; "debian"; "old.deb"]) as [n|] eqn:Hk;
      [|reflexivity].
    exfalso. apply Hleft in Hk as [Hk Hyoung]. apply Hyoung.
    assert (Hold : FS.nodes (fs CleanupScenario.world)
                     !! ["srv"; "storage"; "debian"; "old.deb"]
                   = Some (FS.File "old" CleanupScenario.old)) by (vm_compute; reflexivity).
    rewrite Hold in Hk. injection Hk as <-.
    exists "old", CleanupScenario.old, 100%Z.
    split; [reflexivity|]. split; [reflexivity|].
    split; [vm_compute; reflexivity|]. split; [vm_compute; reflexivity|].
    split; [exists ["debian"; "old.deb"]; reflexivity | discriminate].
  - apply Hleft. split; [vm_compute; reflexivity|].
    intros (c & st & a & Hn & _ & _ & Hm & _). injection Hn as _ <-.
    vm_compute in Hm. discriminate Hm.
  - apply Hleft. split; [vm_compute; reflexivity|].
    intros (c & st & a & _ & _ & _ & _ & [t Ht] & _). discriminate Ht.
Defined.

(** ** [update_file_stats]: the counts are exact *)

(** *** Sums *)

Lemma list_sum_zero {A : Type} (g : A -> nat) (C : list A) :
  (forall c, In c C -> g c = 0%nat) -> list_sum (map g C) = 0%nat.
Proof.
  induction C as [|c C IH]; intros H; [reflexivity|].
  rewrite map_cons, list_sum_cons, (H c (or_introl eq_refl)), IH; [reflexivity|].
  intros c' Hc'. apply H. right. exact Hc'.
Qed.

Lemma list_sum_single {A : Type} (g : A -> nat) (C : list A) (x : A) :
  NoDup C -> In x C -> (forall c, In c C -> c <> x -> g c = 0%nat) ->
  list_sum (map g C) = g x.
Proof.
  induction 1 as [|c C Hc Hnd IH]; intros Hin Hzero; [destruct Hin|].
  rewrite map_cons, list_sum_cons. destruct Hin as [-> | Hin].
  - rewrite list_sum_zero; [lia|].
    intros c' Hc'. apply Hzero; [right; exact Hc'|].
    intros ->. apply Hc, list_elem_of_In, Hc'.
  - rewrite IH; [| exact Hin | intros c' Hc'; apply Hzero; right; exact Hc'].
    rewrite (Hzero c (or_introl eq_refl)); [lia|].
    intros ->. apply Hc, list_elem_of_In, Hin.
Qed.

Lemma list_sum_plus {A : Type} (g h : A -> nat) (L : list A) :
  list_sum (map (fun d => (g d + h d)%nat) L)
  = (list_sum (map g L) + list_sum (map h L))%nat.
Proof.
  induction L as [|d L IH]; [reflexivity|].
  rewrite !map_cons, !list_sum_cons, IH. lia.
Qed.

Lemma list_sum_swap {A B : Type} (F : A -> B -> nat) (C : list A) (L : list B) :
  list_sum (map (fun c => list_sum (map (F c) L)) C)
  = list_sum (map (fun d => list_sum (map (fun c => F c d) C)) L).
Proof.
  induction C as [|c C IH].
  - cbn [map]. symmetry. apply list_sum_zero. reflexivity.
  - rewrite map_cons, list_sum_cons, IH, <- list_sum_plus.
    reflexivity.
Qed.

Lemma list_sum_ext {A : Type} (g h : A -> nat) (L : list A) :
  (forall d, In d L -> g d = h d) -> list_sum (map g L) = list_sum (map h L).
Proof. intros H. f_equal. apply map_ext_in, H. Qed.

(** *** What one scan adds *)

Lemma count_items_result (current_dir : string) (items : list (string * FS.node)) :
  forall stack d_files d_size,
    count_items current_dir items stack d_files d_size
    = ((stack ++ map (Py_text.os_path_join current_dir) (dir_names items))%list,
       (d_files + list_sum (map (fun e => file_weight (fun _ => 1%nat) (snd e)) items))%nat,
       (d_size + list_sum (map (fun e => file_weight String.length (snd e)) items))%nat).
Proof.
  induction items as [|[name [m|content m]] items IH]; intros stack d_files d_size;
    cbn [count_items].
  - cbn [dir_names List.filter map list_sum fold_right].
    rewrite app_nil_r, !Nat.add_0_r. reflexivity.
  - rewrite IH. unfold dir_names. cbn [List.filter snd is_dir_node map fst file_weight].
    rewrite <- app_assoc, !list_sum_cons. reflexivity.
  - rewrite IH. unfold dir_names. cbn [List.filter snd is_dir_node map fst file_weight].
    rewrite !list_sum_cons, !Nat.add_assoc. reflexivity.
Qed.

Lemma children_weight (g : string -> nat) (ns : gmap (list string) FS.node)
    (k : list string) :
  list_sum (map (fun e : string * FS.node => file_weight g (snd e)) (Os.children ns k))
  = list_sum (map (fun kn : list string * FS.node =>
                     if bool_decide (fst kn <> [] /\ removelast (fst kn) = k)
                     then file_weight g (snd kn) else 0%nat)
                (map_to_list ns)).
Proof.
  unfold Os.children. induction (map_to_list ns) as [|[key n] L IH]; [reflexivity|].
  cbn [omap list_omap fst snd]. rewrite map_cons, list_sum_cons. cbn [fst snd].
  destruct (bool_decide (key <> [] /\ removelast key = k)).
  - rewrite map_cons, list_sum_cons. cbn [snd]. f_equal. exact IH.
  - exact IH.
Qed.

Lemma dir_names_complete (ns : gmap (list string) FS.node) (k : list string)
    (name : string) (m : FS.meta) :
  ns !! (k ++ [name])%list = Some (FS.Dir m) -> In name (dir_names (Os.children ns k)).
Proof.
  intros Hk. unfold dir_names. apply in_map_iff. exists (name, FS.Dir m).
  split; [reflexivity|]. apply filter_In. split; [|reflexivity].
  apply children_complete, Hk.
Qed.

(** What lies below a directory lies in it or below one of its
    directories. *)
Lemma weight_under_split (g : string -> nat) (ns : gmap (list string) FS.node)
    (kd : list string) (m : FS.meta) :
  rooted ns ->
  ns !! kd = Some (FS.Dir m) ->
  weight_under g ns kd
  = (list_sum (map (fun e : string * FS.node => file_weight g (snd e)) (Os.children ns kd))
     + list_sum (map (fun name => weight_under g ns (kd ++ [name])%list)
                   (dir_names (Os.children ns kd))))%nat.
Proof.
  intros Hrooted Hkd. rewrite children_weight. unfold weight_under.
  rewrite (list_sum_swap
             (fun name (kn : list string * FS.node) =>
                if bool_decide ((kd ++ [name])%list `prefix_of` fst kn)
                then file_weight g (snd kn) else 0%nat)).
  rewrite <- list_sum_plus. apply list_sum_ext. intros [key n] Hin.
  apply list_elem_of_In, elem_of_map_to_list in Hin. cbn [fst snd].
  set (D := dir_names (Os.children ns kd)).
  destruct n as [m'|content m'].
  { cbn [file_weight]. rewrite list_sum_zero by (intros c _; destruct (bool_decide _); reflexivity).
    destruct (bool_decide _), (bool_decide _); reflexivity. }
  cbn [file_weight].
  destruct (decide (kd `prefix_of` key)) as [Hpre|Hpre].
  2: { rewrite (bool_decide_eq_false_2 _ Hpre).
       rewrite bool_decide_eq_false_2.
       2: { intros [Hne Hparent]. apply Hpre. exists [List.last key ""].
            rewrite <- Hparent. apply app_removelast_last, Hne. }
       rewrite list_sum_zero; [reflexivity|].
       intros name _. rewrite bool_decide_eq_false_2; [reflexivity|].
       intros [t Ht]. apply Hpre. exists ([name] ++ t)%list.
       rewrite Ht, <- app_assoc. reflexivity. }
  rewrite (bool_decide_eq_true_2 _ Hpre).
  assert (Hne : kd <> key) by (intros ->; congruence).
  destruct (prefix_step _ _ Hpre Hne) as [x Hx].
  assert (Hkey : key <> []).
  { intros ->. destruct Hx as [t Ht]. destruct kd; discriminate Ht. }
  destruct (decide ((kd ++ [x])%list = key)) as [Heq|Hdeep].
  - rewrite bool_decide_eq_true_2
      by (split; [exact Hkey | rewrite <- Heq; apply removelast_last]).
    rewrite list_sum_zero; [lia|].
    intros name Hname. rewrite bool_decide_eq_false_2; [reflexivity|].
    intros [t Ht]. destruct (dir_names_spec _ _ _ Hname) as [m2 Hm2].
    rewrite <- Heq in Ht.
    assert (Hlen : t = []).
    { apply (f_equal length) in Ht. rewrite !length_app in Ht. cbn in Ht.
      destruct t; [reflexivity | cbn in Ht; lia]. }
    subst t. rewrite app_nil_r in Ht. rewrite <- Ht, Heq in Hm2. congruence.
  - rewrite bool_decide_eq_false_2.
    2: { intros [_ Hparent]. apply Hdeep. destruct Hx as [t Ht].
         rewrite Ht in Hparent. destruct t as [|y t] using rev_ind.
         - rewrite app_nil_r in Ht. symmetry. exact Ht.
         - rewrite app_assoc, removelast_last in Hparent.
           apply (f_equal length) in Hparent. rewrite !length_app in Hparent.
           cbn in Hparent. lia. }
    assert (Hxdir : FS.is_dir ns (kd ++ [x])%list = true)
      by (apply (rooted_above ns Hrooted (length key) key (FS.File content m'));
          auto).
    destruct (is_dir_lookup _ _ Hxdir) as [mx Hmx].
    rewrite (list_sum_single _ D x).
    + rewrite (bool_decide_eq_true_2 _ Hx). reflexivity.
    + apply children_names_nodup.
    + apply (dir_names_complete _ _ _ mx), Hmx.
    + intros name _ Hname. rewrite bool_decide_eq_false_2; [reflexivity|].
      intros [t Ht]. destruct Hx as [t' Ht']. rewrite Ht' in Ht.
      rewrite <- !app_assoc in Ht. apply app_inv_head in Ht. cbn in Ht. congruence.
Qed.

(** *** The inner loop *)

Section CountLoop.

Variable ns0 : gmap (list string) FS.node.
Variable cwd0 : list string.

Hypothesis Hnames : plain_names ns0.
Hypothesis Hrooted : rooted ns0.

Local Abbreviation f0 := (FS.mk ns0 cwd0).
Local Abbreviation left_of := (rounds_left ns0 cwd0).

Lemma weight_waiting_app (g : string -> nat) (s1 s2 : list string) :
  weight_waiting g ns0 cwd0 (s1 ++ s2)%list
  = (weight_waiting g ns0 cwd0 s1 + weight_waiting g ns0 cwd0 s2)%nat.
Proof.
  unfold weight_waiting. rewrite map_app.
  induction (map _ s1) as [|a l IH]; [reflexivity|].
  cbn [app]. rewrite !list_sum_cons, IH. lia.
Qed.

(** The paths a scan of the directory at [kd] pushes name its
    directories. *)
Lemma pushed_located (p : string) (kd : list string) (name : string) :
  FS.locate f0 (Path.of_str p) = Some kd ->
  FS.is_dir ns0 kd = true ->
  In name (dir_names (Os.children ns0 kd)) ->
  FS.locate f0 (Path.of_str (Py_text.os_path_join p name)) = Some (kd ++ [name])%list /\
  FS.is_dir ns0 (kd ++ [name])%list = true.
Proof.
  intros Hloc Hdir Hin. destruct (dir_names_spec _ _ _ Hin) as [m Hm].
  assert (Hplain : plain_segment name = true).
  { pose proof (Hnames _ _ Hm) as Hall. apply Forall_app in Hall as [_ Hall].
    inversion Hall; assumption. }
  split; [apply (locate_join f0); assumption|].
  unfold FS.is_dir. rewrite Hm. reflexivity.
Qed.

Lemma count_round_result (stack : list string) (d_files d_size : nat) :
  stack <> [] -> dirs_waiting ns0 cwd0 stack ->
  exists stack',
    count_round f0 stack d_files d_size
    = (stack',
       (d_files + weight_waiting (fun _ => 1%nat) ns0 cwd0 stack
        - weight_waiting (fun _ => 1%nat) ns0 cwd0 stack')%nat,
       (d_size + weight_waiting String.length ns0 cwd0 stack
        - weight_waiting String.length ns0 cwd0 stack')%nat) /\
    dirs_waiting ns0 cwd0 stack' /\
    (left_of stack' + 1 <= left_of stack)%nat /\
    (forall g, weight_waiting g ns0 cwd0 stack' <= weight_waiting g ns0 cwd0 stack)%nat.
Proof.
  intros Hne Hst.
  assert (Hpop : dirs_waiting ns0 cwd0 (removelast stack) /\
                 exists kd, FS.locate f0 (Path.of_str (List.last stack "")) = Some kd /\
                            FS.is_dir ns0 kd = true).
  { unfold dirs_waiting in *. rewrite (app_removelast_last "" Hne) in Hst at 1.
    apply Forall_app in Hst as [Hinit Hlast]. split; [exact Hinit|].
    inversion Hlast; assumption. }
  destruct Hpop as (Hinit & kd & Hloc & Hdir).
  destruct (is_dir_lookup _ _ Hdir) as [m Hm].
  set (names := dir_names (Os.children ns0 kd)).
  set (pushed := map (Py_text.os_path_join (List.last stack "")) names).
  assert (Hpushed : forall g,
             weight_waiting g ns0 cwd0 pushed
             = list_sum (map (fun name => weight_under g ns0 (kd ++ [name])%list) names)).
  { intros g. unfold weight_waiting, pushed. rewrite map_map. apply list_sum_ext.
    intros name Hin. destruct (pushed_located _ _ _ Hloc Hdir Hin) as [-> _].
    reflexivity. }
  assert (Hlast : forall g,
             weight_waiting g ns0 cwd0 [List.last stack ""]
             = (list_sum (map (fun e : string * FS.node => file_weight g (snd e))
                            (Os.children ns0 kd))
                + weight_waiting g ns0 cwd0 pushed)%nat).
  { intros g. rewrite Hpushed. unfold weight_waiting. cbn [map].
    rewrite list_sum_cons, Hloc. cbn [list_sum fold_right]. rewrite Nat.add_0_r.
    apply (weight_under_split g ns0 kd m Hrooted Hm). }
  assert (Hstack : forall g,
             weight_waiting g ns0 cwd0 stack
             = (weight_waiting g ns0 cwd0 (removelast stack)
                + (list_sum (map (fun e : string * FS.node => file_weight g (snd e))
                               (Os.children ns0 kd))
                   + weight_waiting g ns0 cwd0 pushed))%nat).
  { intros g. rewrite (app_removelast_last "" Hne) at 1.
    rewrite weight_waiting_app, Hlast. reflexivity. }
  exists (removelast stack ++ pushed)%list.
  split; [|split; [|split]].
  - unfold count_round, Os.scandir. rewrite Hloc. cbn [FS.nodes]. rewrite Hdir.
    rewrite count_items_result. fold names. fold pushed.
    rewrite !weight_waiting_app, !Hstack. f_equal; [f_equal|]; lia.
  - apply Forall_app. split; [exact Hinit|].
    apply Forall_forall. intros p Hp. apply list_elem_of_In in Hp.
    apply in_map_iff in Hp as (name & <- & Hin).
    exists (kd ++ [name])%list. apply pushed_located; assumption.
  - rewrite (app_removelast_last "" Hne) at 2. rewrite !rounds_left_app.
    pose proof (children_dirs_under ns0 kd _ m Hm (children_names_nodup ns0 kd)) as Hb.
    assert (Hp : left_of pushed
                 = list_sum (map (fun name => dirs_under ns0 (kd ++ [name])%list) names)).
    { unfold rounds_left, pushed. rewrite map_map. apply list_sum_ext.
      intros name Hin. destruct (pushed_located _ _ _ Hloc Hdir Hin) as [-> ->].
      reflexivity. }
    assert (Hw : left_of [List.last stack ""] = dirs_under ns0 kd).
    { unfold rounds_left. cbn [map]. rewrite list_sum_cons, Hloc, Hdir. cbn. lia. }
    fold names in Hb. rewrite Hp, Hw. lia.
  - intros g. rewrite weight_waiting_app, Hstack. lia.
Qed.

Lemma count_loop_result (fuel : nat) :
  forall stack d_files d_size,
    dirs_waiting ns0 cwd0 stack -> (left_of stack <= fuel)%nat ->
    count_loop f0 fuel stack d_files d_size
    = Some ((d_files + weight_waiting (fun _ => 1%nat) ns0 cwd0 stack)%nat,
            (d_size + weight_waiting String.length ns0 cwd0 stack)%nat).
Proof.
  induction fuel as [|fuel IH]; intros stack d_files d_size Hst Hfuel;
    destruct stack as [|p stack]; cbn [count_loop].
  - cbn. rewrite !Nat.add_0_r. reflexivity.
  - exfalso. change (p :: stack) with ([p] ++ stack)%list in Hfuel.
    rewrite rounds_left_app in Hfuel. pose proof (rounds_left_positive ns0 cwd0 p). lia.
  - cbn. rewrite !Nat.add_0_r. reflexivity.
  - destruct (count_round_result (p :: stack) d_files d_size ltac:(discriminate) Hst)
      as (stack' & -> & Hst' & Hless & Hw).
    rewrite IH; [| exact Hst' | lia].
    pose proof (Hw (fun _ => 1%nat)). pose proof (Hw String.length).
    f_equal. f_equal; lia.
Qed.

End CountLoop.

(** *** The loop over the distributions *)

Lemma dict_set_fresh {V : Type} (d : list (string * V)) (key : string) (v : V) :
  ~ In key (map fst d) -> dict_set d key v = (d ++ [(key, v)])%list.
Proof.
  induction d as [|[k v0] d IH]; intros Hfresh; [reflexivity|].
  cbn [dict_set app]. destruct (String.eqb_spec k key) as [->|Hne].
  - contradiction Hfresh. left. reflexivity.
  - rewrite IH; [reflexivity|]. intros Hin. apply Hfresh. right. exact Hin.
Qed.

Lemma children_all_names_nodup (ns : gmap (list string) FS.node) (k : list string) :
  NoDup (map fst (Os.children ns k)).
Proof.
  apply (NoDup_fmap_1 (fun name : string => (k ++ [name])%list)).
  change (NoDup (map (fun name : string => (k ++ [name])%list)
                   (map fst (Os.children ns k)))).
  rewrite map_map, children_keys.
  apply nodup_map_filter. apply NoDup_fst_map_to_list.
Qed.

Section CountDistros.

Variable ns0 : gmap (list string) FS.node.
Variable cwd0 : list string.
Variable storage : string.
Variable sk : list string.
Variable fuel : nat.

Hypothesis Hnames : plain_names ns0.
Hypothesis Hrooted : rooted ns0.
Hypothesis Hloc : FS.locate (FS.mk ns0 cwd0) (Path.of_str storage) = Some sk.
Hypothesis Hdir : FS.is_dir ns0 sk = true.
Hypothesis Hfuel : (size ns0 < fuel)%nat.

Lemma count_distro (name : string) (m : FS.meta) :
  ns0 !! (sk ++ [name])%list = Some (FS.Dir m) ->
  count_loop (FS.mk ns0 cwd0) fuel [Py_text.os_path_join storage name] 0 0
  = Some (files_under ns0 (sk ++ [name])%list, bytes_under ns0 (sk ++ [name])%list).
Proof.
  intros Hm.
  assert (Hplain : plain_segment name = true).
  { pose proof (Hnames _ _ Hm) as Hall. apply Forall_app in Hall as [_ Hall].
    inversion Hall; assumption. }
  assert (Hchild : FS.locate (FS.mk ns0 cwd0)
                     (Path.of_str (Py_text.os_path_join storage name))
                   = Some (sk ++ [name])%list)
    by (apply (locate_join (FS.mk ns0 cwd0)); assumption).
  assert (Hcdir : FS.is_dir ns0 (sk ++ [name])%list = true)
    by (unfold FS.is_dir; rewrite Hm; reflexivity).
  rewrite (count_loop_result ns0 cwd0 Hnames Hrooted).
  - unfold weight_waiting. cbn [map]. rewrite !list_sum_cons, Hchild.
    cbn [list_sum fold_right]. rewrite !Nat.add_0_r. reflexivity.
  - constructor; [|constructor]. exists (sk ++ [name])%list. auto.
  - unfold rounds_left. cbn [map]. rewrite list_sum_cons, Hchild, Hcdir.
    cbn [list_sum fold_right].
    pose proof (dirs_under_bound ns0 (sk ++ [name])%list). lia.
Qed.

Lemma count_distros_result (entries : list (string * FS.node)) :
  forall acc,
    (forall name n, In (name, n) entries -> ns0 !! (sk ++ [name])%list = Some n) ->
    NoDup (map fst entries) ->
    (forall name, In name (map fst entries) -> ~ In name (map fst (distro_stats acc))) ->
    count_distros (FS.mk ns0 cwd0) fuel storage entries acc
    = Some (mkFileStats
              (total_files acc
               + list_sum (map (fun e => ds_files (snd e))
                             (map (stat_of ns0 sk) (List.filter counted entries))))
              (total_size acc
               + list_sum (map (fun e => ds_size (snd e))
                             (map (stat_of ns0 sk) (List.filter counted entries))))
              (distro_stats acc ++ map (stat_of ns0 sk) (List.filter counted entries))).
Proof.
  induction entries as [|[name node] entries IH]; intros acc Hent Hnd Hfresh;
    cbn [count_distros].
  - cbn [List.filter map list_sum fold_right]. rewrite app_nil_r, !Nat.add_0_r.
    destruct acc; reflexivity.
  - cbn [map fst] in Hnd. apply NoDup_cons in Hnd as [Hname Hnd].
    assert (Hrest : forall name' n, In (name', n) entries ->
                                    ns0 !! (sk ++ [name'])%list = Some n)
      by (intros ? ? ?; apply Hent; right; assumption).
    change (is_dir_node node && negb (Py.startswith name "."))
      with (counted (name, node)).
    cbn [List.filter]. destruct (counted (name, node)) eqn:Hc.
    + destruct node as [m|content m]; [|discriminate Hc].
      rewrite (count_distro name m (Hent _ _ (or_introl eq_refl))).
      rewrite IH; [| exact Hrest | exact Hnd |].
      * cbn [total_files total_size distro_stats].
        rewrite dict_set_fresh by (apply Hfresh; left; reflexivity).
        rewrite !map_cons, !list_sum_cons, <- app_assoc.
        cbn [stat_of fst snd ds_files ds_size app].
        rewrite !Nat.add_assoc. reflexivity.
      * intros name' Hin. cbn [distro_stats].
        rewrite dict_set_fresh by (apply Hfresh; left; reflexivity).
        rewrite map_app. cbn [map fst]. intros Hin'.
        apply in_app_or in Hin' as [Hin' | [<- | []]].
        -- apply (Hfresh name'); [right; exact Hin | exact Hin'].
        -- apply Hname, list_elem_of_In, Hin.
    + apply IH; [exact Hrest | exact Hnd |].
      intros name' Hin. apply Hfresh. right. exact Hin.
Qed.

End CountDistros.

(** X27: the file statistics are exact.  In a tree of ordinary names where
    every node sits in a directory, with the storage path in the normalised
    form [load_config] stores and resolving to a directory,
    [update_file_stats] is done when every loop is given one round for
    every node of the tree plus one.  [distro_stats] then has one entry for
    each directory of the storage directory whose name does not start with
    a dot, and no other; the entry holds the number of regular files at any
    depth below that directory and the sum of their sizes; the totals are
    the sums of the entries.  Files that lie in the storage directory
    itself or below a hidden directory are counted nowhere. *)
Theorem update_file_stats_exact
    (CONFIG : gmap string value) (f : FS.t) (FILE_STATS : file_stats)
    (s : string) (sk : list string) :
  plain_names (FS.nodes f) ->
  rooted (FS.nodes f) ->
  get_config CONFIG "storage_path_resolved" VNone = VStr s ->
  Path.str (Path.of_str s) = s ->
  FS.locate f (Path.of_str s) = Some sk ->
  FS.is_dir (FS.nodes f) sk = true ->
  exists st,
    (forall fuel, (size (FS.nodes f) < fuel)%nat ->
                  update_file_stats CONFIG fuel f FILE_STATS = Some st) /\
    (forall name d,
        In (name, d) (distro_stats st) <->
        FS.is_dir (FS.nodes f) (sk ++ [name])%list = true /\
        Py.startswith name "." = false /\
        d = mkDistroStat (files_under (FS.nodes f) (sk ++ [name])%list)
                         (bytes_under (FS.nodes f) (sk ++ [name])%list)) /\
    NoDup (map fst (distro_stats st)) /\
    total_files st = list_sum (map (fun e => ds_files (snd e)) (distro_stats st)) /\
    total_size st = list_sum (map (fun e => ds_size (snd e)) (distro_stats st)).
Proof.
  destruct f as [ns0 cwd0]. cbn [FS.nodes].
  intros Hnames Hrooted Hcfg Hnorm Hloc Hdir.
  assert (Hs : String.eqb s "" = false).
  { destruct (String.eqb_spec s "") as [->|]; [|reflexivity].
    vm_compute in Hnorm. discriminate Hnorm. }
  set (entries := Os.children ns0 sk).
  set (new := map (stat_of ns0 sk) (List.filter counted entries)).
  exists (mkFileStats (list_sum (map (fun e => ds_files (snd e)) new))
            (list_sum (map (fun e => ds_size (snd e)) new)) new).
  cbn [total_files total_size distro_stats].
  split; [|split; [|split; [|split; reflexivity]]].
  - intros fuel Hfuel. unfold update_file_stats. rewrite Hcfg. cbn [truthy].
    rewrite Hs. cbn [negb]. rewrite Hnorm.
    destruct (is_dir_lookup _ _ Hdir) as [m Hm].
    unfold FS.exists_, FS.lookup, Os.scandir. rewrite Hloc. cbn [FS.nodes].
    rewrite Hm, Hdir.
    rewrite (count_distros_result ns0 cwd0 s sk fuel Hnames Hrooted Hloc Hdir Hfuel).
    + reflexivity.
    + intros name n Hin. apply children_spec, Hin.
    + apply children_all_names_nodup.
    + intros name _ [].
  - intros name d. unfold new. rewrite in_map_iff. split.
    + intros ([name' n] & [= <- <-] & Hin). apply filter_In in Hin as [Hin Hc].
      unfold counted in Hc. cbn [fst snd] in *.
      apply andb_true_iff in Hc as [Hd Hdot]. apply negb_true_iff in Hdot.
      destruct n as [m|c m]; [|discriminate Hd].
      apply children_spec in Hin. unfold FS.is_dir. rewrite Hin. auto.
    + intros (Hd & Hdot & ->). destruct (is_dir_lookup _ _ Hd) as [m Hm].
      exists (name, FS.Dir m). split; [reflexivity|].
      apply filter_In. split; [apply children_complete, Hm|].
      unfold counted. cbn [fst snd is_dir_node]. rewrite Hdot. reflexivity.
  - unfold new. rewrite map_map. cbn [stat_of fst].
    apply (nodup_map_filter fst counted entries), children_all_names_nodup.
Qed.

Lemma update_file_stats_exact_witness :
  exists st,
    StatsScenario.update 13 = Some st /\
    In ("debian", mkDistroStat 2 5) (distro_stats st) /\
    In ("ubuntu", mkDistroStat 1 6) (distro_stats st) /\
    (forall d, ~ In (".tmp", d) (distro_stats st)) /\
    total_files st = list_sum (map (fun e => ds_files (snd e)) (distro_stats st)).
Proof.
  assert (Hnames : plain_names (FS.nodes StatsScenario.tree)).
  { apply plain_names_decided. refine (bool_decide_unpack _ _). vm_compute. reflexivity. }
  assert (Hrooted : rooted (FS.nodes StatsScenario.tree)).
  { apply rooted_decided. refine (bool_decide_unpack _ _). vm_compute. reflexivity. }
  assert (Hcfg : get_config Scenario.CONFIG "storage_path_resolved" VNone
                 = VStr "/srv/storage") by (vm_compute; reflexivity).
  assert (Hnorm : Path.str (Path.of_str "/srv/storage") = "/srv/storage")
    by (vm_compute; reflexivity).
  assert (Hloc : FS.locate StatsScenario.tree (Path.of_str "/srv/storage")
                 = Some ["srv"; "storage"]) by (vm_compute; reflexivity).
  assert (Hdir : FS.is_dir (FS.nodes StatsScenario.tree) ["srv"; "storage"] = true)
    by (vm_compute; reflexivity).
  assert (Hsize : (size (FS.nodes StatsScenario.tree) < 13)%nat).
  { apply Nat.ltb_lt. vm_compute. reflexivity. }
  destruct (update_file_stats_exact Scenario.CONFIG StatsScenario.tree (mkFileStats 7 7 [])
              "/srv/storage" ["srv"; "storage"] Hnames Hrooted Hcfg Hnorm Hloc Hdir)
    as (st & Hrun & Hin & _ & Hfiles & _).
  exists st. split; [exact (Hrun 13%nat Hsize)|].
  split; [|split; [|split; [|exact Hfiles]]].
  - apply Hin. split; [vm_compute; reflexivity|]. split; vm_compute; reflexivity.
  - apply Hin. split; [vm_compute; reflexivity|]. split; vm_compute; reflexivity.
  - intros d Hd. apply Hin in Hd as (_ & Hdot & _). vm_compute in Hdot. discriminate Hdot.
Defined.

(** ** The cleanup and the validity check *)

Lemma is_cache_valid_same_node (CONFIG : gmap string value) (now : Z)
    (utcoffset : Z -> Z) (p : Path.t) (w w' : World) :
  FS.lookup (fs w') p = FS.lookup (fs w) p ->
  is_cache_valid CONFIG now utcoffset p w' = is_cache_valid CONFIG now utcoffset p w.
Proof.
  intros H. unfold is_cache_valid, FS.exists_, FS.stat. rewrite H. reflexivity.
Qed.

(** A file the validity check accepts is not an old file for the cleanup
    at the same reading of the clock, when local time has not been set
    back since the file was last accessed. *)
Lemma valid_not_expired (CONFIG : gmap string value) (now : Z) (utcoffset : Z -> Z)
    (p : Path.t) (w : World) (cutoff_time : Z) (sk k : list string) (n : FS.node) :
  truthy (get_config CONFIG "cache_retention_enabled" (VBool true)) = true ->
  cutoff_of now (get_config CONFIG "cache_days" (VInt 7)) = Some cutoff_time ->
  FS.lookup (fs w) p = Some n ->
  (forall st, FS.stat (fs w) p = Some st ->
              (utcoffset (last_access st) <= utcoffset now)%Z) ->
  is_cache_valid CONFIG now utcoffset p w = Some true ->
  ~ expired_file cutoff_time sk k n.
Proof.
  intros Hret Hcut Hn Hoff Hvalid (content & st & a & -> & Hat & Ha & _).
  assert (Hoffa : (utcoffset a <= utcoffset now)%Z).
  { specialize (Hoff st). unfold FS.stat in Hoff. rewrite Hn in Hoff.
    specialize (Hoff eq_refl). unfold last_access in Hoff. rewrite Hat in Hoff.
    exact Hoff. }
  revert Hvalid. unfold is_cache_valid, FS.exists_, FS.stat.
  rewrite Hn, Hret, Hat. cbn [negb].
  assert (Hdays : forall d,
             (if fits_float (d * 24 * 60 * 60)
              then Some (now - d * 24 * 60 * 60 * 1000000)%Z else None) = Some cutoff_time ->
             (if (Z.abs d <=? 999999999)%Z then Some (d * 86400000000)%Z else None)
             = None \/
             (now + utcoffset now - (a + utcoffset a) <? d * 86400000000)%Z = false).
  { intros d Hd. destruct (fits_float _); [|discriminate Hd]. injection Hd as <-.
    right. apply Z.ltb_ge. lia. }
  unfold cutoff_of in Hcut. unfold timedelta_days.
  destruct (get_config CONFIG "cache_days" (VInt 7)) as [|b|d|t]; try discriminate Hcut.
  - destruct (Hdays _ Hcut) as [-> | Hold]; [discriminate|].
    destruct (Z.abs _ <=? 999999999)%Z; [|discriminate]. rewrite Hold. discriminate.
  - destruct (Hdays _ Hcut) as [-> | Hold]; [discriminate|].
    destruct (Z.abs _ <=? 999999999)%Z; [|discriminate]. rewrite Hold. discriminate.
Qed.

(** What a completed cleanup has done to the tree. *)
Lemma clean_old_cache_cleaning
    (error_text : value -> string) (CONFIG : gmap string value) (now : Z) (fuel : nat)
    (w w' : World) (s : string) :
  plain_names (FS.nodes (fs w)) ->
  get_config CONFIG "storage_path_resolved" VNone = VStr s ->
  Path.str (Path.of_str s) = s ->
  clean_old_cache error_text CONFIG now fuel w = Some w' ->
  fs w' = fs w \/
  (truthy (get_config CONFIG "cache_retention_enabled" (VBool true)) = true /\
   exists cutoff_time sk,
     cutoff_of now (get_config CONFIG "cache_days" (VInt 7)) = Some cutoff_time /\
     cleaning cutoff_time (FS.nodes (fs w)) (FS.cwd (fs w)) sk (fs w')).
Proof.
  intros Hnames Hcfg Hnorm. unfold clean_old_cache.
  destruct (truthy (get_config CONFIG "cache_retention_enabled" (VBool true))) eqn:Hret;
    cbn [negb]; [|intros [= <-]; left; reflexivity].
  rewrite Hcfg. destruct (negb (truthy (VStr s))); [intros [= <-]; left; reflexivity|].
  destruct (cutoff_of now (get_config CONFIG "cache_days" (VInt 7))) as [cutoff_time|]
    eqn:Hcut; [|intros [= <-]; left; reflexivity].
  rewrite Hnorm.
  destruct (scan_loop cutoff_time fuel [s] (fs w) 0) as [[f' count]|] eqn:Hloop;
    [|discriminate].
  intros Hw'.
  assert (Hfs : fs w' = f').
  { destruct (0 <? count)%nat; injection Hw' as <-; reflexivity. }
  rewrite Hfs. clear Hw' Hfs.
  destruct (FS.locate (fs w) (Path.of_str s)) as [sk|] eqn:Hloc.
  - right. split; [reflexivity|]. exists cutoff_time, sk. split; [reflexivity|].
    assert (Hstart : cleaning cutoff_time (FS.nodes (fs w)) (FS.cwd (fs w)) sk (fs w)).
    { split; [reflexivity|]. split; [reflexivity|]. split; [auto|].
      intros k n H1 H2. congruence. }
    assert (Hstack : waiting (FS.nodes (fs w)) (FS.cwd (fs w)) sk [s]).
    { constructor; [|constructor]. exists sk. split; [|reflexivity].
      destruct (fs w); exact Hloc. }
    exact (scan_loop_safe cutoff_time _ _ sk Hnames fuel _ _ _ _ _ Hstart Hstack Hloop).
  - left. destruct fuel as [|fuel]; [discriminate Hloop|].
    cbn [scan_loop] in Hloop. unfold scan_round, Os.scandir in Hloop.
    cbn [List.last removelast] in Hloop. rewrite Hloc in Hloop.
    cbn [scan_loop] in Hloop.
    destruct fuel; injection Hloop as <- _; reflexivity.
Qed.

(** X28: the cleanup spares what is still served.  When local time has
    not been set back since the file was last accessed (its offset from UTC
    is now at least what it was then), a path for which [is_cache_valid]
    answers [True] names the same node after a cleanup at the same reading
    of the clock, and [is_cache_valid] still answers [True] for it:
    [clean_old_cache] then removes no file that a request would have been
    served from. *)
Theorem clean_old_cache_spares_valid
    (error_text : value -> string) (CONFIG : gmap string value) (now : Z)
    (utcoffset : Z -> Z) (fuel : nat) (w w' : World) (s : string) (p : Path.t) :
  plain_names (FS.nodes (fs w)) ->
  get_config CONFIG "storage_path_resolved" VNone = VStr s ->
  Path.str (Path.of_str s) = s ->
  clean_old_cache error_text CONFIG now fuel w = Some w' ->
  (forall st, FS.stat (fs w) p = Some st ->
              (utcoffset (last_access st) <= utcoffset now)%Z) ->
  is_cache_valid CONFIG now utcoffset p w = Some true ->
  FS.lookup (fs w') p = FS.lookup (fs w) p /\
  is_cache_valid CONFIG now utcoffset p w' = Some true.
Proof.
  intros Hnames Hcfg Hnorm Hclean Hoff Hvalid.
  assert (Hsame : FS.lookup (fs w') p = FS.lookup (fs w) p).
  { destruct (clean_old_cache_cleaning _ _ _ _ _ _ _ Hnames Hcfg Hnorm Hclean)
      as [-> | (Hret & cutoff_time & sk & Hcut & Hcwd & Hdirs & Hkept & Hgone)];
      [reflexivity|].
    unfold FS.lookup.
    rewrite (locate_same_dirs (fs w) (fs w') p) by assumption.
    destruct (FS.locate (fs w) p) as [k|] eqn:Hloc; [|reflexivity].
    destruct (FS.nodes (fs w) !! k) as [n|] eqn:Hk.
    - destruct (FS.nodes (fs w') !! k) as [n'|] eqn:Hk'.
      + rewrite (Hkept _ _ Hk') in Hk. exact Hk.
      + exfalso.
        apply (valid_not_expired CONFIG now utcoffset p w cutoff_time sk k n Hret Hcut);
          auto.
        unfold FS.lookup. rewrite Hloc. exact Hk.
    - destruct (FS.nodes (fs w') !! k) as [n'|] eqn:Hk'; [|reflexivity].
      rewrite (Hkept _ _ Hk') in Hk. discriminate Hk. }
  split; [exact Hsame|].
  rewrite (is_cache_valid_same_node CONFIG now utcoffset p w w' Hsame). exact Hvalid.
Qed.

Lemma clean_old_cache_spares_valid_witness :
  exists w',
    CleanupScenario.clean 3 = Some w' /\
    is_cache_valid Scenario.CONFIG CleanupScenario.now Scenario.utc
      (Path.of_str "/srv/storage/debian/used.deb") w' = Some true.
Proof.
  assert (Hnames : plain_names (FS.nodes (fs CleanupScenario.world))).
  { apply plain_names_decided. refine (bool_decide_unpack _ _). vm_compute. reflexivity. }
  assert (Hcfg : get_config Scenario.CONFIG "storage_path_resolved" VNone
                 = VStr "/srv/storage") by (vm_compute; reflexivity).
  assert (Hnorm : Path.str (Path.of_str "/srv/storage") = "/srv/storage")
    by (vm_compute; reflexivity).
  assert (Hvalid : is_cache_valid Scenario.CONFIG CleanupScenario.now Scenario.utc
                     (Path.of_str "/srv/storage/debian/used.deb") CleanupScenario.world
                   = Some true) by (vm_compute; reflexivity).
  destruct (CleanupScenario.clean 3) as [w'|] eqn:E.
  - exists w'. split; [reflexivity|].
    exact (proj2 (clean_old_cache_spares_valid CleanupScenario.error_text Scenario.CONFIG
                    CleanupScenario.now Scenario.utc 3 CleanupScenario.world w'
                    "/srv/storage" (Path.of_str "/srv/storage/debian/used.deb")
                    Hnames Hcfg Hnorm E (fun _ _ => Z.le_refl 0) Hvalid)).
  - exfalso.
    assert (H : match CleanupScenario.clean 3 with
                | Some _ => true
                | None => false
                end = true) by (vm_compute; reflexivity).
    rewrite E in H. discriminate H.
Defined.

(** ** [load_config]: the storage path it leaves *)

(** *** The text of a path, read again *)

Lemma part_ok_lead (x : string) :
  part_ok x = true -> exists c r, x = String c r /\ c <> "/"%char.
Proof.
  unfold part_ok, Path.keep_part. intros H.
  apply andb_true_iff in H as [H Hsl]. apply andb_true_iff in H as [Hne _].
  apply negb_true_iff in Hsl, Hne.
  destruct x as [|c r]; [discriminate Hne|].
  exists c, r. split; [reflexivity|]. intros ->. discriminate Hsl.
Qed.

Lemma parts_of_part (x : string) : part_ok x = true -> parts_of x = [x].
Proof.
  unfold part_ok. intros H. apply andb_true_iff in H as [Hkeep Hsl].
  apply negb_true_iff in Hsl.
  unfold parts_of, Py.split. rewrite (split_acc_no_sep _ _ _ Hsl).
  change ("" ++ x) with x. cbn [List.filter]. rewrite Hkeep. reflexivity.
Qed.

Lemma join_lead (x : string) (ps : list string) :
  part_ok x = true ->
  exists c r, Py.join "/" (x :: ps) = String c r /\ c <> "/"%char.
Proof.
  intros Hx. destruct (part_ok_lead _ Hx) as (c & r & -> & Hc).
  destruct ps as [|y ps].
  - exists c, r. auto.
  - exists c, (r ++ "/" ++ Py.join "/" (y :: ps)). split; [|exact Hc].
    change (Py.join "/" (String c r :: y :: ps))
      with (String c r ++ "/" ++ Py.join "/" (y :: ps)).
    apply append_cons.
Qed.

Lemma parts_of_join (ps : list string) :
  Forall (fun x => part_ok x = true) ps -> parts_of (Py.join "/" ps) = ps.
Proof.
  induction 1 as [|x ps Hx Hps IH]; [reflexivity|].
  destruct ps as [|y ps]; [apply parts_of_part, Hx|].
  change (Py.join "/" (x :: y :: ps)) with (x ++ "/" ++ Py.join "/" (y :: ps)).
  rewrite parts_of_app, (parts_of_part _ Hx), IH. reflexivity.
Qed.

Lemma lstrip_join (ps : list string) :
  Forall (fun x => part_ok x = true) ps ->
  Py_path.lstrip_slash (Py.join "/" ps) = Py.join "/" ps.
Proof.
  intros Hps. destruct Hps as [|x ps Hx Hps]; [reflexivity|].
  destruct (join_lead x ps Hx) as (c & r & -> & Hc).
  apply lstrip_slash_other, Hc.
Qed.

Lemma of_str_str (p : Path.t) : parsed p -> Path.of_str (Path.str p) = p.
Proof.
  destruct p as [r ps]. intros [Hroot Hps]. cbn [Path.root Path.parts] in *.
  rewrite of_str_parts_of.
  destruct Hroot as [-> | [-> | ->]].
  - destruct ps as [|x ps]; [reflexivity|].
    unfold Path.str. cbn [Path.root Path.parts].
    change ("" ++ Py.join "/" (x :: ps)) with (Py.join "/" (x :: ps)).
    inversion Hps as [|? ? Hx Hrest]; subst.
    destruct (join_lead x ps Hx) as (c & t & Hj & Hc).
    rewrite Hj, (splitroot_other _ _ Hc). cbn [fst snd]. rewrite <- Hj.
    rewrite (parts_of_join _ Hps). reflexivity.
  - change (Path.str (Path.mk "/" ps)) with ("/" ++ Py.join "/" ps).
    change ("/" ++ Py.join "/" ps) with (String "/" (Py.join "/" ps)).
    rewrite splitroot_slash, (lstrip_join _ Hps). cbn [fst snd].
    rewrite (parts_of_join _ Hps).
    replace (S (String.length (Py.join "/" ps)) - String.length (Py.join "/" ps))%nat
      with 1%nat by lia.
    reflexivity.
  - change (Path.str (Path.mk "//" ps)) with ("//" ++ Py.join "/" ps).
    change ("//" ++ Py.join "/" ps) with (String "/" (String "/" (Py.join "/" ps))).
    rewrite splitroot_slash.
    change (Py_path.lstrip_slash (String "/" (Py.join "/" ps)))
      with (Py_path.lstrip_slash (Py.join "/" ps)).
    rewrite (lstrip_join _ Hps). cbn [fst snd String.length].
    rewrite (parts_of_join _ Hps).
    replace (S (S (String.length (Py.join "/" ps))) - String.length (Py.join "/" ps))%nat
      with 2%nat by lia.
    reflexivity.
Qed.

Lemma split_acc_fields (sep : ascii) (s : string) :
  forall cur,
    Py.has_char sep cur = false ->
    Forall (fun x => Py.has_char sep x = false) (Py.split_acc sep cur s).
Proof.
  induction s as [|c s IH]; intros cur Hcur; cbn [Py.split_acc].
  - constructor; [exact Hcur | constructor].
  - destruct (Ascii.eqb c sep) eqn:Hc.
    + constructor; [exact Hcur | apply IH; reflexivity].
    + apply IH. rewrite has_char_app, Hcur. cbn [Py.has_char orb].
      rewrite Ascii.eqb_sym, Hc. reflexivity.
Qed.

Lemma of_str_parsed (s : string) : parsed (Path.of_str s).
Proof.
  rewrite of_str_parts_of. split; cbn [Path.root Path.parts].
  - destruct s as [|c s]; [left; reflexivity|].
    destruct (Ascii.eqb_spec c "/") as [->|Hc].
    + rewrite splitroot_slash. cbn [fst]. destruct (_ =? 2)%nat; auto.
    + rewrite (splitroot_other _ _ Hc). left. reflexivity.
  - apply Forall_forall. intros x Hx. apply list_elem_of_In in Hx.
    unfold parts_of in Hx. apply filter_In in Hx as [Hx Hkeep].
    unfold part_ok. rewrite Hkeep. cbn [andb]. apply negb_true_iff.
    pose proof (split_acc_fields "/" (snd (Path.splitroot s)) "" eq_refl) as Hall.
    apply (proj1 (List.Forall_forall _ _) Hall). exact Hx.
Qed.

Lemma div_parsed (p : Path.t) (s : string) : parsed p -> parsed (p // s).
Proof.
  intros [Hroot Hps]. unfold Path.div.
  destruct (String.eqb (Path.root (Path.of_str s)) ""); [|apply of_str_parsed].
  split; [exact Hroot|]. cbn [Path.parts].
  apply Forall_app. split; [exact Hps | apply (of_str_parsed s)].
Qed.

Lemma of_str_root (s : string) :
  Path.root (Path.of_str s) = "" <-> Py.startswith s "/" = false.
Proof.
  rewrite of_str_parts_of. cbn [Path.root].
  destruct s as [|c s]; [split; reflexivity|].
  destruct (Ascii.eqb_spec c "/") as [->|Hc].
  - rewrite splitroot_slash. cbn [fst Py.startswith].
    rewrite Ascii.eqb_refl, startswith_empty.
    destruct (_ =? 2)%nat; split; discriminate.
  - rewrite (splitroot_other _ _ Hc). cbn [fst Py.startswith].
    apply Ascii.eqb_neq in Hc. rewrite Ascii.eqb_sym, Hc. split; reflexivity.
Qed.

(** *** The directory [mkdir] leaves *)

Lemma mkdir_walk_dir (now : Z) (comps : list string) :
  forall ns cur ns',
    FS.mkdir_walk now ns cur comps = Some ns' ->
    (forall a, a `prefix_of` cur -> FS.is_dir ns a = true) ->
    exists k, FS.walk ns' cur comps = Some k /\ FS.is_dir ns' k = true.
Proof.
  induction comps as [|c comps IH]; intros ns cur ns' Hw Habove.
  - cbn [FS.mkdir_walk FS.walk] in *.
    injection Hw as <-. exists cur. split; [reflexivity|]. apply Habove. reflexivity.
  - assert (Hcur : FS.is_dir ns' cur = true).
    { destruct (is_dir_lookup _ _ (Habove cur ltac:(reflexivity))) as [m Hm].
      unfold FS.is_dir. rewrite (mkdir_walk_keeps _ _ _ _ _ Hw _ _ Hm). reflexivity. }
    cbn [FS.mkdir_walk FS.walk] in *.
    rewrite Hcur. destruct (String.eqb c "..").
    + apply (IH _ _ _ Hw). intros a Ha. apply Habove.
      destruct cur as [|x cur] using rev_ind; [exact Ha|].
      rewrite removelast_last in Ha. apply prefix_app_r, Ha.
    + assert (Hstep : forall ns1,
                 (forall k n, ns !! k = Some n -> ns1 !! k = Some n) ->
                 FS.is_dir ns1 (cur ++ [c])%list = true ->
                 forall a, a `prefix_of` (cur ++ [c])%list -> FS.is_dir ns1 a = true).
      { intros ns1 Hkeep Hnew a Ha.
        destruct (decide (a = (cur ++ [c])%list)) as [->|Hne]; [exact Hnew|].
        pose proof (prefix_removelast _ _ Ha Hne) as Ha'.
        rewrite removelast_last in Ha'.
        destruct (is_dir_lookup _ _ (Habove a Ha')) as [m Hm].
        unfold FS.is_dir. rewrite (Hkeep _ _ Hm). reflexivity. }
      destruct (ns !! (cur ++ [c])%list) as [[m|c' m]|] eqn:Hk; [|discriminate Hw|].
      * apply (IH _ _ _ Hw). apply (Hstep ns); [auto|].
        unfold FS.is_dir. rewrite Hk. reflexivity.
      * apply (IH _ _ _ Hw). apply Hstep.
        -- intros k n Hn. rewrite lookup_insert_ne; [exact Hn | congruence].
        -- unfold FS.is_dir. rewrite lookup_insert_eq. reflexivity.
Qed.

Section ConfigStorage.

Variable BASE_DIR : Path.t.
Variable is_docker : bool.
Variable json_load : string -> option (gmap string value).
Variable json_dump : gmap string value -> string.
Variable set_level : value -> bool.
Variable now : Z.
Variable disk : write_outcome.

Local Abbreviation load :=
  (Config.load_config BASE_DIR is_docker json_load json_dump set_level now disk).

Lemma load_config_storage (st st' : Config.state) :
  load st = (st', true) ->
  exists f2 sp,
    FS.mkdir_p now f2 (if Py.startswith sp "/" then Path.of_str sp else BASE_DIR // sp)
    = Some (Config.files st') /\
    Config.CONFIG st' !! "storage_path_resolved"
    = Some (VStr (Path.str (if Py.startswith sp "/" then Path.of_str sp
                            else BASE_DIR // sp))).
Proof.
  unfold Config.load_config.
  destruct (Config.get_config_path BASE_DIR now (Config.files st)) as [[f1 cp]|];
    [|discriminate].
  destruct (if negb (FS.exists_ f1 cp) then _ else _) as [f2 [new_config|]];
    [|discriminate].
  destruct (get_config _ "storage_path" (VStr "storage")) as [| | |sp]; try discriminate.
  destruct (FS.mkdir_p now f2 _) as [f3|] eqn:Hmk; [|discriminate].
  destruct (set_level _); [|discriminate].
  intros [= <-]. cbn [Config.CONFIG Config.files].
  exists f2, sp. split; [exact Hmk | apply lookup_insert_eq].
Qed.

(** X29: [load_config] leaves the storage directory in place under the
    path it stores.  With [BASE_DIR] an absolute path as [Path] makes
    them, after [load_config] has returned [True] the text under
    [storage_path_resolved] is one that [Path] reads and writes back
    unchanged, and it names a directory that exists: what
    [get_cache_path], [clean_old_cache] and [update_file_stats] start
    from. *)
Theorem load_config_storage_ready (st st' : Config.state) :
  Path.of_str (Path.str BASE_DIR) = BASE_DIR ->
  Path.root BASE_DIR <> "" ->
  load st = (st', true) ->
  exists s k,
    Config.CONFIG st' !! "storage_path_resolved" = Some (VStr s) /\
    Path.str (Path.of_str s) = s /\
    FS.locate (Config.files st') (Path.of_str s) = Some k /\
    FS.is_dir (FS.nodes (Config.files st')) k = true.
Proof.
  intros Hbase Habs Hload.
  destruct (load_config_storage st st' Hload) as (f2 & sp & Hmk & Hcfg).
  set (storage_path := if Py.startswith sp "/" then Path.of_str sp else BASE_DIR // sp)
    in *.
  assert (Hparsed : parsed storage_path).
  { subst storage_path. destruct (Py.startswith sp "/"); [apply of_str_parsed|].
    apply div_parsed. rewrite <- Hbase. apply of_str_parsed. }
  assert (Hroot : String.eqb (Path.root storage_path) "" = false).
  { apply String.eqb_neq. subst storage_path.
    destruct (Py.startswith sp "/") eqn:Hsp.
    - intros H. apply of_str_root in H. congruence.
    - unfold Path.div. rewrite (proj2 (of_str_root sp) Hsp). cbn [String.eqb Path.root].
      exact Habs. }
  pose proof (of_str_str _ Hparsed) as Hround.
  revert Hmk. unfold FS.mkdir_p, FS.start. rewrite Hroot.
  destruct (FS.is_dir (FS.nodes f2) []) eqn:Htop; [|discriminate].
  destruct (FS.mkdir_walk now (FS.nodes f2) [] (Path.parts storage_path)) as [ns'|] eqn:Hw;
    [|discriminate].
  intros [= Hfiles].
  destruct (mkdir_walk_dir _ _ _ _ _ Hw) as (k & Hk & Hdir).
  { intros a [t Ht]. symmetry in Ht. apply app_eq_nil in Ht as [-> _]. exact Htop. }
  exists (Path.str storage_path), k. rewrite Hround, <- Hfiles.
  split; [exact Hcfg|]. split; [reflexivity|].
  unfold FS.locate, FS.start. rewrite Hroot. cbn [FS.nodes]. auto.
Qed.

End ConfigStorage.

Lemma load_config_storage_ready_witness :
  exists st' k,
    ConfigScenario.load ConfigScenario.st0 = (st', true) /\
    Config.CONFIG st' !! "storage_path_resolved" = Some (VStr "/app/storage") /\
    FS.locate (Config.files st') (Path.of_str "/app/storage") = Some k /\
    FS.is_dir (FS.nodes (Config.files st')) k = true.
Proof.
  destruct (ConfigScenario.load ConfigScenario.st0) as [st' ok] eqn:E.
  assert (Hok : snd (ConfigScenario.load ConfigScenario.st0) = true)
    by (vm_compute; reflexivity).
  assert (Hs : Config.CONFIG (fst (ConfigScenario.load ConfigScenario.st0))
                 !! "storage_path_resolved" = Some (VStr "/app/storage"))
    by (vm_compute; reflexivity).
  rewrite E in Hok, Hs. cbn [fst snd] in Hok, Hs. subst ok.
  assert (Hbase : Path.of_str (Path.str (Path.of_str "/app")) = Path.of_str "/app")
    by (vm_compute; reflexivity).
  assert (Habs : Path.root (Path.of_str "/app") <> "") by (vm_compute; discriminate).
  destruct (load_config_storage_ready (Path.of_str "/app") false
              ConfigScenario.json_load ConfigScenario.json_dump
              ConfigScenario.set_level 5 WriteDone ConfigScenario.st0 st' Hbase Habs E)
    as (s & k & Hcfg & _ & Hloc & Hdir).
  rewrite Hs in Hcfg. injection Hcfg as <-.
  exists st', k. auto.
Defined.
